(** * The workflow data store of cylc-flow: [cylc/flow/data_store_mgr.py]

    A shallow embedding of the data store manager and of the functions that
    apply deltas to a store, followed by the properties the specification
    states about them.

    Conventions of the embedding.
    - A Python [str] is a [string]; the characters are the bytes of its UTF-8
      encoding, whose byte-wise order agrees with the code point order that
      Python compares strings by.
    - A Python [dict] with string keys is a [gmap string _], a [set] is a
      [gset]; a property that depends on the iteration order of a dict
      says so.
    - Methods that mutate the manager run in a state-and-exception monad:
      an exception leaves the mutations made before it in place, as in
      Python.
    - [self.data] holds one store, the one of [self.workflow_id]; the field
      [data] of the manager is that store. *)

From Stdlib Require Import ZArith Lia.
From stdpp Require Import base option list gmap strings sorting fin_maps pretty.

Local Open Scope Z_scope.

Set Warnings "-clear-no-such-hyp".

(** ** Python effects: exceptions over a mutable state *)

Module Py.

Inductive exn : Type :=
| KeyError (key : string)
| AttributeError (attr : string)
| TypeError
| ValueError
| IndexError
| RecursionError.

(** A computation over a mutable state [St]: the outcome, and the state it
    leaves behind (also when it raises). *)
Definition M (St A : Type) : Type := St → (exn + A) * St.

Definition ret {St A} (a : A) : M St A := λ s, (inr a, s).

Definition raise {St A} (e : exn) : M St A := λ s, (inl e, s).

Definition bind {St A B} (m : M St A) (k : A → M St B) : M St B :=
  λ s, match m s with
       | (inr a, s') => k a s'
       | (inl e, s') => (inl e, s')
       end.

Definition get {St} : M St St := λ s, (inr s, s).

Definition gets {St A} (f : St → A) : M St A := λ s, (inr (f s), s).

Definition modify {St} (f : St → St) : M St unit := λ s, (inr tt, f s).

(** [try: body except KeyError as exc: handler(exc)] *)
Definition try_except_KeyError {St A} (body : M St A) (handler : string → M St A)
  : M St A :=
  λ s, match body s with
       | (inl (KeyError k), s') => handler k s'
       | r => r
       end.

(** [for x in l: body(x)]; a [continue] is the normal end of [body]. *)
Fixpoint for_ {St A} (l : list A) (body : A → M St unit) : M St unit :=
  match l with
  | [] => ret tt
  | x :: rest => bind (body x) (λ _, for_ rest body)
  end.

(** [d[k]] on a dict. *)
Definition subscript {St V} (d : gmap string V) (k : string) : M St V :=
  match d !! k with
  | Some v => ret v
  | None => raise (KeyError k)
  end.

(** [l.remove(x)]: drops the first occurrence, [ValueError] when there is none. *)
Fixpoint list_remove (x : string) (l : list string) : option (list string) :=
  match l with
  | [] => None
  | y :: rest =>
      if decide (x = y) then Some rest
      else match list_remove x rest with
           | Some rest' => Some (y :: rest')
           | None => None
           end
  end.

End Py.

Import Py.

#[global] Instance M_ret {St} : MRet (M St) := λ A, @ret St A.
#[global] Instance M_bind {St} : MBind (M St) := λ A B k m, @bind St A B m k.

(** ** Protobuf messages

    Modelled from the spec: the generated module [data_messages_pb2] is not
    part of the sources, so a message is the finite map of the fields that
    are set in it.  A singular field has presence: once assigned it is set,
    also when the value is the default of its type (scenario S5 of the
    specification: a delta with [is_held = false] and [is_held_total = 0]
    brings a stored family proxy back to these values).  A repeated field or
    a map field is set exactly when it is not empty, and an embedded message
    is flattened into dotted field names ([edges.edges]).  Merging follows
    the comment above [CLEAR_FIELD_MAP]: repeated fields are appended,
    singular fields overwritten; a map field is updated entry by entry. *)

Module Pb.

Inductive fval : Type :=
| FStr (s : string)
| FNum (z : Z)
| FBool (b : bool)
| FRep (items : list string)
| FMap (entries : gmap string Z).

Abbreviation Msg := (gmap string fval).

(** The values that leave a field unset: an empty repeated field, an empty
    map. *)
Definition is_empty_collection (v : fval) : bool :=
  match v with
  | FRep l => bool_decide (l = [])
  | FMap m => bool_decide (m = ∅)
  | _ => false
  end.

(** [msg.ListFields()]: the fields that are set, with their values. *)
Definition ListFields (m : Msg) : list (string * fval) := map_to_list m.

(** [msg.ClearField(name)] *)
Definition ClearField (name : string) (m : Msg) : Msg := delete name m.

(** Assignment of a field.  A singular field is set from then on, whatever
    the value; a repeated or map field left empty is not set. *)
Definition set_field (name : string) (v : fval) (m : Msg) : Msg :=
  if is_empty_collection v then delete name m else <[name := v]> m.

Definition get_str (name : string) (m : Msg) : string :=
  match m !! name with Some (FStr s) => s | _ => "" end.

Definition get_num (name : string) (m : Msg) : Z :=
  match m !! name with Some (FNum z) => z | _ => 0 end.

Definition get_bool (name : string) (m : Msg) : bool :=
  match m !! name with Some (FBool b) => b | _ => false end.

Definition get_rep (name : string) (m : Msg) : list string :=
  match m !! name with Some (FRep l) => l | _ => [] end.

Definition get_map (name : string) (m : Msg) : gmap string Z :=
  match m !! name with Some (FMap e) => e | _ => ∅ end.

(** How one field of the receiver absorbs the same field of the argument. *)
Definition merge_field (dst src : fval) : fval :=
  match dst, src with
  | FRep a, FRep b => FRep (a ++ b)
  | FMap a, FMap b => FMap (b ∪ a)
  | _, _ => src
  end.

(** [dst.MergeFrom(src)] *)
Definition MergeFrom (dst src : Msg) : Msg :=
  union_with (λ d s, Some (merge_field d s)) dst src.

(** [repeated.append(x)] and [repeated.extend(xs)] on a field of a message. *)
Definition rep_extend (name : string) (xs : list string) (m : Msg) : Msg :=
  set_field name (FRep (get_rep name m ++ xs)) m.

Definition rep_append (name : string) (x : string) (m : Msg) : Msg :=
  rep_extend name [x] m.

End Pb.

Import Pb.

(** ** Module constants *)

Definition EDGES : string := "edges".
Definition FAMILIES : string := "families".
Definition FAMILY_PROXIES : string := "family_proxies".
Definition JOBS : string := "jobs".
Definition TASKS : string := "tasks".
Definition TASK_PROXIES : string := "task_proxies".
Definition WORKFLOW : string := "workflow".
Definition ALL_DELTAS : string := "all".

(** What a store keeps under a kind: a dict of messages by id, or (for the
    workflow) one message. *)
Inductive slot : Type :=
| Dict (d : gmap string Msg)
| Message (m : Msg).

Abbreviation Store := (gmap string slot).

Definition DATA_TEMPLATE : Store :=
  list_to_map
    [ (EDGES, Dict ∅); (FAMILIES, Dict ∅); (FAMILY_PROXIES, Dict ∅);
      (JOBS, Dict ∅); (TASKS, Dict ∅); (TASK_PROXIES, Dict ∅);
      (WORKFLOW, Message ∅) ].

Definition CLEAR_FIELD_MAP : gmap string (gset string) :=
  list_to_map
    [ (EDGES, ∅); (FAMILIES, ∅);
      (FAMILY_PROXIES, {["state_totals"; "states"]});
      (JOBS, ∅); (TASKS, ∅);
      (TASK_PROXIES, {["prerequisites"; "outputs"]});
      (WORKFLOW, {["state_totals"; "states"]}) ].

(** ** Delta messages

    Modelled from the spec: the delta messages ([EDeltas], ..., [WDeltas])
    are declared in [data_messages_pb2].  [added] and [updated] are repeated
    entities for a collection kind and one embedded workflow message, with
    presence, for [WDeltas]. *)

Inductive payload : Type :=
| Rep (entities : list Msg)
| Sub (msg : option Msg).

Record Deltas : Type := mkDeltas {
  d_time : Z;
  d_checksum : Z;
  d_added : payload;
  d_updated : payload;
  d_pruned : list string;
  d_reloaded : bool
}.

Definition payload_truthy (p : payload) : bool :=
  match p with
  | Rep l => negb (bool_decide (l = []))
  | Sub _ => true
  end.

Definition payload_is_set (p : payload) : bool :=
  match p with
  | Rep l => negb (bool_decide (l = []))
  | Sub o => bool_decide (is_Some o)
  end.

(** [bool(delta.ListFields())] *)
Definition delta_has_fields (d : Deltas) : bool :=
  negb (bool_decide (d_time d = 0)) || negb (bool_decide (d_checksum d = 0))
  || payload_is_set (d_added d) || payload_is_set (d_updated d)
  || negb (bool_decide (d_pruned d = [])) || d_reloaded d.

Definition sub_msg (o : option Msg) : Msg := default ∅ o.

(** ** [apply_delta]

    The function works on a store [data] and writes to the module logger;
    both are its state. *)

Record log_record : Type := mkLog {
  log_level : string;
  log_text : string;
  log_arg : string
}.

Record Env : Type := mkEnv {
  env_data : Store;
  env_log : list log_record
}.

Definition LOG_debug (text arg : string) : M Env unit :=
  modify (λ e, mkEnv (env_data e) (env_log e ++ [mkLog "DEBUG" text arg])).

Definition missing_element_text : string :=
  "Missing Data-Store element on update application: ".

(** [data[key]] *)
Definition data_at (key : string) : M Env slot :=
  e ← get; subscript (env_data e) key.

(** The dict behind [data[key][...]] or [... in data[key]]; a message is
    neither subscriptable nor iterable. *)
Definition as_dict {St} (s : slot) : M St (gmap string Msg) :=
  match s with
  | Dict d => ret d
  | Message _ => raise TypeError
  end.

(** The message behind [data[key].<method>(...)]; a dict has no such method. *)
Definition as_message {St} (method : string) (s : slot) : M St Msg :=
  match s with
  | Message m => ret m
  | Dict _ => raise (AttributeError method)
  end.

(** [data[key][id]] *)
Definition data_elem (key id : string) : M Env Msg :=
  s ← data_at key; d ← as_dict s; subscript d id.

Definition slot_alter (id : string) (f : Msg → Msg) (s : slot) : slot :=
  match s with
  | Dict d => Dict (alter f id d)
  | Message m => Message m
  end.

(** A mutating method called on the object [data[key][id]]. *)
Definition mutate_elem (key id : string) (f : Msg → Msg) : M Env unit :=
  _ ← data_elem key id;
  modify (λ e, mkEnv (alter (slot_alter id f) key (env_data e)) (env_log e)).

Definition set_slot (key : string) (s : slot) : M Env unit :=
  modify (λ e, mkEnv (<[key := s]> (env_data e)) (env_log e)).

(** A mutating method called on the message [data[key]]. *)
Definition mutate_message (method key : string) (f : Msg → Msg) : M Env unit :=
  s ← data_at key; m ← as_message method s; set_slot key (Message (f m)).

(** [data[key].update({e.id: e for e in added})] *)
Definition dict_update_by_id (d : gmap string Msg) (added : list Msg)
  : gmap string Msg :=
  foldl (λ acc e, <[get_str "id" e := e]> acc) d added.

Definition apply_added (key : string) (delta : Deltas) : M Env unit :=
  if payload_truthy (d_added delta) then
    if decide (key ≠ WORKFLOW) then
      s ← data_at key;
      match s with
      | Message _ => raise (AttributeError "update")
      | Dict d =>
          match d_added delta with
          | Rep l => set_slot key (Dict (dict_update_by_id d l))
          | Sub _ => raise TypeError
          end
      end
    else
      match d_added delta with
      | Rep _ => raise (AttributeError "ListFields")
      | Sub o =>
          if bool_decide (ListFields (sub_msg o) = []) then mret tt
          else mutate_message "CopyFrom" key (λ _, sub_msg o)
      end
  else mret tt.

(** The body of the [try] for one element of [delta.updated]. *)
Definition merge_updated_element (key : string) (element : Msg) : M Env unit :=
  clear ← subscript CLEAR_FIELD_MAP key;
  (if decide (clear ≠ ∅) then
     for_ (ListFields element) (λ fv,
       if decide (fv.1 ∈ clear)
       then mutate_elem key (get_str "id" element) (ClearField fv.1)
       else mret tt)
   else mret tt);;
  mutate_elem key (get_str "id" element) (λ stored, MergeFrom stored element).

Definition apply_updated_element (key : string) (element : Msg) : M Env unit :=
  try_except_KeyError
    (merge_updated_element key element)
    (λ exc, LOG_debug missing_element_text exc).

Definition apply_updated (key : string) (delta : Deltas) : M Env unit :=
  if payload_truthy (d_updated delta) then
    if decide (key = WORKFLOW) then
      match d_updated delta with
      | Rep _ => raise (AttributeError "ListFields")
      | Sub o =>
          let field_set := (ListFields (sub_msg o)).*1 in
          clear ← subscript CLEAR_FIELD_MAP key;
          for_ (elements clear) (λ field,
            if decide (field ∈ field_set)
            then mutate_message "ClearField" key (ClearField field)
            else mret tt);;
          mutate_message "MergeFrom" key (λ stored, MergeFrom stored (sub_msg o))
      end
    else
      match d_updated delta with
      | Rep l => for_ l (apply_updated_element key)
      | Sub _ => raise TypeError
      end
  else mret tt.

(** [getattr(data[WORKFLOW], key)....remove(del_id)] and
    [data[kind][id].proxies.remove(del_id)]: removal from a repeated field. *)
Definition remove_from (field del_id : string) (m : Msg) : option Msg :=
  match list_remove del_id (get_rep field m) with
  | Some l => Some (set_field field (FRep l) m)
  | None => None
  end.

Definition remove_ref_in_elem (kind id field del_id : string) : M Env unit :=
  m ← data_elem kind id;
  match remove_from field del_id m with
  | Some _ => mutate_elem kind id (λ m, default m (remove_from field del_id m))
  | None => raise ValueError
  end.

Definition remove_ref_in_workflow (field del_id : string) : M Env unit :=
  s ← data_at WORKFLOW;
  m ← as_message field s;
  match remove_from field del_id m with
  | Some m' => set_slot WORKFLOW (Message m')
  | None => raise ValueError
  end.

Definition apply_pruned_id (key del_id : string) : M Env unit :=
  s ← data_at key;
  d ← as_dict s;
  if decide (d !! del_id = None) then mret tt
  else
    (if decide (key = TASK_PROXIES) then
       stored ← data_elem key del_id;
       remove_ref_in_elem TASKS (get_str "task" stored) "proxies" del_id;;
       remove_ref_in_workflow key del_id
     else if decide (key = FAMILY_PROXIES) then
       stored ← data_elem key del_id;
       remove_ref_in_elem FAMILIES (get_str "family" stored) "proxies" del_id;;
       remove_ref_in_workflow key del_id
     else if decide (key = EDGES) then
       remove_ref_in_workflow "edges.edges" del_id
     else mret tt);;
    s ← data_at key;
    d ← as_dict s;
    set_slot key (Dict (delete del_id d)).

Definition apply_pruned (key : string) (delta : Deltas) : M Env unit :=
  for_ (d_pruned delta) (apply_pruned_id key).

Definition apply_delta (key : string) (delta : Deltas) : M Env unit :=
  apply_added key delta;;
  apply_updated key delta;;
  apply_pruned key delta.

(** ** [generate_checksum]

    [zlib.adler32] is the Adler-32 checksum of RFC 1950: two sums modulo
    65521 over the bytes, started at 1 and 0, packed as [b * 65536 + a]. *)

Definition MOD_ADLER : Z := 65521.

Definition byte_value (c : Ascii.ascii) : Z := Z.of_N (Ascii.N_of_ascii c).

Fixpoint adler32_sums (s : string) (a b : Z) : Z * Z :=
  match s with
  | String.EmptyString => (a, b)
  | String.String c rest =>
      let a' := (a + byte_value c) mod MOD_ADLER in
      let b' := (b + a') mod MOD_ADLER in
      adler32_sums rest a' b'
  end.

Definition adler32 (s : string) : Z :=
  let '(a, b) := adler32_sums s 1 0 in Z.lor (Z.shiftl b 16) a.

(** [sorted(in_strings)]: the strings in ascending order. *)
Definition sorted (in_strings : list string) : list string :=
  merge_sort String.le in_strings.

(** [''.join(strings)] *)
Definition join (strings : list string) : string :=
  foldr String.append String.EmptyString strings.

Definition generate_checksum (in_strings : list string) : Z :=
  Z.land (adler32 (join (sorted in_strings))) 4294967295.

(** ** [collections.Counter]

    A counter keeps its keys in insertion order; it is an association list
    without repeated keys. *)

Module Counter.

Definition t : Type := list (string * Z).

Definition keys (c : t) : list string := c.*1.

Fixpoint count (c : t) (k : string) : Z :=
  match c with
  | [] => 0
  | (k', n) :: rest => if decide (k = k') then n else count rest k
  end.

(** [c[k] += n]: a missing key counts as zero and is appended. *)
Fixpoint add (k : string) (n : Z) (c : t) : t :=
  match c with
  | [] => [(k, 0 + n)]
  | (k', m) :: rest =>
      if decide (k = k') then (k', m + n) :: rest else (k', m) :: add k n rest
  end.

(** [c._keep_positive()] *)
Definition keep_positive (c : t) : t := filter (λ kn, 0 < kn.2) c.

(** [c += other], with [other] given by its items. *)
Definition iadd (c : t) (other : list (string * Z)) : t :=
  keep_positive (foldl (λ acc kn, add kn.1 kn.2 acc) c other).

(** [Counter(iterable)]: one count per occurrence. *)
Definition of_list (l : list string) : t :=
  foldl (λ acc k, add k 1 acc) [] l.

(** [Counter(dict(mapping))] *)
Definition of_map (m : gmap string Z) : t := map_to_list m.

End Counter.

(** ** The collaborators of the data store

    Names the module imports from the rest of the package and what it reads
    from the scheduler it is given; none of them is part of the sources.  A
    reading of the wall clock is kept as a number of ticks; [repr_time] is
    its rendering inside a stamp.  [extract_group_state] gives a state, or
    the empty string where the function returns [None]. *)

Record Collaborators : Type := mkCollaborators {
  ID_DELIM : string;
  clock : nat → Z;
  repr_time : Z → string;
  extract_group_state : list string → string;
  get_suite_status : string * string;
  get_max_point_runahead : option string;
  has_checksum : string → bool
}.

(** ** The state of a [DataStoreMgr] *)

(** [schd.job_pool]: the deltas the job pool has gathered. *)
Record JobPool : Type := mkJobPool {
  jp_deltas : Deltas;
  jp_added : gmap string Msg;
  jp_updated : gmap string Msg;
  jp_updates_pending : bool
}.

Record Mgr : Type := mkMgr {
  workflow_id : string;
  ancestors : gmap string (list string);
  data : Store;
  added : Store;
  updated : Store;
  deltas : list (string * Deltas);
  min_point : option string;
  max_point : option string;
  state_update_families : gset string;
  updated_state_families : gset string;
  updates_pending : bool;
  job_pool : JobPool;
  clock_reads : nat;
  LOG : list log_record
}.

Definition empty_kind_deltas : Deltas := mkDeltas 0 0 (Rep []) (Rep []) [] false.
Definition empty_workflow_deltas : Deltas :=
  mkDeltas 0 0 (Sub None) (Sub None) [] false.

(** [self.deltas] as [__init__] builds it. *)
Definition initial_deltas : list (string * Deltas) :=
  [ (EDGES, empty_kind_deltas); (FAMILIES, empty_kind_deltas);
    (FAMILY_PROXIES, empty_kind_deltas); (JOBS, empty_kind_deltas);
    (TASKS, empty_kind_deltas); (TASK_PROXIES, empty_kind_deltas);
    (WORKFLOW, empty_workflow_deltas) ].

Definition set_data (f : Store → Store) (s : Mgr) : Mgr :=
  mkMgr (workflow_id s) (ancestors s) (f (data s)) (added s) (updated s)
    (deltas s) (min_point s) (max_point s) (state_update_families s)
    (updated_state_families s) (updates_pending s) (job_pool s)
    (clock_reads s) (LOG s).

Definition set_added (f : Store → Store) (s : Mgr) : Mgr :=
  mkMgr (workflow_id s) (ancestors s) (data s) (f (added s)) (updated s)
    (deltas s) (min_point s) (max_point s) (state_update_families s)
    (updated_state_families s) (updates_pending s) (job_pool s)
    (clock_reads s) (LOG s).

Definition set_updated (f : Store → Store) (s : Mgr) : Mgr :=
  mkMgr (workflow_id s) (ancestors s) (data s) (added s) (f (updated s))
    (deltas s) (min_point s) (max_point s) (state_update_families s)
    (updated_state_families s) (updates_pending s) (job_pool s)
    (clock_reads s) (LOG s).

Definition set_deltas (f : list (string * Deltas) → list (string * Deltas))
    (s : Mgr) : Mgr :=
  mkMgr (workflow_id s) (ancestors s) (data s) (added s) (updated s)
    (f (deltas s)) (min_point s) (max_point s) (state_update_families s)
    (updated_state_families s) (updates_pending s) (job_pool s)
    (clock_reads s) (LOG s).

Definition set_state_update_families (f : gset string → gset string)
    (s : Mgr) : Mgr :=
  mkMgr (workflow_id s) (ancestors s) (data s) (added s) (updated s)
    (deltas s) (min_point s) (max_point s) (f (state_update_families s))
    (updated_state_families s) (updates_pending s) (job_pool s)
    (clock_reads s) (LOG s).

Definition set_updated_state_families (f : gset string → gset string)
    (s : Mgr) : Mgr :=
  mkMgr (workflow_id s) (ancestors s) (data s) (added s) (updated s)
    (deltas s) (min_point s) (max_point s) (state_update_families s)
    (f (updated_state_families s)) (updates_pending s) (job_pool s)
    (clock_reads s) (LOG s).

Definition set_job_pool (f : JobPool → JobPool) (s : Mgr) : Mgr :=
  mkMgr (workflow_id s) (ancestors s) (data s) (added s) (updated s)
    (deltas s) (min_point s) (max_point s) (state_update_families s)
    (updated_state_families s) (updates_pending s) (f (job_pool s))
    (clock_reads s) (LOG s).

Definition set_env (e : Env) (s : Mgr) : Mgr :=
  mkMgr (workflow_id s) (ancestors s) (env_data e) (added s) (updated s)
    (deltas s) (min_point s) (max_point s) (state_update_families s)
    (updated_state_families s) (updates_pending s) (job_pool s)
    (clock_reads s) (env_log e).

(** [store[key]] for one of the stores of the manager, expected to be a dict. *)
Definition the_dict (store : Store) (key : string) : M Mgr (gmap string Msg) :=
  s ← subscript store key; as_dict s.

(** [store[WORKFLOW]], expected to be a message. *)
Definition the_message (attr : string) (store : Store) (key : string)
  : M Mgr Msg :=
  s ← subscript store key; as_message attr s.

(** [d.setdefault(id, fresh)] followed by a mutation of the entry. *)
Definition setdefault_then (id : string) (fresh : Msg) (f : Msg → Msg)
    (d : gmap string Msg) : gmap string Msg :=
  <[id := f (default fresh (d !! id))]> d.

(** Messages built by keyword arguments and assignments. *)
Definition new_message (fields : list (string * fval)) : Msg :=
  foldl (λ m fv, set_field fv.1 fv.2 m) ∅ fields.

(** An assignment under a condition: [if value: m.key = value]. *)
Definition set_optional (key : string) (value : option string) (m : Msg)
  : Msg :=
  match value with
  | Some v => set_field key (FStr v) m
  | None => m
  end.

(** A keyword argument whose value may be [None]; a collaborator that
    returns a string or [None] gives the empty string for [None], and the
    field is then left unset. *)
Definition set_unless_none (key value : string) (m : Msg) : Msg :=
  if decide (value = "") then m else set_field key (FStr value) m.

(** [s.split(sep)]: [None] stands for the [ValueError] of an empty separator. *)
Fixpoint split_go (sep : string) (skip : nat) (cur s : string) : list string :=
  match s with
  | String.EmptyString => [cur]
  | String.String c rest =>
      match skip with
      | S k => split_go sep k cur rest
      | O =>
          if String.prefix sep s
          then cur :: split_go sep (String.length sep - 1) "" rest
          else split_go sep 0 (cur +:+ String.String c "") rest
      end
  end.

Definition split (sep s : string) : option (list string) :=
  if decide (sep = "") then None else Some (split_go sep 0 "" s).

Section Manager.

Variable ext : Collaborators.

(** [time()]: the next reading of the wall clock. *)
Definition time : M Mgr Z :=
  λ s, (inr (clock ext (clock_reads s)),
        mkMgr (workflow_id s) (ancestors s) (data s) (added s) (updated s)
          (deltas s) (min_point s) (max_point s) (state_update_families s)
          (updated_state_families s) (updates_pending s) (job_pool s)
          (S (clock_reads s)) (LOG s)).

(** [f'{a}{ID_DELIM}{b}'] *)
Definition delim (a b : string) : string := a +:+ ID_DELIM ext +:+ b.

(** [f'{id}@{update_time}'] *)
Definition stamp_of (id : string) (update_time : Z) : string :=
  id +:+ "@" +:+ repr_time ext update_time.

(** The ids of the first-parent ancestors of [name] at a cycle point. *)
Definition ancestor_ids (wid point_string name : string) (names : list string)
  : list string :=
  (λ a_name, delim (delim wid point_string) a_name)
    <$> filter (λ a_name, a_name ≠ name) names.

(** Where the object [fp_parent] of [generate_ghost_family] lives. *)
Inductive buffer : Type := InAdded | InUpdated.

Definition mutate_in (b : buffer) (key id : string) (f : Msg → Msg) : M Mgr unit :=
  match b with
  | InAdded => modify (set_added (alter (slot_alter id f) key))
  | InUpdated => modify (set_updated (alter (slot_alter id f) key))
  end.

(** [getattr(self.updated[WORKFLOW], field).append(id)] *)
Definition workflow_update_append (field id : string) : M Mgr unit :=
  s ← get;
  w ← the_message field (updated s) WORKFLOW;
  modify (set_updated (<[WORKFLOW := Message (rep_append field id w)]>)).

Definition append_child (child_fam child_task : option string) (m : Msg)
  : Msg :=
  match child_fam with
  | None => rep_append "child_tasks" (default "" child_task) m
  | Some fam =>
      if decide (fam ∈ get_rep "child_families" m) then m
      else rep_append "child_families" fam m
  end.

(** The family proxy [generate_ghost_family] builds; [first_parent] is
    assigned when there are ancestors. *)
Definition ghost_family_proxy (fp_id : string) (update_time : Z)
    (point_string : string) (fam : Msg) (ids : list string) : Msg :=
  set_optional "first_parent" (head ids)
    (new_message
       [ ("stamp", FStr (stamp_of fp_id update_time));
         ("id", FStr fp_id);
         ("cycle_point", FStr point_string);
         ("name", FStr (get_str "name" fam));
         ("family", FStr (get_str "id" fam));
         ("depth", FNum (get_num "depth" fam));
         ("ancestors", FRep ids) ]).

(** [generate_ghost_family]; the recursion follows first parents, [fuel]
    bounds its depth as the interpreter's recursion limit does. *)
Fixpoint generate_ghost_family (fuel : nat) (fp_id : string)
    (child_fam child_task : option string) : M Mgr unit :=
  match fuel with
  | O => raise RecursionError
  | S fuel' =>
      update_time ← time;
      s ← get;
      families0 ← the_dict (data s) FAMILIES;
      families ← (if decide (families0 = ∅) then the_dict (added s) FAMILIES
                  else mret families0);
      fp_data ← the_dict (data s) FAMILY_PROXIES;
      fp_added ← the_dict (added s) FAMILY_PROXIES;
      fp_updated ← the_dict (updated s) FAMILY_PROXIES;
      fp_parent ←
        (if decide (is_Some (fp_data !! fp_id)) then
           modify (set_updated (<[FAMILY_PROXIES :=
             Dict (setdefault_then fp_id (new_message [("id", FStr fp_id)]) id
                     fp_updated)]>));;
           mret InUpdated
         else if decide (is_Some (fp_added !! fp_id)) then
           mret InAdded
         else
           match split (ID_DELIM ext) fp_id with
           | Some [_; _; point_string; name] =>
               fam ← subscript families (delim (workflow_id s) name);
               names ← subscript (ancestors s) (get_str "name" fam);
               let ids := ancestor_ids (workflow_id s) point_string
                            (get_str "name" fam) names in
               let fp_delta :=
                 ghost_family_proxy fp_id update_time point_string fam ids in
               modify (set_added (<[FAMILY_PROXIES :=
                 Dict (<[fp_id := fp_delta]> fp_added)]>));;
               let f_delta :=
                 new_message
                   [ ("id", FStr (get_str "id" fam));
                     ("stamp", FStr (stamp_of (get_str "id" fam) update_time));
                     ("proxies", FRep [fp_id]) ] in
               s1 ← get;
               f_updated ← the_dict (updated s1) FAMILIES;
               modify (set_updated (<[FAMILIES :=
                 Dict (setdefault_then (get_str "id" fam)
                         (new_message [("id", FStr (get_str "id" fam))])
                         (λ m, MergeFrom m f_delta) f_updated)]>));;
               workflow_update_append FAMILY_PROXIES fp_id;;
               (if decide (get_str "first_parent" fp_delta ≠ "") then
                  generate_ghost_family fuel'
                    (get_str "first_parent" fp_delta) (Some fp_id) None
                else mret tt);;
               mret InAdded
           | _ => raise ValueError
           end);
      match child_fam, child_task with
      | None, None => raise TypeError
      | _, _ =>
          mutate_in fp_parent FAMILY_PROXIES fp_id
            (append_child child_fam child_task)
      end
  end.

(** [generate_ghost_task] *)
Definition generate_ghost_task (fuel : nat) (t_id tp_id point_string : string)
  : M Mgr unit :=
  s ← get;
  task_proxies ← the_dict (data s) TASK_PROXIES;
  present ←
    (if decide (is_Some (task_proxies !! tp_id)) then mret true
     else tp_added ← the_dict (added s) TASK_PROXIES;
          mret (bool_decide (is_Some (tp_added !! tp_id))));
  if (present : bool) then mret tt
  else
    tasks ← the_dict (data s) TASKS;
    tasks_added ← the_dict (added s) TASKS;
    let taskdef := from_option Some (tasks_added !! t_id) (tasks !! t_id) in
    update_time ← time;
    match taskdef with
    | None => raise (AttributeError "depth")
    | Some taskdef =>
        names ← subscript (ancestors s) (get_str "name" taskdef);
        let ids := ancestor_ids (workflow_id s) point_string
                     (get_str "name" taskdef) names in
        match ids with
        | [] => raise IndexError
        | first_parent :: _ =>
            let tproxy :=
              new_message
                [ ("stamp", FStr (stamp_of tp_id update_time));
                  ("id", FStr tp_id);
                  ("task", FStr t_id);
                  ("cycle_point", FStr point_string);
                  ("depth", FNum (get_num "depth" taskdef));
                  ("name", FStr (get_str "name" taskdef));
                  ("namespace", FRep (get_rep "namespace" taskdef));
                  ("ancestors", FRep ids);
                  ("first_parent", FStr first_parent) ] in
            tp_added ← the_dict (added s) TASK_PROXIES;
            modify (set_added (<[TASK_PROXIES :=
              Dict (<[tp_id := tproxy]> tp_added)]>));;
            workflow_update_append TASK_PROXIES tp_id;;
            s1 ← get;
            t_updated ← the_dict (updated s1) TASKS;
            modify (set_updated (<[TASKS :=
              Dict (setdefault_then t_id
                      (new_message [ ("stamp", FStr (stamp_of t_id update_time));
                                     ("id", FStr t_id) ])
                      (rep_append "proxies" tp_id) t_updated)]>));;
            generate_ghost_family fuel first_parent None (Some tp_id)
        end
    end.

End Manager.

Section Rollup.

Variable ext : Collaborators.

(** [upd.get(id, store.get(id))] *)
Definition latest_view (upd store : gmap string Msg) (id : string)
  : option Msg :=
  from_option Some (store !! id) (upd !! id).

(** The loop over [fam_node.child_families]: hold totals and state totals of
    the child families that have a view. *)
Definition gather_child_families (fp_updated fp_data : gmap string Msg)
    (child_families : list string) : Counter.t * Z :=
  foldl (λ acc child_id,
           match latest_view fp_updated fp_data child_id with
           | Some child_node =>
               (Counter.iadd acc.1
                  (Counter.of_map (get_map "state_totals" child_node)),
                acc.2 + get_num "is_held_total" child_node)
           | None => acc
           end)
        ([], 0) child_families.

(** The loop over [fam_node.child_tasks]: the states that are set, and one
    more hold for each held task. *)
Definition gather_child_tasks (tp_updated tp_data : gmap string Msg)
    (child_tasks : list string) (is_held_total : Z) : list string * Z :=
  foldl (λ acc tp_id,
           match latest_view tp_updated tp_data tp_id with
           | Some tp_node =>
               ((if decide (get_str "state" tp_node ≠ "")
                 then acc.1 ++ [get_str "state" tp_node] else acc.1),
                (if get_bool "is_held" tp_node then acc.2 + 1 else acc.2))
           | None => acc
           end)
        ([], is_held_total) child_tasks.

Definition state_totals_of (c : Counter.t) : gmap string Z :=
  foldl (λ m kn, <[kn.1 := kn.2]> m) ∅ c.

(** The message [fp_delta] built for a flagged family. *)
Definition family_delta (fp_id : string) (now : Z)
    (fp_updated fp_data tp_updated tp_data : gmap string Msg) (fam_node : Msg)
  : Msg :=
  let '(counter0, held0) :=
    gather_child_families fp_updated fp_data
      (get_rep "child_families" fam_node) in
  let '(task_states, is_held_total) :=
    gather_child_tasks tp_updated tp_data (get_rep "child_tasks" fam_node)
      held0 in
  let state_counter := Counter.iadd counter0 (Counter.of_list task_states) in
  set_unless_none "state"
    (extract_group_state ext (Counter.keys state_counter))
    (new_message
       [ ("id", FStr fp_id);
         ("stamp", FStr (stamp_of ext fp_id now));
         ("is_held", FBool (bool_decide (0 < is_held_total)));
         ("is_held_total", FNum is_held_total);
         ("states", FRep (Counter.keys state_counter));
         ("state_totals", FMap (state_totals_of state_counter)) ]).

(** [s.remove(x)] on a set *)
Definition set_remove (x : string) : M Mgr unit :=
  s ← get;
  if decide (x ∈ state_update_families s)
  then modify (set_state_update_families (λ f, f ∖ {[x]}))
  else raise (KeyError x).

(** [_family_ascent_point_update]; [fuel] bounds the recursion into child
    families. *)
Fixpoint _family_ascent_point_update (fuel : nat) (fp_id : string)
  : M Mgr unit :=
  match fuel with
  | O => raise RecursionError
  | S fuel' =>
      s ← get;
      fp_added ← the_dict (added s) FAMILY_PROXIES;
      fp_data ← the_dict (data s) FAMILY_PROXIES;
      fam_node ← (match fp_data !! fp_id with
                   | Some n => mret n
                   | None => subscript fp_added fp_id
                   end);
      let child_fam_nodes :=
        filter (λ n_id, n_id ∉ updated_state_families s)
               (get_rep "child_families" fam_node) in
      for_ child_fam_nodes (_family_ascent_point_update fuel');;
      s1 ← get;
      if decide (fp_id ∈ state_update_families s1) then
        fp_updated ← the_dict (updated s1) FAMILY_PROXIES;
        tp_data ← the_dict (data s1) TASK_PROXIES;
        tp_updated ← the_dict (updated s1) TASK_PROXIES;
        now ← time ext;
        let fp_delta :=
          family_delta fp_id now fp_updated fp_data tp_updated tp_data
            fam_node in
        modify (set_updated (<[FAMILY_PROXIES :=
          Dict (setdefault_then fp_id ∅ (λ m, MergeFrom m fp_delta)
                  fp_updated)]>));;
        modify (set_updated_state_families (λ f, f ∪ {[fp_id]}));;
        (if decide (get_str "first_parent" fam_node ≠ "")
         then modify (set_state_update_families
                        (λ f, f ∪ {[get_str "first_parent" fam_node]}))
         else mret tt);;
        set_remove fp_id
      else mret tt
  end.

(** [d.values()] on [store[key]] *)
Definition dict_values (store : Store) (key : string) : M Mgr (list Msg) :=
  s ← subscript store key;
  match s with
  | Dict d => mret (map_to_list d).*2
  | Message _ => raise (AttributeError "values")
  end.

Definition root_ids (nodes : list Msg) : list string :=
  get_str "id" <$> filter (λ n, get_str "name" n = "root") nodes.

(** The loop of [update_workflow] over the ids of the root families. *)
Fixpoint gather_roots (s : Mgr) (roots : list string) (acc : Counter.t * Z)
  : M Mgr (Counter.t * Z) :=
  match roots with
  | [] => mret acc
  | root_id :: rest =>
      fp_updated ← the_dict (updated s) FAMILY_PROXIES;
      acc' ←
        (match fp_updated !! root_id with
         | Some root_node =>
             if decide (get_str "state" root_node ≠ "") then
               mret (Counter.iadd acc.1
                       (Counter.of_map (get_map "state_totals" root_node)),
                     acc.2 + get_num "is_held_total" root_node)
             else mret acc
         | None =>
             match data s !! root_id with
             | None => mret acc
             | Some _ => raise (AttributeError "state")
             end
         end);
      gather_roots s rest acc'
  end.

(** [update_workflow] *)
Definition update_workflow : M Mgr unit :=
  s0 ← get;
  workflow ← the_message "id" (updated s0) WORKFLOW;
  now ← time ext;
  let workflow :=
    set_field "stamp" (FStr (stamp_of ext (workflow_id s0) now))
      (set_field "last_updated" (FNum now)
         (set_field "id" (FStr (workflow_id s0)) workflow)) in
  modify (set_updated (<[WORKFLOW := Message workflow]>));;
  s ← get;
  stored ← dict_values (data s) FAMILY_PROXIES;
  fresh ← dict_values (added s) FAMILY_PROXIES;
  let roots :=
    elements (list_to_set (root_ids stored ++ root_ids fresh) : gset string) in
  '(state_counter, is_held_total) ← gather_roots s roots ([], 0);
  let status := get_suite_status ext in
  let workflow :=
    set_field "states" (FRep (Counter.keys state_counter)) workflow in
  let workflow :=
    set_field "state_totals"
      (FMap (foldl (λ m kn, <[kn.1 := kn.2]> m)
               (get_map "state_totals" workflow) state_counter)) workflow in
  let workflow := set_field "is_held_total" (FNum is_held_total) workflow in
  let workflow :=
    set_field "status_msg" (FStr status.2)
      (set_field "status" (FStr status.1) workflow) in
  let workflow :=
    set_optional "newest_runahead_cycle_point" (get_max_point_runahead ext)
      (set_optional "newest_cycle_point" (max_point s)
         (set_optional "oldest_cycle_point" (min_point s) workflow)) in
  modify (set_updated (<[WORKFLOW := Message workflow]>)).

End Rollup.

Section Finalizer.

Variable ext : Collaborators.

(** [message.Clear()] on a delta message *)
Definition payload_Clear (p : payload) : payload :=
  match p with
  | Rep _ => Rep []
  | Sub _ => Sub None
  end.

Definition Deltas_Clear (d : Deltas) : Deltas :=
  mkDeltas 0 0 (payload_Clear (d_added d)) (payload_Clear (d_updated d)) []
    false.

(** [self.deltas[key] = ...] seen as an in-place change of the entry. *)
Definition alter_delta (key : string) (f : Deltas → Deltas)
    (l : list (string * Deltas)) : list (string * Deltas) :=
  (λ kd, if decide (kd.1 = key) then (kd.1, f kd.2) else kd) <$> l.

(** [buffer[key].Clear()] for the workflow, [buffer[key].clear()] otherwise *)
Definition clear_slot (key : string) (store : Store) : M Mgr Store :=
  s ← subscript store key;
  if decide (key = WORKFLOW) then
    match s with
    | Message _ => mret (<[key := Message ∅]> store)
    | Dict _ => raise (AttributeError "Clear")
    end
  else
    match s with
    | Dict _ => mret (<[key := Dict ∅]> store)
    | Message _ => raise (AttributeError "clear")
    end.

(** [clear_deltas] *)
Definition clear_deltas : M Mgr unit :=
  s0 ← get;
  for_ (deltas s0).*1 (λ key,
    modify (set_deltas (alter_delta key Deltas_Clear));;
    s ← get;
    a ← clear_slot key (added s);
    modify (set_added (λ _, a));;
    u ← clear_slot key (updated s);
    modify (set_updated (λ _, u))).

(** What [get_publish_deltas] hands out: a delta of one kind, or the
    all-deltas message with the kinds that were copied into it. *)
Inductive published : Type :=
| PerKind (delta : Deltas)
| AllDeltas (kinds : list (string * Deltas)).

Definition SerializeToString : string := "SerializeToString".

(** [get_publish_deltas] *)
Definition get_publish_deltas (s : Mgr) : list (string * published * string) :=
  let '(result, all_deltas) :=
    foldl (λ acc kd,
             if delta_has_fields kd.2
             then (acc.1 ++ [(kd.1, PerKind kd.2, SerializeToString)],
                   acc.2 ++ [kd])
             else acc)
          ([], []) (deltas s) in
  result ++ [(ALL_DELTAS, AllDeltas all_deltas, SerializeToString)].

(** [self.deltas[key].added.extend(values)] and the same for [updated] *)
Definition extend_payload (p : payload) (values : list Msg) : exn + payload :=
  match p with
  | Rep l => inr (Rep (l ++ values))
  | Sub _ => inl (AttributeError "extend")
  end.

Definition copy_into_payload (p : payload) (m : Msg) : exn + payload :=
  match p with
  | Sub _ => inr (Sub (Some m))
  | Rep _ => inl (AttributeError "CopyFrom")
  end.

Definition set_d_added (p : payload) (d : Deltas) : Deltas :=
  mkDeltas (d_time d) (d_checksum d) p (d_updated d) (d_pruned d)
    (d_reloaded d).

Definition set_d_updated (p : payload) (d : Deltas) : Deltas :=
  mkDeltas (d_time d) (d_checksum d) (d_added d) p (d_pruned d)
    (d_reloaded d).

Definition set_d_reloaded (b : bool) (d : Deltas) : Deltas :=
  mkDeltas (d_time d) (d_checksum d) (d_added d) (d_updated d) (d_pruned d) b.

Definition set_d_time (t : Z) (d : Deltas) : Deltas :=
  mkDeltas t (d_checksum d) (d_added d) (d_updated d) (d_pruned d)
    (d_reloaded d).

Definition set_d_checksum (c : Z) (d : Deltas) : Deltas :=
  mkDeltas (d_time d) c (d_added d) (d_updated d) (d_pruned d) (d_reloaded d).

(** [self.deltas[key]] *)
Definition the_delta (key : string) : M Mgr Deltas :=
  s ← get;
  match list_find (λ kd, kd.1 = key) (deltas s) with
  | Some (_, kd) => mret kd.2
  | None => raise (KeyError key)
  end.

Definition lift_result {A} (r : exn + A) : M Mgr A :=
  match r with
  | inr a => mret a
  | inl e => raise e
  end.

(** One round of "Gather cumulative update element": the entries of a
    buffer are folded into the delta of their kind. *)
Definition gather_buffer (get_p : Deltas → payload)
    (set_p : payload → Deltas → Deltas) (key : string) (elements : slot)
  : M Mgr unit :=
  match elements with
  | Dict d =>
      if decide (d = ∅) then mret tt
      else if decide (key = WORKFLOW) then raise (AttributeError "ListFields")
      else
        delta ← the_delta key;
        p ← lift_result (extend_payload (get_p delta) (map_to_list d).*2);
        modify (set_deltas (alter_delta key (set_p p)))
  | Message m =>
      if decide (key = WORKFLOW) then
        if bool_decide (ListFields m = []) then mret tt
        else
          delta ← the_delta WORKFLOW;
          p ← lift_result (copy_into_payload (get_p delta) m);
          modify (set_deltas (alter_delta WORKFLOW (set_p p)))
      else
        delta ← the_delta key;
        raise (AttributeError "values")
  end.

(** Running [apply_delta] on the store and the log of the manager. *)
Definition run_apply_delta (key : string) (delta : Deltas) : M Mgr unit :=
  λ s, let '(r, e) := apply_delta key delta (mkEnv (data s) (LOG s)) in
       (r, set_env e s).

(** The strings a checksum is taken over: ids for edges, stamps otherwise. *)
Definition checksum_strings (key : string) (d : gmap string Msg)
  : list string :=
  let s_att := if decide (key = EDGES) then "id" else "stamp" in
  get_str s_att <$> (map_to_list d).*2.

(** One turn of the loop "Apply deltas to local data-store". *)
Definition apply_one (reloaded : bool) (kd : string * Deltas) : M Mgr unit :=
  if delta_has_fields kd.2 then
    modify (set_deltas (alter_delta kd.1 (set_d_reloaded reloaded)));;
    run_apply_delta kd.1 (set_d_reloaded reloaded kd.2)
  else mret tt.

(** One turn of the loop "Construct checksum on deltas for export";
    [has_checksum] is [hasattr(delta, 'checksum')]. *)
Definition export_checksum (update_time : Z) (kd : string * Deltas)
  : M Mgr unit :=
  if delta_has_fields kd.2 then
    modify (set_deltas (alter_delta kd.1 (set_d_time update_time)));;
    if has_checksum ext kd.1 then
      s ← get;
      slot ← subscript (data s) kd.1;
      match slot with
      | Dict d =>
          modify (set_deltas (alter_delta kd.1
            (set_d_checksum (generate_checksum (checksum_strings kd.1 d)))))
      | Message _ => raise (AttributeError "values")
      end
    else mret tt
  else mret tt.

(** "Copy in job deltas" *)
Definition copy_in_job_deltas : M Mgr unit :=
  _ ← the_delta JOBS;
  s ← get;
  modify (set_deltas (alter_delta JOBS (λ _, jp_deltas (job_pool s))));;
  modify (set_added (<[JOBS := Dict (jp_added (job_pool s))]>));;
  modify (set_updated (<[JOBS := Dict (jp_updated (job_pool s))]>));;
  if decide (jp_added (job_pool s) ≠ ∅) then
    w ← the_message JOBS (updated s) WORKFLOW;
    modify (set_updated (<[WORKFLOW :=
      Message (rep_extend JOBS (map_to_list (jp_added (job_pool s))).*1 w)]>))
  else mret tt.

(** "Gather cumulative update element" *)
Definition gather_deltas : M Mgr unit :=
  s ← get;
  for_ (map_to_list (added s))
       (λ ke, gather_buffer d_added set_d_added ke.1 ke.2);;
  for_ (map_to_list (updated s))
       (λ ke, gather_buffer d_updated set_d_updated ke.1 ke.2).

(** [apply_deltas] *)
Definition apply_deltas (reloaded : bool) : M Mgr unit :=
  copy_in_job_deltas;;
  gather_deltas;;
  (* Apply deltas to local data-store *)
  s ← get;
  for_ (deltas s) (apply_one reloaded);;
  (* Construct checksum on deltas for export *)
  update_time ← time ext;
  s ← get;
  for_ (deltas s) (export_checksum update_time);;
  (* Clear job pool changes after their application *)
  modify (set_job_pool (λ jp,
    mkJobPool (Deltas_Clear (jp_deltas jp)) ∅ ∅ (jp_updates_pending jp))).

(** [DELTAS_MAP]: the message class of each key. *)
Inductive delta_class : Type := KindDeltasClass | WDeltasClass | AllDeltasClass.

Definition DELTAS_MAP : gmap string delta_class :=
  list_to_map
    [ (EDGES, KindDeltasClass); (FAMILIES, KindDeltasClass);
      (FAMILY_PROXIES, KindDeltasClass); (JOBS, KindDeltasClass);
      (TASKS, KindDeltasClass); (TASK_PROXIES, KindDeltasClass);
      (WORKFLOW, WDeltasClass); (ALL_DELTAS, AllDeltasClass) ].

(** [get_data_elements].  The all-deltas message has a field per kind and
    no [time] field. *)
Definition get_data_elements (s : Mgr) (element_type : string)
  : exn + Deltas :=
  match DELTAS_MAP !! element_type with
  | None => inr empty_workflow_deltas
  | Some class =>
      match data s !! WORKFLOW with
      | None => inl (KeyError WORKFLOW)
      | Some (Dict _) => inl (AttributeError "last_updated")
      | Some (Message workflow) =>
          let time := get_num "last_updated" workflow in
          match class with
          | AllDeltasClass => inl (AttributeError "time")
          | WDeltasClass =>
              inr (set_d_added (Sub (Some workflow))
                     (set_d_time time empty_workflow_deltas))
          | KindDeltasClass =>
              match data s !! element_type with
              | None => inl (KeyError element_type)
              | Some (Message _) => inl (AttributeError "values")
              | Some (Dict d) =>
                  inr (set_d_added (Rep (map_to_list d).*2)
                         (set_d_time time empty_kind_deltas))
              end
          end
      end
  end.

End Finalizer.

(** ** The pruning scan of [increment_graph_elements]

    Cycle points are objects that can be hashed and compared; [str] renders
    one as the string kept in [prune_points]. *)

Section GraphElements.

Context {point : Type} `{Countable point}.
Variable str : point → string.

(** One turn of the loop over [list(self.edge_points.items())]; the state of
    the loop is the local [prune_points] and [self.edge_points]. *)
Definition prune_entry (pool_points : gset point)
    (acc : gset string * gmap point (gset point))
    (entry : point * gset point) : gset string * gmap point (gset point) :=
  let '(s_point, t_points) := entry in
  if decide ((s_point ∉ pool_points) ∧ (t_points ## pool_points)) then
    (acc.1 ∪ {[ str s_point ]} ∪ set_map str t_points, delete s_point acc.2)
  else
    let t_diffs := t_points ∖ pool_points in
    if decide (t_diffs ≠ ∅) then
      (acc.1 ∪ set_map str t_diffs,
       alter (λ targets, targets ∖ t_diffs) s_point acc.2)
    else acc.

(** The loop: the points to prune and the edge points that are kept. *)
Definition prune_scan (pool_points : gset point)
    (edge_points : gmap point (gset point))
  : gset string * gmap point (gset point) :=
  foldl (prune_entry pool_points) (∅, edge_points) (map_to_list edge_points).

End GraphElements.

(** ** [prune_points] *)

Section Pruning.

(** [schd.job_pool.remove_task_jobs]: a method of the job pool, which is
    not part of the sources; it is kept as what it does to the job pool. *)
Variable remove_task_jobs : string → JobPool → JobPool.

(** A loop that also updates a local variable. *)
Fixpoint for_acc {St A B} (l : list A) (acc : B) (body : B → A → M St B)
  : M St B :=
  match l with
  | [] => mret acc
  | x :: rest => acc' ← body acc x; for_acc rest acc' body
  end.

(** [list(store[key].items())] *)
Definition dict_items (store : Store) (key : string)
  : M Mgr (list (string * Msg)) :=
  s ← subscript store key;
  match s with
  | Dict d => mret (map_to_list d)
  | Message _ => raise (AttributeError "items")
  end.

Definition extend_pruned (ids : list string) (d : Deltas) : Deltas :=
  mkDeltas (d_time d) (d_checksum d) (d_added d) (d_updated d)
    (d_pruned d ++ ids) (d_reloaded d).

(** [self.deltas[key].pruned.append(id)] *)
Definition append_pruned (key id : string) : M Mgr unit :=
  _ ← the_delta key;
  modify (set_deltas (alter_delta key (extend_pruned [id]))).

(** [prune_points] *)
Definition prune_points (point_strings : gset string) : M Mgr unit :=
  s ← get;
  if decide (point_strings = ∅) then mret tt
  else
    task_proxies ← dict_items (data s) TASK_PROXIES;
    node_ids ← for_acc task_proxies (∅ : gset string) (λ node_ids item,
      if decide (get_str "cycle_point" item.2 ∈ point_strings) then
        append_pruned TASK_PROXIES item.1;;
        modify (set_job_pool (remove_task_jobs item.1));;
        mret (node_ids ∪ {[item.1]})
      else mret node_ids);
    family_proxies ← dict_items (data s) FAMILY_PROXIES;
    for_ family_proxies (λ item,
      if decide (get_str "cycle_point" item.2 ∈ point_strings)
      then append_pruned FAMILY_PROXIES item.1
      else mret tt);;
    edges ← dict_items (data s) EDGES;
    for_ edges (λ item,
      if decide (get_str "source" item.2 ∈ node_ids
                 ∨ get_str "target" item.2 ∈ node_ids)
      then append_pruned EDGES item.1
      else mret tt).

End Pruning.

(** ** [create_delta_store] *)

Definition DELTA_ADDED : string := "added".
Definition DELTA_UPDATED : string := "updated".
Definition DELTA_PRUNED : string := "pruned".

(** What the mini store keeps under a kind: the entities of a repeated
    field by id, or the value of the field as it is (for the workflow: the
    embedded message; a repeated value is kept as the list it is). *)
Inductive field_data : Type :=
| ById (d : gmap string Msg)
| Whole (m : Msg)
| Listed (entities : list Msg).

(** The dict [delta_store]; its keys are [added], [updated], [pruned] and,
    when a workflow id is given, [id]. *)
Record DeltaStore : Type := mkDeltaStore {
  ds_id : option string;
  ds_added : gmap string field_data;
  ds_updated : gmap string field_data;
  ds_pruned : gmap string (list string)
}.

(** [deepcopy(DATA_TEMPLATE)], with the workflow message given. *)
Definition template_copy (workflow : Msg) : gmap string field_data :=
  list_to_map
    [ (EDGES, ById ∅); (FAMILIES, ById ∅); (FAMILY_PROXIES, ById ∅);
      (JOBS, ById ∅); (TASKS, ById ∅); (TASK_PROXIES, ById ∅);
      (WORKFLOW, Whole workflow) ].

Definition template_pruned : gmap string (list string) :=
  list_to_map
    [ (EDGES, []); (FAMILIES, []); (FAMILY_PROXIES, []); (JOBS, []);
      (TASKS, []); (TASK_PROXIES, []) ].

Definition initial_delta_store (workflow_id : option string) : DeltaStore :=
  let workflow :=
    match workflow_id with
    | Some wid => set_field "id" (FStr wid) ∅
    | None => ∅
    end in
  mkDeltaStore workflow_id (template_copy workflow) (template_copy workflow)
    template_pruned.

Definition set_ds_added (f : gmap string field_data → gmap string field_data)
    (ds : DeltaStore) : DeltaStore :=
  mkDeltaStore (ds_id ds) (f (ds_added ds)) (ds_updated ds) (ds_pruned ds).

Definition set_ds_updated (f : gmap string field_data → gmap string field_data)
    (ds : DeltaStore) : DeltaStore :=
  mkDeltaStore (ds_id ds) (ds_added ds) (f (ds_updated ds)) (ds_pruned ds).

Definition set_ds_pruned
    (f : gmap string (list string) → gmap string (list string))
    (ds : DeltaStore) : DeltaStore :=
  mkDeltaStore (ds_id ds) (ds_added ds) (ds_updated ds) (f (ds_pruned ds)).

(** [field_data] for the sub-fields [added] and [updated]: the value as it
    is for the workflow, [{s.id: s for s in sub_value}] otherwise; an
    embedded message cannot be iterated over. *)
Definition field_data_of (field_name : string) (sub_value : payload)
  : M DeltaStore field_data :=
  if decide (field_name = WORKFLOW) then
    match sub_value with
    | Sub o => mret (Whole (sub_msg o))
    | Rep l => mret (Listed l)
    end
  else
    match sub_value with
    | Rep l => mret (ById (dict_update_by_id ∅ l))
    | Sub _ => raise TypeError
    end.

(** The inner loop, over the sub-fields that are set in the delta of one
    kind and are keys of [delta_store]. *)
Definition store_sub_fields (field : string * Deltas) : M DeltaStore unit :=
  (if payload_is_set (d_added field.2) then
     data ← field_data_of field.1 (d_added field.2);
     modify (set_ds_added (<[field.1 := data]>))
   else mret tt);;
  (if payload_is_set (d_updated field.2) then
     data ← field_data_of field.1 (d_updated field.2);
     modify (set_ds_updated (<[field.1 := data]>))
   else mret tt);;
  (if decide (d_pruned field.2 ≠ []) then
     modify (set_ds_pruned (<[field.1 := d_pruned field.2]>))
   else mret tt).

(** [create_delta_store]; [delta] is the list of the fields that are set in
    the all-deltas message, [None] when no such message is given. *)
Definition create_delta_store (delta : option (list (string * Deltas)))
    (workflow_id : option string) : exn + DeltaStore :=
  match for_ (default [] delta) store_sub_fields
          (initial_delta_store workflow_id) with
  | (inr _, delta_store) => inr delta_store
  | (inl e, _) => inl e
  end.

(** ** [get_entire_workflow] *)

(** The message [PbEntireWorkflow]: the workflow and the entities of each
    kind. *)
Record EntireWorkflow : Type := mkEntireWorkflow {
  ew_workflow : Msg;
  ew_tasks : list Msg;
  ew_task_proxies : list Msg;
  ew_jobs : list Msg;
  ew_families : list Msg;
  ew_family_proxies : list Msg;
  ew_edges : list Msg
}.

(** [get_entire_workflow] *)
Definition get_entire_workflow (s : Mgr) : exn + EntireWorkflow :=
  fst ((slot ← subscript (data s) WORKFLOW;
   workflow ← (match slot with
               | Message m => mret m
               | Dict _ => raise TypeError
               end);
   tasks ← dict_values (data s) TASKS;
   task_proxies ← dict_values (data s) TASK_PROXIES;
   jobs ← dict_values (data s) JOBS;
   families ← dict_values (data s) FAMILIES;
   family_proxies ← dict_values (data s) FAMILY_PROXIES;
   edges ← dict_values (data s) EDGES;
   mret (mkEntireWorkflow workflow tasks task_proxies jobs families
           family_proxies edges)) s).

(** ** [update_family_proxies] *)

Section FamilyProxies.

Variable ext : Collaborators.

(** The order in which a [for] loop goes over a set is not specified:
    [pick n families] is the member the loop of round [n] meets first. *)
Variable pick : nat → gset string → option string.

(** The [while] loop; [None] when it has not ended after [rounds] rounds.
    [fuel] bounds the recursion of [_family_ascent_point_update]. *)
Fixpoint family_update_rounds (rounds fuel : nat) (s : Mgr)
  : option ((exn + unit) * Mgr) :=
  if decide (state_update_families s = ∅) then Some (inr tt, s)
  else
    match rounds with
    | O => None
    | S rounds' =>
        match pick rounds' (state_update_families s) with
        | Some fam_id =>
            match _family_ascent_point_update ext fuel fam_id s with
            | (inr _, s') => family_update_rounds rounds' fuel s'
            | (inl e, s') => Some (inl e, s')
            end
        | None => family_update_rounds rounds' fuel s
        end
    end.

(** [update_family_proxies] *)
Definition update_family_proxies (rounds fuel : nat) (s : Mgr)
  : option ((exn + unit) * Mgr) :=
  family_update_rounds rounds fuel
    (set_updated_state_families (λ _, ∅) s).

End FamilyProxies.

(** ** [generate_graph_elements]

    The edges of the graph come from the configuration of the suite
    ([config.get_graph_edges]), node ids are taken apart and checked by
    [TaskID], and strings are made cycle points by [get_point]; none of
    them is part of the sources, and they are kept as the functions they
    are called as.  Beside the manager the method works on
    [self.pool_points] and [self.edge_points]. *)

(** An edge as [config.get_graph_edges] yields it: the source and the
    target node at positions 0 and 1 (either may be missing), the flags
    [suicide] and [cond] at positions 3 and 4. *)
Record graph_edge : Type := mkGraphEdge {
  ge_source : option string;
  ge_target : option string;
  ge_suicide : bool;
  ge_cond : bool
}.

Section GraphGeneration.

Context {point : Type} `{Countable point}.

Variable ext : Collaborators.
Variable get_graph_edges : point → point → list graph_edge.
Variable TaskID_split : string → string * string.
Variable TaskID_is_valid_id : string → bool.
Variable get_point : string → point.
Variable min_point_of max_point_of : gset point → point.

Record Graph : Type := mkGraph {
  g_mgr : Mgr;
  g_pool_points : gset point;
  g_edge_points : gmap point (gset point)
}.

(** A method of the manager that leaves the points alone. *)
Definition on_mgr {A} (m : M Mgr A) : M Graph A :=
  λ g, let '(r, s) := m (g_mgr g) in
       (r, mkGraph s (g_pool_points g) (g_edge_points g)).

(** [self.edge_points.setdefault(s_point_cls, set())] *)
Definition edge_points_setdefault (s_point_cls : point) : M Graph unit :=
  modify (λ g, mkGraph (g_mgr g) (g_pool_points g)
                 (<[s_point_cls := default ∅ (g_edge_points g !! s_point_cls)]>
                    (g_edge_points g))).

(** [self.edge_points[s_point_cls].add(t_point_cls)], after the
    [setdefault] that comes before it. *)
Definition edge_points_add (s_point_cls t_point_cls : point) : M Graph unit :=
  modify (λ g, mkGraph (g_mgr g) (g_pool_points g)
                 (alter (λ t_points, t_points ∪ {[t_point_cls]}) s_point_cls
                    (g_edge_points g))).

(** [self.added[EDGES][e_id] = PbEdge(...)] *)
Definition added_edge_assign (e_id : string) (edge : Msg) : M Mgr unit :=
  s ← get;
  edges ← the_dict (added s) EDGES;
  modify (set_added (<[EDGES := Dict (<[e_id := edge]> edges)]>)).

(** [self.updated[TASK_PROXIES].setdefault(tp_id, PbTaskProxy(id=tp_id))
    .edges.append(e_id)] *)
Definition task_proxy_edges_append (tp_id e_id : string) : M Mgr unit :=
  s ← get;
  tp_updated ← the_dict (updated s) TASK_PROXIES;
  modify (set_updated (<[TASK_PROXIES :=
    Dict (setdefault_then tp_id (new_message [("id", FStr tp_id)])
            (rep_append "edges" e_id) tp_updated)]>)).

(** [getattr(self.updated[WORKFLOW], EDGES).edges.extend(new_edges)]; the
    ids of the set are taken in the order of [elements]. *)
Definition workflow_edges_extend (new_edges : gset string) : M Mgr unit :=
  s ← get;
  w ← the_message EDGES (updated s) WORKFLOW;
  modify (set_updated (<[WORKFLOW :=
    Message (rep_extend "edges.edges" (elements new_edges) w)]>)).

(** One turn of the loop over the edges; the state of the loop is the local
    [new_edges]. *)
Definition graph_edge_step (fuel : nat) (new_edges : gset string)
    (edge : graph_edge) : M Graph (gset string) :=
  match ge_source edge with
  | None => mret new_edges
  | Some s_node =>
      g ← get;
      let wid := workflow_id (g_mgr g) in
      let '(s_name, s_point) := TaskID_split s_node in
      let s_point_cls := get_point s_point in
      let s_valid := TaskID_is_valid_id s_node in
      let s_pool_point :=
        s_valid && bool_decide (s_point_cls ∈ g_pool_points g) in
      let t_valid :=
        match ge_target edge with
        | Some t_node =>
            negb (bool_decide (t_node = "")) && TaskID_is_valid_id t_node
        | None => false
        end in
      let t_node := default "" (ge_target edge) in
      let '(t_name, t_point) := TaskID_split t_node in
      let t_point_cls := get_point t_point in
      let t_pool_point :=
        t_valid && bool_decide (t_point_cls ∈ g_pool_points g) in
      if negb s_pool_point && negb t_pool_point then mret new_edges
      else
        let source_id := delim ext (delim ext wid s_point) s_name in
        (if s_valid then
           edge_points_setdefault s_point_cls;;
           on_mgr (generate_ghost_task ext fuel (delim ext wid s_name)
                     source_id s_point)
         else mret tt);;
        if t_valid then
          let target_id := delim ext (delim ext wid t_point) t_name in
          edge_points_setdefault s_point_cls;;
          edge_points_add s_point_cls t_point_cls;;
          on_mgr (generate_ghost_task ext fuel (delim ext wid t_name)
                    target_id t_point);;
          let e_id := delim ext (delim ext wid s_node) t_node in
          on_mgr (added_edge_assign e_id
                    (new_message
                       [ ("id", FStr e_id);
                         ("suicide", FBool (ge_suicide edge));
                         ("cond", FBool (ge_cond edge));
                         ("source", FStr source_id);
                         ("target", FStr target_id) ]));;
          on_mgr (task_proxy_edges_append target_id e_id);;
          (if s_valid then on_mgr (task_proxy_edges_append source_id e_id)
           else mret tt);;
          mret (new_edges ∪ {[e_id]})
        else mret new_edges
  end.

(** [generate_graph_elements]; [fuel] bounds the recursion of the ghost
    generation it calls. *)
Definition generate_graph_elements (fuel : nat)
    (start_point stop_point : option point) : M Graph unit :=
  g ← get;
  if decide (g_pool_points g = ∅) then mret tt
  else
    let start_point :=
      default (min_point_of (g_pool_points g)) start_point in
    let stop_point :=
      default (max_point_of (g_pool_points g)) stop_point in
    new_edges ← for_acc (get_graph_edges start_point stop_point) ∅
                  (graph_edge_step fuel);
    if decide (new_edges ≠ ∅) then on_mgr (workflow_edges_extend new_edges)
    else mret tt.

End GraphGeneration.

(* ===================================================================== *)
(** * Properties *)
(* ===================================================================== *)

(** ** Running the monad *)

Lemma run_bind {St A B} (m : M St A) (k : A → M St B) s :
  (m ≫= k) s = match m s with
               | (inr a, s') => k a s'
               | (inl e, s') => (inl e, s')
               end.
Proof. reflexivity. Qed.

Lemma run_bind_ok {St A B} (m : M St A) (k : A → M St B) s a s' :
  m s = (inr a, s') → (m ≫= k) s = k a s'.
Proof. intros H. by rewrite run_bind, H. Qed.

Lemma run_bind_raise {St A B} (m : M St A) (k : A → M St B) s e s' :
  m s = (inl e, s') → (m ≫= k) s = (inl e, s').
Proof. intros H. by rewrite run_bind, H. Qed.

Lemma for_cons {St A} (x : A) (l : list A) (body : A → M St unit) :
  for_ (x :: l) body = bind (body x) (λ _, for_ l body).
Proof. reflexivity. Qed.

Lemma run_subscript_Some {St V} (d : gmap string V) k v (s : St) :
  d !! k = Some v → subscript d k s = (inr v, s).
Proof. intros H. unfold subscript. by rewrite H. Qed.

Lemma run_subscript_None {St V} (d : gmap string V) k (s : St) :
  d !! k = None → subscript (St:=St) d k s = (inl (KeyError k), s).
Proof. intros H. unfold subscript. by rewrite H. Qed.

Lemma alter_lookup_insert {V} (f : V → V) (k : string) (m : gmap string V) x :
  m !! k = Some x → alter f k m = <[k := f x]> m.
Proof.
  intros H. apply map_eq. intros j. rewrite lookup_alter, lookup_insert.
  destruct (decide (k = j)) as [->|]; [by rewrite H|done].
Qed.

(** ** Messages: clearing and merging, field by field *)

Lemma MergeFrom_lookup (dst src : Msg) (f : string) :
  MergeFrom dst src !! f =
    match src !! f with
    | None => dst !! f
    | Some v => match dst !! f with
                | None => Some v
                | Some w => Some (merge_field w v)
                end
    end.
Proof.
  unfold MergeFrom. rewrite lookup_union_with.
  by destruct (dst !! f), (src !! f).
Qed.

Lemma MergeFrom_empty_l (src : Msg) : MergeFrom ∅ src = src.
Proof.
  apply map_eq. intros f. rewrite MergeFrom_lookup, lookup_empty.
  by destruct (src !! f).
Qed.

Lemma MergeFrom_empty_r (dst : Msg) : MergeFrom dst ∅ = dst.
Proof.
  apply map_eq. intros f. by rewrite MergeFrom_lookup, lookup_empty.
Qed.

(** The fields the clearing loop of [apply_delta] removes from the stored
    entity: it walks the fields set in the delta entity. *)
Definition cleared (cset : gset string) (fields : list (string * fval))
    (stored : Msg) : Msg :=
  foldl (λ m fv, if decide (fv.1 ∈ cset) then ClearField fv.1 m else m)
        stored fields.

Lemma cleared_lookup (cset : gset string) fields stored f :
  cleared cset fields stored !! f =
    if decide (f ∈ cset ∧ f ∈ fields.*1) then None else stored !! f.
Proof.
  revert stored. induction fields as [|[g v] fields IH]; intros stored.
  - simpl. case_decide as H; [|done]. destruct H as [_ H].
    by apply elem_of_nil in H.
  - change (cleared cset ((g, v) :: fields) stored)
      with (cleared cset fields
              (if decide (g ∈ cset) then ClearField g stored else stored)).
    rewrite IH. unfold ClearField. rewrite fmap_cons. simpl.
    destruct (decide (g ∈ cset)) as [Hg|Hg].
    + rewrite lookup_delete.
      repeat (match goal with |- context [decide ?P] => destruct (decide P) end);
        subst; try done; exfalso; rewrite ?elem_of_cons in *; naive_solver.
    + repeat (match goal with |- context [decide ?P] => destruct (decide P) end);
        subst; try done; exfalso; rewrite ?elem_of_cons in *; naive_solver.
Qed.

Lemma ListFields_names (m : Msg) f : f ∈ (ListFields m).*1 ↔ is_Some (m !! f).
Proof.
  unfold ListFields. rewrite list_elem_of_fmap. split.
  - intros [[g v] [-> H]]. apply elem_of_map_to_list in H. by exists v.
  - intros [v H]. exists (f, v). split; [done|]. by apply elem_of_map_to_list.
Qed.

(** ** [apply_delta]: one updated element *)

Lemma run_mutate_elem key id f data log d stored :
  data !! key = Some (Dict d) → d !! id = Some stored →
  mutate_elem key id f (mkEnv data log)
  = (inr tt, mkEnv (<[key := Dict (<[id := f stored]> d)]> data) log).
Proof.
  intros Hk Hi.
  unfold mutate_elem, data_elem, data_at, mbind, M_bind, bind, get, subscript,
    as_dict, modify; simpl.
  rewrite Hk; simpl. rewrite Hi; simpl.
  rewrite (alter_lookup_insert _ _ _ _ Hk). simpl.
  by rewrite (alter_lookup_insert _ _ _ _ Hi).
Qed.

Lemma run_mutate_elem_absent key id f data log d :
  data !! key = Some (Dict d) → d !! id = None →
  mutate_elem key id f (mkEnv data log) = (inl (KeyError id), mkEnv data log).
Proof.
  intros Hk Hi.
  unfold mutate_elem, data_elem, data_at, mbind, M_bind, bind, get, subscript,
    as_dict; simpl.
  rewrite Hk; simpl. by rewrite Hi.
Qed.

Lemma run_clear_loop (cset : gset string) key id
    (fields : list (string * fval)) data log d stored :
  data !! key = Some (Dict d) → d !! id = Some stored →
  for_ fields (λ fv,
      if decide (fv.1 ∈ cset)
      then mutate_elem key id (ClearField fv.1) else mret tt)
    (mkEnv data log)
  = (inr tt,
     mkEnv (<[key := Dict (<[id := cleared cset fields stored]> d)]> data) log).
Proof.
  revert data d stored.
  induction fields as [|[g v] fields IH]; intros data d stored Hk Hi; simpl.
  - unfold ret. by rewrite (insert_id d), (insert_id data).
  - destruct (decide (g ∈ cset)) as [Hg|Hg].
    + unfold bind. rewrite (run_mutate_elem _ _ _ _ _ _ _ Hk Hi).
      erewrite IH; [|apply lookup_insert_eq|apply lookup_insert_eq].
      by rewrite !insert_insert_eq.
    + unfold bind, mret, M_ret, ret. by apply IH.
Qed.

Lemma run_clear_loop_absent (cset : gset string) key id
    (fields : list (string * fval)) data log d :
  data !! key = Some (Dict d) → d !! id = None →
  ∃ r, for_ fields (λ fv,
      if decide (fv.1 ∈ cset)
      then mutate_elem key id (ClearField fv.1) else mret tt)
    (mkEnv data log) = (r, mkEnv data log)
    ∧ (r = inr tt ∨ r = inl (KeyError id)).
Proof.
  intros Hk Hi. induction fields as [|[g v] fields IH]; simpl.
  - exists (inr tt). by split; [|left].
  - destruct (decide (g ∈ cset)) as [Hg|Hg].
    + exists (inl (KeyError id)). split; [|by right].
      unfold bind. by rewrite (run_mutate_elem_absent _ _ _ _ _ _ Hk Hi).
    + destruct IH as (r & Hr & Hor). exists r. split; [|done].
      unfold bind, mret, M_ret, ret. exact Hr.
Qed.

Lemma run_merge_updated_element key (cset : gset string) element data log d stored :
  CLEAR_FIELD_MAP !! key = Some cset →
  data !! key = Some (Dict d) →
  d !! get_str "id" element = Some stored →
  merge_updated_element key element (mkEnv data log)
  = (inr tt,
     mkEnv (<[key := Dict (<[get_str "id" element :=
                MergeFrom (cleared cset (ListFields element) stored) element]> d)]>
              data) log).
Proof.
  intros Hc Hk Hi. unfold merge_updated_element.
  erewrite run_bind_ok; [|by apply run_subscript_Some].
  destruct (decide (cset ≠ ∅)) as [Hne|He].
  - erewrite run_bind_ok; [|by apply run_clear_loop].
    erewrite run_mutate_elem; [|apply lookup_insert_eq|apply lookup_insert_eq].
    by rewrite !insert_insert_eq.
  - erewrite run_bind_ok; [|reflexivity].
    erewrite run_mutate_elem; [|done..].
    replace (cleared cset (ListFields element) stored) with stored; [done|].
    apply map_eq. intros f. rewrite cleared_lookup.
    apply dec_stable in He. subst cset.
    rewrite decide_False; [done|]. intros [H _]. by apply not_elem_of_empty in H.
Qed.

Lemma run_merge_updated_element_absent key (cset : gset string) element data log d :
  CLEAR_FIELD_MAP !! key = Some cset →
  data !! key = Some (Dict d) →
  d !! get_str "id" element = None →
  merge_updated_element key element (mkEnv data log)
  = (inl (KeyError (get_str "id" element)), mkEnv data log).
Proof.
  intros Hc Hk Hi. unfold merge_updated_element.
  erewrite run_bind_ok; [|by apply run_subscript_Some].
  destruct (decide (cset ≠ ∅)) as [Hne|He].
  - destruct (run_clear_loop_absent cset key (get_str "id" element)
                (ListFields element) data log d Hk Hi) as (r & Hr & [->| ->]).
    + erewrite run_bind_ok; [|exact Hr]. by apply run_mutate_elem_absent with d.
    + erewrite run_bind_raise; [done|exact Hr].
  - erewrite run_bind_ok; [|reflexivity]. by apply run_mutate_elem_absent with d.
Qed.

Lemma CLEAR_FIELD_MAP_cases key (cset : gset string) :
  CLEAR_FIELD_MAP !! key = Some cset →
  (key = EDGES ∧ cset = ∅) ∨ (key = FAMILIES ∧ cset = ∅)
  ∨ (key = FAMILY_PROXIES ∧ cset = {["state_totals"; "states"]})
  ∨ (key = JOBS ∧ cset = ∅) ∨ (key = TASKS ∧ cset = ∅)
  ∨ (key = TASK_PROXIES ∧ cset = {["prerequisites"; "outputs"]})
  ∨ (key = WORKFLOW ∧ cset = {["state_totals"; "states"]}).
Proof.
  unfold CLEAR_FIELD_MAP. simpl. intros H.
  repeat (apply lookup_insert_Some in H as [[<- <-]|[_ H]]; [tauto|]).
  by rewrite lookup_empty in H.
Qed.

(** The elements of an updated batch are applied one after the other. *)
Lemma run_apply_updated_cons key delta element rest env :
  key ≠ WORKFLOW → d_updated delta = Rep (element :: rest) →
  apply_updated key delta env
  = (apply_updated_element key element;; for_ rest (apply_updated_element key)) env.
Proof.
  intros Hk Hd. unfold apply_updated. rewrite Hd. simpl.
  by rewrite decide_False.
Qed.


(** A family proxy in a store, and a partial entity that updates it. *)
Definition sample_stored_family : Msg :=
  list_to_map
    [ ("id", FStr "u|w|1|root"); ("state", FStr "waiting");
      ("states", FRep ["waiting"]); ("child_tasks", FRep ["u|w|1|a"]) ].

Definition sample_family_update : Msg :=
  list_to_map
    [ ("id", FStr "u|w|1|root"); ("state", FStr "running");
      ("states", FRep ["running"]); ("child_tasks", FRep ["u|w|1|b"]) ].

Definition sample_mirror : Env :=
  mkEnv (<[FAMILY_PROXIES := Dict {["u|w|1|root" := sample_stored_family]}]>
           DATA_TEMPLATE) [].


(** ** [apply_delta]: an updated element whose id is missing *)

Lemma run_apply_updated_element_absent key (cset : gset string) element data log d :
  CLEAR_FIELD_MAP !! key = Some cset →
  data !! key = Some (Dict d) →
  d !! get_str "id" element = None →
  apply_updated_element key element (mkEnv data log)
  = (inr tt,
     mkEnv data
       (log ++ [mkLog "DEBUG" missing_element_text (get_str "id" element)])).
Proof.
  intros Hc Hk Hi. unfold apply_updated_element, try_except_KeyError.
  by rewrite (run_merge_updated_element_absent _ cset _ _ _ d).
Qed.

(** A batch of updated elements never raises; it changes the dict of its
    kind only, keeps the ids of that dict, and only adds to the log. *)
Lemma run_updated_batch key (cset : gset string) (l : list Msg) data log d :
  CLEAR_FIELD_MAP !! key = Some cset →
  data !! key = Some (Dict d) →
  ∃ d' more,
    for_ l (apply_updated_element key) (mkEnv data log)
    = (inr tt, mkEnv (<[key := Dict d']> data) (log ++ more))
    ∧ dom d' = dom d
    ∧ (∀ id, id ∉ get_str "id" <$> l → d' !! id = d !! id).
Proof.
  intros Hc. revert data log d.
  induction l as [|element l IH]; intros data log d Hk.
  - exists d, []. simpl. unfold ret.
    by rewrite insert_id, app_nil_r.
  - rewrite for_cons. unfold bind.
    destruct (d !! get_str "id" element) as [stored|] eqn:Hi.
    + unfold apply_updated_element at 1, try_except_KeyError.
      rewrite (run_merge_updated_element _ cset _ _ _ d stored Hc Hk Hi).
      edestruct IH as (d' & more & Hrun & Hdom & Hother);
        [apply lookup_insert_eq|].
      exists d', more. rewrite Hrun, insert_insert_eq. split; [done|]. split.
      * rewrite Hdom, dom_insert_L.
        assert (get_str "id" element ∈ dom d) by (apply elem_of_dom; eauto).
        set_solver.
      * intros id Hid. rewrite fmap_cons, not_elem_of_cons in Hid.
        destruct Hid as [Hne Hid]. rewrite (Hother id Hid).
        by rewrite lookup_insert_ne.
    + rewrite (run_apply_updated_element_absent _ cset _ _ _ d Hc Hk Hi).
      destruct (IH data
                  (log ++ [mkLog "DEBUG" missing_element_text
                             (get_str "id" element)]) d Hk)
        as (d' & more & Hrun & Hdom & Hother).
      exists d', (mkLog "DEBUG" missing_element_text (get_str "id" element)
                  :: more).
      rewrite Hrun, <- app_assoc. split; [done|]. split; [done|].
      intros id Hid. rewrite fmap_cons, not_elem_of_cons in Hid.
      apply Hother, Hid.
Qed.



(** ** [generate_checksum] *)

Lemma adler32_sums_range (s : string) (a b : Z) :
  0 ≤ a < MOD_ADLER → 0 ≤ b < MOD_ADLER →
  0 ≤ (adler32_sums s a b).1 < MOD_ADLER
  ∧ 0 ≤ (adler32_sums s a b).2 < MOD_ADLER.
Proof.
  revert a b. induction s as [|c s IH]; intros a b Ha Hb; simpl.
  - done.
  - apply IH; apply Z.mod_pos_bound; reflexivity.
Qed.

Lemma pack_halves (a b : Z) :
  0 ≤ a < 65536 → Z.lor (Z.shiftl b 16) a = b * 65536 + a.
Proof.
  intros Ha. rewrite <- Z.add_nocarry_lor.
  - by rewrite Z.shiftl_mul_pow2.
  - apply Z.bits_inj'. intros n Hn.
    rewrite Z.land_spec, Z.bits_0.
    destruct (decide (n < 16)) as [Hlt|Hge].
    + by rewrite Z.shiftl_spec_low.
    + destruct (decide (a = 0)) as [->|Hne].
      * by rewrite Z.bits_0, andb_false_r.
      * rewrite (Z.bits_above_log2 a n), andb_false_r; [done|lia|].
        assert (Z.log2 a < 16); [|lia].
        apply Z.log2_lt_pow2; lia.
Qed.

Lemma adler32_packed (s : string) :
  adler32 s
  = (adler32_sums s 1 0).2 * 65536 + (adler32_sums s 1 0).1.
Proof.
  unfold adler32.
  destruct (adler32_sums_range s 1 0) as [Ha _]; [done..|].
  destruct (adler32_sums s 1 0) as [a b]. simpl in *.
  apply pack_halves. unfold MOD_ADLER in Ha. lia.
Qed.

Lemma adler32_range (s : string) : 0 ≤ adler32 s < 2 ^ 32.
Proof.
  rewrite adler32_packed.
  destruct (adler32_sums_range s 1 0) as [Ha Hb]; [done..|].
  unfold MOD_ADLER in *. lia.
Qed.

(** The mask keeps the checksum as it is: Adler-32 fits in 32 bits. *)
Lemma generate_checksum_unmasked (in_strings : list string) :
  generate_checksum in_strings = adler32 (join (sorted in_strings)).
Proof.
  unfold generate_checksum. change 4294967295 with (Z.ones 32).
  rewrite Z.land_ones by done. apply Z.mod_small, adler32_range.
Qed.

Lemma sorted_StronglySorted (l : list string) :
  StronglySorted String.le (sorted l).
Proof. apply StronglySorted_merge_sort; apply _. Qed.

Lemma sorted_Permutation (l : list string) : sorted l ≡ₚ l.
Proof. apply merge_sort_Permutation. Qed.

(** [sorted] is the one ascending arrangement of its argument, whatever the
    sorting algorithm: it depends on the multiset of the strings only. *)
Lemma sorted_unique (l sl : list string) :
  StronglySorted String.le sl → sl ≡ₚ l → sorted l = sl.
Proof.
  intros Hs Hp. apply (StronglySorted_unique String.le).
  - apply sorted_StronglySorted.
  - exact Hs.
  - by rewrite sorted_Permutation.
Qed.

Lemma sorted_perm (l1 l2 : list string) : l1 ≡ₚ l2 → sorted l1 = sorted l2.
Proof.
  intros Hp. apply sorted_unique; [apply sorted_StronglySorted|].
  by rewrite sorted_Permutation.
Qed.

Lemma generate_checksum_perm (l1 l2 : list string) :
  l1 ≡ₚ l2 → generate_checksum l1 = generate_checksum l2.
Proof. intros Hp. unfold generate_checksum. by rewrite (sorted_perm l1 l2). Qed.

Lemma generate_checksum_range (l : list string) :
  0 ≤ generate_checksum l < 2 ^ 32.
Proof. rewrite generate_checksum_unmasked. apply adler32_range. Qed.

Example adler32_Wikipedia : adler32 "Wikipedia" = 300286872.
Proof. reflexivity. Qed.

Example generate_checksum_order :
  generate_checksum ["b|2"; "a|1"; "c"] = generate_checksum ["c"; "b|2"; "a|1"].
Proof. reflexivity. Qed.


(** ** What a method leaves untouched

    [stable P m]: whatever the outcome of [m], the state it ends in is
    related by [P] to the state it started from. *)

Definition stable {A} (P : relation Mgr) (m : M Mgr A) : Prop :=
  ∀ s r s', m s = (r, s') → P s s'.

Section Stable.

Context (P : relation Mgr) `{!PreOrder P}.

Lemma stable_ret {A} (a : A) : stable P (mret a).
Proof. intros s r s' [= _ <-]. reflexivity. Qed.

Lemma stable_raise {A} (e : exn) : stable P (raise (A:=A) e).
Proof. intros s r s' [= _ <-]. reflexivity. Qed.

Lemma stable_get : stable P get.
Proof. intros s r s' [= _ <-]. reflexivity. Qed.

Lemma stable_modify (f : Mgr → Mgr) : (∀ s, P s (f s)) → stable P (modify f).
Proof. intros Hf s r s' [= _ <-]. apply Hf. Qed.

Lemma stable_bind {A B} (m : M Mgr A) (k : A → M Mgr B) :
  stable P m → (∀ a, stable P (k a)) → stable P (m ≫= k).
Proof.
  intros Hm Hk s r s'. rewrite run_bind.
  destruct (m s) as [[e|a] s1] eqn:Hrun.
  - intros [= _ <-]. by apply (Hm _ _ _ Hrun).
  - intros Hrun2. transitivity s1; [by apply (Hm _ _ _ Hrun)|].
    by apply (Hk a _ _ _ Hrun2).
Qed.

Lemma stable_for {A} (l : list A) (body : A → M Mgr unit) :
  (∀ x, stable P (body x)) → stable P (for_ l body).
Proof.
  intros Hbody. induction l as [|x l IH]; simpl.
  - apply (stable_ret tt).
  - apply (stable_bind (body x)); [apply Hbody|intros _; apply IH].
Qed.

Lemma stable_subscript {V} (d : gmap string V) k : stable P (subscript d k).
Proof.
  unfold subscript. destruct (d !! k); [apply stable_ret|apply stable_raise].
Qed.

Lemma stable_as_dict s : stable P (as_dict s).
Proof. destruct s; [apply stable_ret|apply stable_raise]. Qed.

Lemma stable_as_message a s : stable P (as_message a s).
Proof. destruct s; [apply stable_raise|apply stable_ret]. Qed.

Lemma stable_the_dict store key : stable P (the_dict store key).
Proof.
  apply stable_bind; [apply stable_subscript|intros ?; apply stable_as_dict].
Qed.

Lemma stable_the_message a store key : stable P (the_message a store key).
Proof.
  apply stable_bind; [apply stable_subscript|intros ?; apply stable_as_message].
Qed.

Lemma stable_lift_result {A} (r : exn + A) : stable P (lift_result r).
Proof. destruct r; [apply stable_raise|apply stable_ret]. Qed.

Lemma stable_the_delta key : stable P (the_delta key).
Proof.
  apply stable_bind; [apply stable_get|intros s].
  destruct (list_find _ _) as [[? ?]|]; [apply stable_ret|apply stable_raise].
Qed.

End Stable.

(** The steps the [stable] lemmas take apart. *)
Ltac stable_step :=
  lazymatch goal with
  | |- stable _ (_ ≫= _) => apply stable_bind; [apply _| |intros ?]
  | |- stable _ (mret _) => apply stable_ret; apply _
  | |- stable _ (raise _) => apply stable_raise; apply _
  | |- stable _ get => apply stable_get; apply _
  | |- stable _ (for_ _ _) => apply stable_for; [apply _|intros ?]
  | |- stable _ (modify _) => apply stable_modify; intros ?
  | |- stable _ (subscript _ _) => apply stable_subscript; apply _
  | |- stable _ (as_dict _) => apply stable_as_dict; apply _
  | |- stable _ (as_message _ _) => apply stable_as_message; apply _
  | |- stable _ (the_dict _ _) => apply stable_the_dict; apply _
  | |- stable _ (the_message _ _ _) => apply stable_the_message; apply _
  | |- stable _ (the_delta _) => apply stable_the_delta; apply _
  | |- stable _ (lift_result _) => apply stable_lift_result; apply _
  | |- stable _ (if ?c then _ else _) => destruct c
  | |- stable _ (match ?x with _ => _ end) => destruct x
  end.

Ltac stable_steps := repeat stable_step.

(** ** [apply_deltas]: the checksum of each delta *)

Definition same_delta_keys : relation Mgr :=
  λ s s', (deltas s').*1 = (deltas s).*1.

#[global] Instance same_delta_keys_preorder : PreOrder same_delta_keys.
Proof.
  split; [by intros s|]. intros s1 s2 s3 H12 H23. unfold same_delta_keys in *.
  by rewrite H23.
Qed.

Lemma alter_delta_keys key f (l : list (string * Deltas)) :
  (alter_delta key f l).*1 = l.*1.
Proof.
  unfold alter_delta. induction l as [|[k d] l IH]; [done|].
  rewrite !fmap_cons, IH. simpl. by destruct (decide (k = key)).
Qed.

Lemma alter_delta_middle key f (pre post : list (string * Deltas)) delta :
  key ∉ pre.*1 → key ∉ post.*1 →
  alter_delta key f (pre ++ (key, delta) :: post)
  = pre ++ (key, f delta) :: post.
Proof.
  intros Hpre Hpost. unfold alter_delta.
  assert (Hid : ∀ l : list (string * Deltas), key ∉ l.*1 →
    (λ kd : string * Deltas,
       if decide (kd.1 = key) then (kd.1, f kd.2) else kd) <$> l = l).
  { induction l as [|[k d] l IH]; [done|]. intros Hin.
    rewrite fmap_cons in Hin. apply not_elem_of_cons in Hin as [Hne Hin].
    rewrite fmap_cons. simpl in *.
    rewrite decide_False by congruence. by rewrite IH. }
  rewrite fmap_app, fmap_cons, (Hid pre Hpre), (Hid post Hpost). simpl.
  by rewrite decide_True.
Qed.

Section ApplyDeltas.

Variable ext : Collaborators.

Lemma stable_time (P : relation Mgr) :
  (∀ s, P s (time ext s).2) → stable P (time ext).
Proof. intros HP s r s' Hrun. specialize (HP s). by rewrite Hrun in HP. Qed.

Lemma keys_run_apply_delta key delta :
  stable same_delta_keys (run_apply_delta key delta).
Proof.
  intros s r s'. unfold run_apply_delta.
  destruct (apply_delta _ _ _) as [r' e]. by intros [= _ <-].
Qed.

Lemma keys_copy_in_job_deltas : stable same_delta_keys copy_in_job_deltas.
Proof.
  unfold copy_in_job_deltas. stable_steps;
    unfold same_delta_keys; simpl; by rewrite ?alter_delta_keys.
Qed.

Lemma keys_gather_buffer get_p set_p key elements :
  stable same_delta_keys (gather_buffer get_p set_p key elements).
Proof.
  unfold gather_buffer. stable_steps;
    unfold same_delta_keys; simpl; by rewrite ?alter_delta_keys.
Qed.

Lemma keys_gather_deltas : stable same_delta_keys gather_deltas.
Proof.
  unfold gather_deltas. stable_steps; apply keys_gather_buffer.
Qed.

Lemma keys_apply_one reloaded kd : stable same_delta_keys (apply_one reloaded kd).
Proof.
  unfold apply_one. stable_steps; try apply keys_run_apply_delta;
    unfold same_delta_keys; simpl; by rewrite ?alter_delta_keys.
Qed.

(** The delta of a kind once its turn of the checksum loop is over. *)
Definition exported (update_time : Z) (store : Store) (kd : string * Deltas)
  : string * Deltas :=
  if delta_has_fields kd.2 then
    (kd.1,
     (if has_checksum ext kd.1 then
        match store !! kd.1 with
        | Some (Dict d) =>
            set_d_checksum (generate_checksum (checksum_strings kd.1 d))
        | _ => λ delta, delta
        end
      else λ delta, delta) (set_d_time update_time kd.2))
  else kd.

Lemma run_bind_inv {A B} (m : M Mgr A) (k : A → M Mgr B) s b s' :
  (m ≫= k) s = (inr b, s') →
  ∃ a s1, m s = (inr a, s1) ∧ k a s1 = (inr b, s').
Proof.
  rewrite run_bind. destruct (m s) as [[e|a] s1]; [done|]. intros Hk.
  by exists a, s1.
Qed.

Lemma run_export_checksum update_time key delta pre post s s' :
  deltas s = pre ++ (key, delta) :: post →
  key ∉ pre.*1 → key ∉ post.*1 →
  export_checksum ext update_time (key, delta) s = (inr tt, s') →
  deltas s' = pre ++ exported update_time (data s) (key, delta) :: post
  ∧ data s' = data s
  ∧ (delta_has_fields delta = true → has_checksum ext key = true →
     ∃ d, data s !! key = Some (Dict d)).
Proof.
  intros Hdeltas Hpre Hpost. unfold export_checksum, exported. simpl.
  destruct (delta_has_fields delta); [|by intros [= <-]].
  rewrite run_bind. simpl. destruct (has_checksum ext key).
  - rewrite run_bind. simpl. rewrite run_bind. unfold subscript. simpl.
    destruct (data s !! key) as [[d|m]|]; simpl; [|done..].
    intros [= <-]. simpl. rewrite Hdeltas.
    rewrite (alter_delta_middle _ _ _ _ _ Hpre Hpost).
    rewrite (alter_delta_middle _ _ _ _ _ Hpre Hpost). eauto.
  - intros [= <-]. simpl. rewrite Hdeltas.
    by rewrite (alter_delta_middle _ _ _ _ _ Hpre Hpost).
Qed.

Lemma run_export_loop update_time (l pre : list (string * Deltas)) s s' :
  deltas s = pre ++ l → NoDup (pre ++ l).*1 →
  for_ l (export_checksum ext update_time) s = (inr tt, s') →
  deltas s' = pre ++ (exported update_time (data s) <$> l)
  ∧ data s' = data s
  ∧ (∀ kd, kd ∈ l → delta_has_fields kd.2 = true →
       has_checksum ext kd.1 = true → ∃ d, data s !! kd.1 = Some (Dict d)).
Proof.
  revert pre s. induction l as [|[key delta] l IH]; intros pre s Hdeltas Hnd.
  - intros [= <-]. rewrite app_nil_r in *. split; [done|]. split; [done|].
    intros kd Hin. by apply elem_of_nil in Hin.
  - rewrite for_cons. intros ([] & s1 & Hone & Hrest)%run_bind_inv.
    rewrite fmap_app, fmap_cons in Hnd. simpl in Hnd.
    apply NoDup_app in Hnd as (Hnd_pre & Hcross & Hnd_l).
    apply NoDup_cons in Hnd_l as [Hnotin Hnd_l].
    assert (Hpre : key ∉ pre.*1).
    { intros Hin. apply (Hcross _ Hin). left. }
    destruct (run_export_checksum _ _ _ _ _ _ _ Hdeltas Hpre Hnotin Hone)
      as (Hd1 & Hdata1 & Hdict).
    destruct (IH (pre ++ [exported update_time (data s) (key, delta)]) s1)
      as (Hd' & Hdata' & Hdicts).
    + by rewrite <- app_assoc.
    + rewrite <- app_assoc, fmap_app. simpl.
      assert ((exported update_time (data s) (key, delta)).1 = key) as ->.
      { unfold exported. simpl. by destruct (delta_has_fields delta). }
      apply NoDup_app. split; [done|]. split; [done|]. by apply NoDup_cons.
    + exact Hrest.
    + rewrite Hd', Hdata', Hdata1, <- app_assoc, fmap_cons.
      split; [done|]. split; [done|].
      intros kd [->|Hin]%elem_of_cons; [exact Hdict|].
      rewrite <- Hdata1. by apply Hdicts.
Qed.

End ApplyDeltas.


(** C2 (as amended).  When [apply_deltas] returns, every delta that is not
    empty and whose message has a checksum field carries the Adler-32
    checksum, masked to 32 bits, of the concatenation of the sorted strings
    of its kind in the store as it is then: the ids for edges, the stamps
    for the other kinds.  The value lies in 32 bits and is the same for any
    rearrangement of those strings. *)
Theorem apply_deltas_checksum
    (ext : Collaborators) (reloaded : bool) (s s' : Mgr)
    (key : string) (delta : Deltas) :
  NoDup (deltas s).*1 →
  apply_deltas ext reloaded s = (inr tt, s') →
  (key, delta) ∈ deltas s' →
  delta_has_fields delta = true →
  has_checksum ext key = true →
  ∃ d : gmap string Msg,
    data s' !! key = Some (Dict d)
    ∧ let strings :=
        get_str (if decide (key = EDGES) then "id" else "stamp")
          <$> (map_to_list d).*2 in
      d_checksum delta = Z.land (adler32 (join (sorted strings))) 4294967295
      ∧ StronglySorted String.le (sorted strings)
      ∧ sorted strings ≡ₚ strings
      ∧ 0 ≤ d_checksum delta < 2 ^ 32
      ∧ ∀ others, others ≡ₚ strings → generate_checksum others = d_checksum delta.
Proof.
  intros Hnd Hrun Hin Hfields Hcheck. unfold apply_deltas in Hrun.
  apply run_bind_inv in Hrun as ([] & s1 & Hcopy & Hrun).
  apply run_bind_inv in Hrun as ([] & s2 & Hgather & Hrun).
  apply run_bind_inv in Hrun as (? & ? & [= <- <-] & Hrun).
  apply run_bind_inv in Hrun as ([] & s3 & Happly & Hrun).
  apply run_bind_inv in Hrun as (update_time & s4 & Htime & Hrun).
  apply run_bind_inv in Hrun as (? & ? & [= <- <-] & Hrun).
  apply run_bind_inv in Hrun as ([] & s5 & Hexport & Hrun).
  injection Hrun as <-.
  assert (Hkeys : (deltas s4).*1 = (deltas s).*1).
  { transitivity (deltas s3).*1.
    { by apply (stable_time ext same_delta_keys (λ _, eq_refl) _ _ _ Htime). }
    transitivity (deltas s2).*1.
    { apply (stable_for same_delta_keys _ _ (keys_apply_one reloaded)
               _ _ _ Happly). }
    transitivity (deltas s1).*1.
    { apply (keys_gather_deltas _ _ _ Hgather). }
    apply (keys_copy_in_job_deltas _ _ _ Hcopy). }
  destruct (run_export_loop ext update_time (deltas s4) [] s4 s5)
    as (Hd5 & Hdata5 & Hdicts); [done|simpl; by rewrite Hkeys|done|].
  simpl in Hin |- *. rewrite Hd5 in Hin. simpl in Hin.
  apply list_elem_of_fmap in Hin as ([key0 delta0] & Heq & Hin0).
  unfold exported in Heq. simpl in Heq.
  destruct (delta_has_fields delta0) eqn:Hf0; cycle 1.
  { injection Heq as -> ->. congruence. }
  injection Heq as <- Hdelta. rewrite Hcheck in Hdelta.
  destruct (Hdicts _ Hin0 Hf0 Hcheck) as [d Hd]. simpl in Hd.
  rewrite Hd in Hdelta. exists d. rewrite Hdata5. split; [done|].
  fold (checksum_strings key d). subst delta. simpl.
  split; [done|]. split; [apply sorted_StronglySorted|].
  split; [apply sorted_Permutation|]. split; [apply generate_checksum_range|].
  intros others. apply generate_checksum_perm.
Qed.


(** ** A small workflow to run the methods on

    One task [a] under the root family, owner [u], workflow [w]. *)

Definition sample_ext (workflow_checksum : bool) : Collaborators :=
  mkCollaborators "|" (λ n, 1600000000 + Z.of_nat n) pretty
    (λ states, default "" (head states)) ("running", "") None
    (λ key, workflow_checksum || bool_decide (key ≠ WORKFLOW)).

Definition sample_task : Msg :=
  list_to_map [ ("id", FStr "u|w|a"); ("name", FStr "a"); ("depth", FNum 1) ].

Definition sample_root : Msg :=
  list_to_map [ ("id", FStr "u|w|root"); ("name", FStr "root") ].

Definition sample_start : Mgr :=
  mkMgr "u|w"
    (list_to_map [ ("a", ["a"; "root"]); ("root", ["root"]) ])
    DATA_TEMPLATE
    (<[TASKS := Dict {["u|w|a" := sample_task]}]>
       (<[FAMILIES := Dict {["u|w|root" := sample_root]}]> DATA_TEMPLATE))
    DATA_TEMPLATE initial_deltas None None ∅ ∅ false
    (mkJobPool empty_kind_deltas ∅ ∅ false) 0 [].

(** The manager after the ghost of [a] at cycle point 1 was generated. *)
Definition sample_ghosted : Mgr :=
  Eval vm_compute in
    (generate_ghost_task (sample_ext false) 8 "u|w|a" "u|w|1|a" "1"
       sample_start).2.

(** ... after [update_workflow] wrote the workflow summary ... *)
Definition sample_summarised : Mgr :=
  Eval vm_compute in (update_workflow (sample_ext false) sample_ghosted).2.

(** ... and after [apply_deltas] folded the buffers into the store. *)
Definition sample_applied : Mgr :=
  Eval vm_compute in
    (apply_deltas (sample_ext false) false sample_summarised).2.

Definition sample_delta (n : nat) : Deltas :=
  default empty_kind_deltas (snd <$> deltas (sample_applied) !! n).

Definition sample_workflow : Msg :=
  match data (sample_applied) !! WORKFLOW with
  | Some (Message m) => m
  | _ => ∅
  end.

Lemma apply_deltas_checksum_witness :
  NoDup (deltas sample_summarised).*1
  ∧ apply_deltas (sample_ext false) false sample_summarised
    = (inr tt, sample_applied)
  ∧ (TASK_PROXIES, sample_delta 5) ∈ deltas (sample_applied)
  ∧ delta_has_fields (sample_delta 5) = true
  ∧ has_checksum (sample_ext false) TASK_PROXIES = true
  ∧ ∃ d : gmap string Msg,
      data (sample_applied) !! TASK_PROXIES = Some (Dict d)
      ∧ d_checksum (sample_delta 5)
        = Z.land (adler32 (join (sorted (get_str "stamp"
                                           <$> (map_to_list d).*2))))
                 4294967295.
Proof.
  assert (H1 : NoDup (deltas sample_summarised).*1)
    by (apply (bool_decide_unpack _); vm_compute; exact I).
  assert (H2 : apply_deltas (sample_ext false) false sample_summarised
               = (inr tt, sample_applied))
    by (vm_compute; reflexivity).
  assert (H3 : (TASK_PROXIES, sample_delta 5) ∈ deltas (sample_applied))
    by (apply list_elem_of_lookup_2 with 5%nat; vm_compute; reflexivity).
  assert (H4 : delta_has_fields (sample_delta 5) = true)
    by (vm_compute; reflexivity).
  assert (H5 : has_checksum (sample_ext false) TASK_PROXIES = true)
    by (vm_compute; reflexivity).
  split; [exact H1|]. split; [exact H2|]. split; [exact H3|].
  split; [exact H4|]. split; [exact H5|].
  destruct (apply_deltas_checksum _ _ _ _ _ _ H1 H2 H3 H4 H5)
    as (d & Hd & Hsum & _).
  exists d. split; [exact Hd|exact Hsum].
Defined.

(** C2 does not hold of the workflow kind: its delta is not empty after
    [apply_deltas], and either the delta message has no checksum field and
    none is computed, or it has one and the checksum loop raises, the
    workflow being one message and not a dict of entities. *)
Lemma apply_deltas_workflow_checksum :
  ((apply_deltas (sample_ext false) false sample_summarised).1 = inr tt
   ∧ (WORKFLOW, sample_delta 6) ∈ deltas (sample_applied)
   ∧ delta_has_fields (sample_delta 6) = true
   ∧ data (sample_applied) !! WORKFLOW = Some (Message sample_workflow)
   ∧ d_checksum (sample_delta 6) = 0
   ∧ generate_checksum [get_str "stamp" sample_workflow] = 530973586)
  ∧ (apply_deltas (sample_ext true) false sample_summarised).1
    = inl (AttributeError "values").
Proof.
  split; [|vm_compute; reflexivity].
  split; [vm_compute; reflexivity|].
  split; [apply list_elem_of_lookup_2 with 6%nat; vm_compute; reflexivity|].
  repeat split; vm_compute; reflexivity.
Qed.


(** ** Counters *)

Definition Zsum (l : list Z) : Z := foldr Z.add 0 l.

Lemma filter_all {A} (P : A → Prop) `{!∀ x, Decision (P x)} (l : list A) :
  (∀ x, x ∈ l → P x) → filter P l = l.
Proof.
  induction l as [|x l IH]; intros Hall; [done|].
  rewrite filter_cons_True by (apply Hall; left).
  f_equal. apply IH. intros y Hy. apply Hall. by right.
Qed.

Module CounterFacts.

Import Counter.

(** A counter as [+=] leaves it: no key twice, every count positive. *)
Definition wf (c : t) : Prop :=
  NoDup (keys c) ∧ ∀ k n, (k, n) ∈ c → 0 < n.

(** What the items [other] add to the count of [k]. *)
Definition weight (k : string) (other : list (string * Z)) : Z :=
  Zsum ((λ kn : string * Z, if decide (kn.1 = k) then kn.2 else 0) <$> other).

Lemma keys_cons k n (c : t) : keys ((k, n) :: c) = k :: keys c.
Proof. reflexivity. Qed.

Lemma keys_elem k n (c : t) : (k, n) ∈ c → k ∈ keys c.
Proof. intros Hin. apply list_elem_of_fmap. by exists (k, n). Qed.

Lemma count_absent (c : t) k : k ∉ keys c → count c k = 0.
Proof.
  induction c as [|[k' n] c IH]; [done|]. rewrite keys_cons.
  intros [Hne Hin]%not_elem_of_cons. simpl.
  rewrite decide_False by done. by apply IH.
Qed.

Lemma count_present (c : t) k n : NoDup (keys c) → (k, n) ∈ c → count c k = n.
Proof.
  induction c as [|[k' n'] c IH]; intros Hnd Hin.
  - by apply elem_of_nil in Hin.
  - rewrite keys_cons in Hnd.
    apply NoDup_cons in Hnd as [Hnotin Hnd]. simpl.
    apply elem_of_cons in Hin as [[= -> ->]|Hin].
    + by rewrite decide_True.
    + rewrite decide_False; [by apply IH|]. intros ->. apply Hnotin.
      by apply keys_elem with n.
Qed.

Lemma keys_add k n (c : t) k' : k' ∈ keys (add k n c) ↔ k' = k ∨ k' ∈ keys c.
Proof.
  induction c as [|[k0 m] c IH]; cbn [add].
  - rewrite keys_cons, elem_of_cons, elem_of_nil. tauto.
  - destruct (decide (k = k0)) as [->|Hne];
      rewrite !keys_cons, !elem_of_cons; [tauto|].
    rewrite IH. tauto.
Qed.

Lemma NoDup_add k n (c : t) : NoDup (keys c) → NoDup (keys (add k n c)).
Proof.
  induction c as [|[k0 m] c IH]; intros Hnd.
  - apply NoDup_singleton.
  - rewrite keys_cons in Hnd. apply NoDup_cons in Hnd as [Hnotin Hnd].
    cbn [add]. destruct (decide (k = k0)) as [->|Hne]; rewrite keys_cons.
    + by apply NoDup_cons.
    + apply NoDup_cons. split; [|by apply IH].
      intros [->|Hin]%keys_add; [done|]. by apply Hnotin.
Qed.

Lemma count_add k n (c : t) k' :
  count (add k n c) k' = count c k' + (if decide (k = k') then n else 0).
Proof.
  induction c as [|[k0 m] c IH]; simpl.
  - destruct (decide (k' = k)) as [->|Hne].
    + by rewrite decide_True.
    + rewrite decide_False by congruence. lia.
  - destruct (decide (k = k0)) as [->|Hne]; simpl.
    + destruct (decide (k' = k0)) as [->|Hne'].
      * by rewrite decide_True.
      * rewrite decide_False by congruence. lia.
    + destruct (decide (k' = k0)) as [->|Hne'].
      * rewrite decide_False by done. lia.
      * apply IH.
Qed.

Lemma elem_of_add k n (c : t) k' n' :
  NoDup (keys c) → (k', n') ∈ add k n c →
  n' = count c k' + (if decide (k = k') then n else 0).
Proof.
  intros Hnd Hin. rewrite <- count_add. symmetry.
  apply count_present; [by apply NoDup_add|done].
Qed.

(** The items of [other] added one by one, before [_keep_positive]. *)
Definition add_all (c : t) (other : list (string * Z)) : t :=
  foldl (λ acc kn, add kn.1 kn.2 acc) c other.

Lemma add_all_spec (other : list (string * Z)) (c : t) :
  NoDup (keys c) →
  NoDup (keys (add_all c other))
  ∧ (∀ k, count (add_all c other) k = count c k + weight k other)
  ∧ (∀ k, k ∈ keys (add_all c other) ↔ k ∈ keys c ∨ k ∈ other.*1).
Proof.
  revert c. induction other as [|[k n] other IH]; intros c Hnd.
  - split; [done|]. split.
    + intros k. unfold weight. simpl. lia.
    + intros k. rewrite elem_of_nil. simpl. tauto.
  - destruct (IH (add k n c) (NoDup_add k n c Hnd)) as (Hnd' & Hcount & Hkeys).
    split; [exact Hnd'|]. split.
    + intros k'. change (add_all c ((k, n) :: other))
        with (add_all (add k n c) other).
      rewrite Hcount, count_add. unfold weight. rewrite fmap_cons. simpl. lia.
    + intros k'. change (add_all c ((k, n) :: other))
        with (add_all (add k n c) other).
      rewrite Hkeys, keys_add, fmap_cons, elem_of_cons. simpl. tauto.
Qed.

Lemma weight_nonneg k (other : list (string * Z)) :
  (∀ kn, kn ∈ other → 0 < kn.2) → 0 ≤ weight k other.
Proof.
  induction other as [|[k' n] other IH]; intros Hpos; unfold weight in *.
  - simpl. lia.
  - rewrite fmap_cons. simpl.
    assert (0 < n) by (apply (Hpos (k', n)); left).
    assert (0 ≤ Zsum ((λ kn : string * Z, if decide (kn.1 = k) then kn.2 else 0)
                       <$> other)).
    { apply IH. intros kn Hin. apply Hpos. by right. }
    destruct (decide (k' = k)); lia.
Qed.

Lemma weight_pos k (other : list (string * Z)) :
  (∀ kn, kn ∈ other → 0 < kn.2) → k ∈ other.*1 → 0 < weight k other.
Proof.
  induction other as [|[k' n] other IH]; intros Hpos Hin.
  - by apply elem_of_nil in Hin.
  - assert (0 < n) by (apply (Hpos (k', n)); left).
    assert (Hrest : ∀ kn, kn ∈ other → 0 < kn.2).
    { intros kn Hkn. apply Hpos. by right. }
    pose proof (weight_nonneg k other Hrest) as Hnn.
    unfold weight in *. rewrite fmap_cons in *. simpl in *.
    destruct (decide (k' = k)) as [->|Hne]; [lia|].
    apply elem_of_cons in Hin as [->|Hin]; [done|].
    specialize (IH Hrest Hin). lia.
Qed.

(** [c += other] for positive items: the counts add up, the new keys come
    after the old ones, nothing is dropped. *)
Lemma iadd_spec (c : t) (other : list (string * Z)) :
  wf c → (∀ kn, kn ∈ other → 0 < kn.2) →
  wf (iadd c other)
  ∧ (∀ k, count (iadd c other) k = count c k + weight k other)
  ∧ (∀ k, k ∈ keys (iadd c other) ↔ k ∈ keys c ∨ k ∈ other.*1).
Proof.
  intros [Hnd Hpos] Hother.
  destruct (add_all_spec other c Hnd) as (Hnd' & Hcount & Hkeys).
  assert (Hall : ∀ k n, (k, n) ∈ add_all c other → 0 < n).
  { intros k n Hin. rewrite <- (count_present _ _ _ Hnd' Hin), Hcount.
    assert (Hk : k ∈ keys (add_all c other)) by (by apply keys_elem with n).
    apply Hkeys in Hk as [Hk|Hk].
    - apply list_elem_of_fmap in Hk as ([k0 n0] & -> & Hin0). simpl.
      rewrite (count_present _ _ _ Hnd Hin0).
      pose proof (Hpos _ _ Hin0). pose proof (weight_nonneg k0 other Hother).
      lia.
    - pose proof (weight_pos k other Hother Hk).
      destruct (decide (k ∈ keys c)) as [Hc|Hc].
      + apply list_elem_of_fmap in Hc as ([k0 n0] & -> & Hin0). simpl in *.
        rewrite (count_present _ _ _ Hnd Hin0). pose proof (Hpos _ _ Hin0).
        lia.
      + rewrite (count_absent _ _ Hc). lia. }
  assert (Hid : iadd c other = add_all c other).
  { unfold iadd, keep_positive. fold (add_all c other).
    apply filter_all. intros [k n] Hin. simpl. by apply (Hall k n). }
  rewrite Hid. split; [by split|]. by split.
Qed.

Lemma wf_nil : wf [].
Proof.
  split; [apply NoDup_nil_2|]. intros k n Hin. by apply elem_of_nil in Hin.
Qed.

End CounterFacts.


(** ** Reading a message that was just built *)

Lemma lookup_set_field name v (m : Msg) f :
  set_field name v m !! f
  = if decide (name = f) then (if is_empty_collection v then None else Some v)
    else m !! f.
Proof.
  unfold set_field. destruct (is_empty_collection v).
  - by rewrite lookup_delete.
  - by rewrite lookup_insert.
Qed.

Lemma get_str_set_field name s (m : Msg) :
  get_str name (set_field name (FStr s) m) = s.
Proof.
  unfold get_str. by rewrite lookup_set_field, decide_True by done.
Qed.

Lemma get_num_set_field name z (m : Msg) :
  get_num name (set_field name (FNum z) m) = z.
Proof.
  unfold get_num. by rewrite lookup_set_field, decide_True by done.
Qed.

Lemma get_bool_set_field name b (m : Msg) :
  get_bool name (set_field name (FBool b) m) = b.
Proof.
  unfold get_bool. by rewrite lookup_set_field, decide_True by done.
Qed.

Lemma get_rep_set_field name l (m : Msg) :
  get_rep name (set_field name (FRep l) m) = l.
Proof.
  unfold get_rep. rewrite lookup_set_field, decide_True by done. simpl.
  by case_bool_decide.
Qed.

Lemma get_map_set_field name e (m : Msg) :
  get_map name (set_field name (FMap e) m) = e.
Proof.
  unfold get_map. rewrite lookup_set_field, decide_True by done. simpl.
  by case_bool_decide.
Qed.

Lemma get_str_set_field_ne name other v (m : Msg) :
  other ≠ name → get_str name (set_field other v m) = get_str name m.
Proof. intros. unfold get_str. by rewrite lookup_set_field, decide_False. Qed.

Lemma get_num_set_field_ne name other v (m : Msg) :
  other ≠ name → get_num name (set_field other v m) = get_num name m.
Proof. intros. unfold get_num. by rewrite lookup_set_field, decide_False. Qed.

Lemma get_bool_set_field_ne name other v (m : Msg) :
  other ≠ name → get_bool name (set_field other v m) = get_bool name m.
Proof. intros. unfold get_bool. by rewrite lookup_set_field, decide_False. Qed.

Lemma get_rep_set_field_ne name other v (m : Msg) :
  other ≠ name → get_rep name (set_field other v m) = get_rep name m.
Proof. intros. unfold get_rep. by rewrite lookup_set_field, decide_False. Qed.

Lemma get_map_set_field_ne name other v (m : Msg) :
  other ≠ name → get_map name (set_field other v m) = get_map name m.
Proof. intros. unfold get_map. by rewrite lookup_set_field, decide_False. Qed.

Lemma lookup_set_unless_none key v (m : Msg) f :
  key ≠ f → set_unless_none key v m !! f = m !! f.
Proof.
  intros Hne. unfold set_unless_none. destruct (decide (v = "")); [done|].
  by rewrite lookup_set_field, decide_False.
Qed.

Lemma get_str_set_unless_none key v (m : Msg) :
  m !! key = None → get_str key (set_unless_none key v m) = v.
Proof.
  intros Hm. unfold set_unless_none. destruct (decide (v = "")) as [->|].
  - unfold get_str. by rewrite Hm.
  - apply get_str_set_field.
Qed.

Lemma get_str_set_unless_none_ne name other v (m : Msg) :
  other ≠ name → get_str name (set_unless_none other v m) = get_str name m.
Proof. intros. unfold get_str. by rewrite lookup_set_unless_none. Qed.

Lemma get_num_set_unless_none_ne name other v (m : Msg) :
  other ≠ name → get_num name (set_unless_none other v m) = get_num name m.
Proof. intros. unfold get_num. by rewrite lookup_set_unless_none. Qed.

Lemma get_bool_set_unless_none_ne name other v (m : Msg) :
  other ≠ name → get_bool name (set_unless_none other v m) = get_bool name m.
Proof. intros. unfold get_bool. by rewrite lookup_set_unless_none. Qed.

Lemma get_rep_set_unless_none_ne name other v (m : Msg) :
  other ≠ name → get_rep name (set_unless_none other v m) = get_rep name m.
Proof. intros. unfold get_rep. by rewrite lookup_set_unless_none. Qed.

Lemma get_map_set_unless_none_ne name other v (m : Msg) :
  other ≠ name → get_map name (set_unless_none other v m) = get_map name m.
Proof. intros. unfold get_map. by rewrite lookup_set_unless_none. Qed.

(** Reads a field of a message built by [new_message] or by assignments. *)
Ltac read_field :=
  unfold new_message; cbn [foldl fst snd];
  repeat first
    [ rewrite get_str_set_field | rewrite get_num_set_field
    | rewrite get_bool_set_field | rewrite get_rep_set_field
    | rewrite get_map_set_field
    | rewrite get_str_set_field_ne by discriminate
    | rewrite get_num_set_field_ne by discriminate
    | rewrite get_bool_set_field_ne by discriminate
    | rewrite get_rep_set_field_ne by discriminate
    | rewrite get_map_set_field_ne by discriminate
    | rewrite get_str_set_unless_none_ne by discriminate
    | rewrite get_num_set_unless_none_ne by discriminate
    | rewrite get_bool_set_unless_none_ne by discriminate
    | rewrite get_rep_set_unless_none_ne by discriminate
    | rewrite get_map_set_unless_none_ne by discriminate ].

(** ** The counters of a family *)

Section RollupFacts.

Import Counter CounterFacts.

Lemma weight_absent k (other : list (string * Z)) :
  k ∉ other.*1 → weight k other = 0.
Proof.
  induction other as [|[k' n] other IH]; [done|]. rewrite fmap_cons.
  intros [Hne Hin]%not_elem_of_cons. unfold weight in *. rewrite fmap_cons.
  simpl in *. rewrite decide_False by done. by rewrite IH.
Qed.

Lemma weight_present k n (other : list (string * Z)) :
  NoDup other.*1 → (k, n) ∈ other → weight k other = n.
Proof.
  induction other as [|[k' n'] other IH]; intros Hnd Hin.
  - by apply elem_of_nil in Hin.
  - rewrite fmap_cons in Hnd. apply NoDup_cons in Hnd as [Hnotin Hnd].
    unfold weight in *. rewrite fmap_cons. simpl in *.
    apply elem_of_cons in Hin as [[= -> ->]|Hin].
    + rewrite decide_True by done.
      change (Zsum _) with (weight k' other).
      rewrite weight_absent by done. lia.
    + rewrite decide_False.
      * by rewrite IH.
      * intros ->. apply Hnotin. apply list_elem_of_fmap. by exists (k, n).
Qed.

Lemma weight_of_map k (m : gmap string Z) :
  weight k (of_map m) = default 0 (m !! k).
Proof.
  unfold of_map. destruct (m !! k) as [n|] eqn:Hk; simpl.
  - apply weight_present; [apply NoDup_fst_map_to_list|].
    by apply elem_of_map_to_list.
  - apply weight_absent. intros ([k' n] & -> & Hin)%list_elem_of_fmap.
    apply elem_of_map_to_list in Hin. simpl in *. congruence.
Qed.

Lemma weight_count (c : t) k : NoDup (keys c) → weight k c = count c k.
Proof.
  intros Hnd. destruct (decide (k ∈ keys c)) as [Hin|Hin].
  - apply list_elem_of_fmap in Hin as ([k' n] & -> & Hin). simpl.
    by rewrite (weight_present _ _ _ Hnd Hin), (count_present _ _ _ Hnd Hin).
  - by rewrite weight_absent, count_absent.
Qed.

Lemma weight_ones (l : list string) k :
  weight k ((λ x, (x, 1)) <$> l) = Z.of_nat (length (filter (λ x, x = k) l)).
Proof.
  unfold weight. induction l as [|x l IH]; [done|].
  rewrite !fmap_cons, filter_cons. simpl. rewrite IH.
  destruct (decide (x = k)); simpl; lia.
Qed.

(** [Counter(task_states)]: every state with the number of its occurrences. *)
Lemma of_list_spec (l : list string) :
  wf (of_list l)
  ∧ (∀ k, count (of_list l) k = Z.of_nat (length (filter (λ x, x = k) l)))
  ∧ (∀ k, k ∈ keys (of_list l) ↔ k ∈ l).
Proof.
  assert (Hfold : of_list l = add_all [] ((λ k, (k, 1)) <$> l)).
  { unfold of_list, add_all. by rewrite foldl_fmap. }
  destruct (add_all_spec ((λ k, (k, 1)) <$> l) [] (NoDup_nil_2))
    as (Hnd & Hcount & Hkeys).
  rewrite <- Hfold in *.
  pose proof (weight_ones l) as Hw.
  assert (Hk : ∀ k, k ∈ keys (of_list l) ↔ k ∈ l).
  { intros k. rewrite Hkeys, <- list_fmap_compose. simpl.
    rewrite list_fmap_id, elem_of_nil. tauto. }
  split; [|split; [|exact Hk]].
  - split; [exact Hnd|]. intros k n Hin.
    rewrite <- (count_present _ _ _ Hnd Hin), Hcount, Hw. simpl.
    assert (Hkl : k ∈ l) by (apply Hk; by apply keys_elem with n).
    assert (k ∈ filter (λ x, x = k) l) by (by apply list_elem_of_filter).
    destruct (filter (λ x, x = k) l); [by apply elem_of_nil in H|].
    simpl. lia.
  - intros k. rewrite Hcount, Hw. simpl. lia.
Qed.

End RollupFacts.


Lemma Zsum_cons x l : Zsum (x :: l) = x + Zsum l.
Proof. reflexivity. Qed.

Lemma omap_cons {A B} (f : A → option B) x (l : list A) :
  omap f (x :: l)
  = match f x with Some y => y :: omap f l | None => omap f l end.
Proof. reflexivity. Qed.

Section FamilyRollup.

Import Counter CounterFacts.

Variable ext : Collaborators.

Lemma gather_child_families_spec (fp_updated fp_data : gmap string Msg)
    (ids : list string) (c0 : Counter.t) (h0 : Z) :
  let views := omap (latest_view fp_updated fp_data) ids in
  let result :=
    foldl (λ acc child_id,
             match latest_view fp_updated fp_data child_id with
             | Some child_node =>
                 (Counter.iadd acc.1
                    (Counter.of_map (get_map "state_totals" child_node)),
                  acc.2 + get_num "is_held_total" child_node)
             | None => acc
             end)
          (c0, h0) ids in
  wf c0 →
  (∀ child st n, child ∈ views →
     get_map "state_totals" child !! st = Some n → 0 < n) →
  wf result.1
  ∧ (∀ st, count result.1 st
           = count c0 st
             + Zsum ((λ child, default 0 (get_map "state_totals" child !! st))
                       <$> views))
  ∧ result.2 = h0 + Zsum (get_num "is_held_total" <$> views).
Proof.
  revert c0 h0. induction ids as [|id ids IH]; intros c0 h0; cbv zeta.
  - intros Hwf _. cbn. split; [done|]. split; [intros st|]; lia.
  - intros Hwf Hpos. rewrite omap_cons in *. cbn [foldl].
    destruct (latest_view fp_updated fp_data id) as [child|] eqn:Hview.
    + cbn [fst snd].
      destruct (iadd_spec c0 (of_map (get_map "state_totals" child)) Hwf)
        as (Hwf1 & Hcount1 & _).
      { intros [st n] Hin. apply elem_of_map_to_list in Hin.
        apply (Hpos child st n); [left|done]. }
      destruct (IH (iadd c0 (of_map (get_map "state_totals" child)))
                   (h0 + get_num "is_held_total" child) Hwf1)
        as (Hwf' & Hcount' & Hheld').
      { intros c st n Hin. apply Hpos. by right. }
      split; [exact Hwf'|]. split.
      * intros st. rewrite Hcount', Hcount1, weight_of_map, fmap_cons, Zsum_cons.
        lia.
      * rewrite Hheld', fmap_cons, Zsum_cons. lia.
    + apply IH; [done|]. intros c st n Hin. by apply Hpos.
Qed.

Lemma gather_child_tasks_spec (tp_updated tp_data : gmap string Msg)
    (ids : list string) (states0 : list string) (h0 : Z) :
  let views := omap (latest_view tp_updated tp_data) ids in
  let result :=
    foldl (λ acc tp_id,
             match latest_view tp_updated tp_data tp_id with
             | Some tp_node =>
                 ((if decide (get_str "state" tp_node ≠ "")
                   then acc.1 ++ [get_str "state" tp_node] else acc.1),
                  (if get_bool "is_held" tp_node then acc.2 + 1 else acc.2))
             | None => acc
             end)
          (states0, h0) ids in
  result.1 = states0 ++ filter (λ st, st ≠ "") (get_str "state" <$> views)
  ∧ result.2
    = h0 + Z.of_nat (length (filter (λ tp, get_bool "is_held" tp = true) views)).
Proof.
  revert states0 h0.
  induction ids as [|id ids IH]; intros states0 h0; cbv zeta.
  - cbn. rewrite app_nil_r. split; [done|lia].
  - rewrite omap_cons. cbn [foldl].
    destruct (latest_view tp_updated tp_data id) as [tp|] eqn:Hview.
    + cbn [fst snd].
      destruct (IH (if decide (get_str "state" tp ≠ "")
                    then states0 ++ [get_str "state" tp] else states0)
                   (if get_bool "is_held" tp then h0 + 1 else h0))
        as [Hstates Hheld].
      rewrite Hstates, Hheld. split.
      * rewrite fmap_cons, filter_cons.
        destruct (decide (get_str "state" tp ≠ "")); [|done].
        by rewrite <- app_assoc.
      * rewrite filter_cons. destruct (get_bool "is_held" tp) eqn:Hh.
        -- rewrite decide_True by done. cbn [length]. lia.
        -- rewrite decide_False by done. lia.
    + apply IH.
Qed.

Lemma state_totals_of_lookup (c : Counter.t) k :
  NoDup (keys c) →
  state_totals_of c !! k
  = if decide (k ∈ keys c) then Some (count c k) else None.
Proof.
  intros Hnd. unfold state_totals_of.
  assert (Hgen : ∀ (m0 : gmap string Z),
    foldl (λ m kn, <[kn.1 := kn.2]> m) m0 c !! k
    = if decide (k ∈ keys c) then Some (count c k) else m0 !! k).
  { induction c as [|[k' n] c IH]; intros m0.
    - cbn [foldl]. rewrite decide_False; [done|]. apply not_elem_of_nil.
    - rewrite keys_cons in Hnd. apply NoDup_cons in Hnd as [Hnotin Hnd].
      cbn [foldl fst snd count]. rewrite (IH Hnd). rewrite keys_cons.
      destruct (decide (k = k')) as [->|Hne].
      + rewrite (decide_False (P := k' ∈ keys c)) by done.
        rewrite decide_True by left. by rewrite lookup_insert_eq.
      + destruct (decide (k ∈ keys c)) as [Hin|Hin].
        * by rewrite decide_True by (by right).
        * rewrite decide_False.
          -- by rewrite lookup_insert_ne.
          -- by intros [?|?]%elem_of_cons. }
  rewrite Hgen. by rewrite lookup_empty.
Qed.

End FamilyRollup.


Lemma gather_child_families_held (fp_updated fp_data : gmap string Msg)
    (ids : list string) :
  (gather_child_families fp_updated fp_data ids).2
  = Zsum (get_num "is_held_total"
            <$> omap (latest_view fp_updated fp_data) ids).
Proof.
  unfold gather_child_families.
  assert (Hgen : ∀ c0 h0,
    (foldl (λ acc child_id,
              match latest_view fp_updated fp_data child_id with
              | Some child_node =>
                  (Counter.iadd acc.1
                     (Counter.of_map (get_map "state_totals" child_node)),
                   acc.2 + get_num "is_held_total" child_node)
              | None => acc
              end)
           (c0, h0) ids).2
    = h0 + Zsum (get_num "is_held_total"
                   <$> omap (latest_view fp_updated fp_data) ids)).
  { induction ids as [|id ids IH]; intros c0 h0.
    - cbn. lia.
    - rewrite omap_cons. cbn [foldl].
      destruct (latest_view fp_updated fp_data id) as [child|].
      + rewrite IH, fmap_cons, Zsum_cons. cbn [fst snd]. lia.
      + apply IH. }
  rewrite Hgen. lia.
Qed.

Lemma gather_child_tasks_eq (tp_updated tp_data : gmap string Msg)
    (ids : list string) (h0 : Z) :
  gather_child_tasks tp_updated tp_data ids h0
  = (filter (λ st, st ≠ "")
       (get_str "state" <$> omap (latest_view tp_updated tp_data) ids),
     h0 + Z.of_nat
            (length (filter (λ tp, get_bool "is_held" tp = true)
                       (omap (latest_view tp_updated tp_data) ids)))).
Proof.
  destruct (gather_child_tasks_spec tp_updated tp_data ids [] h0) as [H1 H2].
  fold (gather_child_tasks tp_updated tp_data ids h0) in H1, H2.
  destruct (gather_child_tasks tp_updated tp_data ids h0). simpl in *.
  by rewrite H1, H2.
Qed.

(** The delta [family_delta] builds, read field by field. *)
Lemma family_delta_fields (ext : Collaborators) (fp_id : string) (now : Z)
    (fp_updated fp_data tp_updated tp_data : gmap string Msg) (fam_node : Msg) :
  let family_views :=
    omap (latest_view fp_updated fp_data) (get_rep "child_families" fam_node) in
  let task_views :=
    omap (latest_view tp_updated tp_data) (get_rep "child_tasks" fam_node) in
  let state_counter :=
    Counter.iadd
      (gather_child_families fp_updated fp_data
         (get_rep "child_families" fam_node)).1
      (Counter.of_list
         (filter (λ st, st ≠ "") (get_str "state" <$> task_views))) in
  let held :=
    Zsum (get_num "is_held_total" <$> family_views)
    + Z.of_nat (length (filter (λ tp, get_bool "is_held" tp = true) task_views)) in
  let fp_delta :=
    family_delta ext fp_id now fp_updated fp_data tp_updated tp_data fam_node in
  get_map "state_totals" fp_delta = state_totals_of state_counter
  ∧ get_rep "states" fp_delta = Counter.keys state_counter
  ∧ get_num "is_held_total" fp_delta = held
  ∧ get_bool "is_held" fp_delta = bool_decide (0 < held)
  ∧ get_str "state" fp_delta
    = extract_group_state ext (Counter.keys state_counter)
  ∧ get_str "id" fp_delta = fp_id.
Proof.
  intros family_views task_views state_counter held fp_delta.
  unfold fp_delta, family_delta.
  pose proof (gather_child_families_held fp_updated fp_data
                (get_rep "child_families" fam_node)) as Hheld0.
  unfold state_counter.
  destruct (gather_child_families fp_updated fp_data
              (get_rep "child_families" fam_node)) as [counter0 held0].
  rewrite gather_child_tasks_eq. simpl in Hheld0. subst held0.
  fold family_views task_views held. cbn [fst].
  do 4 (split; [by read_field|]). split; [|by read_field].
  apply get_str_set_unless_none. unfold new_message. cbn [foldl fst snd].
  rewrite !lookup_set_field. by repeat (rewrite decide_False by discriminate).
Qed.


Lemma filter_none {A} (P : A → Prop) `{!∀ x, Decision (P x)} (l : list A) :
  (∀ x, x ∈ l → ¬ P x) → filter P l = [].
Proof.
  induction l as [|x l IH]; intros Hnone; [done|].
  rewrite filter_cons_False by (apply Hnone; left).
  apply IH. intros y Hy. apply Hnone. by right.
Qed.

Lemma wf_keys_positive (c : Counter.t) k :
  CounterFacts.wf c → k ∈ Counter.keys c ↔ 0 < Counter.count c k.
Proof.
  intros [Hnd Hpos]. split.
  - intros ([k' n] & -> & Hin)%list_elem_of_fmap. simpl.
    rewrite (CounterFacts.count_present _ _ _ Hnd Hin). by apply (Hpos k').
  - intros Hc. destruct (decide (k ∈ Counter.keys c)) as [|Hnot]; [done|].
    rewrite (CounterFacts.count_absent _ _ Hnot) in Hc. lia.
Qed.

Lemma occurrences_of_set_states (views : list Msg) (st : string) :
  Z.of_nat (length (filter (λ x, x = st)
                      (filter (λ x, x ≠ "") (get_str "state" <$> views))))
  = if decide (st = "") then 0
    else Z.of_nat (length (filter (λ tp, get_str "state" tp = st) views)).
Proof.
  induction views as [|tp views IH].
  - by destruct (decide (st = "")).
  - rewrite fmap_cons, !filter_cons.
    destruct (decide (get_str "state" tp ≠ "")) as [Hset|Hunset].
    + rewrite filter_cons.
      destruct (decide (get_str "state" tp = st)) as [Heq|Hne].
      * cbn [length]. rewrite !Nat2Z.inj_succ, IH.
        destruct (decide (st = "")); [congruence|done].
      * rewrite IH. by destruct (decide (st = "")).
    + rewrite IH. apply dec_stable in Hunset.
      destruct (decide (get_str "state" tp = st)) as [Heq|Hne]; [|done].
      by rewrite !decide_True by congruence.
Qed.

Lemma run_if_modify (P : Prop) `{!Decision P} (f : Mgr → Mgr) (s : Mgr) :
  (if decide P then modify f else mret tt) s
  = (inr tt, if decide P then f s else s).
Proof. by destruct (decide P). Qed.

Lemma run_the_dict (store : Store) key d (s : Mgr) :
  store !! key = Some (Dict d) → the_dict store key s = (inr d, s).
Proof.
  intros H. unfold the_dict. erewrite run_bind_ok; [|by apply run_subscript_Some].
  reflexivity.
Qed.

Lemma run_the_message attr (store : Store) key m (s : Mgr) :
  store !! key = Some (Message m) → the_message attr store key s = (inr m, s).
Proof.
  intros H. unfold the_message.
  erewrite run_bind_ok; [|by apply run_subscript_Some]. reflexivity.
Qed.



(** A root family with two child tasks and one child family; the child
    family and the task [a] have fresh views in [updated]. *)
Definition sample_rollup : Mgr :=
  mkMgr "u|w" ∅
    (<[FAMILY_PROXIES := Dict (list_to_map
         [ ("u|w|1|root",
            list_to_map
              [ ("id", FStr "u|w|1|root"); ("name", FStr "root");
                ("child_tasks", FRep ["u|w|1|a"; "u|w|1|b"]);
                ("child_families", FRep ["u|w|1|F"]) ]);
           ("u|w|1|F",
            list_to_map
              [ ("id", FStr "u|w|1|F"); ("name", FStr "F");
                ("first_parent", FStr "u|w|1|root");
                ("state_totals", FMap {["succeeded" := 1]}) ]) ])]>
       (<[TASK_PROXIES := Dict (list_to_map
            [ ("u|w|1|a",
               list_to_map [ ("id", FStr "u|w|1|a"); ("state", FStr "waiting") ]);
              ("u|w|1|b",
               list_to_map [ ("id", FStr "u|w|1|b"); ("state", FStr "failed") ])
            ])]> DATA_TEMPLATE))
    DATA_TEMPLATE
    (<[FAMILY_PROXIES := Dict (list_to_map
         [ ("u|w|1|F",
            list_to_map
              [ ("id", FStr "u|w|1|F"); ("state", FStr "succeeded");
                ("is_held", FBool true); ("is_held_total", FNum 1);
                ("state_totals", FMap {["succeeded" := 2]}) ]) ])]>
       (<[TASK_PROXIES := Dict (list_to_map
            [ ("u|w|1|a",
               list_to_map
                 [ ("id", FStr "u|w|1|a"); ("state", FStr "running");
                   ("is_held", FBool true) ]) ])]> DATA_TEMPLATE))
    initial_deltas None None {["u|w|1|root"]} {["u|w|1|F"]} false
    (mkJobPool empty_kind_deltas ∅ ∅ false) 0 [].

Definition sample_dict (store : Store) (key : string) : gmap string Msg :=
  match store !! key with
  | Some (Dict d) => d
  | _ => ∅
  end.

Definition sample_rolled : Mgr :=
  Eval vm_compute in
    (_family_ascent_point_update (sample_ext false) 1 "u|w|1|root"
       sample_rollup).2.

Definition sample_root_update : Msg :=
  default ∅ (sample_dict (updated sample_rolled) FAMILY_PROXIES !! "u|w|1|root").




(** ** [update_workflow] *)

(** A root family that has no entry in [updated[family_proxies]] adds
    nothing to the totals, whatever the store holds for it: the fallback
    [data.get(root_id)] looks the id up among the kinds of the store. *)
Lemma gather_roots_without_update (s s0 : Mgr) (fp_updated : gmap string Msg)
    (roots : list string) (acc : Counter.t * Z) :
  updated s !! FAMILY_PROXIES = Some (Dict fp_updated) →
  (∀ root_id, root_id ∈ roots →
     fp_updated !! root_id = None ∧ data s !! root_id = None) →
  gather_roots s roots acc s0 = (inr acc, s0).
Proof.
  intros Hupdated. revert acc.
  induction roots as [|root_id roots IH]; intros acc Hroots; [done|].
  destruct (Hroots root_id) as [Hnone Hkind]; [left|].
  cbn [gather_roots].
  erewrite run_bind_ok; [|by apply run_the_dict].
  rewrite Hnone, Hkind. erewrite run_bind_ok; [|reflexivity].
  apply IH. intros r Hr. apply Hroots. by right.
Qed.

(** A store that holds a running, held root family at cycle point 1; the
    delta buffers are empty. *)
Definition sample_root_proxy : Msg :=
  list_to_map
    [ ("id", FStr "u|w|1|root"); ("name", FStr "root");
      ("state", FStr "running"); ("states", FRep ["running"]);
      ("state_totals", FMap {["running" := 1]});
      ("is_held", FBool true); ("is_held_total", FNum 1) ].

Definition sample_settled : Mgr :=
  mkMgr "u|w" ∅
    (<[FAMILY_PROXIES := Dict {["u|w|1|root" := sample_root_proxy]}]>
       DATA_TEMPLATE)
    DATA_TEMPLATE DATA_TEMPLATE initial_deltas None None ∅ ∅ true
    (mkJobPool empty_kind_deltas ∅ ∅ false) 0 [].

(** The same store, the root family also present in [updated]. *)
Definition sample_flagged : Mgr :=
  set_updated (<[FAMILY_PROXIES :=
                   Dict {["u|w|1|root" := sample_root_proxy]}]>) sample_settled.

Definition workflow_update (s : Mgr) : Msg :=
  match updated s !! WORKFLOW with
  | Some (Message m) => m
  | _ => ∅
  end.

(** C5 at the failing input: the root family of the store is left out of
    the workflow totals, and counted once it is in [updated]. *)
Lemma update_workflow_stored_root :
  sample_dict (data sample_settled) FAMILY_PROXIES !! "u|w|1|root"
    = Some sample_root_proxy
  ∧ get_map "state_totals" sample_root_proxy = {["running" := 1]}
  ∧ get_num "is_held_total" sample_root_proxy = 1
  ∧ (update_workflow (sample_ext false) sample_settled).1 = inr tt
  ∧ get_map "state_totals"
      (workflow_update (update_workflow (sample_ext false) sample_settled).2)
    = ∅
  ∧ get_num "is_held_total"
      (workflow_update (update_workflow (sample_ext false) sample_settled).2)
    = 0
  ∧ get_map "state_totals"
      (workflow_update (update_workflow (sample_ext false) sample_flagged).2)
    = {["running" := 1]}
  ∧ get_num "is_held_total"
      (workflow_update (update_workflow (sample_ext false) sample_flagged).2)
    = 1.
Proof. repeat split; vm_compute; reflexivity. Qed.


(** ** Ghost generation *)

(** C6. A task proxy id that is already in the store or in the added
    buffer: [generate_ghost_task] returns at once and leaves the whole state
    of the manager as it was (store, buffers, flags, and the clock, which is
    not read); so a second call with the same arguments changes nothing
    either. *)
Theorem generate_ghost_task_present
    (ext : Collaborators) (fuel fuel' : nat)
    (t_id tp_id point_string : string) (s : Mgr)
    (task_proxies tp_added : gmap string Msg) :
  data s !! TASK_PROXIES = Some (Dict task_proxies) →
  added s !! TASK_PROXIES = Some (Dict tp_added) →
  is_Some (task_proxies !! tp_id) ∨ is_Some (tp_added !! tp_id) →
  generate_ghost_task ext fuel t_id tp_id point_string s = (inr tt, s)
  ∧ (generate_ghost_task ext fuel t_id tp_id point_string;;
     generate_ghost_task ext fuel' t_id tp_id point_string) s
    = generate_ghost_task ext fuel t_id tp_id point_string s.
Proof.
  intros Hdata Hadded Hpresent.
  assert (Hrun : ∀ n, generate_ghost_task ext n t_id tp_id point_string s
                      = (inr tt, s)).
  { intros n. unfold generate_ghost_task.
    erewrite run_bind_ok; [|reflexivity].
    erewrite run_bind_ok; [|by apply run_the_dict].
    destruct (decide (is_Some (task_proxies !! tp_id))) as [Hin|Hnot].
    - erewrite run_bind_ok; [|reflexivity]. reflexivity.
    - destruct Hpresent as [Hin|Hin]; [done|].
      erewrite run_bind_ok;
        [|erewrite run_bind_ok; [|by apply run_the_dict];
          by rewrite bool_decide_eq_true_2].
      reflexivity. }
  split; [apply Hrun|].
  erewrite run_bind_ok; [|apply Hrun]. by rewrite !Hrun.
Qed.

Lemma generate_ghost_task_present_witness :
  data sample_ghosted !! TASK_PROXIES = Some (Dict ∅)
  ∧ added sample_ghosted !! TASK_PROXIES
    = Some (Dict (sample_dict (added sample_ghosted) TASK_PROXIES))
  ∧ is_Some (sample_dict (added sample_ghosted) TASK_PROXIES !! "u|w|1|a")
  ∧ generate_ghost_task (sample_ext false) 8 "u|w|a" "u|w|1|a" "1"
      sample_ghosted = (inr tt, sample_ghosted).
Proof.
  assert (H1 : data sample_ghosted !! TASK_PROXIES = Some (Dict ∅))
    by (vm_compute; reflexivity).
  assert (H2 : added sample_ghosted !! TASK_PROXIES
               = Some (Dict (sample_dict (added sample_ghosted) TASK_PROXIES)))
    by (vm_compute; reflexivity).
  assert (H3 : is_Some (sample_dict (added sample_ghosted) TASK_PROXIES
                          !! "u|w|1|a"))
    by (rewrite <- elem_of_dom; vm_compute; reflexivity).
  split; [exact H1|]. split; [exact H2|]. split; [exact H3|].
  exact (proj1 (generate_ghost_task_present (sample_ext false) 8 8 "u|w|a"
                  "u|w|1|a" "1" sample_ghosted ∅ _ H1 H2 (or_intror H3))).
Defined.


(** ** Ghost generation adds fresh ids only *)

Definition added_ids (s : Mgr) (key : string) : gset string :=
  match added s !! key with
  | Some (Dict a) => dom a
  | _ => ∅
  end.

Definition store_ids (s : Mgr) (key : string) : gset string :=
  match data s !! key with
  | Some (Dict d) => dom d
  | _ => ∅
  end.

(** From [s] to [s'] the store is the same, and an id that is in [added]
    now was there before or is not an id of the store. *)
Definition adds_fresh_only (s s' : Mgr) : Prop :=
  data s' = data s
  ∧ ∀ key id, id ∈ added_ids s' key →
              id ∈ added_ids s key ∨ id ∉ store_ids s key.

#[global] Instance adds_fresh_only_preorder : PreOrder adds_fresh_only.
Proof.
  split.
  - intros s. split; [done|]. intros key id Hin. by left.
  - intros s1 s2 s3 [Hd12 H12] [Hd23 H23]. split; [congruence|].
    intros key id Hin. destruct (H23 key id Hin) as [Hin2|Hout].
    + by apply H12.
    + right. unfold store_ids in *. by rewrite <- Hd12.
Qed.

Lemma fresh_same_added (s s' : Mgr) :
  data s' = data s → added s' = added s → adds_fresh_only s s'.
Proof.
  intros Hd Ha. split; [done|]. intros key id. unfold added_ids.
  rewrite Ha. by left.
Qed.

Lemma fresh_alter (s : Mgr) (key id : string) (f : Msg → Msg) :
  adds_fresh_only s (set_added (alter (slot_alter id f) key) s).
Proof.
  split; [done|]. intros key' id'. unfold added_ids. simpl.
  rewrite lookup_alter. destruct (decide (key = key')) as [<-|]; [|by left].
  destruct (added s !! key) as [[a|m]|]; simpl; [|by left..].
  rewrite dom_alter_L. by left.
Qed.

Lemma fresh_insert (s : Mgr) (key id : string) (entry : Msg)
    (a d : gmap string Msg) :
  added s !! key = Some (Dict a) → data s !! key = Some (Dict d) →
  d !! id = None →
  adds_fresh_only s (set_added (<[key := Dict (<[id := entry]> a)]>) s).
Proof.
  intros Ha Hd Hid. split; [done|]. intros key' id'.
  unfold added_ids, store_ids. simpl.
  destruct (decide (key = key')) as [<-|Hne].
  - rewrite lookup_insert_eq, Ha, Hd, dom_insert_L.
    intros [->%elem_of_singleton|Hin]%elem_of_union; [|by left].
    right. by apply not_elem_of_dom.
  - rewrite lookup_insert_ne by done. by left.
Qed.

(** A failed or successful step, seen from the outcome of a bind. *)
Lemma run_bind_cases {A B} (m : M Mgr A) (k : A → M Mgr B) s r s' :
  (m ≫= k) s = (r, s') →
  (∃ e, m s = (inl e, s') ∧ r = inl e)
  ∨ (∃ a s1, m s = (inr a, s1) ∧ k a s1 = (r, s')).
Proof.
  rewrite run_bind. destruct (m s) as [[e|a] s1].
  - intros [= <- <-]. left. by exists e.
  - intros Hk. right. by exists a, s1.
Qed.

Lemma the_dict_inv (store : Store) key (s : Mgr) r s1 :
  the_dict store key s = (r, s1) →
  s1 = s ∧ ∀ d, r = inr d → store !! key = Some (Dict d).
Proof.
  unfold the_dict, subscript. rewrite run_bind.
  destruct (store !! key) as [[d|m]|]; simpl; intros [= <- <-];
    (split; [done|]); intros d' [=]; congruence.
Qed.

Lemma the_message_inv attr (store : Store) key (s : Mgr) r s1 :
  the_message attr store key s = (r, s1) → s1 = s.
Proof.
  unfold the_message, subscript. rewrite run_bind.
  by destruct (store !! key) as [[d|m]|]; simpl; intros [= <- <-].
Qed.

Lemma subscript_inv {V} (d : gmap string V) k (s : Mgr) r s1 :
  subscript d k s = (r, s1) → s1 = s.
Proof. unfold subscript. by destruct (d !! k); intros [= <- <-]. Qed.

Section GhostFresh.

Variable ext : Collaborators.

Lemma fresh_time (s : Mgr) : adds_fresh_only s (time ext s).2.
Proof. by apply fresh_same_added. Qed.

Lemma fresh_workflow_update_append field id (s : Mgr) r s' :
  workflow_update_append field id s = (r, s') → adds_fresh_only s s'.
Proof.
  unfold workflow_update_append. rewrite run_bind. simpl.
  intros Hrun. apply run_bind_cases in Hrun
    as [(e & Hm & ->)|(w & s1 & Hm & Hrun)];
    apply the_message_inv in Hm as ->; [reflexivity|].
  injection Hrun as <- <-. by apply fresh_same_added.
Qed.

Lemma fresh_mutate_in b key id f (s : Mgr) r s' :
  mutate_in b key id f s = (r, s') → adds_fresh_only s s'.
Proof.
  destruct b; intros [= <- <-]; [apply fresh_alter|by apply fresh_same_added].
Qed.

End GhostFresh.


Section GhostGeneration.

Variable ext : Collaborators.

Tactic Notation "bind_step" hyp(H) "as" ident(x) ident(sx) ident(Hm) :=
  apply run_bind_cases in H as [(? & Hm & ->)|(x & sx & Hm & H)].

Lemma time_inv (s : Mgr) r s1 :
  time ext s = (r, s1) → adds_fresh_only s s1 ∧ ∃ t, r = inr t.
Proof.
  intros Hrun. pose proof (fresh_time ext s) as Hfresh. rewrite Hrun in Hfresh.
  split; [done|]. unfold time in Hrun. injection Hrun as <- _. eauto.
Qed.

Lemma fresh_generate_ghost_family (fuel : nat) :
  ∀ fp_id child_fam child_task s r s',
    generate_ghost_family ext fuel fp_id child_fam child_task s = (r, s') →
    adds_fresh_only s s'.
Proof.
  induction fuel as [|fuel IH]; intros fp_id child_fam child_task s r s' Hrun.
  { injection Hrun as <- <-. reflexivity. }
  cbn [generate_ghost_family] in Hrun.
  bind_step Hrun as update_time s1 Hm.
  { by apply time_inv in Hm as [? [? ?]]. }
  apply time_inv in Hm as [Hs1 _]. transitivity s1; [exact Hs1|]. clear Hs1 s.
  bind_step Hrun as s s2 Hm; [discriminate|]. injection Hm as <- <-.
  (* the dicts that are read *)
  bind_step Hrun as families0 s2 Hm; [by apply the_dict_inv in Hm as [-> _]|].
  apply the_dict_inv in Hm as [-> _].
  bind_step Hrun as families s2 Hm.
  { destruct (decide (families0 = ∅)); [by apply the_dict_inv in Hm as [-> _]|].
    by injection Hm as _ <-. }
  assert (s2 = s1) as ->.
  { destruct (decide (families0 = ∅)); [by apply the_dict_inv in Hm as [-> _]|].
    by injection Hm as _ <-. }
  clear Hm.
  bind_step Hrun as fp_data s2 Hm; [by apply the_dict_inv in Hm as [-> _]|].
  apply the_dict_inv in Hm as [-> Hdata]. specialize (Hdata _ eq_refl).
  bind_step Hrun as fp_added s2 Hm; [by apply the_dict_inv in Hm as [-> _]|].
  apply the_dict_inv in Hm as [-> Hadded]. specialize (Hadded _ eq_refl).
  bind_step Hrun as fp_updated s2 Hm; [by apply the_dict_inv in Hm as [-> _]|].
  apply the_dict_inv in Hm as [-> _].
  (* the three cases for [fp_parent] *)
  assert (Hparent : ∀ (r0 : exn + buffer) s2,
    (if decide (is_Some (fp_data !! fp_id)) then
       modify (set_updated (<[FAMILY_PROXIES :=
         Dict (setdefault_then fp_id (new_message [("id", FStr fp_id)]) id
                 fp_updated)]>));;
       mret InUpdated
     else if decide (is_Some (fp_added !! fp_id)) then mret InAdded
     else
       match split (ID_DELIM ext) fp_id with
       | Some [_; _; point_string; name] =>
           fam ← subscript families (delim ext (workflow_id s1) name);
           names ← subscript (ancestors s1) (get_str "name" fam);
           let ids := ancestor_ids ext (workflow_id s1) point_string
                        (get_str "name" fam) names in
           let fp_delta :=
             ghost_family_proxy ext fp_id update_time point_string fam ids in
           modify (set_added (<[FAMILY_PROXIES :=
             Dict (<[fp_id := fp_delta]> fp_added)]>));;
           let f_delta :=
             new_message
               [ ("id", FStr (get_str "id" fam));
                 ("stamp", FStr (stamp_of ext (get_str "id" fam) update_time));
                 ("proxies", FRep [fp_id]) ] in
           s1 ← get;
           f_updated ← the_dict (updated s1) FAMILIES;
           modify (set_updated (<[FAMILIES :=
             Dict (setdefault_then (get_str "id" fam)
                     (new_message [("id", FStr (get_str "id" fam))])
                     (λ m, MergeFrom m f_delta) f_updated)]>));;
           workflow_update_append FAMILY_PROXIES fp_id;;
           (if decide (get_str "first_parent" fp_delta ≠ "") then
              generate_ghost_family ext fuel
                (get_str "first_parent" fp_delta) (Some fp_id) None
            else mret tt);;
           mret InAdded
       | _ => raise ValueError
       end) s1 = (r0, s2) → adds_fresh_only s1 s2).
  { clear Hrun. intros r0 s2 Hrun.
    destruct (decide (is_Some (fp_data !! fp_id))) as [Hin|Hout].
    { injection Hrun as _ <-. by apply fresh_same_added. }
    destruct (decide (is_Some (fp_added !! fp_id))) as [Hin'|Hout'].
    { by injection Hrun as _ <-. }
    destruct (split (ID_DELIM ext) fp_id)
      as [[|? [|? [|point_string [|name [|? ?]]]]]|];
      try by injection Hrun as _ <-.
    bind_step Hrun as fam s3 Hm; [by apply subscript_inv in Hm as ->|].
    apply subscript_inv in Hm as ->.
    bind_step Hrun as names s3 Hm; [by apply subscript_inv in Hm as ->|].
    apply subscript_inv in Hm as ->.
    cbv zeta in Hrun.
    bind_step Hrun as u s3 Hm; [discriminate|].
    assert (Hs3 : adds_fresh_only s1 s3).
    { injection Hm as _ <-.
      apply (fresh_insert s1 FAMILY_PROXIES fp_id _ fp_added fp_data);
        [done..|]. by apply eq_None_not_Some. }
    transitivity s3; [exact Hs3|]. clear Hm Hs3.
    bind_step Hrun as s4 s5 Hm; [discriminate|]. injection Hm as <- <-.
    bind_step Hrun as f_updated s5 Hm; [by apply the_dict_inv in Hm as [-> _]|].
    apply the_dict_inv in Hm as [-> _].
    bind_step Hrun as u1 s5 Hm; [discriminate|].
    assert (Hs5 : adds_fresh_only s3 s5).
    { injection Hm as _ <-. by apply fresh_same_added. }
    transitivity s5; [exact Hs5|]. clear Hm Hs5.
    bind_step Hrun as u2 s6 Hm;
      [by apply fresh_workflow_update_append in Hm|].
    apply fresh_workflow_update_append in Hm.
    transitivity s6; [exact Hm|]. clear Hm.
    bind_step Hrun as u3 s7 Hm.
    - destruct (decide _); [by apply IH in Hm|discriminate].
    - injection Hrun as _ <-.
      destruct (decide _); [by apply IH in Hm|]. by injection Hm as _ <-. }
  bind_step Hrun as fp_parent s2 Hm; [by apply Hparent in Hm|].
  apply Hparent in Hm. etransitivity; [exact Hm|].
  destruct child_fam, child_task;
    first [by apply fresh_mutate_in in Hrun | by injection Hrun as _ <-].
Qed.

Lemma time_frame (s : Mgr) r s1 :
  time ext s = (r, s1) →
  data s1 = data s ∧ added s1 = added s ∧ updated s1 = updated s
  ∧ ∃ t, r = inr t.
Proof. unfold time. intros [= <- <-]. eauto. Qed.

(** Where [generate_ghost_task] goes once the id was found to be new. *)
Lemma fresh_generate_ghost_task (fuel : nat) t_id tp_id point_string s r s' :
  generate_ghost_task ext fuel t_id tp_id point_string s = (r, s') →
  adds_fresh_only s s'.
Proof.
  intros Hrun. unfold generate_ghost_task in Hrun.
  bind_step Hrun as s0 s1 Hm; [discriminate|]. injection Hm as <- <-.
  bind_step Hrun as task_proxies s1 Hm; [by apply the_dict_inv in Hm as [-> _]|].
  apply the_dict_inv in Hm as [-> Hdata]. specialize (Hdata _ eq_refl).
  bind_step Hrun as present s1 Hm.
  { destruct (decide (is_Some (task_proxies !! tp_id))); [discriminate|].
    apply run_bind_cases in Hm
      as [(e' & Hm' & _)|(tp_added & s2 & Hm' & Hm)];
      [by apply the_dict_inv in Hm' as [-> _]|discriminate]. }
  assert (s1 = s ∧ (present = false → task_proxies !! tp_id = None))
    as [-> Hnew].
  { destruct (decide (is_Some (task_proxies !! tp_id))) as [Hin|Hout].
    - injection Hm as <- <-. by split.
    - apply run_bind_cases in Hm
        as [(e' & Hm' & [=])|(tp_added & s2 & Hm' & Hm)].
      apply the_dict_inv in Hm' as [-> _]. injection Hm as _ <-.
      split; [done|]. intros _. by apply eq_None_not_Some. }
  clear Hm. destruct present; [by injection Hrun as _ <-|].
  specialize (Hnew eq_refl).
  bind_step Hrun as tasks s1 Hm; [by apply the_dict_inv in Hm as [-> _]|].
  apply the_dict_inv in Hm as [-> _].
  bind_step Hrun as tasks_added s1 Hm; [by apply the_dict_inv in Hm as [-> _]|].
  apply the_dict_inv in Hm as [-> _].
  bind_step Hrun as update_time s1 Hm.
  { by apply time_inv in Hm as [? [? ?]]. }
  pose proof (time_inv _ _ _ Hm) as [Hs1 _].
  apply time_frame in Hm as (Hd1 & Ha1 & _). transitivity s1; [exact Hs1|].
  clear Hs1.
  destruct (from_option Some (tasks_added !! t_id) (tasks !! t_id))
    as [taskdef|]; [|by injection Hrun as _ <-].
  bind_step Hrun as names s2 Hm; [by apply subscript_inv in Hm as ->|].
  apply subscript_inv in Hm as ->. cbv zeta in Hrun.
  destruct (ancestor_ids ext (workflow_id s) point_string
              (get_str "name" taskdef) names) as [|first_parent ids];
    [by injection Hrun as _ <-|].
  bind_step Hrun as tp_added s2 Hm; [by apply the_dict_inv in Hm as [-> _]|].
  apply the_dict_inv in Hm as [-> Hadded]. specialize (Hadded _ eq_refl).
  bind_step Hrun as u s2 Hm; [discriminate|].
  assert (Hs2 : adds_fresh_only s1 s2).
  { injection Hm as _ <-.
    apply (fresh_insert s1 TASK_PROXIES tp_id _ tp_added task_proxies);
      [by rewrite Ha1|by rewrite Hd1|done]. }
  transitivity s2; [exact Hs2|]. clear Hm Hs2.
  bind_step Hrun as u1 s3 Hm; [by apply fresh_workflow_update_append in Hm|].
  apply fresh_workflow_update_append in Hm.
  transitivity s3; [exact Hm|]. clear Hm.
  bind_step Hrun as s4 s5 Hm; [discriminate|]. injection Hm as <- <-.
  bind_step Hrun as t_updated s5 Hm; [by apply the_dict_inv in Hm as [-> _]|].
  apply the_dict_inv in Hm as [-> _].
  bind_step Hrun as u2 s5 Hm; [discriminate|].
  assert (Hs5 : adds_fresh_only s3 s5).
  { injection Hm as _ <-. by apply fresh_same_added. }
  transitivity s5; [exact Hs5|].
  by apply fresh_generate_ghost_family in Hrun.
Qed.

End GhostGeneration.



Lemma DATA_TEMPLATE_dicts key (d : gmap string Msg) :
  DATA_TEMPLATE !! key = Some (Dict d) → d = ∅.
Proof.
  unfold DATA_TEMPLATE. simpl. intros H.
  repeat (apply lookup_insert_Some in H as [[_ [= <-]]|[_ H]]; [done|]).
  apply lookup_insert_Some in H as [[_ [=]]|[_ H]].
  by rewrite lookup_empty in H.
Qed.




(** ** The pruning scan *)

Section PruneScan.

Context {point : Type} `{Countable point}.
Variable str : point → string.

Implicit Types (pool_points t_points : gset point)
  (edge_points : gmap point (gset point)).

(** What one entry schedules for pruning. *)
Definition scheduled_by pool_points (entry : point * gset point)
  : gset string :=
  if decide ((entry.1 ∉ pool_points) ∧ (entry.2 ## pool_points))
  then {[ str entry.1 ]} ∪ set_map str entry.2
  else set_map str (entry.2 ∖ pool_points).

Lemma prune_entry_scheduled pool_points acc entry :
  (prune_entry str pool_points acc entry).1
  = acc.1 ∪ scheduled_by pool_points entry.
Proof.
  destruct entry as [s_point t_points]. unfold prune_entry, scheduled_by.
  cbn [fst snd]. destruct (decide _) as [Hp|Hp]; cbn [fst].
  - set_solver.
  - destruct (decide (t_points ∖ pool_points ≠ ∅)) as [Hd|Hd]; cbn [fst].
    + done.
    + apply dec_stable in Hd. rewrite Hd. set_solver.
Qed.

Lemma prune_fold_scheduled pool_points (l : list (point * gset point)) acc :
  (foldl (prune_entry str pool_points) acc l).1
  = acc.1 ∪ ⋃ (scheduled_by pool_points <$> l).
Proof.
  revert acc. induction l as [|entry l IH]; intros acc; cbn [foldl].
  - set_solver.
  - rewrite IH, prune_entry_scheduled, fmap_cons. set_solver.
Qed.

Lemma prune_entry_other pool_points acc entry s :
  entry.1 ≠ s → (prune_entry str pool_points acc entry).2 !! s = acc.2 !! s.
Proof.
  destruct entry as [s_point t_points]. cbn [fst]. intros Hne.
  unfold prune_entry. destruct (decide _); cbn [snd].
  - by rewrite lookup_delete_ne.
  - destruct (decide _); cbn [snd]; [|done]. by rewrite lookup_alter_ne.
Qed.

Lemma prune_entry_same pool_points acc s_point t_points :
  acc.2 !! s_point = Some t_points →
  (prune_entry str pool_points acc (s_point, t_points)).2 !! s_point
  = if decide ((s_point ∉ pool_points) ∧ (t_points ## pool_points)) then None
    else Some (t_points ∖ (t_points ∖ pool_points)).
Proof.
  intros Hs. unfold prune_entry. destruct (decide _); cbn [snd].
  - by rewrite lookup_delete_eq.
  - destruct (decide (t_points ∖ pool_points ≠ ∅)) as [Hd|Hd]; cbn [snd].
    + by rewrite lookup_alter_eq, Hs.
    + apply dec_stable in Hd. rewrite Hs, Hd. f_equal. set_solver.
Qed.

Lemma prune_fold_other pool_points (l : list (point * gset point)) acc s :
  s ∉ l.*1 →
  (foldl (prune_entry str pool_points) acc l).2 !! s = acc.2 !! s.
Proof.
  revert acc. induction l as [|entry l IH]; intros acc Hs; [done|].
  rewrite fmap_cons in Hs. apply not_elem_of_cons in Hs as [Hne Hs].
  cbn [foldl]. rewrite IH by done. by apply prune_entry_other.
Qed.

Lemma prune_fold_same pool_points (l : list (point * gset point)) acc
    s_point t_points :
  NoDup l.*1 → (s_point, t_points) ∈ l →
  acc.2 !! s_point = Some t_points →
  (foldl (prune_entry str pool_points) acc l).2 !! s_point
  = if decide ((s_point ∉ pool_points) ∧ (t_points ## pool_points)) then None
    else Some (t_points ∖ (t_points ∖ pool_points)).
Proof.
  revert acc. induction l as [|entry l IH]; intros acc Hnd Hin Hs.
  - by apply elem_of_nil in Hin.
  - rewrite fmap_cons in Hnd. apply NoDup_cons in Hnd as [Hnotin Hnd].
    cbn [foldl]. apply elem_of_cons in Hin as [<-|Hin].
    + rewrite prune_fold_other by done. by apply prune_entry_same.
    + apply IH; [done..|]. rewrite prune_entry_other; [done|].
      intros Heq. apply Hnotin. rewrite Heq.
      apply list_elem_of_fmap. by exists (s_point, t_points).
Qed.

(** C8. The pruning scan of [increment_graph_elements], entry by entry: an
    entry whose source point is out of the pool and whose target points are
    all out of the pool schedules the source and every target for pruning
    and leaves [edge_points]; any other entry schedules its targets that
    are out of the pool, loses them, and keeps its key.  Nothing else is
    scheduled, and no entry is added. *)
Theorem prune_scan_entries pool_points edge_points :
  let prune_points := (prune_scan str pool_points edge_points).1 in
  let kept := (prune_scan str pool_points edge_points).2 in
  (∀ s_point t_points, edge_points !! s_point = Some t_points →
     if decide ((s_point ∉ pool_points) ∧ (t_points ## pool_points)) then
       str s_point ∈ prune_points
       ∧ (∀ t, t ∈ t_points → str t ∈ prune_points)
       ∧ kept !! s_point = None
     else
       (∀ t, t ∈ t_points → (t ∉ pool_points) → str t ∈ prune_points)
       ∧ (∃ targets, kept !! s_point = Some targets
                     ∧ ∀ t, t ∈ targets ↔ t ∈ t_points ∧ t ∈ pool_points))
  ∧ (∀ x, x ∈ prune_points →
       ∃ s_point t_points, edge_points !! s_point = Some t_points
         ∧ if decide ((s_point ∉ pool_points) ∧ (t_points ## pool_points))
           then x = str s_point ∨ ∃ t, t ∈ t_points ∧ x = str t
           else ∃ t, t ∈ t_points ∧ (t ∉ pool_points) ∧ x = str t)
  ∧ (∀ s_point, edge_points !! s_point = None → kept !! s_point = None).
Proof.
  intros prune_points kept. unfold prune_points, kept, prune_scan.
  split; [|split].
  - intros s_point t_points Hs.
    assert (Hin : (s_point, t_points) ∈ map_to_list edge_points)
      by (by apply elem_of_map_to_list).
    assert (Hsched : scheduled_by pool_points (s_point, t_points)
                     ⊆ (foldl (prune_entry str pool_points) (∅, edge_points)
                          (map_to_list edge_points)).1).
    { rewrite prune_fold_scheduled. intros x Hx. apply elem_of_union. right.
      apply elem_of_union_list. eexists. split; [|exact Hx].
      apply list_elem_of_fmap. by eexists. }
    rewrite (prune_fold_same _ _ _ s_point t_points);
      [|apply NoDup_fst_map_to_list|done..].
    unfold scheduled_by in Hsched. cbn [fst snd] in Hsched.
    destruct (decide _) as [Hp|Hp].
    + split; [set_solver|]. split; [|done]. intros t Ht. apply Hsched.
      apply elem_of_union. right. apply elem_of_map. by exists t.
    + split.
      * intros t Ht Hout. apply Hsched. apply elem_of_map. exists t.
        split; [done|]. set_solver.
      * eexists. split; [done|]. intros t.
        rewrite !elem_of_difference. destruct (decide (t ∈ pool_points)); tauto.
  - intros x. rewrite prune_fold_scheduled. cbn [fst].
    intros [Hx|Hx]%elem_of_union; [by apply not_elem_of_empty in Hx|].
    apply elem_of_union_list in Hx as (X & HX & Hx).
    apply list_elem_of_fmap in HX as ([s_point t_points] & -> & Hin).
    apply elem_of_map_to_list in Hin. exists s_point, t_points.
    split; [done|]. unfold scheduled_by in Hx. cbn [fst snd] in Hx.
    destruct (decide _) as [Hp|Hp].
    + apply elem_of_union in Hx as [->%elem_of_singleton|Hx]; [by left|].
      right. apply elem_of_map in Hx as (t & -> & Ht). by exists t.
    + apply elem_of_map in Hx as (t & -> & Ht).
      apply elem_of_difference in Ht as [Ht Hout]. by exists t.
  - intros s_point Hnone. rewrite prune_fold_other; [done|].
    intros ([s ts] & -> & Hin)%list_elem_of_fmap.
    apply elem_of_map_to_list in Hin. cbn [fst] in Hnone. congruence.
Qed.

End PruneScan.

(** The pool slides from [{1; 2}] to [{2}]: point 1 goes, with its entry;
    point 3, a target out of the pool, goes too, and point 2 keeps its key. *)
Example prune_scan_slide :
  prune_scan (pretty : Z → string) {[2]} {[1 := {[1]}; 2 := {[2; 3]}]}
  = ({["1"; "3"]}, {[2 := {[2]}]}).
Proof. vm_compute. reflexivity. Qed.

Lemma prune_scan_entries_witness :
  let edge_points : gmap Z (gset Z) := {[1 := {[1]}; 2 := {[2; 3]}]} in
  let pool_points : gset Z := {[2]} in
  edge_points !! 1 = Some {[1]}
  ∧ edge_points !! 2 = Some {[2; 3]}
  ∧ "1" ∈ (prune_scan pretty pool_points edge_points).1
  ∧ (prune_scan pretty pool_points edge_points).2 !! 1 = None
  ∧ "3" ∈ (prune_scan pretty pool_points edge_points).1
  ∧ ∃ targets, (prune_scan pretty pool_points edge_points).2 !! 2 = Some targets
               ∧ ∀ t, t ∈ targets ↔ t ∈ ({[2; 3]} : gset Z) ∧ t ∈ pool_points.
Proof.
  intros edge_points pool_points.
  assert (H1 : edge_points !! 1 = Some {[1]}) by (vm_compute; reflexivity).
  assert (H2 : edge_points !! 2 = Some {[2; 3]}) by (vm_compute; reflexivity).
  split; [exact H1|]. split; [exact H2|].
  pose proof (proj1 (prune_scan_entries pretty pool_points edge_points)
                1 {[1]} H1) as Hout.
  pose proof (proj1 (prune_scan_entries pretty pool_points edge_points)
                2 {[2; 3]} H2) as Hin.
  rewrite decide_True in Hout by (subst pool_points; set_solver).
  rewrite decide_False in Hin by (subst pool_points; set_solver).
  destruct Hout as (Hs & _ & Hgone). destruct Hin as [Ht Hkept].
  split; [exact Hs|]. split; [exact Hgone|]. split; [|exact Hkept].
  apply (Ht 3); subst pool_points; set_solver.
Defined.


(** ** [clear_deltas] and [get_publish_deltas] *)

(** The empty buffer of a kind. *)
Definition empty_slot (key : string) : slot :=
  if decide (key = WORKFLOW) then Message ∅ else Dict ∅.

(** The buffers have, under [key], what [clear_deltas] expects there. *)
Definition shaped (store : Store) (key : string) : Prop :=
  if decide (key = WORKFLOW) then ∃ m, store !! key = Some (Message m)
  else ∃ d, store !! key = Some (Dict d).

Lemma Deltas_Clear_empty (d : Deltas) :
  delta_has_fields (Deltas_Clear d) = false.
Proof. by destruct d as [? ? [?|?] [?|?] ? ?]. Qed.

Lemma Deltas_Clear_idemp (d : Deltas) :
  Deltas_Clear (Deltas_Clear d) = Deltas_Clear d.
Proof. by destruct d as [? ? [?|?] [?|?] ? ?]. Qed.

Lemma run_clear_slot key (store : Store) (s : Mgr) :
  shaped store key →
  clear_slot key store s = (inr (<[key := empty_slot key]> store), s).
Proof.
  unfold shaped, clear_slot, empty_slot.
  destruct (decide (key = WORKFLOW)); intros [x Hx];
    (erewrite run_bind_ok; [|by apply run_subscript_Some]); reflexivity.
Qed.

Lemma shaped_insert (store : Store) key key' :
  shaped store key' → shaped (<[key := empty_slot key]> store) key'.
Proof.
  unfold shaped, empty_slot. intros Hs.
  destruct (decide (key = key')) as [->|Hne].
  - rewrite lookup_insert_eq. destruct (decide (key' = WORKFLOW)); eauto.
  - by rewrite lookup_insert_ne.
Qed.

(** The loop of [clear_deltas] over a list of keys. *)
Lemma run_clear_loop_keys (keys : list string) (s : Mgr) :
  (∀ key, key ∈ keys → shaped (added s) key ∧ shaped (updated s) key) →
  ∃ s',
    for_ keys (λ key,
      modify (set_deltas (alter_delta key Deltas_Clear));;
      s ← get;
      a ← clear_slot key (added s);
      modify (set_added (λ _, a));;
      u ← clear_slot key (updated s);
      modify (set_updated (λ _, u))) s = (inr tt, s')
    ∧ deltas s'
      = (λ kd, if decide (kd.1 ∈ keys) then (kd.1, Deltas_Clear kd.2) else kd)
          <$> deltas s
    ∧ (∀ key, added s' !! key
              = if decide (key ∈ keys) then Some (empty_slot key)
                else added s !! key)
    ∧ (∀ key, updated s' !! key
              = if decide (key ∈ keys) then Some (empty_slot key)
                else updated s !! key).
Proof.
  revert s. induction keys as [|key keys IH]; intros s Hshaped.
  - exists s. split; [done|]. split.
    + rewrite <- (list_fmap_id (deltas s)) at 1. apply list_fmap_ext.
      intros i kd _. rewrite decide_False; [done|]. apply not_elem_of_nil.
    + split; intros key; (rewrite decide_False; [done|apply not_elem_of_nil]).
  - destruct (Hshaped key) as [Ha Hu]; [left|].
    set (s1 := set_updated (λ _, <[key := empty_slot key]> (updated s))
                 (set_added (λ _, <[key := empty_slot key]> (added s))
                    (set_deltas (alter_delta key Deltas_Clear) s))).
    destruct (IH s1) as (s' & Hrun & Hdeltas & Hadded & Hupdated).
    { intros key' Hin. destruct (Hshaped key') as [Ha' Hu']; [by right|].
      split; by apply shaped_insert. }
    exists s'. split; [|split; [|split]].
    + rewrite for_cons. change (bind ?m ?k) with (m ≫= k).
      erewrite run_bind_ok; [exact Hrun|].
      erewrite run_bind_ok; [|reflexivity].
      erewrite run_bind_ok; [|reflexivity].
      erewrite run_bind_ok; [|by apply run_clear_slot].
      erewrite run_bind_ok; [|reflexivity].
      erewrite run_bind_ok; [|by apply run_clear_slot].
      reflexivity.
    + rewrite Hdeltas. simpl. unfold alter_delta.
      rewrite <- list_fmap_compose. apply list_fmap_ext. intros i [k d] _.
      simpl. destruct (decide (k = key)) as [->|Hne]; simpl.
      * rewrite (decide_True (P := key ∈ key :: keys)) by left.
        destruct (decide (key ∈ keys)); [|done].
        by rewrite Deltas_Clear_idemp.
      * destruct (decide (k ∈ keys)) as [Hin|Hnot].
        -- by rewrite decide_True by (by right).
        -- rewrite decide_False; [done|]. by intros [?|?]%elem_of_cons.
    + intros key'. rewrite Hadded. simpl.
      destruct (decide (key' ∈ keys)) as [Hin|Hnot].
      * by rewrite decide_True by (by right).
      * destruct (decide (key' = key)) as [->|Hne].
        -- rewrite decide_True by left. by rewrite lookup_insert_eq.
        -- rewrite lookup_insert_ne by done.
           rewrite decide_False; [done|]. by intros [?|?]%elem_of_cons.
    + intros key'. rewrite Hupdated. simpl.
      destruct (decide (key' ∈ keys)) as [Hin|Hnot].
      * by rewrite decide_True by (by right).
      * destruct (decide (key' = key)) as [->|Hne].
        -- rewrite decide_True by left. by rewrite lookup_insert_eq.
        -- rewrite lookup_insert_ne by done.
           rewrite decide_False; [done|]. by intros [?|?]%elem_of_cons.
Qed.

Lemma get_publish_deltas_empty (s : Mgr) :
  (∀ kd, kd ∈ deltas s → delta_has_fields kd.2 = false) →
  get_publish_deltas s = [(ALL_DELTAS, AllDeltas [], SerializeToString)].
Proof.
  unfold get_publish_deltas. intros Hempty.
  assert (Hfold : ∀ acc,
    foldl (λ (acc : list (string * published * string)
                    * list (string * Deltas)) kd,
             if delta_has_fields kd.2
             then (acc.1 ++ [(kd.1, PerKind kd.2, SerializeToString)],
                   acc.2 ++ [kd])
             else acc) acc (deltas s) = acc).
  { induction (deltas s) as [|kd l IH]; intros acc; [done|].
    cbn [foldl]. rewrite (Hempty kd) by left.
    apply IH. intros kd' Hin. apply Hempty. by right. }
  by rewrite Hfold.
Qed.

(** C9. After [clear_deltas] every delta message is cleared, the added and
    the updated buffer are empty under every key of [self.deltas], and
    [get_publish_deltas] returns the all-deltas message alone, with nothing
    in it. *)
Theorem clear_deltas_then_publish (s : Mgr) :
  (∀ key, key ∈ (deltas s).*1 →
     shaped (added s) key ∧ shaped (updated s) key) →
  ∃ s',
    clear_deltas s = (inr tt, s')
    ∧ deltas s' = (λ kd, (kd.1, Deltas_Clear kd.2)) <$> deltas s
    ∧ (∀ key delta, (key, delta) ∈ deltas s' →
         delta_has_fields delta = false)
    ∧ (∀ key, key ∈ (deltas s).*1 →
         added s' !! key = Some (if decide (key = WORKFLOW) then Message ∅
                                 else Dict ∅)
         ∧ updated s' !! key = Some (if decide (key = WORKFLOW) then Message ∅
                                     else Dict ∅))
    ∧ get_publish_deltas s' = [(ALL_DELTAS, AllDeltas [], SerializeToString)].
Proof.
  intros Hshaped.
  destruct (run_clear_loop_keys (deltas s).*1 s Hshaped)
    as (s' & Hrun & Hdeltas & Hadded & Hupdated).
  assert (Hcleared : deltas s' = (λ kd, (kd.1, Deltas_Clear kd.2)) <$> deltas s).
  { rewrite Hdeltas. apply list_fmap_ext. intros i kd Hi.
    rewrite decide_True; [done|]. apply list_elem_of_fmap. exists kd.
    split; [done|]. by apply list_elem_of_lookup_2 in Hi. }
  assert (Hempty : ∀ kd, kd ∈ deltas s' → delta_has_fields kd.2 = false).
  { intros kd. rewrite Hcleared. intros (kd0 & -> & _)%list_elem_of_fmap.
    apply Deltas_Clear_empty. }
  exists s'. split; [|split; [exact Hcleared|split; [|split]]].
  - unfold clear_deltas. erewrite run_bind_ok; [|reflexivity]. exact Hrun.
  - intros key delta Hin. by apply (Hempty (key, delta)).
  - intros key Hin. rewrite Hadded, Hupdated.
    by rewrite !(decide_True (P := key ∈ (deltas s).*1)) by done.
  - by apply get_publish_deltas_empty.
Qed.

Lemma clear_deltas_then_publish_witness :
  (∀ key, key ∈ (deltas sample_applied).*1 →
     shaped (added sample_applied) key ∧ shaped (updated sample_applied) key)
  ∧ delta_has_fields (sample_delta 5) = true
  ∧ ∃ s', clear_deltas sample_applied = (inr tt, s')
          ∧ get_publish_deltas s'
            = [(ALL_DELTAS, AllDeltas [], SerializeToString)].
Proof.
  assert (H1 : ∀ key, key ∈ (deltas sample_applied).*1 →
            shaped (added sample_applied) key
            ∧ shaped (updated sample_applied) key).
  { intros key Hin.
    change ((deltas sample_applied).*1)
      with [EDGES; FAMILIES; FAMILY_PROXIES; JOBS; TASKS; TASK_PROXIES;
            WORKFLOW] in Hin.
    repeat (apply elem_of_cons in Hin as [->|Hin];
            [split; eexists; vm_compute; reflexivity|]).
    by apply elem_of_nil in Hin. }
  split; [exact H1|]. split; [vm_compute; reflexivity|].
  destruct (clear_deltas_then_publish sample_applied H1)
    as (s' & Hrun & _ & _ & _ & Hpublish).
  exists s'. split; [exact Hrun|exact Hpublish].
Defined.


(** ** [get_data_elements] *)

Lemma DELTAS_MAP_keys key :
  DELTAS_MAP !! key
  = if decide (key ∈ [EDGES; FAMILIES; FAMILY_PROXIES; JOBS; TASKS;
                      TASK_PROXIES])
    then Some KindDeltasClass
    else if decide (key = WORKFLOW) then Some WDeltasClass
    else if decide (key = ALL_DELTAS) then Some AllDeltasClass
    else None.
Proof.
  unfold DELTAS_MAP. cbn [list_to_map foldr fst snd uncurry].
  repeat (rewrite lookup_insert; destruct (decide (_ = key)) as [<-|?];
          [vm_compute; reflexivity|]).
  rewrite lookup_empty.
  rewrite decide_False.
  - by rewrite !decide_False by congruence.
  - intros Hin. repeat (apply elem_of_cons in Hin as [->|Hin]; [done|]).
    by apply elem_of_nil in Hin.
Qed.





(** The key [all] is in [DELTAS_MAP], and the store has no slice of that
    name: no delta is returned for it. *)
Lemma get_data_elements_all (s : Mgr) :
  ∃ e, get_data_elements s ALL_DELTAS = inl e.
Proof.
  unfold get_data_elements. rewrite DELTAS_MAP_keys.
  rewrite decide_False.
  - rewrite (decide_False (P := ALL_DELTAS = WORKFLOW)) by done.
    rewrite decide_True by done.
    destruct (data s !! WORKFLOW) as [[d|m]|]; eauto.
  - intros Hin. repeat (apply elem_of_cons in Hin as [[=]|Hin]).
    by apply elem_of_nil in Hin.
Qed.


(** ** [apply_delta]: added entities of a collection kind *)

Lemma dict_update_by_id_snoc (d : gmap string Msg) (l : list Msg) (e : Msg) :
  dict_update_by_id d (l ++ [e]) = <[get_str "id" e := e]> (dict_update_by_id d l).
Proof. unfold dict_update_by_id. by rewrite foldl_app. Qed.

Lemma dict_update_by_id_lookup (d : gmap string Msg) (l : list Msg) (id : string) :
  dict_update_by_id d l !! id
  = from_option Some (d !! id) (last (filter (λ e, get_str "id" e = id) l)).
Proof.
  induction l as [|e l IH] using rev_ind; [done|].
  rewrite dict_update_by_id_snoc, filter_app, filter_cons, filter_nil.
  destruct (decide (get_str "id" e = id)) as [<-|Hne].
  - by rewrite lookup_insert_eq, last_snoc.
  - by rewrite lookup_insert_ne, app_nil_r.
Qed.

Lemma run_apply_added key delta (l : list Msg) data log d :
  key ≠ WORKFLOW → d_added delta = Rep l → data !! key = Some (Dict d) →
  apply_added key delta (mkEnv data log)
  = (inr tt, mkEnv (<[key := Dict (dict_update_by_id d l)]> data) log).
Proof.
  intros Hk Hl Hd. unfold apply_added. rewrite Hl. cbn [payload_truthy].
  destruct l as [|e l].
  - cbn. by rewrite insert_id.
  - rewrite bool_decide_eq_false_2 by done. cbn [negb].
    rewrite decide_True by done. unfold data_at.
    erewrite run_bind_ok; [|erewrite run_bind_ok; [|reflexivity];
                            by apply run_subscript_Some].
    reflexivity.
Qed.

(** The added entities of a collection kind are stored under their ids: a
    later entity of the list replaces an earlier one of the same id and the
    stored one, every other id keeps what it had; the updated and pruned
    parts of the delta are then applied to that store.  Applying the added
    entities a second time changes nothing. *)
Theorem apply_delta_added
    (key : string) (delta : Deltas) (l : list Msg) (d : gmap string Msg)
    (env : Env) :
  key ≠ WORKFLOW →
  d_added delta = Rep l →
  env_data env !! key = Some (Dict d) →
  ∃ d',
    let env' := mkEnv (<[key := Dict d']> (env_data env)) (env_log env) in
    apply_added key delta env = (inr tt, env')
    ∧ apply_delta key delta env
      = (apply_updated key delta;; apply_pruned key delta) env'
    ∧ (∀ id, d' !! id
             = from_option Some (d !! id)
                 (last (filter (λ e, get_str "id" e = id) l)))
    ∧ (∀ e, e ∈ l → is_Some (d' !! get_str "id" e))
    ∧ (∀ id, id ∉ get_str "id" <$> l → d' !! id = d !! id)
    ∧ apply_added key delta env' = (inr tt, env').
Proof.
  intros Hk Hl Hd. destruct env as [data log]. cbn [env_data env_log] in *.
  exists (dict_update_by_id d l). cbn zeta.
  assert (Hrun := run_apply_added key delta l data log d Hk Hl Hd).
  split; [exact Hrun|]. split.
  { unfold apply_delta. by erewrite run_bind_ok; [|exact Hrun]. }
  split; [apply dict_update_by_id_lookup|]. split.
  { intros e He. rewrite dict_update_by_id_lookup.
    destruct (last (filter (λ e0, get_str "id" e0 = get_str "id" e) l))
      as [e'|] eqn:Hlast; [by eexists|].
    apply last_None in Hlast.
    assert (e ∈ filter (λ e0, get_str "id" e0 = get_str "id" e) l)
      by (by apply list_elem_of_filter).
    rewrite Hlast in *. by apply elem_of_nil in H. }
  split.
  { intros id Hid. rewrite dict_update_by_id_lookup.
    rewrite (filter_none (λ e, get_str "id" e = id)); [done|].
    intros e He <-. apply Hid. apply list_elem_of_fmap. by exists e. }
  erewrite run_apply_added; [|done|done|apply lookup_insert_eq].
  rewrite insert_insert_eq.
  replace (dict_update_by_id (dict_update_by_id d l) l)
    with (dict_update_by_id d l); [done|].
  apply map_eq. intros id. rewrite !dict_update_by_id_lookup.
  by destruct (last (filter (λ e, get_str "id" e = id) l)).
Qed.

Lemma apply_delta_added_witness :
  JOBS ≠ WORKFLOW
  ∧ env_data sample_mirror !! JOBS = Some (Dict ∅)
  ∧ ∃ d', apply_added JOBS
            (mkDeltas 0 0 (Rep [sample_stored_family; sample_family_update])
               (Rep []) [] false) sample_mirror
          = (inr tt, mkEnv (<[JOBS := Dict d']> (env_data sample_mirror)) [])
          ∧ d' !! "u|w|1|root" = Some sample_family_update.
Proof.
  assert (H1 : JOBS ≠ WORKFLOW) by discriminate.
  assert (H2 : env_data sample_mirror !! JOBS = Some (Dict ∅))
    by (vm_compute; reflexivity).
  split; [exact H1|]. split; [exact H2|].
  destruct (apply_delta_added JOBS
              (mkDeltas 0 0 (Rep [sample_stored_family; sample_family_update])
                 (Rep []) [] false)
              [sample_stored_family; sample_family_update] ∅ sample_mirror
              H1 eq_refl H2) as (d' & Hrun & _ & Hlook & _).
  exists d'. split; [exact Hrun|]. rewrite Hlook. vm_compute. reflexivity.
Defined.


(** ** [apply_delta]: pruned ids *)

Lemma run_data_at key data log slot :
  data !! key = Some slot →
  data_at key (mkEnv data log) = (inr slot, mkEnv data log).
Proof.
  intros H. unfold data_at. erewrite run_bind_ok; [|reflexivity].
  by apply run_subscript_Some.
Qed.

Lemma run_data_elem key id data log d stored :
  data !! key = Some (Dict d) → d !! id = Some stored →
  data_elem key id (mkEnv data log) = (inr stored, mkEnv data log).
Proof.
  intros Hk Hi. unfold data_elem.
  erewrite run_bind_ok; [|by apply run_data_at].
  erewrite run_bind_ok; [|reflexivity]. by apply run_subscript_Some.
Qed.

(** An id that is not stored is passed over, whatever the kind. *)
Lemma run_apply_pruned_id_absent key del_id data log d :
  data !! key = Some (Dict d) → d !! del_id = None →
  apply_pruned_id key del_id (mkEnv data log) = (inr tt, mkEnv data log).
Proof.
  intros Hk Hi. unfold apply_pruned_id.
  erewrite run_bind_ok; [|by apply run_data_at].
  erewrite run_bind_ok; [|reflexivity]. by rewrite decide_True.
Qed.

(** A kind without references to its ids elsewhere: the entry is deleted. *)
Lemma run_apply_pruned_id_plain key del_id data log d :
  key ∉ [TASK_PROXIES; FAMILY_PROXIES; EDGES] →
  data !! key = Some (Dict d) →
  apply_pruned_id key del_id (mkEnv data log)
  = (inr tt, mkEnv (<[key := Dict (delete del_id d)]> data) log).
Proof.
  intros Hkey Hk. destruct (d !! del_id) as [stored|] eqn:Hi.
  - unfold apply_pruned_id.
    erewrite run_bind_ok; [|by apply run_data_at].
    erewrite run_bind_ok; [|reflexivity].
    rewrite decide_False by (by rewrite Hi).
    rewrite !decide_False by (intros ->; apply Hkey; set_solver).
    erewrite run_bind_ok; [|reflexivity].
    erewrite run_bind_ok; [|by apply run_data_at].
    erewrite run_bind_ok; [|reflexivity]. reflexivity.
  - rewrite (run_apply_pruned_id_absent _ _ _ _ d) by done.
    by rewrite delete_id, insert_id.
Qed.

Lemma run_apply_pruned_absent key (l : list string) data log d :
  data !! key = Some (Dict d) → (∀ id, id ∈ l → d !! id = None) →
  for_ l (apply_pruned_id key) (mkEnv data log) = (inr tt, mkEnv data log).
Proof.
  intros Hk. induction l as [|id l IH]; intros Hl; [done|].
  rewrite for_cons. unfold bind.
  rewrite (run_apply_pruned_id_absent _ _ _ _ d) by (try apply Hl; set_solver).
  apply IH. intros id' Hin. apply Hl. by right.
Qed.

Lemma run_apply_pruned_plain key (l : list string) data log d :
  key ∉ [TASK_PROXIES; FAMILY_PROXIES; EDGES] →
  data !! key = Some (Dict d) →
  for_ l (apply_pruned_id key) (mkEnv data log)
  = (inr tt, mkEnv (<[key := Dict (foldl (λ acc id, delete id acc) d l)]> data)
               log).
Proof.
  intros Hkey. revert data d. induction l as [|id l IH]; intros data d Hk.
  - cbn. by rewrite insert_id.
  - rewrite for_cons. unfold bind.
    rewrite (run_apply_pruned_id_plain _ _ _ _ d) by done.
    erewrite IH; [|apply lookup_insert_eq]. by rewrite insert_insert_eq.
Qed.

Lemma lookup_foldl_delete {V} (d : gmap string V) (l : list string) id :
  foldl (λ acc id, delete id acc) d l !! id
  = if decide (id ∈ l) then None else d !! id.
Proof.
  revert d. induction l as [|x l IH]; intros d; [done|].
  cbn [foldl]. rewrite IH.
  destruct (decide (id ∈ l)) as [Hin|Hnot].
  - rewrite decide_True; [done|by right].
  - destruct (decide (x = id)) as [->|Hne].
    + rewrite lookup_delete_eq, decide_True; [done|by left].
    + rewrite lookup_delete_ne by done. rewrite decide_False; [done|].
      intros [->|?]%elem_of_cons; done.
Qed.

(** Pruning in a kind other than task proxies, family proxies and edges
    (jobs, tasks, families): the delta never raises; the pruned ids that
    are stored are deleted, those that are not stored are passed over, and
    every other entity and every other kind is left as it was.  This is
    what is left of the store after the added and updated parts. *)
Theorem apply_delta_pruned_plain
    (key : string) (delta : Deltas) (d : gmap string Msg) (env : Env) :
  key ∉ [TASK_PROXIES; FAMILY_PROXIES; EDGES] →
  d_added delta = Rep [] → d_updated delta = Rep [] →
  env_data env !! key = Some (Dict d) →
  ∃ d',
    apply_delta key delta env
    = (inr tt, mkEnv (<[key := Dict d']> (env_data env)) (env_log env))
    ∧ (∀ id, d' !! id = if decide (id ∈ d_pruned delta) then None else d !! id)
    ∧ dom d' = dom d ∖ list_to_set (d_pruned delta).
Proof.
  intros Hkey Ha Hu Hd. destruct env as [data log]. cbn [env_data env_log] in *.
  exists (foldl (λ acc id, delete id acc) d (d_pruned delta)).
  split; [|split].
  - unfold apply_delta, apply_added, apply_updated, apply_pruned.
    rewrite Ha, Hu. cbn [payload_truthy bool_decide negb].
    rewrite bool_decide_eq_true_2 by done. cbn [negb].
    erewrite run_bind_ok; [|reflexivity].
    erewrite run_bind_ok; [|reflexivity].
    by apply run_apply_pruned_plain.
  - apply lookup_foldl_delete.
  - apply set_eq. intros id. rewrite elem_of_dom, lookup_foldl_delete.
    rewrite elem_of_difference, elem_of_dom, elem_of_list_to_set.
    destruct (decide (id ∈ d_pruned delta)); [|tauto].
    split; [by intros [? ?]|tauto].
Qed.

Lemma apply_delta_pruned_plain_witness :
  (JOBS ∉ [TASK_PROXIES; FAMILY_PROXIES; EDGES])
  ∧ env_data sample_mirror !! JOBS = Some (Dict ∅)
  ∧ ∃ d', apply_delta JOBS (mkDeltas 0 0 (Rep []) (Rep []) ["u|w|1|a|01"] false)
            sample_mirror
          = (inr tt, mkEnv (<[JOBS := Dict d']> (env_data sample_mirror)) [])
          ∧ d' !! "u|w|1|a|01" = None.
Proof.
  assert (H1 : JOBS ∉ [TASK_PROXIES; FAMILY_PROXIES; EDGES]).
  { intros Hin. repeat (apply elem_of_cons in Hin as [[=]|Hin]).
    by apply elem_of_nil in Hin. }
  assert (H2 : env_data sample_mirror !! JOBS = Some (Dict ∅))
    by (vm_compute; reflexivity).
  split; [exact H1|]. split; [exact H2|].
  destruct (apply_delta_pruned_plain JOBS
              (mkDeltas 0 0 (Rep []) (Rep []) ["u|w|1|a|01"] false) ∅
              sample_mirror H1 eq_refl eq_refl H2) as (d' & Hrun & Hlook & _).
  exists d'. split; [exact Hrun|]. rewrite Hlook. reflexivity.
Defined.

(** Pruned ids that are not in the store are passed over in every kind: no
    reference is looked for, nothing is raised and nothing changes. *)
Theorem apply_delta_pruned_unknown
    (key : string) (delta : Deltas) (d : gmap string Msg) (env : Env) :
  d_added delta = Rep [] → d_updated delta = Rep [] →
  env_data env !! key = Some (Dict d) →
  (∀ id, id ∈ d_pruned delta → d !! id = None) →
  apply_delta key delta env = (inr tt, env).
Proof.
  intros Ha Hu Hd Hl. destruct env as [data log]. cbn [env_data env_log] in *.
  unfold apply_delta, apply_added, apply_updated, apply_pruned.
  rewrite Ha, Hu. cbn [payload_truthy bool_decide negb].
  rewrite bool_decide_eq_true_2 by done. cbn [negb].
  erewrite run_bind_ok; [|reflexivity].
  erewrite run_bind_ok; [|reflexivity].
  by apply run_apply_pruned_absent with d.
Qed.

Lemma apply_delta_pruned_unknown_witness :
  env_data sample_mirror !! TASK_PROXIES = Some (Dict ∅)
  ∧ apply_delta TASK_PROXIES
      (mkDeltas 0 0 (Rep []) (Rep []) ["u|w|1|a"; "u|w|2|a"] false)
      sample_mirror
    = (inr tt, sample_mirror).
Proof.
  assert (H1 : env_data sample_mirror !! TASK_PROXIES = Some (Dict ∅))
    by (vm_compute; reflexivity).
  split; [exact H1|].
  apply (apply_delta_pruned_unknown TASK_PROXIES
           (mkDeltas 0 0 (Rep []) (Rep []) ["u|w|1|a"; "u|w|2|a"] false) ∅
           sample_mirror eq_refl eq_refl H1).
  intros id _. apply lookup_empty.
Defined.


(** ** [apply_delta]: pruning a proxy that is stored *)

(** [l.remove(x)] takes out the first occurrence. *)
Lemma list_remove_Some (x : string) (l : list string) :
  x ∈ l →
  ∃ l1 l2, l = l1 ++ x :: l2 ∧ (x ∉ l1) ∧ list_remove x l = Some (l1 ++ l2).
Proof.
  induction l as [|y l IH]; intros Hin; [by apply elem_of_nil in Hin|].
  cbn [list_remove]. destruct (decide (x = y)) as [<-|Hne].
  - exists [], l. split; [done|]. split; [apply not_elem_of_nil|done].
  - apply elem_of_cons in Hin as [?|Hin]; [done|].
    destruct (IH Hin) as (l1 & l2 & -> & Hnot & ->).
    exists (y :: l1), l2. split; [done|]. split; [|done].
    by apply not_elem_of_cons.
Qed.

Lemma list_remove_None (x : string) (l : list string) :
  x ∉ l → list_remove x l = None.
Proof.
  induction l as [|y l IH]; intros Hnot; [done|].
  apply not_elem_of_cons in Hnot as [Hne Hnot].
  cbn [list_remove]. rewrite decide_False by done. by rewrite IH.
Qed.

Lemma run_remove_ref_in_elem kind id field del_id data log defs def l' :
  data !! kind = Some (Dict defs) → defs !! id = Some def →
  list_remove del_id (get_rep field def) = Some l' →
  remove_ref_in_elem kind id field del_id (mkEnv data log)
  = (inr tt,
     mkEnv (<[kind := Dict (<[id := set_field field (FRep l') def]> defs)]> data)
       log).
Proof.
  intros Hk Hi Hl. unfold remove_ref_in_elem.
  erewrite run_bind_ok; [|by apply run_data_elem with defs].
  unfold remove_from. rewrite Hl.
  erewrite run_mutate_elem; [|done..]. by rewrite Hl.
Qed.

Lemma run_remove_ref_in_elem_missing kind id field del_id data log defs def :
  data !! kind = Some (Dict defs) → defs !! id = Some def →
  list_remove del_id (get_rep field def) = None →
  remove_ref_in_elem kind id field del_id (mkEnv data log)
  = (inl ValueError, mkEnv data log).
Proof.
  intros Hk Hi Hl. unfold remove_ref_in_elem.
  erewrite run_bind_ok; [|by apply run_data_elem with defs].
  unfold remove_from. by rewrite Hl.
Qed.

Lemma run_remove_ref_in_workflow field del_id data log w :
  data !! WORKFLOW = Some (Message w) →
  remove_ref_in_workflow field del_id (mkEnv data log)
  = match list_remove del_id (get_rep field w) with
    | Some l' =>
        (inr tt,
         mkEnv (<[WORKFLOW := Message (set_field field (FRep l') w)]> data) log)
    | None => (inl ValueError, mkEnv data log)
    end.
Proof.
  intros Hw. unfold remove_ref_in_workflow.
  erewrite run_bind_ok; [|by apply run_data_at].
  erewrite run_bind_ok; [|reflexivity].
  unfold remove_from. by destruct (list_remove del_id (get_rep field w)).
Qed.

Lemma run_bind_assoc {St A B C} (m : M St A) (f : A → M St B)
    (g : B → M St C) s :
  ((m ≫= f) ≫= g) s = (m ≫= λ a, f a ≫= g) s.
Proof. rewrite !run_bind. by destruct (m s) as [[e|a] s1]. Qed.

(** The definition kind and the field that names the definition, for the
    two kinds of proxies. *)
Definition proxy_of (key kind field : string) : Prop :=
  (key = TASK_PROXIES ∧ kind = TASKS ∧ field = "task")
  ∨ (key = FAMILY_PROXIES ∧ kind = FAMILIES ∧ field = "family").

Lemma run_apply_pruned_id_proxy key kind field del_id data log d stored :
  proxy_of key kind field →
  data !! key = Some (Dict d) → d !! del_id = Some stored →
  apply_pruned_id key del_id (mkEnv data log)
  = (remove_ref_in_elem kind (get_str field stored) "proxies" del_id;;
     remove_ref_in_workflow key del_id;;
     s ← data_at key;
     d ← as_dict s;
     set_slot key (Dict (delete del_id d))) (mkEnv data log).
Proof.
  intros Hp Hk Hi. unfold apply_pruned_id.
  erewrite run_bind_ok; [|by apply run_data_at].
  erewrite run_bind_ok; [|reflexivity].
  rewrite decide_False by (by rewrite Hi).
  destruct Hp as [(-> & -> & ->)|(-> & -> & ->)].
  - rewrite decide_True by done.
    rewrite run_bind_assoc. erewrite run_bind_ok; [|by apply run_data_elem with d].
    apply run_bind_assoc.
  - rewrite decide_False by done. rewrite decide_True by done.
    rewrite run_bind_assoc. erewrite run_bind_ok; [|by apply run_data_elem with d].
    apply run_bind_assoc.
Qed.

(** Pruning a task proxy (or a family proxy) that is stored, when its
    definition lists it among its [proxies] and the workflow lists it under
    the kind: the first occurrence of the id is taken out of both lists and
    the entity is deleted; nothing else changes. *)
Theorem apply_delta_pruned_proxy
    (key kind field del_id : string) (delta : Deltas)
    (d defs : gmap string Msg) (stored def w : Msg) (env : Env) :
  proxy_of key kind field →
  d_added delta = Rep [] → d_updated delta = Rep [] →
  d_pruned delta = [del_id] →
  env_data env !! key = Some (Dict d) → d !! del_id = Some stored →
  env_data env !! kind = Some (Dict defs) →
  defs !! get_str field stored = Some def →
  env_data env !! WORKFLOW = Some (Message w) →
  del_id ∈ get_rep "proxies" def →
  del_id ∈ get_rep key w →
  ∃ p1 p2 r1 r2,
    get_rep "proxies" def = p1 ++ del_id :: p2 ∧ (del_id ∉ p1)
    ∧ get_rep key w = r1 ++ del_id :: r2 ∧ (del_id ∉ r1)
    ∧ apply_delta key delta env
      = (inr tt,
         mkEnv
           (<[key := Dict (delete del_id d)]>
              (<[WORKFLOW := Message (set_field key (FRep (r1 ++ r2)) w)]>
                 (<[kind := Dict (<[get_str field stored :=
                              set_field "proxies" (FRep (p1 ++ p2)) def]> defs)]>
                    (env_data env))))
           (env_log env)).
Proof.
  intros Hp Ha Hu Hl Hd Hi Hk Hdef Hw Hin_def Hin_w.
  destruct env as [data log]. cbn [env_data env_log] in *.
  destruct (list_remove_Some _ _ Hin_def) as (p1 & p2 & Hp12 & Hp1 & Hrem_p).
  destruct (list_remove_Some _ _ Hin_w) as (r1 & r2 & Hr12 & Hr1 & Hrem_r).
  exists p1, p2, r1, r2. do 4 (split; [done|]).
  assert (Hkinds : kind ≠ key ∧ kind ≠ WORKFLOW ∧ key ≠ WORKFLOW).
  { destruct Hp as [(-> & -> & ->)|(-> & -> & ->)]; done. }
  destruct Hkinds as (Hkk & Hkw & Hkeyw).
  unfold apply_delta, apply_added, apply_updated, apply_pruned.
  rewrite Ha, Hu, Hl. cbn [payload_truthy bool_decide negb].
  rewrite bool_decide_eq_true_2 by done. cbn [negb].
  erewrite run_bind_ok; [|reflexivity].
  erewrite run_bind_ok; [|reflexivity].
  rewrite for_cons. unfold bind at 1.
  rewrite (run_apply_pruned_id_proxy key kind field _ _ _ d stored) by done.
  erewrite run_bind_ok; [|by eapply run_remove_ref_in_elem].
  erewrite run_bind_ok;
    [|rewrite (run_remove_ref_in_workflow _ _ _ _ w)
        by (by rewrite lookup_insert_ne); by rewrite Hrem_r].
  erewrite run_bind_ok;
    [|apply run_data_at; by rewrite !lookup_insert_ne].
  erewrite run_bind_ok; [|reflexivity]. reflexivity.
Qed.

(** A task with one proxy, that proxy, and a workflow that lists it. *)
Definition sample_definition : Msg :=
  list_to_map [("id", FStr "u|w|a"); ("proxies", FRep ["u|w|1|a"])].

Definition sample_proxy : Msg :=
  list_to_map [("id", FStr "u|w|1|a"); ("task", FStr "u|w|a")].

Definition sample_listing : Msg :=
  list_to_map [("task_proxies", FRep ["u|w|1|a"; "u|w|2|a"])].

Definition sample_pruning : Env :=
  mkEnv
    (<[TASKS := Dict {["u|w|a" := sample_definition]}]>
       (<[TASK_PROXIES := Dict {["u|w|1|a" := sample_proxy]}]>
          (<[WORKFLOW := Message sample_listing]> DATA_TEMPLATE))) [].

Lemma apply_delta_pruned_proxy_witness :
  env_data sample_pruning !! TASK_PROXIES
    = Some (Dict {["u|w|1|a" := sample_proxy]})
  ∧ env_data sample_pruning !! TASKS
    = Some (Dict {["u|w|a" := sample_definition]})
  ∧ env_data sample_pruning !! WORKFLOW = Some (Message sample_listing)
  ∧ "u|w|1|a" ∈ get_rep "proxies" sample_definition
  ∧ "u|w|1|a" ∈ get_rep TASK_PROXIES sample_listing
  ∧ ∃ p1 p2 r1 r2,
      get_rep "proxies" sample_definition = p1 ++ "u|w|1|a" :: p2
      ∧ ("u|w|1|a" ∉ p1)
      ∧ get_rep TASK_PROXIES sample_listing = r1 ++ "u|w|1|a" :: r2
      ∧ ("u|w|1|a" ∉ r1)
      ∧ apply_delta TASK_PROXIES
          (mkDeltas 0 0 (Rep []) (Rep []) ["u|w|1|a"] false) sample_pruning
        = (inr tt,
           mkEnv
             (<[TASK_PROXIES := Dict (delete "u|w|1|a"
                                        {["u|w|1|a" := sample_proxy]})]>
                (<[WORKFLOW := Message (set_field TASK_PROXIES
                                          (FRep (r1 ++ r2)) sample_listing)]>
                   (<[TASKS := Dict (<[get_str "task" sample_proxy :=
                                set_field "proxies" (FRep (p1 ++ p2))
                                  sample_definition]>
                              {["u|w|a" := sample_definition]})]>
                      (env_data sample_pruning))))
             (env_log sample_pruning)).
Proof.
  assert (H1 : env_data sample_pruning !! TASK_PROXIES
               = Some (Dict {["u|w|1|a" := sample_proxy]}))
    by (vm_compute; reflexivity).
  assert (H2 : env_data sample_pruning !! TASKS
               = Some (Dict {["u|w|a" := sample_definition]}))
    by (vm_compute; reflexivity).
  assert (H3 : env_data sample_pruning !! WORKFLOW
               = Some (Message sample_listing))
    by (vm_compute; reflexivity).
  assert (H4 : "u|w|1|a" ∈ get_rep "proxies" sample_definition)
    by (vm_compute; left).
  assert (H5 : "u|w|1|a" ∈ get_rep TASK_PROXIES sample_listing)
    by (vm_compute; left).
  split; [exact H1|]. split; [exact H2|]. split; [exact H3|].
  split; [exact H4|]. split; [exact H5|].
  exact (apply_delta_pruned_proxy TASK_PROXIES TASKS "task" "u|w|1|a"
           (mkDeltas 0 0 (Rep []) (Rep []) ["u|w|1|a"] false)
           _ _ sample_proxy sample_definition sample_listing sample_pruning
           (or_introl (conj eq_refl (conj eq_refl eq_refl)))
           eq_refl eq_refl eq_refl H1 eq_refl H2 eq_refl H3 H4 H5).
Defined.


(** Pruning a stored proxy whose id is missing from a list that should
    refer to it raises [ValueError], and the ids that follow in [pruned] are
    not looked at.  When the definition does not list the proxy nothing has
    changed; when the definition lists it and the workflow does not, the
    definition has already lost the id and the proxy is still stored. *)
Theorem apply_delta_pruned_unlisted
    (key kind field del_id : string) (rest : list string) (delta : Deltas)
    (d defs : gmap string Msg) (stored def w : Msg) (env : Env) :
  proxy_of key kind field →
  d_added delta = Rep [] → d_updated delta = Rep [] →
  d_pruned delta = del_id :: rest →
  env_data env !! key = Some (Dict d) → d !! del_id = Some stored →
  env_data env !! kind = Some (Dict defs) →
  defs !! get_str field stored = Some def →
  env_data env !! WORKFLOW = Some (Message w) →
  ((del_id ∉ get_rep "proxies" def) →
   apply_delta key delta env = (inl ValueError, env))
  ∧ (del_id ∈ get_rep "proxies" def → (del_id ∉ get_rep key w) →
     ∃ p1 p2 data',
       get_rep "proxies" def = p1 ++ del_id :: p2 ∧ (del_id ∉ p1)
       ∧ apply_delta key delta env = (inl ValueError, mkEnv data' (env_log env))
       ∧ data' = <[kind := Dict (<[get_str field stored :=
                      set_field "proxies" (FRep (p1 ++ p2)) def]> defs)]>
                   (env_data env)
       ∧ data' !! key = Some (Dict d)).
Proof.
  intros Hp Ha Hu Hl Hd Hi Hk Hdef Hw.
  destruct env as [data log]. cbn [env_data env_log] in *.
  assert (Hkinds : kind ≠ key ∧ kind ≠ WORKFLOW).
  { destruct Hp as [(-> & -> & ->)|(-> & -> & ->)]; done. }
  destruct Hkinds as (Hkk & Hkw).
  assert (Hstart : apply_delta key delta (mkEnv data log)
    = (apply_pruned_id key del_id;; for_ rest (apply_pruned_id key))
        (mkEnv data log)).
  { unfold apply_delta, apply_added, apply_updated, apply_pruned.
    rewrite Ha, Hu, Hl. cbn [payload_truthy bool_decide negb].
    rewrite bool_decide_eq_true_2 by done. cbn [negb].
    erewrite run_bind_ok; [|reflexivity].
    erewrite run_bind_ok; [|reflexivity]. reflexivity. }
  rewrite Hstart. split.
  - intros Hnot. apply list_remove_None in Hnot.
    erewrite run_bind_raise; [done|].
    rewrite (run_apply_pruned_id_proxy key kind field _ _ _ d stored) by done.
    erewrite run_bind_raise; [done|].
    by apply run_remove_ref_in_elem_missing with defs def.
  - intros Hin Hnot. apply list_remove_None in Hnot.
    destruct (list_remove_Some _ _ Hin) as (p1 & p2 & Hp12 & Hp1 & Hrem_p).
    exists p1, p2. eexists. split; [done|]. split; [done|]. split; [|split].
    + erewrite run_bind_raise; [done|].
      rewrite (run_apply_pruned_id_proxy key kind field _ _ _ d stored) by done.
      erewrite run_bind_ok; [|by eapply run_remove_ref_in_elem].
      erewrite run_bind_raise; [done|].
      rewrite (run_remove_ref_in_workflow _ _ _ _ w)
        by (by rewrite lookup_insert_ne).
      by rewrite Hnot.
    + done.
    + by rewrite lookup_insert_ne.
Qed.

(** The same store, with a definition that does not list its proxy. *)
Definition sample_unlisted : Env :=
  mkEnv (<[TASKS := Dict {["u|w|a" := ∅]}]> (env_data sample_pruning)) [].

Lemma apply_delta_pruned_unlisted_witness :
  env_data sample_unlisted !! TASK_PROXIES
    = Some (Dict {["u|w|1|a" := sample_proxy]})
  ∧ env_data sample_unlisted !! TASKS = Some (Dict {["u|w|a" := ∅]})
  ∧ env_data sample_unlisted !! WORKFLOW = Some (Message sample_listing)
  ∧ ("u|w|1|a" ∉ get_rep "proxies" (∅ : Msg))
  ∧ apply_delta TASK_PROXIES
      (mkDeltas 0 0 (Rep []) (Rep []) ["u|w|1|a"; "u|w|2|a"] false)
      sample_unlisted
    = (inl ValueError, sample_unlisted).
Proof.
  assert (H1 : env_data sample_unlisted !! TASK_PROXIES
               = Some (Dict {["u|w|1|a" := sample_proxy]}))
    by (vm_compute; reflexivity).
  assert (H2 : env_data sample_unlisted !! TASKS = Some (Dict {["u|w|a" := ∅]}))
    by (vm_compute; reflexivity).
  assert (H3 : env_data sample_unlisted !! WORKFLOW
               = Some (Message sample_listing))
    by (vm_compute; reflexivity).
  assert (H4 : "u|w|1|a" ∉ get_rep "proxies" (∅ : Msg))
    by apply not_elem_of_nil.
  split; [exact H1|]. split; [exact H2|]. split; [exact H3|].
  split; [exact H4|].
  exact (proj1 (apply_delta_pruned_unlisted TASK_PROXIES TASKS "task" "u|w|1|a"
           ["u|w|2|a"]
           (mkDeltas 0 0 (Rep []) (Rep []) ["u|w|1|a"; "u|w|2|a"] false)
           {["u|w|1|a" := sample_proxy]} {["u|w|a" := ∅]} sample_proxy ∅
           sample_listing sample_unlisted
           (or_introl (conj eq_refl (conj eq_refl eq_refl)))
           eq_refl eq_refl eq_refl H1 eq_refl H2 eq_refl H3) H4).
Defined.


(** ** [apply_delta]: the workflow *)

Lemma run_mutate_message method key f data log w :
  data !! key = Some (Message w) →
  mutate_message method key f (mkEnv data log)
  = (inr tt, mkEnv (<[key := Message (f w)]> data) log).
Proof.
  intros Hk. unfold mutate_message.
  erewrite run_bind_ok; [|by apply run_data_at].
  erewrite run_bind_ok; [|reflexivity]. reflexivity.
Qed.

(** The fields the loop over the clear set takes out of the workflow. *)
Definition cleared_of (field_set : list string) (fields : list string)
    (w : Msg) : Msg :=
  foldl (λ m f, if decide (f ∈ field_set) then ClearField f m else m) w fields.

Lemma cleared_of_lookup field_set fields w f :
  cleared_of field_set fields w !! f
  = if decide (f ∈ fields ∧ f ∈ field_set) then None else w !! f.
Proof.
  revert w. induction fields as [|g fields IH]; intros w.
  - cbn. rewrite decide_False; [done|]. intros [H _]. by apply elem_of_nil in H.
  - change (cleared_of field_set (g :: fields) w)
      with (cleared_of field_set fields
              (if decide (g ∈ field_set) then ClearField g w else w)).
    rewrite IH. unfold ClearField.
    destruct (decide (g ∈ field_set)) as [Hg|Hg].
    + destruct (decide (g = f)) as [->|Hne].
      * rewrite lookup_delete_eq.
        rewrite (decide_True (P := f ∈ f :: fields ∧ f ∈ field_set))
          by (split; [left|done]).
        by case_decide.
      * rewrite lookup_delete_ne by done.
        destruct (decide (f ∈ fields ∧ f ∈ field_set)) as [[H1 H2]|Hn].
        -- rewrite decide_True; [done|]. split; [by right|done].
        -- rewrite decide_False; [done|].
           intros [[->|H1]%elem_of_cons H2]; [done|]. by apply Hn.
    + destruct (decide (f ∈ fields ∧ f ∈ field_set)) as [[H1 H2]|Hn].
      * rewrite decide_True; [done|]. split; [by right|done].
      * rewrite decide_False; [done|].
        intros [[->|H1]%elem_of_cons H2]; [done|]. by apply Hn.
Qed.

Lemma run_workflow_clear_loop (field_set fields : list string) data log w :
  data !! WORKFLOW = Some (Message w) →
  for_ fields (λ field,
      if decide (field ∈ field_set)
      then mutate_message "ClearField" WORKFLOW (ClearField field)
      else mret tt) (mkEnv data log)
  = (inr tt,
     mkEnv (<[WORKFLOW := Message (cleared_of field_set fields w)]> data) log).
Proof.
  revert data w. induction fields as [|g fields IH]; intros data w Hw.
  - cbn. by rewrite insert_id.
  - rewrite for_cons.
    change (cleared_of field_set (g :: fields) w)
      with (cleared_of field_set fields
              (if decide (g ∈ field_set) then ClearField g w else w)).
    destruct (decide (g ∈ field_set)) as [Hg|Hg].
    + unfold bind. rewrite (run_mutate_message _ _ _ _ _ w Hw).
      erewrite IH; [|apply lookup_insert_eq]. by rewrite insert_insert_eq.
    + unfold bind. cbn. by apply IH.
Qed.

(** The delta of the workflow.  An added workflow that has fields replaces
    the stored one.  The updated workflow is then merged in: [state_totals]
    and [states] take the values of the update when it sets them, any other
    repeated field is the stored list followed by the update's, and a field
    the update does not set keeps its value. *)
Theorem apply_delta_workflow
    (delta : Deltas) (a u : option Msg) (w : Msg) (env : Env) :
  d_added delta = Sub a → d_updated delta = Sub u → d_pruned delta = [] →
  env_data env !! WORKFLOW = Some (Message w) →
  let base := if decide (sub_msg a = ∅) then w else sub_msg a in
  let merged :=
    MergeFrom (cleared {["state_totals"; "states"]} (ListFields (sub_msg u)) base)
      (sub_msg u) in
  apply_delta WORKFLOW delta env
  = (inr tt, mkEnv (<[WORKFLOW := Message merged]> (env_data env)) (env_log env))
  ∧ (∀ f v, f ∈ ({["state_totals"; "states"]} : gset string) →
            sub_msg u !! f = Some v → merged !! f = Some v)
  ∧ (∀ f, sub_msg u !! f = None → merged !! f = base !! f)
  ∧ (∀ f x y, f ∉ ({["state_totals"; "states"]} : gset string) →
       base !! f = Some (FRep x) → sub_msg u !! f = Some (FRep y) →
       merged !! f = Some (FRep (x ++ y)))
  ∧ (∀ f x v, f ∉ ({["state_totals"; "states"]} : gset string) →
       base !! f = Some x → sub_msg u !! f = Some v →
       (∀ y, v ≠ FRep y) → (∀ y, v ≠ FMap y) → merged !! f = Some v).
Proof.
  intros Ha Hu Hp Hw base merged.
  destruct env as [data log]. cbn [env_data env_log] in *.
  assert (Hac : ∀ f,
    cleared {["state_totals"; "states"]} (ListFields (sub_msg u)) base !! f
    = if decide (f ∈ ({["state_totals"; "states"]} : gset string)
                 ∧ is_Some (sub_msg u !! f))
      then None else base !! f).
  { intros f. rewrite cleared_lookup.
    destruct (decide (f ∈ ({["state_totals"; "states"]} : gset string)
                      ∧ f ∈ (ListFields (sub_msg u)).*1)) as [[H1 H2]|Hn].
    - apply ListFields_names in H2. by rewrite decide_True.
    - rewrite decide_False; [done|]. intros [H1 H2]. apply Hn. split; [done|].
      by apply ListFields_names. }
  split.
  { assert (Hadded : apply_added WORKFLOW delta (mkEnv data log)
                     = (inr tt, mkEnv (<[WORKFLOW := Message base]> data) log)).
    { unfold apply_added. rewrite Ha. cbn [payload_truthy].
      rewrite decide_False by (intros H; by apply H). unfold base.
      destruct (decide (sub_msg a = ∅)) as [He|Hne].
      - rewrite bool_decide_eq_true_2
          by (unfold ListFields; by rewrite He, map_to_list_empty).
        cbn. by rewrite insert_id.
      - rewrite bool_decide_eq_false_2
          by (unfold ListFields; by rewrite map_to_list_empty_iff).
        apply (run_mutate_message _ _ _ _ _ w Hw). }
    unfold apply_delta. erewrite run_bind_ok; [|exact Hadded].
    unfold apply_updated, apply_pruned. rewrite Hu, Hp. cbn [payload_truthy].
    rewrite decide_True by done.
    erewrite run_bind_ok; [cbn; reflexivity|].
    erewrite run_bind_ok; [|by apply run_subscript_Some].
    erewrite run_bind_ok;
      [|apply run_workflow_clear_loop; apply lookup_insert_eq].
    erewrite run_mutate_message; [|apply lookup_insert_eq].
    rewrite !insert_insert_eq. do 3 f_equal. unfold merged. f_equal.
    f_equal. apply map_eq. intros f. rewrite cleared_of_lookup, Hac.
    destruct (decide (f ∈ ({["state_totals"; "states"]} : gset string)
                      ∧ is_Some (sub_msg u !! f))) as [[H1 H2]|Hn].
    - rewrite decide_True; [done|]. split; [by apply elem_of_elements|].
      by apply ListFields_names.
    - rewrite decide_False; [done|]. intros [H1 H2]. apply Hn.
      split; [by apply elem_of_elements|by apply ListFields_names]. }
  split.
  { intros f v Hin Hf. unfold merged. rewrite MergeFrom_lookup, Hf, Hac.
    by rewrite decide_True by (split; [done|by exists v]). }
  split.
  { intros f Hf. unfold merged. rewrite MergeFrom_lookup, Hf, Hac.
    rewrite decide_False; [done|]. intros [_ [v Hv]]. congruence. }
  split.
  { intros f x y Hin Hs Hf. unfold merged. rewrite MergeFrom_lookup, Hf, Hac.
    rewrite decide_False by (intros [H _]; done). by rewrite Hs. }
  intros f x v Hin Hs Hf Hrep Hmap. unfold merged.
  rewrite MergeFrom_lookup, Hf, Hac.
  rewrite decide_False by (intros [H _]; done). rewrite Hs.
  destruct x, v; simpl; try done.
  - by destruct (Hrep items0).
  - by destruct (Hmap entries0).
Qed.

(** A stored workflow and an update of its states. *)
Definition sample_stored_workflow : Msg :=
  list_to_map
    [ ("id", FStr "u|w"); ("states", FRep ["waiting"]);
      ("state_totals", FMap {["waiting" := 2]});
      ("task_proxies", FRep ["u|w|1|a"]) ].

Definition sample_workflow_update : Msg :=
  list_to_map
    [ ("states", FRep ["running"]); ("state_totals", FMap {["running" := 2]});
      ("task_proxies", FRep ["u|w|2|a"]) ].

Definition sample_workflow_store : Env :=
  mkEnv (<[WORKFLOW := Message sample_stored_workflow]> DATA_TEMPLATE) [].

Lemma apply_delta_workflow_witness :
  env_data sample_workflow_store !! WORKFLOW
    = Some (Message sample_stored_workflow)
  ∧ apply_delta WORKFLOW
      (mkDeltas 0 0 (Sub None) (Sub (Some sample_workflow_update)) [] false)
      sample_workflow_store
    = (inr tt,
       mkEnv (<[WORKFLOW := Message (list_to_map
                 [ ("id", FStr "u|w"); ("states", FRep ["running"]);
                   ("state_totals", FMap {["running" := 2]});
                   ("task_proxies", FRep ["u|w|1|a"; "u|w|2|a"]) ])]>
                DATA_TEMPLATE) []).
Proof.
  assert (H1 : env_data sample_workflow_store !! WORKFLOW
               = Some (Message sample_stored_workflow))
    by (vm_compute; reflexivity).
  split; [exact H1|].
  rewrite (proj1 (apply_delta_workflow
                    (mkDeltas 0 0 (Sub None) (Sub (Some sample_workflow_update))
                       [] false)
                    None (Some sample_workflow_update) sample_stored_workflow
                    sample_workflow_store eq_refl eq_refl eq_refl H1)).
  vm_compute. reflexivity.
Defined.


(** ** [get_publish_deltas]: what is handed out *)

Lemma publish_fold (l : list (string * Deltas))
    (acc : list (string * published * string) * list (string * Deltas)) :
  foldl (λ acc kd,
           if delta_has_fields kd.2
           then (acc.1 ++ [(kd.1, PerKind kd.2, SerializeToString)],
                 acc.2 ++ [kd])
           else acc) acc l
  = (acc.1 ++ ((λ kd, (kd.1, PerKind kd.2, SerializeToString))
                 <$> filter (λ kd, delta_has_fields kd.2 = true) l),
     acc.2 ++ filter (λ kd, delta_has_fields kd.2 = true) l).
Proof.
  revert acc. induction l as [|kd l IH]; intros [r a].
  - cbn. by rewrite !app_nil_r.
  - cbn [foldl]. rewrite IH, filter_cons.
    destruct (delta_has_fields kd.2) eqn:Hf.
    + rewrite decide_True by done. cbn [fst snd].
      by rewrite fmap_cons, <- !app_assoc.
    + by rewrite decide_False by done.
Qed.

(** The deltas that have a field set are handed out one by one, in the
    order of [self.deltas], each under the name of its kind; the entry
    [all] comes last, always, and carries those same deltas and no other.
    A delta without fields is not handed out and is not in [all]. *)
Theorem get_publish_deltas_entries (s : Mgr) :
  let changed := filter (λ kd, delta_has_fields kd.2 = true) (deltas s) in
  get_publish_deltas s
  = ((λ kd, (kd.1, PerKind kd.2, SerializeToString)) <$> changed)
    ++ [(ALL_DELTAS, AllDeltas changed, SerializeToString)]
  ∧ length (get_publish_deltas s) = S (length changed)
  ∧ last (get_publish_deltas s)
    = Some (ALL_DELTAS, AllDeltas changed, SerializeToString)
  ∧ (∀ key delta,
       (key, PerKind delta, SerializeToString) ∈ get_publish_deltas s
       ↔ (key, delta) ∈ deltas s ∧ delta_has_fields delta = true).
Proof.
  intros changed.
  assert (Heq : get_publish_deltas s
    = ((λ kd, (kd.1, PerKind kd.2, SerializeToString)) <$> changed)
      ++ [(ALL_DELTAS, AllDeltas changed, SerializeToString)]).
  { unfold get_publish_deltas. by rewrite publish_fold. }
  split; [exact Heq|]. rewrite Heq. split; [|split].
  - rewrite length_app, length_fmap. cbn. lia.
  - apply last_snoc.
  - intros key delta. rewrite elem_of_app, list_elem_of_fmap. split.
    + intros [([k d] & [= -> ->] & Hin)|Hin].
      * by apply list_elem_of_filter in Hin as [? ?].
      * apply list_elem_of_singleton in Hin. discriminate.
    + intros [Hin Hf]. left. exists (key, delta). split; [done|].
      by apply list_elem_of_filter.
Qed.


(** ** [prune_points] *)

Lemma extend_pruned_nil (d : Deltas) : extend_pruned [] d = d.
Proof. destruct d. unfold extend_pruned. cbn. by rewrite app_nil_r. Qed.

Lemma extend_pruned_app (a b : list string) (d : Deltas) :
  extend_pruned b (extend_pruned a d) = extend_pruned (a ++ b) d.
Proof. unfold extend_pruned. cbn. by rewrite app_assoc. Qed.

Lemma alter_delta_compose key f g (l : list (string * Deltas)) :
  alter_delta key f (alter_delta key g l) = alter_delta key (f ∘ g) l.
Proof.
  unfold alter_delta. rewrite <- list_fmap_compose. apply list_fmap_ext.
  intros i [k d] _. cbn. destruct (decide (k = key)) as [->|Hne]; cbn.
  - by rewrite decide_True.
  - by rewrite decide_False.
Qed.

Lemma alter_delta_ext key f g (l : list (string * Deltas)) :
  (∀ d, f d = g d) → alter_delta key f l = alter_delta key g l.
Proof.
  intros Hfg. unfold alter_delta. apply list_fmap_ext. intros i [k d] _. cbn.
  destruct (decide (k = key)); [by rewrite Hfg|done].
Qed.

Lemma alter_delta_nil key (l : list (string * Deltas)) :
  alter_delta key (extend_pruned []) l = l.
Proof.
  unfold alter_delta. rewrite <- (list_fmap_id l) at 2.
  apply list_fmap_ext. intros i [k d] _. cbn.
  destruct (decide _); [by rewrite extend_pruned_nil|done].
Qed.

Lemma set_deltas_nil key (s : Mgr) :
  set_deltas (alter_delta key (extend_pruned [])) s = s.
Proof. destruct s. unfold set_deltas. simpl. by rewrite alter_delta_nil. Qed.

Lemma alter_delta_extend key (a b : list string) (l : list (string * Deltas)) :
  alter_delta key (extend_pruned b) (alter_delta key (extend_pruned a) l)
  = alter_delta key (extend_pruned (a ++ b)) l.
Proof.
  rewrite alter_delta_compose. apply alter_delta_ext. intros d.
  apply extend_pruned_app.
Qed.

Lemma set_deltas_extend key (a b : list string) (s : Mgr) :
  set_deltas (alter_delta key (extend_pruned b))
    (set_deltas (alter_delta key (extend_pruned a)) s)
  = set_deltas (alter_delta key (extend_pruned (a ++ b))) s.
Proof.
  destruct s. unfold set_deltas. simpl. by rewrite alter_delta_extend.
Qed.

Lemma run_the_delta key (s : Mgr) :
  key ∈ (deltas s).*1 → ∃ delta, the_delta key s = (inr delta, s).
Proof.
  intros Hin. unfold the_delta. erewrite run_bind_ok; [|reflexivity].
  apply list_elem_of_fmap in Hin as ([k d] & Heq & Hin). cbn in Heq.
  subst key.
  destruct (list_find (λ kd, kd.1 = k) (deltas s)) as [[i kd]|] eqn:Hfind.
  - by eexists.
  - apply list_find_None in Hfind. rewrite Forall_forall in Hfind.
    by destruct (Hfind _ Hin).
Qed.

Lemma run_append_pruned key id (s : Mgr) :
  key ∈ (deltas s).*1 →
  append_pruned key id s
  = (inr tt, set_deltas (alter_delta key (extend_pruned [id])) s).
Proof.
  intros Hin. destruct (run_the_delta key s Hin) as [delta Hd].
  unfold append_pruned. by erewrite run_bind_ok; [|exact Hd].
Qed.

Lemma set_deltas_compose f g (s : Mgr) :
  set_deltas f (set_deltas g s) = set_deltas (f ∘ g) s.
Proof. reflexivity. Qed.

Lemma run_dict_items (store : Store) key d (s : Mgr) :
  store !! key = Some (Dict d) →
  dict_items store key s = (inr (map_to_list d), s).
Proof.
  intros H. unfold dict_items.
  erewrite run_bind_ok; [|by apply run_subscript_Some]. reflexivity.
Qed.

(** A loop that appends to [pruned] the ids of the selected items. *)
Lemma run_prune_loop key (P : string * Msg → Prop) `{!∀ x, Decision (P x)}
    (l : list (string * Msg)) (s : Mgr) :
  key ∈ (deltas s).*1 →
  for_ l (λ item, if decide (P item) then append_pruned key item.1 else mret tt) s
  = (inr tt, set_deltas (alter_delta key (extend_pruned (filter P l).*1)) s).
Proof.
  intros Hkey. revert s Hkey. induction l as [|item l IH]; intros s Hkey.
  - rewrite filter_nil, fmap_nil, set_deltas_nil. reflexivity.
  - rewrite for_cons, filter_cons. destruct (decide (P item)) as [HP|HP].
    + unfold bind. rewrite run_append_pruned by done.
      rewrite IH by (cbn; by rewrite alter_delta_keys).
      by rewrite set_deltas_extend, fmap_cons.
    + unfold bind. cbn. by apply IH.
Qed.

Section PrunePoints.

Variable remove_task_jobs : string → JobPool → JobPool.

(** The first loop: the task proxies of the pruned points. *)
Lemma run_prune_task_proxies (point_strings : gset string)
    (l : list (string * Msg)) (node_ids : gset string) (s : Mgr) :
  TASK_PROXIES ∈ (deltas s).*1 →
  let chosen :=
    (filter (λ item, get_str "cycle_point" item.2 ∈ point_strings) l).*1 in
  for_acc l node_ids (λ node_ids item,
      if decide (get_str "cycle_point" item.2 ∈ point_strings) then
        append_pruned TASK_PROXIES item.1;;
        modify (set_job_pool (remove_task_jobs item.1));;
        mret (node_ids ∪ {[item.1]})
      else mret node_ids) s
  = (inr (node_ids ∪ list_to_set chosen),
     set_job_pool (λ jp, foldl (λ jp id, remove_task_jobs id jp) jp chosen)
       (set_deltas (alter_delta TASK_PROXIES (extend_pruned chosen)) s)).
Proof.
  intros Hkey. revert s node_ids Hkey.
  induction l as [|item l IH]; intros s node_ids Hkey chosen.
  - subst chosen. rewrite filter_nil, fmap_nil, set_deltas_nil.
    cbn [for_acc foldl list_to_set]. destruct s. unfold set_job_pool. cbn.
    unfold mret, M_ret, ret. f_equal. f_equal. set_solver.
  - subst chosen. cbn [for_acc]. rewrite filter_cons.
    destruct (decide (get_str "cycle_point" item.2 ∈ point_strings)) as [HP|HP].
    + erewrite run_bind_ok;
        [|erewrite run_bind_ok; [|by apply run_append_pruned];
          erewrite run_bind_ok; [|reflexivity]; reflexivity].
      rewrite IH by (cbn; by rewrite alter_delta_keys).
      rewrite fmap_cons. cbn [foldl list_to_set].
      f_equal; [f_equal; set_solver|].
      destruct s. unfold set_deltas, set_job_pool. simpl. f_equal.
      apply alter_delta_extend.
    + erewrite run_bind_ok; [|reflexivity]. by apply IH.
Qed.

End PrunePoints.


Lemma NoDup_filter_keys (P : string * Msg → Prop) `{!∀ x, Decision (P x)}
    (d : gmap string Msg) :
  NoDup (filter P (map_to_list d)).*1.
Proof.
  apply sublist_NoDup with (map_to_list d).*1; [apply NoDup_fst_map_to_list|].
  apply fmap_sublist, sublist_filter.
Qed.

Lemma elem_of_filter_keys (P : string * Msg → Prop) `{!∀ x, Decision (P x)}
    (d : gmap string Msg) id :
  id ∈ (filter P (map_to_list d)).*1 ↔ ∃ v, d !! id = Some v ∧ P (id, v).
Proof.
  rewrite list_elem_of_fmap. split.
  - intros ([k v] & -> & [HP Hin]%list_elem_of_filter).
    apply elem_of_map_to_list in Hin. by exists v.
  - intros (v & Hv & HP). exists (id, v). split; [done|].
    apply list_elem_of_filter. split; [done|]. by apply elem_of_map_to_list.
Qed.

Lemma deltas_set_deltas f (s : Mgr) : deltas (set_deltas f s) = f (deltas s).
Proof. reflexivity. Qed.

Lemma deltas_set_job_pool f (s : Mgr) : deltas (set_job_pool f s) = deltas s.
Proof. reflexivity. Qed.

Ltac delta_keys :=
  rewrite ?deltas_set_deltas, ?deltas_set_job_pool, ?alter_delta_keys;
  rewrite ?deltas_set_deltas, ?deltas_set_job_pool, ?alter_delta_keys;
  rewrite ?deltas_set_deltas, ?deltas_set_job_pool, ?alter_delta_keys.

(** [prune_points] with points to prune.  The store and the buffers are
    left as they are; the ids of the stored task proxies and family proxies
    whose cycle point is pruned, and of the stored edges that start or end
    at such a task proxy, are appended to [pruned] in the delta of their
    kind, each once, and nothing else is appended; the jobs of each such
    task proxy are removed from the job pool. *)
Theorem prune_points_deltas
    (remove_task_jobs : string → JobPool → JobPool)
    (point_strings : gset string) (s : Mgr) (tps fps es : gmap string Msg) :
  point_strings ≠ ∅ →
  data s !! TASK_PROXIES = Some (Dict tps) →
  data s !! FAMILY_PROXIES = Some (Dict fps) →
  data s !! EDGES = Some (Dict es) →
  TASK_PROXIES ∈ (deltas s).*1 →
  FAMILY_PROXIES ∈ (deltas s).*1 →
  EDGES ∈ (deltas s).*1 →
  ∃ (tp_ids fp_ids e_ids : list string) (s' : Mgr),
    prune_points remove_task_jobs point_strings s = (inr tt, s')
    ∧ data s' = data s ∧ added s' = added s ∧ updated s' = updated s
    ∧ deltas s'
      = (λ kd, (kd.1,
                extend_pruned
                  (if decide (kd.1 = TASK_PROXIES) then tp_ids
                   else if decide (kd.1 = FAMILY_PROXIES) then fp_ids
                   else if decide (kd.1 = EDGES) then e_ids else [])
                  kd.2)) <$> deltas s
    ∧ job_pool s' = foldl (λ jp id, remove_task_jobs id jp) (job_pool s) tp_ids
    ∧ NoDup tp_ids ∧ NoDup fp_ids ∧ NoDup e_ids
    ∧ (∀ id, id ∈ tp_ids
             ↔ ∃ tp, tps !! id = Some tp
                     ∧ get_str "cycle_point" tp ∈ point_strings)
    ∧ (∀ id, id ∈ fp_ids
             ↔ ∃ fp, fps !! id = Some fp
                     ∧ get_str "cycle_point" fp ∈ point_strings)
    ∧ (∀ id, id ∈ e_ids
             ↔ ∃ e, es !! id = Some e
                    ∧ (get_str "source" e ∈ tp_ids
                       ∨ get_str "target" e ∈ tp_ids)).
Proof.
  intros Hne Htp Hfp He Hktp Hkfp Hke.
  set (tp_ids := (filter (λ item : string * Msg,
                            get_str "cycle_point" item.2 ∈ point_strings)
                    (map_to_list tps)).*1).
  set (fp_ids := (filter (λ item : string * Msg,
                            get_str "cycle_point" item.2 ∈ point_strings)
                    (map_to_list fps)).*1).
  set (node_ids := (∅ ∪ list_to_set tp_ids : gset string)).
  set (e_ids := (filter (λ item : string * Msg,
                           get_str "source" item.2 ∈ node_ids
                           ∨ get_str "target" item.2 ∈ node_ids)
                   (map_to_list es)).*1).
  exists tp_ids, fp_ids, e_ids. eexists.
  split.
  { unfold prune_points. erewrite run_bind_ok; [|reflexivity].
    rewrite decide_False by done.
    erewrite run_bind_ok; [|by apply run_dict_items].
    erewrite run_bind_ok; [|by apply run_prune_task_proxies].
    erewrite run_bind_ok; [|by apply run_dict_items].
    erewrite run_bind_ok;
      [|apply (run_prune_loop FAMILY_PROXIES
                 (λ item, get_str "cycle_point" item.2 ∈ point_strings));
        by delta_keys].
    erewrite run_bind_ok; [|by apply run_dict_items].
    apply (run_prune_loop EDGES
             (λ item, get_str "source" item.2 ∈ node_ids
                      ∨ get_str "target" item.2 ∈ node_ids)).
    by delta_keys. }
  split; [done|]. split; [done|]. split; [done|]. split.
  { destruct s. cbn. unfold alter_delta. rewrite <- !list_fmap_compose.
    apply list_fmap_ext. intros i [k d] _. cbn.
    destruct (decide (k = TASK_PROXIES)) as [->|H1]; cbn.
    - rewrite decide_False by done. cbn. by rewrite decide_False by done.
    - destruct (decide (k = FAMILY_PROXIES)) as [->|H2]; cbn.
      + by rewrite decide_False by done.
      + destruct (decide (k = EDGES)) as [->|H3]; cbn; [done|].
        by rewrite extend_pruned_nil. }
  split; [by destruct s|].
  split; [apply NoDup_filter_keys|]. split; [apply NoDup_filter_keys|].
  split; [apply NoDup_filter_keys|].
  split; [intros id; apply elem_of_filter_keys|].
  split; [intros id; apply elem_of_filter_keys|].
  intros id. unfold e_ids. rewrite elem_of_filter_keys. cbn [snd].
  unfold node_ids. by setoid_rewrite elem_of_union; setoid_rewrite elem_of_list_to_set;
    setoid_rewrite elem_of_empty; split; intros (e & ? & Hor); exists e;
    (split; [done|]); tauto.
Qed.


Lemma prune_points_deltas_witness :
  ({["1"]} : gset string) ≠ ∅
  ∧ data sample_applied !! TASK_PROXIES
    = Some (Dict (sample_dict (data sample_applied) TASK_PROXIES))
  ∧ data sample_applied !! FAMILY_PROXIES
    = Some (Dict (sample_dict (data sample_applied) FAMILY_PROXIES))
  ∧ data sample_applied !! EDGES
    = Some (Dict (sample_dict (data sample_applied) EDGES))
  ∧ TASK_PROXIES ∈ (deltas sample_applied).*1
  ∧ FAMILY_PROXIES ∈ (deltas sample_applied).*1
  ∧ EDGES ∈ (deltas sample_applied).*1
  ∧ ∃ (tp_ids : list string) (s' : Mgr),
      prune_points (λ _ jp, jp) {["1"]} sample_applied = (inr tt, s')
      ∧ data s' = data sample_applied
      ∧ "u|w|1|a" ∈ tp_ids
      ∧ NoDup tp_ids.
Proof.
  assert (H0 : ({["1"]} : gset string) ≠ ∅) by set_solver.
  assert (H1 : data sample_applied !! TASK_PROXIES
               = Some (Dict (sample_dict (data sample_applied) TASK_PROXIES)))
    by (vm_compute; reflexivity).
  assert (H2 : data sample_applied !! FAMILY_PROXIES
               = Some (Dict (sample_dict (data sample_applied) FAMILY_PROXIES)))
    by (vm_compute; reflexivity).
  assert (H3 : data sample_applied !! EDGES
               = Some (Dict (sample_dict (data sample_applied) EDGES)))
    by (vm_compute; reflexivity).
  assert (H4 : TASK_PROXIES ∈ (deltas sample_applied).*1)
    by (vm_compute; do 5 right; left).
  assert (H5 : FAMILY_PROXIES ∈ (deltas sample_applied).*1)
    by (vm_compute; do 2 right; left).
  assert (H6 : EDGES ∈ (deltas sample_applied).*1) by (vm_compute; left).
  assert (H7 : sample_dict (data sample_applied) TASK_PROXIES !! "u|w|1|a"
               = Some (default ∅ (sample_dict (data sample_applied) TASK_PROXIES
                                    !! "u|w|1|a")))
    by (vm_compute; reflexivity).
  assert (H8 : get_str "cycle_point"
                 (default ∅ (sample_dict (data sample_applied) TASK_PROXIES
                               !! "u|w|1|a")) = "1")
    by (vm_compute; reflexivity).
  split; [exact H0|]. split; [exact H1|]. split; [exact H2|].
  split; [exact H3|]. split; [exact H4|]. split; [exact H5|].
  split; [exact H6|].
  destruct (prune_points_deltas (λ _ jp, jp) {["1"]} sample_applied _ _ _
              H0 H1 H2 H3 H4 H5 H6)
    as (tp_ids & fp_ids & e_ids & s' & Hrun & Hdata & _ & _ & _ & _ & Hnd & _
        & _ & Htp & _).
  exists tp_ids, s'. split; [exact Hrun|]. split; [exact Hdata|].
  split; [|exact Hnd]. apply Htp. eexists. split; [exact H7|].
  rewrite H8. set_solver.
Defined.


(** ** [create_delta_store] *)

(** The fields [added] and [updated] of a delta are repeated entities,
    unless the delta is the workflow's. *)
Definition collection_delta (kd : string * Deltas) : Prop :=
  kd.1 ≠ WORKFLOW →
  ∃ la lu, d_added kd.2 = Rep la ∧ d_updated kd.2 = Rep lu.

(** What a delta leaves under its kind, in [added] or [updated]. *)
Definition kept_data (key : string) (p : payload) : field_data :=
  if decide (key = WORKFLOW) then
    match p with Sub o => Whole (sub_msg o) | Rep l => Listed l end
  else
    match p with Rep l => ById (dict_update_by_id ∅ l) | Sub _ => ById ∅ end.

Lemma run_field_data_of key (p : payload) (ds : DeltaStore) :
  (key ≠ WORKFLOW → ∃ l, p = Rep l) →
  field_data_of key p ds = (inr (kept_data key p), ds).
Proof.
  intros Hp. unfold field_data_of, kept_data.
  destruct (decide (key = WORKFLOW)) as [|Hne]; [by destruct p|].
  destruct (Hp Hne) as [l ->]. reflexivity.
Qed.

Lemma run_store_sub_fields (kd : string * Deltas) (ds : DeltaStore) :
  collection_delta kd →
  store_sub_fields kd ds
  = (inr tt,
     set_ds_pruned (if decide (d_pruned kd.2 ≠ [])
                    then <[kd.1 := d_pruned kd.2]> else id)
       (set_ds_updated (if payload_is_set (d_updated kd.2)
                        then <[kd.1 := kept_data kd.1 (d_updated kd.2)]>
                        else id)
          (set_ds_added (if payload_is_set (d_added kd.2)
                         then <[kd.1 := kept_data kd.1 (d_added kd.2)]>
                         else id) ds))).
Proof.
  intros Hc. destruct kd as [key delta]. unfold collection_delta in Hc.
  cbn [fst snd] in *. unfold store_sub_fields. cbn [fst snd].
  assert (Ha : key ≠ WORKFLOW → ∃ l, d_added delta = Rep l).
  { intros Hk. destruct (Hc Hk) as (la & lu & -> & _). by eexists. }
  assert (Hu : key ≠ WORKFLOW → ∃ l, d_updated delta = Rep l).
  { intros Hk. destruct (Hc Hk) as (la & lu & _ & ->). by eexists. }
  destruct (payload_is_set (d_added delta)).
  - erewrite run_bind_ok;
      [|erewrite run_bind_ok; [reflexivity|by apply run_field_data_of]].
    destruct (payload_is_set (d_updated delta)).
    + erewrite run_bind_ok;
        [|erewrite run_bind_ok; [reflexivity|by apply run_field_data_of]].
      by destruct (decide (d_pruned delta ≠ [])), ds.
    + erewrite run_bind_ok; [|reflexivity].
      by destruct (decide (d_pruned delta ≠ [])), ds.
  - erewrite run_bind_ok; [|reflexivity].
    destruct (payload_is_set (d_updated delta)).
    + erewrite run_bind_ok;
        [|erewrite run_bind_ok; [reflexivity|by apply run_field_data_of]].
      by destruct (decide (d_pruned delta ≠ [])), ds.
    + erewrite run_bind_ok; [|reflexivity].
      by destruct (decide (d_pruned delta ≠ [])), ds.
Qed.


(** A loop of inserts under the names of the fields that have a value. *)
Definition insert_selected {V} (sel : string * Deltas → option V)
    (acc : gmap string V) (kd : string * Deltas) : gmap string V :=
  match sel kd with
  | Some v => <[kd.1 := v]> acc
  | None => acc
  end.

Lemma insert_selected_other {V} (sel : string * Deltas → option V)
    (l : list (string * Deltas)) (base : gmap string V) key :
  key ∉ l.*1 → foldl (insert_selected sel) base l !! key = base !! key.
Proof.
  revert base. induction l as [|kd l IH]; intros base Hnot; [done|].
  rewrite fmap_cons in Hnot. apply not_elem_of_cons in Hnot as [Hne Hnot].
  cbn [foldl]. rewrite IH by done. unfold insert_selected.
  destruct (sel kd); [by rewrite lookup_insert_ne|done].
Qed.

Lemma insert_selected_lookup {V} (sel : string * Deltas → option V)
    (l : list (string * Deltas)) (base : gmap string V) key delta :
  NoDup l.*1 → (key, delta) ∈ l →
  foldl (insert_selected sel) base l !! key
  = from_option Some (base !! key) (sel (key, delta)).
Proof.
  revert base. induction l as [|kd l IH]; intros base Hnd Hin.
  - by apply elem_of_nil in Hin.
  - rewrite fmap_cons in Hnd. apply NoDup_cons in Hnd as [Hnot Hnd].
    cbn [foldl]. apply elem_of_cons in Hin as [<-|Hin].
    + rewrite insert_selected_other by done. unfold insert_selected.
      destruct (sel (key, delta)); [apply lookup_insert_eq|done].
    + rewrite IH by done. unfold insert_selected at 1.
      destruct (sel kd); [|done]. rewrite lookup_insert_ne; [done|].
      intros Heq. apply Hnot. rewrite Heq.
      apply list_elem_of_fmap. by exists (key, delta).
Qed.

Lemma NoDup_keys_unique {V} (l : list (string * V)) k a b :
  NoDup l.*1 → (k, a) ∈ l → (k, b) ∈ l → a = b.
Proof.
  induction l as [|[k' v] l IH]; intros Hnd Ha Hb.
  - by apply elem_of_nil in Ha.
  - rewrite fmap_cons in Hnd. apply NoDup_cons in Hnd as [Hnot Hnd].
    apply elem_of_cons in Ha as [Ha|Ha]; apply elem_of_cons in Hb as [Hb|Hb].
    + congruence.
    + injection Ha as -> ->. destruct Hnot. apply list_elem_of_fmap.
      by exists (k', b).
    + injection Hb as -> ->. destruct Hnot. apply list_elem_of_fmap.
      by exists (k', a).
    + by apply IH.
Qed.

Definition added_of (kd : string * Deltas) : option field_data :=
  if payload_is_set (d_added kd.2)
  then Some (kept_data kd.1 (d_added kd.2)) else None.

Definition updated_of (kd : string * Deltas) : option field_data :=
  if payload_is_set (d_updated kd.2)
  then Some (kept_data kd.1 (d_updated kd.2)) else None.

Definition pruned_of (kd : string * Deltas) : option (list string) :=
  if decide (d_pruned kd.2 ≠ []) then Some (d_pruned kd.2) else None.

Lemma run_store_loop (l : list (string * Deltas)) (ds : DeltaStore) :
  Forall collection_delta l →
  for_ l store_sub_fields ds
  = (inr tt,
     mkDeltaStore (ds_id ds)
       (foldl (insert_selected added_of) (ds_added ds) l)
       (foldl (insert_selected updated_of) (ds_updated ds) l)
       (foldl (insert_selected pruned_of) (ds_pruned ds) l)).
Proof.
  revert ds. induction l as [|kd l IH]; intros ds Hl.
  - by destruct ds.
  - apply Forall_cons in Hl as [Hkd Hl]. rewrite for_cons. unfold bind.
    rewrite run_store_sub_fields by done. rewrite IH by done.
    cbn [foldl]. destruct ds as [i a u p].
    unfold set_ds_pruned, set_ds_updated, set_ds_added. simpl.
    assert (Ha : (if payload_is_set (d_added kd.2)
                  then <[kd.1 := kept_data kd.1 (d_added kd.2)]> else id) a
                 = insert_selected added_of a kd).
    { unfold insert_selected, added_of.
      by destruct (payload_is_set (d_added kd.2)). }
    assert (Hu : (if payload_is_set (d_updated kd.2)
                  then <[kd.1 := kept_data kd.1 (d_updated kd.2)]> else id) u
                 = insert_selected updated_of u kd).
    { unfold insert_selected, updated_of.
      by destruct (payload_is_set (d_updated kd.2)). }
    assert (Hp : (if decide (d_pruned kd.2 ≠ [])
                  then <[kd.1 := d_pruned kd.2]> else id) p
                 = insert_selected pruned_of p kd).
    { unfold insert_selected, pruned_of.
      by destruct (decide (d_pruned kd.2 ≠ [])). }
    by rewrite Ha, Hu, Hp.
Qed.

Lemma template_copy_collection workflow key :
  key ∈ [EDGES; FAMILIES; FAMILY_PROXIES; JOBS; TASKS; TASK_PROXIES] →
  template_copy workflow !! key = Some (ById ∅)
  ∧ template_pruned !! key = Some []
  ∧ key ≠ WORKFLOW.
Proof.
  intros Hin. repeat (apply elem_of_cons in Hin as [->|Hin]; [done|]).
  by apply elem_of_nil in Hin.
Qed.

Lemma payload_unset_Rep (l : list Msg) : payload_is_set (Rep l) = false → l = [].
Proof.
  cbn. intros H. apply negb_false_iff in H. by apply bool_decide_eq_true in H.
Qed.

Lemma delta_empty_parts (d : Deltas) :
  delta_has_fields d = false →
  payload_is_set (d_added d) = false ∧ payload_is_set (d_updated d) = false
  ∧ d_pruned d = [].
Proof.
  unfold delta_has_fields. rewrite !orb_false_iff.
  intros (((((_ & _) & Ha) & Hu) & Hp) & _). split; [done|]. split; [done|].
  apply negb_false_iff in Hp. by apply bool_decide_eq_true in Hp.
Qed.

(** The mini store made from the message [all] that [get_publish_deltas]
    hands out.  It is made without an exception and carries the workflow
    id; for every collection kind it holds the added and the updated
    entities of the kind's delta by id and the ids the delta prunes (empty
    where the delta has none), and for the workflow the added message of
    its delta, or, when that is not set, a message with the id only. *)
Theorem create_delta_store_published
    (s : Mgr) (workflow_id : option string) (all : list (string * Deltas)) :
  NoDup (deltas s).*1 →
  Forall collection_delta (deltas s) →
  (ALL_DELTAS, AllDeltas all, SerializeToString) ∈ get_publish_deltas s →
  ∃ delta_store,
    create_delta_store (Some all) workflow_id = inr delta_store
    ∧ ds_id delta_store = workflow_id
    ∧ (∀ key delta la lu,
         (key, delta) ∈ deltas s →
         key ∈ [EDGES; FAMILIES; FAMILY_PROXIES; JOBS; TASKS; TASK_PROXIES] →
         d_added delta = Rep la → d_updated delta = Rep lu →
         ds_added delta_store !! key = Some (ById (dict_update_by_id ∅ la))
         ∧ ds_updated delta_store !! key
           = Some (ById (dict_update_by_id ∅ lu))
         ∧ ds_pruned delta_store !! key = Some (d_pruned delta))
    ∧ (∀ delta a,
         (WORKFLOW, delta) ∈ deltas s → d_added delta = Sub a →
         ds_added delta_store !! WORKFLOW
         = Some (Whole (match a with
                        | Some m => m
                        | None => match workflow_id with
                                  | Some wid => set_field "id" (FStr wid) ∅
                                  | None => ∅
                                  end
                        end))).
Proof.
  intros Hnd Htyped Hall.
  assert (Heq : all = filter (λ kd, delta_has_fields kd.2 = true) (deltas s)).
  { unfold get_publish_deltas in Hall. rewrite publish_fold in Hall.
    cbn [fst snd app] in Hall. apply elem_of_app in Hall as [Hin|Hin].
    - apply list_elem_of_fmap in Hin as (kd & Hkd & _). discriminate.
    - apply list_elem_of_singleton in Hin. by injection Hin. }
  assert (Hsub : all `sublist_of` deltas s)
    by (rewrite Heq; apply sublist_filter).
  assert (Hnd' : NoDup all.*1).
  { apply sublist_NoDup with (deltas s).*1; [done|]. by apply fmap_sublist. }
  assert (Htyped' : Forall collection_delta all).
  { rewrite Forall_forall in Htyped. apply Forall_forall. intros kd Hkd.
    apply Htyped. by eapply elem_of_sublist. }
  assert (Hin_all : ∀ key delta, (key, delta) ∈ deltas s →
            delta_has_fields delta = true → (key, delta) ∈ all).
  { intros key delta Hin Hf. rewrite Heq. by apply list_elem_of_filter. }
  assert (Hout_all : ∀ key delta, (key, delta) ∈ deltas s →
            delta_has_fields delta = false → key ∉ all.*1).
  { intros key delta Hin Hf Hk.
    apply list_elem_of_fmap in Hk as ([k d] & Hkey & Hkd). cbn in Hkey.
    subst k. assert (Hd : (key, d) ∈ deltas s) by (by eapply elem_of_sublist).
    rewrite (NoDup_keys_unique _ _ _ _ Hnd Hin Hd) in Hf.
    rewrite Heq in Hkd. apply list_elem_of_filter in Hkd as [Hf' _].
    cbn in Hf'. congruence. }
  eexists. split.
  { unfold create_delta_store. cbn [default]. by rewrite run_store_loop. }
  cbn [ds_id ds_added ds_updated ds_pruned initial_delta_store].
  split; [done|]. split.
  - intros key delta la lu Hin Hkey Ha Hu.
    destruct (template_copy_collection
                (match workflow_id with
                 | Some wid => set_field "id" (FStr wid) ∅
                 | None => ∅
                 end) key Hkey) as (Ht & Htp & Hne).
    destruct (delta_has_fields delta) eqn:Hf.
    + rewrite !(insert_selected_lookup _ _ _ key delta)
        by (try done; by apply Hin_all).
      unfold added_of, updated_of, pruned_of. cbn [fst snd].
      rewrite Ha, Hu, Ht, Htp. unfold kept_data.
      rewrite !(decide_False (P := key = WORKFLOW)) by done. split; [|split].
      * destruct (payload_is_set (Rep la)) eqn:Hs; [done|].
        by rewrite (payload_unset_Rep _ Hs).
      * destruct (payload_is_set (Rep lu)) eqn:Hs; [done|].
        by rewrite (payload_unset_Rep _ Hs).
      * destruct (decide (d_pruned delta ≠ [])) as [|He]; [done|].
        apply dec_stable in He. by rewrite He.
    + rewrite !insert_selected_other by (by eapply Hout_all).
      destruct (delta_empty_parts _ Hf) as (Hea & Heu & Hep).
      rewrite Ha in Hea. rewrite Hu in Heu.
      rewrite (payload_unset_Rep _ Hea), (payload_unset_Rep _ Heu), Hep.
      by rewrite Ht, Htp.
  - intros delta a Hin Ha. destruct (delta_has_fields delta) eqn:Hf.
    + rewrite (insert_selected_lookup _ _ _ WORKFLOW delta)
        by (try done; by apply Hin_all).
      unfold added_of. cbn [fst snd]. rewrite Ha. destruct a as [m|]; done.
    + rewrite insert_selected_other by (by eapply Hout_all).
      destruct (delta_empty_parts _ Hf) as (Hea & _ & _).
      rewrite Ha in Hea. destruct a as [m|]; [discriminate|done].
Qed.


Lemma collection_delta_check (l : list (string * Deltas)) :
  forallb (λ kd, bool_decide (kd.1 = WORKFLOW)
                 || match d_added kd.2, d_updated kd.2 with
                    | Rep _, Rep _ => true
                    | _, _ => false
                    end) l = true →
  Forall collection_delta l.
Proof.
  intros Hl. apply Forall_forall. intros [key delta] Hin.
  rewrite forallb_forall in Hl. apply list_elem_of_In in Hin.
  specialize (Hl _ Hin). cbn [fst snd] in Hl. intros Hne. cbn [fst snd] in *.
  rewrite bool_decide_eq_false_2 in Hl by done.
  destruct (d_added delta), (d_updated delta); try discriminate.
  by eexists _, _.
Qed.

(** The deltas of the sample run that have something in them. *)
Definition sample_changed : list (string * Deltas) :=
  filter (λ kd, delta_has_fields kd.2 = true) (deltas sample_applied).

Lemma create_delta_store_published_witness :
  NoDup (deltas sample_applied).*1
  ∧ Forall collection_delta (deltas sample_applied)
  ∧ (ALL_DELTAS, AllDeltas sample_changed, SerializeToString)
      ∈ get_publish_deltas sample_applied
  ∧ ∃ delta_store,
      create_delta_store (Some sample_changed) (Some "u|w") = inr delta_store
      ∧ ds_id delta_store = Some "u|w".
Proof.
  assert (H1 : NoDup (deltas sample_applied).*1).
  { apply (bool_decide_unpack _). vm_compute. reflexivity. }
  assert (H2 : Forall collection_delta (deltas sample_applied)).
  { apply collection_delta_check. vm_compute. reflexivity. }
  assert (H3 : (ALL_DELTAS, AllDeltas sample_changed, SerializeToString)
                 ∈ get_publish_deltas sample_applied).
  { unfold get_publish_deltas. rewrite publish_fold. cbn [fst snd app].
    apply elem_of_app. right. apply list_elem_of_singleton. reflexivity. }
  split; [exact H1|]. split; [exact H2|]. split; [exact H3|].
  destruct (create_delta_store_published sample_applied (Some "u|w")
              sample_changed H1 H2 H3) as (delta_store & Hrun & Hid & _).
  exists delta_store. split; [exact Hrun|exact Hid].
Defined.


(** ** [get_entire_workflow] *)

Lemma run_dict_values (store : Store) key d (s : Mgr) :
  store !! key = Some (Dict d) →
  dict_values store key s = (inr (map_to_list d).*2, s).
Proof.
  intros H. unfold dict_values.
  erewrite run_bind_ok; [|by apply run_subscript_Some]. reflexivity.
Qed.

(** The entities of a kind in the message of the entire workflow. *)
Definition ew_entities (msg : EntireWorkflow) (kind : string) : list Msg :=
  if decide (kind = TASKS) then ew_tasks msg
  else if decide (kind = TASK_PROXIES) then ew_task_proxies msg
  else if decide (kind = JOBS) then ew_jobs msg
  else if decide (kind = FAMILIES) then ew_families msg
  else if decide (kind = FAMILY_PROXIES) then ew_family_proxies msg
  else if decide (kind = EDGES) then ew_edges msg
  else [].

(** On a store that has a dict under every collection kind and a workflow
    message, [get_entire_workflow] returns a message with the stored
    workflow and, for each kind, the stored entities, each once: the same
    list that [get_data_elements] returns as [added] for that kind, and with
    the same time, the [last_updated] of the message's workflow. *)
Theorem get_entire_workflow_elements (s : Mgr) (workflow : Msg) :
  data s !! WORKFLOW = Some (Message workflow) →
  (∀ kind, kind ∈ [EDGES; FAMILIES; FAMILY_PROXIES; JOBS; TASKS; TASK_PROXIES] →
           ∃ d, data s !! kind = Some (Dict d)) →
  ∃ msg,
    get_entire_workflow s = inr msg
    ∧ ew_workflow msg = workflow
    ∧ (∀ kind d,
         kind ∈ [EDGES; FAMILIES; FAMILY_PROXIES; JOBS; TASKS; TASK_PROXIES] →
         data s !! kind = Some (Dict d) →
         length (ew_entities msg kind) = size d
         ∧ (∀ e, e ∈ ew_entities msg kind ↔ ∃ id, d !! id = Some e)
         ∧ get_data_elements s kind
           = inr (mkDeltas (get_num "last_updated" (ew_workflow msg)) 0
                    (Rep (ew_entities msg kind)) (Rep []) [] false)).
Proof.
  intros Hw Hkinds.
  destruct (Hkinds TASKS) as [tasks Htasks]; [set_solver|].
  destruct (Hkinds TASK_PROXIES) as [tps Htps]; [set_solver|].
  destruct (Hkinds JOBS) as [jobs Hjobs]; [set_solver|].
  destruct (Hkinds FAMILIES) as [fams Hfams]; [set_solver|].
  destruct (Hkinds FAMILY_PROXIES) as [fps Hfps]; [set_solver|].
  destruct (Hkinds EDGES) as [edges Hedges]; [set_solver|].
  eexists. split.
  { unfold get_entire_workflow.
    erewrite run_bind_ok; [|by apply run_subscript_Some].
    erewrite run_bind_ok; [|reflexivity].
    do 6 (erewrite run_bind_ok; [|by apply run_dict_values]).
    reflexivity. }
  split; [done|]. cbn [ew_workflow]. intros kind d Hkind Hd.
  assert (Hent : ew_entities
            (mkEntireWorkflow workflow (map_to_list tasks).*2
               (map_to_list tps).*2 (map_to_list jobs).*2
               (map_to_list fams).*2 (map_to_list fps).*2
               (map_to_list edges).*2) kind
          = (map_to_list d).*2).
  { unfold ew_entities. cbn.
    repeat (apply elem_of_cons in Hkind as [->|Hkind];
            [repeat (first [rewrite decide_True by done
                           |rewrite decide_False by done]); congruence|]).
    by apply elem_of_nil in Hkind. }
  rewrite Hent. split; [|split].
  - by rewrite length_fmap, length_map_to_list.
  - intros e. rewrite list_elem_of_fmap. split.
    + intros ([id e'] & -> & Hin). exists id. by apply elem_of_map_to_list.
    + intros [id Hid]. exists (id, e). split; [done|].
      by apply elem_of_map_to_list.
  - unfold get_data_elements. rewrite DELTAS_MAP_keys.
    rewrite decide_True by done. by rewrite Hw, Hd.
Qed.

Lemma get_entire_workflow_elements_witness :
  data sample_applied !! WORKFLOW = Some (Message sample_workflow)
  ∧ (∀ kind,
       kind ∈ [EDGES; FAMILIES; FAMILY_PROXIES; JOBS; TASKS; TASK_PROXIES] →
       ∃ d, data sample_applied !! kind = Some (Dict d))
  ∧ ∃ msg, get_entire_workflow sample_applied = inr msg
           ∧ ew_workflow msg = sample_workflow.
Proof.
  assert (H1 : data sample_applied !! WORKFLOW = Some (Message sample_workflow))
    by (vm_compute; reflexivity).
  assert (H2 : ∀ kind,
            kind ∈ [EDGES; FAMILIES; FAMILY_PROXIES; JOBS; TASKS; TASK_PROXIES] →
            ∃ d, data sample_applied !! kind = Some (Dict d)).
  { intros kind Hkind. exists (sample_dict (data sample_applied) kind).
    repeat (apply elem_of_cons in Hkind as [->|Hkind];
            [vm_compute; reflexivity|]).
    by apply elem_of_nil in Hkind. }
  split; [exact H1|]. split; [exact H2|].
  destruct (get_entire_workflow_elements sample_applied sample_workflow H1 H2)
    as (msg & Hrun & Hw & _).
  exists msg. split; [exact Hrun|exact Hw].
Defined.


(** ** Ghost generation: what is created *)

(** The state after a reading of the clock. *)
Definition tick (s : Mgr) : Mgr :=
  mkMgr (workflow_id s) (ancestors s) (data s) (added s) (updated s)
    (deltas s) (min_point s) (max_point s) (state_update_families s)
    (updated_state_families s) (updates_pending s) (job_pool s)
    (S (clock_reads s)) (LOG s).

Lemma run_time (ext : Collaborators) (s : Mgr) :
  time ext s = (inr (clock ext (clock_reads s)), tick s).
Proof. reflexivity. Qed.

(** A task proxy is asked for of a task that has no definition, neither in
    the store nor among the added tasks: [generate_ghost_task] raises
    [AttributeError] when it reads the depth of the definition; by then the
    clock has been read, and the store, the buffers and the deltas are as
    they were. *)
Theorem generate_ghost_task_undefined
    (ext : Collaborators) (fuel : nat) (t_id tp_id point_string : string)
    (s : Mgr) (task_proxies tp_added tasks tasks_added : gmap string Msg) :
  data s !! TASK_PROXIES = Some (Dict task_proxies) →
  added s !! TASK_PROXIES = Some (Dict tp_added) →
  task_proxies !! tp_id = None → tp_added !! tp_id = None →
  data s !! TASKS = Some (Dict tasks) →
  added s !! TASKS = Some (Dict tasks_added) →
  tasks !! t_id = None → tasks_added !! t_id = None →
  generate_ghost_task ext fuel t_id tp_id point_string s
  = (inl (AttributeError "depth"), tick s)
  ∧ data (tick s) = data s ∧ added (tick s) = added s
  ∧ updated (tick s) = updated s ∧ deltas (tick s) = deltas s.
Proof.
  intros Htp Htpa Hnew Hnewa Ht Hta Hdef Hdefa. split; [|done].
  unfold generate_ghost_task.
  erewrite run_bind_ok; [|reflexivity].
  erewrite run_bind_ok; [|by apply run_the_dict].
  rewrite decide_False by (rewrite Hnew; by intros [? ?]).
  erewrite run_bind_ok;
    [|erewrite run_bind_ok; [|by apply run_the_dict]; reflexivity].
  rewrite bool_decide_eq_false_2 by (rewrite Hnewa; by intros [? ?]).
  erewrite run_bind_ok; [|by apply run_the_dict].
  erewrite run_bind_ok; [|by apply run_the_dict].
  rewrite Hdef, Hdefa. cbn [from_option].
  erewrite run_bind_ok; [|apply run_time]. reflexivity.
Qed.

Lemma generate_ghost_task_undefined_witness :
  data sample_start !! TASK_PROXIES = Some (Dict ∅)
  ∧ added sample_start !! TASK_PROXIES = Some (Dict ∅)
  ∧ data sample_start !! TASKS = Some (Dict ∅)
  ∧ added sample_start !! TASKS
    = Some (Dict (sample_dict (added sample_start) TASKS))
  ∧ sample_dict (added sample_start) TASKS !! "u|w|b" = None
  ∧ generate_ghost_task (sample_ext false) 8 "u|w|b" "u|w|1|b" "1" sample_start
    = (inl (AttributeError "depth"), tick sample_start).
Proof.
  assert (H1 : data sample_start !! TASK_PROXIES = Some (Dict ∅))
    by (vm_compute; reflexivity).
  assert (H2 : added sample_start !! TASK_PROXIES = Some (Dict ∅))
    by (vm_compute; reflexivity).
  assert (H3 : data sample_start !! TASKS = Some (Dict ∅))
    by (vm_compute; reflexivity).
  assert (H4 : added sample_start !! TASKS
               = Some (Dict (sample_dict (added sample_start) TASKS)))
    by (vm_compute; reflexivity).
  assert (H5 : sample_dict (added sample_start) TASKS !! "u|w|b" = None)
    by (vm_compute; reflexivity).
  split; [exact H1|]. split; [exact H2|]. split; [exact H3|].
  split; [exact H4|]. split; [exact H5|].
  exact (proj1 (generate_ghost_task_undefined (sample_ext false) 8 "u|w|b"
                  "u|w|1|b" "1" sample_start ∅ ∅ ∅ _ H1 H2 (lookup_empty _)
                  (lookup_empty _) H3 H4 (lookup_empty _) H5)).
Defined.


Lemma run_workflow_update_append (ext : Collaborators) field id (s : Mgr) w :
  updated s !! WORKFLOW = Some (Message w) →
  workflow_update_append field id s
  = (inr tt, set_updated (<[WORKFLOW := Message (rep_append field id w)]>) s).
Proof.
  intros Hw. unfold workflow_update_append.
  erewrite run_bind_ok; [|reflexivity].
  erewrite run_bind_ok; [|by apply run_the_message]. reflexivity.
Qed.

Lemma data_set_added f (s : Mgr) : data (set_added f s) = data s.
Proof. reflexivity. Qed.
Lemma data_set_updated f (s : Mgr) : data (set_updated f s) = data s.
Proof. reflexivity. Qed.
Lemma data_tick (s : Mgr) : data (tick s) = data s.
Proof. reflexivity. Qed.
Lemma added_set_added f (s : Mgr) : added (set_added f s) = f (added s).
Proof. reflexivity. Qed.
Lemma added_set_updated f (s : Mgr) : added (set_updated f s) = added s.
Proof. reflexivity. Qed.
Lemma added_tick (s : Mgr) : added (tick s) = added s.
Proof. reflexivity. Qed.
Lemma updated_set_added f (s : Mgr) : updated (set_added f s) = updated s.
Proof. reflexivity. Qed.
Lemma updated_set_updated f (s : Mgr) : updated (set_updated f s) = f (updated s).
Proof. reflexivity. Qed.
Lemma updated_tick (s : Mgr) : updated (tick s) = updated s.
Proof. reflexivity. Qed.

Create Rewrite HintDb mgr.
#[global] Hint Rewrite data_set_added data_set_updated data_tick
  added_set_added added_set_updated added_tick
  updated_set_added updated_set_updated updated_tick : mgr.

(** A lookup in a store of the manager after some writes under other
    keys. *)
Ltac look :=
  autorewrite with mgr;
  rewrite ?lookup_alter_ne by done;
  rewrite ?lookup_insert_ne by done;
  first [eassumption | apply lookup_insert_eq].

Lemma run_families_choice (families f_added : gmap string Msg)
    (store : Store) (s : Mgr) :
  store !! FAMILIES = Some (Dict f_added) →
  (if decide (families = ∅) then the_dict store FAMILIES else mret families) s
  = (inr (if decide (families = ∅) then f_added else families), s).
Proof.
  intros H. destruct (decide (families = ∅)); [by apply run_the_dict|done].
Qed.

(** The task proxy that [generate_ghost_task] builds. *)
Definition ghost_task_proxy (ext : Collaborators) (t_id tp_id point_string : string)
    (now : Z) (taskdef : Msg) (ids : list string) : Msg :=
  new_message
    [ ("stamp", FStr (stamp_of ext tp_id now)); ("id", FStr tp_id);
      ("task", FStr t_id); ("cycle_point", FStr point_string);
      ("depth", FNum (get_num "depth" taskdef));
      ("name", FStr (get_str "name" taskdef));
      ("namespace", FRep (get_rep "namespace" taskdef));
      ("ancestors", FRep ids);
      ("first_parent", FStr (default "" (head ids))) ].

Tactic Notation "run_step" tactic3(tac) := erewrite run_bind_ok; [|tac].

(** A task proxy is asked for of a defined task, at a cycle point where the
    family proxy of its first parent is already there (stored, or added
    before).  [generate_ghost_task] puts the new task proxy, built from the
    definition, into [added]; it appends the id to the task proxies of the
    updated workflow and to the proxies of the updated task, and to the
    child tasks of the family proxy: in [updated] when the family proxy is
    stored, in [added] when it was added.  The store is not touched. *)
Theorem generate_ghost_task_under_family
    (ext : Collaborators) (fuel : nat) (t_id tp_id point_string : string)
    (s : Mgr) (task_proxies tp_added tasks tasks_added : gmap string Msg)
    (taskdef : Msg) (names : list string) (first_parent : string)
    (rest : list string) (w : Msg)
    (t_updated families f_added fp_data fp_added fp_updated : gmap string Msg) :
  data s !! TASK_PROXIES = Some (Dict task_proxies) →
  added s !! TASK_PROXIES = Some (Dict tp_added) →
  task_proxies !! tp_id = None → tp_added !! tp_id = None →
  data s !! TASKS = Some (Dict tasks) →
  added s !! TASKS = Some (Dict tasks_added) →
  from_option Some (tasks_added !! t_id) (tasks !! t_id) = Some taskdef →
  ancestors s !! get_str "name" taskdef = Some names →
  ancestor_ids ext (workflow_id s) point_string (get_str "name" taskdef) names
  = first_parent :: rest →
  updated s !! WORKFLOW = Some (Message w) →
  updated s !! TASKS = Some (Dict t_updated) →
  data s !! FAMILIES = Some (Dict families) →
  added s !! FAMILIES = Some (Dict f_added) →
  data s !! FAMILY_PROXIES = Some (Dict fp_data) →
  added s !! FAMILY_PROXIES = Some (Dict fp_added) →
  updated s !! FAMILY_PROXIES = Some (Dict fp_updated) →
  is_Some (fp_data !! first_parent) ∨ is_Some (fp_added !! first_parent) →
  let now := clock ext (clock_reads s) in
  let tproxy :=
    ghost_task_proxy ext t_id tp_id point_string now taskdef
      (first_parent :: rest) in
  ∃ s',
    generate_ghost_task ext (S fuel) t_id tp_id point_string s = (inr tt, s')
    ∧ data s' = data s
    ∧ added s' !! TASK_PROXIES = Some (Dict (<[tp_id := tproxy]> tp_added))
    ∧ get_str "id" tproxy = tp_id ∧ get_str "task" tproxy = t_id
    ∧ get_str "cycle_point" tproxy = point_string
    ∧ get_str "name" tproxy = get_str "name" taskdef
    ∧ get_str "first_parent" tproxy = first_parent
    ∧ get_rep "ancestors" tproxy = first_parent :: rest
    ∧ updated s' !! WORKFLOW
      = Some (Message (rep_append TASK_PROXIES tp_id w))
    ∧ updated s' !! TASKS
      = Some (Dict (<[t_id :=
                 rep_append "proxies" tp_id
                   (default (new_message [ ("stamp", FStr (stamp_of ext t_id now));
                                           ("id", FStr t_id) ])
                      (t_updated !! t_id))]> t_updated))
    ∧ (is_Some (fp_data !! first_parent) →
       added s' !! FAMILY_PROXIES = Some (Dict fp_added)
       ∧ updated s' !! FAMILY_PROXIES
         = Some (Dict (<[first_parent :=
                    rep_append "child_tasks" tp_id
                      (default (new_message [("id", FStr first_parent)])
                         (fp_updated !! first_parent))]> fp_updated)))
    ∧ (¬ is_Some (fp_data !! first_parent) →
       updated s' !! FAMILY_PROXIES = Some (Dict fp_updated)
       ∧ added s' !! FAMILY_PROXIES
         = Some (Dict (alter (rep_append "child_tasks" tp_id) first_parent
                         fp_added))).
Proof.
  intros Htp Htpa Hnew Hnewa Ht Hta Hdef Hanc Hids Hw Htu Hf Hfa Hfpd Hfpa Hfpu
    Hparent now tproxy.
  assert (Hfields : get_str "id" tproxy = tp_id ∧ get_str "task" tproxy = t_id
    ∧ get_str "cycle_point" tproxy = point_string
    ∧ get_str "name" tproxy = get_str "name" taskdef
    ∧ get_str "first_parent" tproxy = first_parent
    ∧ get_rep "ancestors" tproxy = first_parent :: rest).
  { unfold tproxy, ghost_task_proxy. cbn [head default].
    repeat split; by read_field. }
  destruct (decide (is_Some (fp_data !! first_parent))) as [Hin|Hnot].
  - eexists. split.
    { unfold generate_ghost_task.
      run_step reflexivity.
      run_step (by apply run_the_dict).
      rewrite decide_False by (rewrite Hnew; by intros [? ?]).
      run_step (run_step (by apply run_the_dict); reflexivity).
      rewrite bool_decide_eq_false_2 by (rewrite Hnewa; by intros [? ?]).
      run_step (by apply run_the_dict).
      run_step (by apply run_the_dict).
      rewrite Hdef.
      run_step (apply run_time).
      run_step (by apply run_subscript_Some).
      rewrite Hids.
      run_step (by apply run_the_dict).
      run_step reflexivity.
      run_step (apply (run_workflow_update_append ext); look).
      run_step reflexivity.
      run_step (apply run_the_dict; look).
      run_step reflexivity.
      cbn [generate_ghost_family].
      run_step (apply run_time).
      run_step reflexivity.
      run_step (apply run_the_dict; look).
      run_step (apply run_families_choice; look).
      run_step (apply run_the_dict; look).
      run_step (apply run_the_dict; look).
      run_step (apply run_the_dict; look).
      rewrite decide_True by done.
      run_step (run_step reflexivity; reflexivity).
      reflexivity. }
    split; [done|].
    split; [cbn [mutate_in]; look|].
    split; [apply Hfields|]. split; [apply Hfields|]. split; [apply Hfields|].
    split; [apply Hfields|]. split; [apply Hfields|]. split; [apply Hfields|].
    assert (Hsteps := I).
    split; [cbn [mutate_in]; look|].
    split; [cbn [mutate_in]; look|].
    split.
    + intros _. split; [cbn [mutate_in]; look|].
      cbn [mutate_in]. autorewrite with mgr.
      rewrite lookup_alter_eq, lookup_insert_eq. cbn [fmap option_fmap option_map slot_alter].
      unfold setdefault_then. rewrite alter_insert_eq. reflexivity.
    + intros Hn. by destruct Hn.
  - destruct Hparent as [Hin|Hin]; [done|].
    eexists. split.
    { unfold generate_ghost_task.
      run_step reflexivity.
      run_step (by apply run_the_dict).
      rewrite decide_False by (rewrite Hnew; by intros [? ?]).
      run_step (run_step (by apply run_the_dict); reflexivity).
      rewrite bool_decide_eq_false_2 by (rewrite Hnewa; by intros [? ?]).
      run_step (by apply run_the_dict).
      run_step (by apply run_the_dict).
      rewrite Hdef.
      run_step (apply run_time).
      run_step (by apply run_subscript_Some).
      rewrite Hids.
      run_step (by apply run_the_dict).
      run_step reflexivity.
      run_step (apply (run_workflow_update_append ext); look).
      run_step reflexivity.
      run_step (apply run_the_dict; look).
      run_step reflexivity.
      cbn [generate_ghost_family].
      run_step (apply run_time).
      run_step reflexivity.
      run_step (apply run_the_dict; look).
      run_step (apply run_families_choice; look).
      run_step (apply run_the_dict; look).
      run_step (apply run_the_dict; look).
      run_step (apply run_the_dict; look).
      rewrite decide_False by done. rewrite decide_True by done.
      run_step reflexivity.
      reflexivity. }
    split; [done|].
    split; [cbn [mutate_in]; look|].
    split; [apply Hfields|]. split; [apply Hfields|]. split; [apply Hfields|].
    split; [apply Hfields|]. split; [apply Hfields|]. split; [apply Hfields|].
    split; [cbn [mutate_in]; look|].
    split; [cbn [mutate_in]; look|].
    split.
    + intros Hn. by destruct Hnot.
    + intros _. split; [cbn [mutate_in]; look|].
      cbn [mutate_in]. autorewrite with mgr.
      rewrite lookup_alter_eq, lookup_insert_ne by done. rewrite Hfpa.
      reflexivity.
Qed.


Lemma generate_ghost_task_under_family_witness :
  let s := sample_ghosted in
  data s !! TASK_PROXIES = Some (Dict ∅)
  ∧ added s !! TASK_PROXIES = Some (Dict (sample_dict (added s) TASK_PROXIES))
  ∧ sample_dict (added s) TASK_PROXIES !! "u|w|1|b" = None
  ∧ data s !! TASKS = Some (Dict ∅)
  ∧ added s !! TASKS = Some (Dict (sample_dict (added s) TASKS))
  ∧ from_option Some (sample_dict (added s) TASKS !! "u|w|a")
      ((∅ : gmap string Msg) !! "u|w|a") = Some sample_task
  ∧ ancestors s !! get_str "name" sample_task = Some ["a"; "root"]
  ∧ ancestor_ids (sample_ext false) (workflow_id s) "1"
      (get_str "name" sample_task) ["a"; "root"] = ["u|w|1|root"]
  ∧ updated s !! WORKFLOW = Some (Message (workflow_update s))
  ∧ updated s !! TASKS = Some (Dict (sample_dict (updated s) TASKS))
  ∧ data s !! FAMILIES = Some (Dict ∅)
  ∧ added s !! FAMILIES = Some (Dict (sample_dict (added s) FAMILIES))
  ∧ data s !! FAMILY_PROXIES = Some (Dict ∅)
  ∧ added s !! FAMILY_PROXIES
    = Some (Dict (sample_dict (added s) FAMILY_PROXIES))
  ∧ updated s !! FAMILY_PROXIES
    = Some (Dict (sample_dict (updated s) FAMILY_PROXIES))
  ∧ is_Some (sample_dict (added s) FAMILY_PROXIES !! "u|w|1|root")
  ∧ ∃ s',
      generate_ghost_task (sample_ext false) 1 "u|w|a" "u|w|1|b" "1" s
      = (inr tt, s')
      ∧ data s' = data s.
Proof.
  intros s.
  assert (H1 : data s !! TASK_PROXIES = Some (Dict ∅))
    by (vm_compute; reflexivity).
  assert (H2 : added s !! TASK_PROXIES
               = Some (Dict (sample_dict (added s) TASK_PROXIES)))
    by (vm_compute; reflexivity).
  assert (H3 : sample_dict (added s) TASK_PROXIES !! "u|w|1|b" = None)
    by (vm_compute; reflexivity).
  assert (H4 : data s !! TASKS = Some (Dict ∅)) by (vm_compute; reflexivity).
  assert (H5 : added s !! TASKS = Some (Dict (sample_dict (added s) TASKS)))
    by (vm_compute; reflexivity).
  assert (H6 : from_option Some (sample_dict (added s) TASKS !! "u|w|a")
                 ((∅ : gmap string Msg) !! "u|w|a") = Some sample_task)
    by (vm_compute; reflexivity).
  assert (H7 : ancestors s !! get_str "name" sample_task = Some ["a"; "root"])
    by (vm_compute; reflexivity).
  assert (H8 : ancestor_ids (sample_ext false) (workflow_id s) "1"
                 (get_str "name" sample_task) ["a"; "root"] = ["u|w|1|root"])
    by (vm_compute; reflexivity).
  assert (H9 : updated s !! WORKFLOW = Some (Message (workflow_update s)))
    by (vm_compute; reflexivity).
  assert (H10 : updated s !! TASKS = Some (Dict (sample_dict (updated s) TASKS)))
    by (vm_compute; reflexivity).
  assert (H11 : data s !! FAMILIES = Some (Dict ∅)) by (vm_compute; reflexivity).
  assert (H12 : added s !! FAMILIES
                = Some (Dict (sample_dict (added s) FAMILIES)))
    by (vm_compute; reflexivity).
  assert (H13 : data s !! FAMILY_PROXIES = Some (Dict ∅))
    by (vm_compute; reflexivity).
  assert (H14 : added s !! FAMILY_PROXIES
                = Some (Dict (sample_dict (added s) FAMILY_PROXIES)))
    by (vm_compute; reflexivity).
  assert (H15 : updated s !! FAMILY_PROXIES
                = Some (Dict (sample_dict (updated s) FAMILY_PROXIES)))
    by (vm_compute; reflexivity).
  assert (H16 : is_Some (sample_dict (added s) FAMILY_PROXIES !! "u|w|1|root")).
  { apply (bool_decide_unpack _). vm_compute. reflexivity. }
  do 16 (split; [assumption|]).
  destruct (generate_ghost_task_under_family (sample_ext false) 0 "u|w|a"
              "u|w|1|b" "1" s _ _ _ _ sample_task _ _ _ _ _ _ _ _ _ _
              H1 H2 (lookup_empty _) H3 H4 H5
              H6 H7 H8 H9 H10
              H11 H12 H13 H14 H15 (or_intror H16))
    as (s' & Hrun & Hdata & _).
  exists s'. split; [exact Hrun|exact Hdata].
Defined.


(** ** [update_workflow]: the totals *)

(** The root family proxies that count: those that have an entry in
    [updated[family_proxies]] with a state. *)
Definition counted_roots (fp_updated : gmap string Msg) (roots : list string)
  : list Msg :=
  filter (λ node, get_str "state" node ≠ "") (omap (fp_updated !!.) roots).

Lemma latest_view_counted (fp_updated : gmap string Msg) (r : string) :
  latest_view (filter (λ kv, get_str "state" kv.2 ≠ "") fp_updated) ∅ r
  = match fp_updated !! r with
    | Some node => if decide (get_str "state" node ≠ "") then Some node else None
    | None => None
    end.
Proof.
  unfold latest_view. rewrite lookup_empty.
  destruct (fp_updated !! r) as [node|] eqn:Hr.
  - destruct (decide (get_str "state" node ≠ "")) as [Hs|Hs].
    + by rewrite (proj2 (map_lookup_filter_Some _ _ _ _)) by done.
    + rewrite (proj2 (map_lookup_filter_None _ _ _)); [done|].
      right. intros node' Hn. rewrite Hr in Hn. by injection Hn as <-.
  - by rewrite (proj2 (map_lookup_filter_None _ _ _)) by (by left).
Qed.

Lemma counted_roots_views (fp_updated : gmap string Msg) (roots : list string) :
  omap (latest_view
          (filter (λ kv, get_str "state" kv.2 ≠ "") fp_updated) ∅) roots
  = counted_roots fp_updated roots.
Proof.
  unfold counted_roots. induction roots as [|r roots IH]; [done|].
  rewrite !omap_cons, latest_view_counted.
  destruct (fp_updated !! r) as [node|] eqn:Hr; [|exact IH].
  rewrite filter_cons.
  destruct (decide (get_str "state" node ≠ "")) as [Hs|Hs]; by rewrite IH.
Qed.

Lemma run_gather_roots (s s0 : Mgr) (fp_updated : gmap string Msg)
    (roots : list string) (acc : Counter.t * Z) :
  updated s !! FAMILY_PROXIES = Some (Dict fp_updated) →
  (∀ root_id, root_id ∈ roots → data s !! root_id = None) →
  gather_roots s roots acc s0
  = (inr (foldl (λ acc child_id,
             match latest_view
                     (filter (λ kv, get_str "state" kv.2 ≠ "") fp_updated) ∅
                     child_id with
             | Some child_node =>
                 (Counter.iadd acc.1
                    (Counter.of_map (get_map "state_totals" child_node)),
                  acc.2 + get_num "is_held_total" child_node)
             | None => acc
             end) acc roots), s0).
Proof.
  intros Hupdated. revert acc.
  induction roots as [|r roots IH]; intros acc Hroots; [done|].
  cbn [gather_roots foldl].
  erewrite run_bind_ok; [|by apply run_the_dict].
  rewrite latest_view_counted.
  destruct (fp_updated !! r) as [node|] eqn:Hr.
  - destruct (decide (get_str "state" node ≠ "")) as [Hs|Hs];
      (erewrite run_bind_ok; [|reflexivity]);
      apply IH; intros r' Hr'; apply Hroots; by right.
  - rewrite (Hroots r) by left. erewrite run_bind_ok; [|reflexivity].
    apply IH. intros r' Hr'. apply Hroots. by right.
Qed.

Lemma run_gather_roots_start (s s0 : Mgr) (fp_updated : gmap string Msg)
    (roots : list string) :
  updated s !! FAMILY_PROXIES = Some (Dict fp_updated) →
  (∀ root_id, root_id ∈ roots → data s !! root_id = None) →
  gather_roots s roots ([], 0) s0
  = (inr (gather_child_families
            (filter (λ kv, get_str "state" kv.2 ≠ "") fp_updated) ∅ roots), s0).
Proof. apply run_gather_roots. Qed.

Lemma counted_roots_spec (fp_updated : gmap string Msg) (roots : list string) :
  (∀ node st n, node ∈ counted_roots fp_updated roots →
     get_map "state_totals" node !! st = Some n → 0 < n) →
  let result :=
    gather_child_families
      (filter (λ kv, get_str "state" kv.2 ≠ "") fp_updated) ∅ roots in
  CounterFacts.wf result.1
  ∧ (∀ st, Counter.count result.1 st
           = Zsum ((λ node, default 0 (get_map "state_totals" node !! st))
                     <$> counted_roots fp_updated roots))
  ∧ result.2 = Zsum (get_num "is_held_total" <$> counted_roots fp_updated roots).
Proof.
  intros Hpos.
  pose proof (gather_child_families_spec
                (filter (λ kv, get_str "state" kv.2 ≠ "") fp_updated) ∅ roots
                [] 0 CounterFacts.wf_nil) as Hspec.
  cbn zeta in Hspec. rewrite counted_roots_views in Hspec.
  destruct (Hspec Hpos) as (Hwf & Hcount & Hheld).
  cbn zeta. split; [exact Hwf|]. split.
  - intros st. etransitivity; [apply Hcount|]. cbn [Counter.count]. lia.
  - etransitivity; [exact Hheld|]. lia.
Qed.

Lemma lookup_fold_totals (c : Counter.t) (m0 : gmap string Z) k :
  NoDup (Counter.keys c) →
  foldl (λ m kn, <[kn.1 := kn.2]> m) m0 c !! k
  = if decide (k ∈ Counter.keys c) then Some (Counter.count c k) else m0 !! k.
Proof.
  revert m0. induction c as [|[k' n] c IH]; intros m0 Hnd.
  - cbn [foldl]. rewrite decide_False; [done|]. apply not_elem_of_nil.
  - rewrite CounterFacts.keys_cons in Hnd.
    apply NoDup_cons in Hnd as [Hnotin Hnd].
    cbn [foldl fst snd Counter.count]. rewrite (IH _ Hnd).
    rewrite CounterFacts.keys_cons.
    destruct (decide (k = k')) as [->|Hne].
    + rewrite (decide_False (P := k' ∈ Counter.keys c)) by done.
      rewrite decide_True by left. by rewrite lookup_insert_eq.
    + destruct (decide (k ∈ Counter.keys c)) as [Hin|Hin].
      * by rewrite decide_True by (by right).
      * rewrite decide_False.
        -- by rewrite lookup_insert_ne.
        -- by intros [?|?]%elem_of_cons.
Qed.

Lemma get_str_set_optional_ne name other value (m : Msg) :
  other ≠ name → get_str name (set_optional other value m) = get_str name m.
Proof.
  intros. destruct value; [by apply get_str_set_field_ne|done].
Qed.

Lemma get_num_set_optional_ne name other value (m : Msg) :
  other ≠ name → get_num name (set_optional other value m) = get_num name m.
Proof.
  intros. destruct value; [by apply get_num_set_field_ne|done].
Qed.

Lemma get_rep_set_optional_ne name other value (m : Msg) :
  other ≠ name → get_rep name (set_optional other value m) = get_rep name m.
Proof.
  intros. destruct value; [by apply get_rep_set_field_ne|done].
Qed.

Lemma get_map_set_optional_ne name other value (m : Msg) :
  other ≠ name → get_map name (set_optional other value m) = get_map name m.
Proof.
  intros. destruct value; [by apply get_map_set_field_ne|done].
Qed.

Ltac read_workflow :=
  repeat first
    [ rewrite get_str_set_optional_ne by discriminate
    | rewrite get_num_set_optional_ne by discriminate
    | rewrite get_rep_set_optional_ne by discriminate
    | rewrite get_map_set_optional_ne by discriminate ];
  read_field.

(** [update_workflow] on a manager whose buffers have their dicts and whose
    root family ids are not names of kinds.  The root families are those of
    the store and of [added], each id once; the ones that count are those
    with an entry in [updated[family_proxies]] that has a state.  The
    updated workflow gets the id, the time and the stamp, the status, and:
    as [is_held_total] the sum of the hold totals of the roots that count;
    as [states] the states whose total over those roots is positive, each
    once; in [state_totals] that total for each such state, the other
    entries being left as they were. *)
Theorem update_workflow_totals
    (ext : Collaborators) (s : Mgr) (w : Msg)
    (fp_data fp_added fp_updated : gmap string Msg) :
  let roots :=
    elements (list_to_set (root_ids (map_to_list fp_data).*2
                           ++ root_ids (map_to_list fp_added).*2)
              : gset string) in
  let views := counted_roots fp_updated roots in
  let total (st : string) : Z :=
    Zsum ((λ node, default 0 (get_map "state_totals" node !! st)) <$> views) in
  let now := clock ext (clock_reads s) in
  updated s !! WORKFLOW = Some (Message w) →
  data s !! FAMILY_PROXIES = Some (Dict fp_data) →
  added s !! FAMILY_PROXIES = Some (Dict fp_added) →
  updated s !! FAMILY_PROXIES = Some (Dict fp_updated) →
  (∀ root_id, root_id ∈ roots → data s !! root_id = None) →
  (∀ node st n, node ∈ views →
     get_map "state_totals" node !! st = Some n → 0 < n) →
  ∃ (w' : Msg) (s' : Mgr),
    update_workflow ext s = (inr tt, s')
    ∧ updated s' = <[WORKFLOW := Message w']> (updated s)
    ∧ data s' = data s ∧ added s' = added s
    ∧ get_str "id" w' = workflow_id s
    ∧ get_num "last_updated" w' = now
    ∧ get_str "stamp" w' = stamp_of ext (workflow_id s) now
    ∧ get_str "status" w' = (get_suite_status ext).1
    ∧ get_num "is_held_total" w' = Zsum (get_num "is_held_total" <$> views)
    ∧ NoDup (get_rep "states" w')
    ∧ (∀ st, st ∈ get_rep "states" w' ↔ 0 < total st)
    ∧ (∀ st, get_map "state_totals" w' !! st
             = if decide (0 < total st) then Some (total st)
               else get_map "state_totals" w !! st).
Proof.
  intros roots views total now Hw Hfpd Hfpa Hfpu Hkinds Hpos.
  pose proof (counted_roots_spec fp_updated roots Hpos) as Hspec.
  cbn zeta in Hspec.
  destruct (gather_child_families
              (filter (λ kv, get_str "state" kv.2 ≠ "") fp_updated) ∅ roots)
    as [counter held] eqn:Hgather.
  cbn [fst snd] in Hspec. destruct Hspec as (Hwf & Hcount & Hheld).
  fold views in Hcount, Hheld.
  assert (Hkeys := wf_keys_positive counter).
  do 2 eexists. split.
  { unfold update_workflow.
    erewrite run_bind_ok; [|reflexivity].
    erewrite run_bind_ok; [|by apply run_the_message].
    erewrite run_bind_ok; [|apply run_time].
    erewrite run_bind_ok; [|reflexivity].
    erewrite run_bind_ok; [|reflexivity].
    erewrite run_bind_ok; [|by apply run_dict_values].
    erewrite run_bind_ok; [|by apply run_dict_values].
    erewrite run_bind_ok;
      [|apply (run_gather_roots_start _ _ fp_updated);
        [autorewrite with mgr; by rewrite lookup_insert_ne|exact Hkinds]].
    fold roots. rewrite Hgather. reflexivity. }
  split.
  { autorewrite with mgr. by rewrite insert_insert_eq. }
  split; [done|]. split; [done|].
  split; [by read_workflow|]. split; [by read_workflow|].
  split; [by read_workflow|]. split; [by read_workflow|].
  split; [read_workflow; lia|].
  split; [read_workflow; apply Hwf|].
  split.
  { intros st. read_workflow. rewrite Hkeys by done. by rewrite Hcount. }
  intros st. read_workflow. rewrite lookup_fold_totals by apply Hwf.
  read_workflow. 
  destruct (decide (st ∈ Counter.keys counter)) as [Hin|Hnot].
  - apply Hkeys in Hin; [|done]. rewrite Hcount in *.
    by rewrite decide_True by done.
  - rewrite decide_False; [done|]. intros Ht. apply Hnot, Hkeys; [done|].
    by rewrite Hcount.
Qed.


Lemma update_workflow_totals_witness :
  let fp : gmap string Msg := {["u|w|1|root" := sample_root_proxy]} in
  let roots :=
    elements (list_to_set (root_ids (map_to_list fp).*2
                           ++ root_ids (map_to_list (∅ : gmap string Msg)).*2)
              : gset string) in
  updated sample_flagged !! WORKFLOW = Some (Message ∅)
  ∧ data sample_flagged !! FAMILY_PROXIES = Some (Dict fp)
  ∧ added sample_flagged !! FAMILY_PROXIES = Some (Dict ∅)
  ∧ updated sample_flagged !! FAMILY_PROXIES = Some (Dict fp)
  ∧ (∀ root_id, root_id ∈ roots → data sample_flagged !! root_id = None)
  ∧ (∀ node st n, node ∈ counted_roots fp roots →
       get_map "state_totals" node !! st = Some n → 0 < n)
  ∧ ∃ (w' : Msg) (s' : Mgr),
      update_workflow (sample_ext false) sample_flagged = (inr tt, s')
      ∧ updated s' = <[WORKFLOW := Message w']> (updated sample_flagged)
      ∧ get_num "is_held_total" w' = 1.
Proof.
  intros fp roots.
  assert (H1 : updated sample_flagged !! WORKFLOW = Some (Message ∅))
    by (vm_compute; reflexivity).
  assert (H2 : data sample_flagged !! FAMILY_PROXIES = Some (Dict fp))
    by (vm_compute; reflexivity).
  assert (H3 : added sample_flagged !! FAMILY_PROXIES = Some (Dict ∅))
    by (vm_compute; reflexivity).
  assert (H4 : updated sample_flagged !! FAMILY_PROXIES = Some (Dict fp))
    by (vm_compute; reflexivity).
  assert (Hroots : roots = ["u|w|1|root"]) by (vm_compute; reflexivity).
  assert (Hviews : counted_roots fp roots = [sample_root_proxy])
    by (vm_compute; reflexivity).
  assert (Htotals : get_map "state_totals" sample_root_proxy
                    = {["running" := 1]})
    by (vm_compute; reflexivity).
  assert (Hheld : Zsum (get_num "is_held_total" <$> [sample_root_proxy]) = 1)
    by (vm_compute; reflexivity).
  assert (H5 : ∀ root_id, root_id ∈ roots →
                 data sample_flagged !! root_id = None).
  { intros root_id Hin. rewrite Hroots in Hin.
    apply list_elem_of_singleton in Hin. subst root_id.
    vm_compute. reflexivity. }
  assert (H6 : ∀ node st n, node ∈ counted_roots fp roots →
                 get_map "state_totals" node !! st = Some n → 0 < n).
  { intros node st n Hin Hn. rewrite Hviews in Hin.
    apply list_elem_of_singleton in Hin. subst node. rewrite Htotals in Hn.
    apply lookup_singleton_Some in Hn as [_ <-]. done. }
  split; [exact H1|]. split; [exact H2|]. split; [exact H3|].
  split; [exact H4|]. split; [exact H5|]. split; [exact H6|].
  destruct (update_workflow_totals (sample_ext false) sample_flagged ∅ fp ∅ fp
              H1 H2 H3 H4 H5 H6)
    as (w' & s' & Hrun & Hupd & _ & _ & _ & _ & _ & _ & Hh & _).
  exists w', s'. split; [exact Hrun|]. split; [exact Hupd|].
  rewrite Hh. fold roots. rewrite Hviews. exact Hheld.
Defined.


(** ** [update_family_proxies]: the flagged families are worked off *)

Section Climb.

Local Open Scope nat_scope.

(** A rank on the family proxies: below the first parent, above the child
    families, and at most [top]. *)
Variable rank : string → nat.
Variable top : nat.

(** What a flagged family still costs. *)
Definition due (families : gset string) : nat :=
  sum_list_with (λ f, S top - rank f) (elements families).

Lemma due_remove (families : gset string) (f : string) :
  f ∈ families →
  due families = (S top - rank f) + due (families ∖ {[f]}).
Proof.
  intros Hin. unfold due.
  assert (Heq : families = {[f]} ∪ families ∖ {[f]}).
  { apply set_eq. intros x. rewrite elem_of_union, elem_of_difference,
      elem_of_singleton. destruct (decide (x = f)); naive_solver. }
  rewrite Heq at 1.
  rewrite elements_union_singleton by set_solver. reflexivity.
Qed.

Lemma due_add (families : gset string) (f : string) :
  due ({[f]} ∪ families) ≤ (S top - rank f) + due families.
Proof.
  destruct (decide (f ∈ families)) as [Hin|Hnot].
  - replace ({[f]} ∪ families) with families by set_solver. lia.
  - unfold due. rewrite elements_union_singleton by done. reflexivity.
Qed.

Lemma due_settle (families : gset string) (f : string) :
  f ∈ families → rank f ≤ top → due (families ∖ {[f]}) < due families.
Proof. intros Hin Hr. rewrite (due_remove families f Hin). lia. Qed.

Lemma due_climb (families : gset string) (f p : string) :
  f ∈ families → rank f < rank p → rank p ≤ top →
  due ((families ∪ {[p]}) ∖ {[f]}) < due families.
Proof.
  intros Hin Hfp Hp. rewrite (due_remove families f Hin).
  assert (Hne : p ≠ f) by (intros ->; lia).
  replace ((families ∪ {[p]}) ∖ {[f]}) with ({[p]} ∪ families ∖ {[f]})
    by set_solver.
  pose proof (due_add (families ∖ {[f]}) p). lia.
Qed.

Lemma due_bound (families : gset string) :
  due families ≤ size families * S top.
Proof.
  unfold due, size, set_size. cbn.
  induction (elements families) as [|f l IH]; cbn; lia.
Qed.

Lemma due_member (families : gset string) (f : string) :
  f ∈ families → rank f ≤ top → 0 < due families.
Proof. intros Hin Hr. rewrite (due_remove families f Hin). lia. Qed.

End Climb.


Section Ascent.

Local Open Scope nat_scope.

Variable ext : Collaborators.
Variable rank : string → nat.
Variable top : nat.
Variables fp_data fp_added tp_data tp_updated : gmap string Msg.

(** [fp_data[fp_id]] if it is there, [fp_added[fp_id]] otherwise. *)
Definition node_of (id : string) : option Msg :=
  match fp_data !! id with
  | Some n => Some n
  | None => fp_added !! id
  end.

(** The family proxies form a forest that [rank] measures. *)
Definition ranked : Prop :=
  (∀ id n c, node_of id = Some n → c ∈ get_rep "child_families" n →
             is_Some (node_of c) ∧ rank c < rank id)
  ∧ (∀ id n, node_of id = Some n → get_str "first_parent" n ≠ "" →
             is_Some (node_of (get_str "first_parent" n))
             ∧ rank id < rank (get_str "first_parent" n))
  ∧ (∀ id, is_Some (node_of id) → rank id ≤ top).

(** The stores and buffers the rollup reads are in place, and the flagged
    families are family proxies. *)
Definition settled (s : Mgr) : Prop :=
  data s !! FAMILY_PROXIES = Some (Dict fp_data)
  ∧ added s !! FAMILY_PROXIES = Some (Dict fp_added)
  ∧ data s !! TASK_PROXIES = Some (Dict tp_data)
  ∧ updated s !! TASK_PROXIES = Some (Dict tp_updated)
  ∧ (∃ fpu, updated s !! FAMILY_PROXIES = Some (Dict fpu))
  ∧ (∀ f, f ∈ state_update_families s → is_Some (node_of f)).

(** From [s] to [s']: the store and [added] are the same, the updated
    families and the entries of [updated[family_proxies]] only grow, every
    family that was flagged is still flagged or is updated, and what is due
    has not grown. *)
Definition climbs (s s' : Mgr) : Prop :=
  data s' = data s ∧ added s' = added s
  ∧ updated_state_families s ⊆ updated_state_families s'
  ∧ (∀ f, f ∈ state_update_families s →
          f ∈ state_update_families s' ∨ f ∈ updated_state_families s')
  ∧ due rank top (state_update_families s')
    ≤ due rank top (state_update_families s)
  ∧ (∀ fpu, updated s !! FAMILY_PROXIES = Some (Dict fpu) →
       ∃ fpu', updated s' !! FAMILY_PROXIES = Some (Dict fpu')
               ∧ dom fpu ⊆ dom fpu'
               ∧ updated_state_families s' ∖ updated_state_families s
                 ⊆ dom fpu').

Lemma climbs_refl (s : Mgr) : climbs s s.
Proof.
  repeat split; try done.
  - intros f Hf. by left.
  - intros fpu Hfpu. exists fpu. split; [done|]. split; [done|]. set_solver.
Qed.

Lemma climbs_trans (s1 s2 s3 : Mgr) : climbs s1 s2 → climbs s2 s3 → climbs s1 s3.
Proof.
  intros (Hd1 & Ha1 & Hu1 & Hf1 & Hdue1 & Hfp1) (Hd2 & Ha2 & Hu2 & Hf2 & Hdue2 & Hfp2).
  split; [congruence|]. split; [congruence|]. split; [set_solver|]. split.
  { intros f Hf. destruct (Hf1 f Hf) as [H|H].
    - apply Hf2, H.
    - right. by apply Hu2. }
  split; [lia|].
  intros fpu Hfpu. destruct (Hfp1 fpu Hfpu) as (fpu' & Hfpu' & Hdom1 & Hnew1).
  destruct (Hfp2 fpu' Hfpu') as (fpu'' & Hfpu'' & Hdom2 & Hnew2).
  exists fpu''. split; [done|]. split; [set_solver|].
  intros x Hx. apply elem_of_difference in Hx as [Hx3 Hx1].
  destruct (decide (x ∈ updated_state_families s2)) as [Hx2|Hx2].
  - apply Hdom2, Hnew1. set_solver.
  - apply Hnew2. set_solver.
Qed.

Hypothesis Hranked : ranked.

Lemma run_fam_node (id : string) (n : Msg) (s : Mgr) :
  node_of id = Some n →
  (match fp_data !! id with
   | Some n => mret n
   | None => subscript fp_added id
   end) s = (inr n, s).
Proof.
  unfold node_of. destruct (fp_data !! id) as [n'|].
  - by intros [= ->].
  - intros H. by apply run_subscript_Some.
Qed.

(** A flagged family is rolled up once its child families were seen to. *)
Lemma run_roll_up (id : string) (fam_node : Msg) (s : Mgr) :
  node_of id = Some fam_node → settled s → id ∈ state_update_families s →
  ∃ s',
    (fp_updated ← the_dict (updated s) FAMILY_PROXIES;
     tp_data ← the_dict (data s) TASK_PROXIES;
     tp_updated ← the_dict (updated s) TASK_PROXIES;
     now ← time ext;
     let fp_delta :=
       family_delta ext id now fp_updated fp_data tp_updated tp_data
         fam_node in
     modify (set_updated (<[FAMILY_PROXIES :=
       Dict (setdefault_then id ∅ (λ m, MergeFrom m fp_delta)
               fp_updated)]>));;
     modify (set_updated_state_families (λ f, f ∪ {[id]}));;
     (if decide (get_str "first_parent" fam_node ≠ "")
      then modify (set_state_update_families
                     (λ f, f ∪ {[get_str "first_parent" fam_node]}))
      else mret tt);;
     set_remove id) s = (inr tt, s')
    ∧ settled s' ∧ climbs s s'
    ∧ (∀ f, f ∈ state_update_families s → f ≠ id →
            f ∈ state_update_families s')
    ∧ due rank top (state_update_families s')
      < due rank top (state_update_families s).
Proof.
  intros Hnode (Hfpd & Hfpa & Htpd & Htpu & [fpu Hfpu] & Hflag) Hin.
  destruct Hranked as (Hchildren & Hparent & Hbound).
  assert (Hrank : rank id ≤ top) by (apply Hbound; by rewrite Hnode).
  eexists. split.
  { erewrite run_bind_ok; [|by apply run_the_dict].
    erewrite run_bind_ok; [|by apply run_the_dict].
    erewrite run_bind_ok; [|by apply run_the_dict].
    erewrite run_bind_ok; [|apply run_time].
    erewrite run_bind_ok; [|reflexivity].
    erewrite run_bind_ok; [|reflexivity].
    erewrite run_bind_ok; [|apply run_if_modify].
    unfold set_remove. erewrite run_bind_ok; [|reflexivity].
    rewrite decide_True; [reflexivity|].
    destruct (decide (get_str "first_parent" fam_node ≠ "")); simpl;
      set_solver. }
  set (fpu' := setdefault_then id ∅ _ fpu).
  assert (Hdom : dom fpu ⊆ dom fpu' ∧ id ∈ dom fpu').
  { unfold fpu', setdefault_then. rewrite dom_insert. set_solver. }
  destruct Hdom as [Hdom Hid].
  assert (Hgrow : ∀ fpu0 (U : gset string),
    updated s !! FAMILY_PROXIES = Some (Dict fpu0) →
    ∃ fpu1, <[FAMILY_PROXIES := Dict fpu']> (updated s) !! FAMILY_PROXIES
            = Some (Dict fpu1)
            ∧ dom fpu0 ⊆ dom fpu1 ∧ (U ∪ {[id]}) ∖ U ⊆ dom fpu1).
  { intros fpu0 U H0. rewrite Hfpu in H0. injection H0 as <-.
    exists fpu'. rewrite lookup_insert_eq. split; [done|]. split; [done|].
    set_solver. }
  destruct (decide (get_str "first_parent" fam_node ≠ "")) as [Hp|Hp].
  - destruct (Hparent id fam_node Hnode Hp) as [Hpnode Hprank].
    assert (Hptop : rank (get_str "first_parent" fam_node) ≤ top)
      by (by apply Hbound).
    pose proof (due_climb rank top _ _ _ Hin Hprank Hptop) as Hdue.
    split.
    { unfold settled. simpl. rewrite lookup_insert_ne by done.
      rewrite lookup_insert_eq. do 4 (split; [done|]). split; [by eexists|].
      intros f Hf. apply elem_of_difference in Hf as [Hf _].
      apply elem_of_union in Hf as [Hf|Hf]; [by apply Hflag|].
      apply elem_of_singleton in Hf. by subst f. }
    split.
    { unfold climbs. simpl. split; [done|]. split; [done|].
      split; [set_solver|]. split.
      { intros f Hf. destruct (decide (f = id)); set_solver. }
      split; [lia|]. intros fpu0 H0. exact (Hgrow fpu0 _ H0). }
    split; [simpl; set_solver|]. simpl. exact Hdue.
  - pose proof (due_settle rank top _ _ Hin Hrank) as Hdue.
    split.
    { unfold settled. simpl. rewrite lookup_insert_ne by done.
      rewrite lookup_insert_eq. do 4 (split; [done|]). split; [by eexists|].
      intros f Hf. apply elem_of_difference in Hf as [Hf _]. by apply Hflag. }
    split.
    { unfold climbs. simpl. split; [done|]. split; [done|].
      split; [set_solver|]. split.
      { intros f Hf. destruct (decide (f = id)); set_solver. }
      split; [lia|]. intros fpu0 H0. exact (Hgrow fpu0 _ H0). }
    split; [simpl; set_solver|]. simpl. exact Hdue.
Qed.

(** [_family_ascent_point_update] on a family proxy, with fuel above its
    rank: it ends without an exception; the families above it stay flagged,
    and if it was flagged itself, less is due afterwards. *)
Lemma ascent_climbs (fuel : nat) :
  ∀ id s, rank id < fuel → is_Some (node_of id) → settled s →
  ∃ s',
    _family_ascent_point_update ext fuel id s = (inr tt, s')
    ∧ settled s' ∧ climbs s s'
    ∧ (∀ f, f ∈ state_update_families s → rank id < rank f →
            f ∈ state_update_families s')
    ∧ (id ∈ state_update_families s →
       due rank top (state_update_families s')
       < due rank top (state_update_families s)).
Proof.
  induction fuel as [|fuel IH]; intros id s Hfuel [fam_node Hnode] Hs; [lia|].
  assert (Hloop : ∀ (l : list string) (s0 : Mgr),
    (∀ c, c ∈ l → is_Some (node_of c) ∧ rank c < rank id) → settled s0 →
    ∃ s1, for_ l (_family_ascent_point_update ext fuel) s0 = (inr tt, s1)
      ∧ settled s1 ∧ climbs s0 s1
      ∧ (∀ f, f ∈ state_update_families s0 → rank id ≤ rank f →
              f ∈ state_update_families s1)).
  { induction l as [|c l IHl]; intros s0 Hl Hs0.
    - exists s0. split; [done|]. split; [done|]. split; [apply climbs_refl|].
      done.
    - destruct (Hl c) as [Hc Hrc]; [left|].
      destruct (IH c s0) as (s1 & Hrun1 & Hs1 & Hc1 & Hkeep1 & _);
        [lia|done|done|].
      destruct (IHl s1) as (s2 & Hrun2 & Hs2 & Hc2 & Hkeep2);
        [intros; apply Hl; by right|done|].
      exists s2. split.
      { rewrite for_cons. unfold bind. by rewrite Hrun1. }
      split; [done|]. split; [by eapply climbs_trans|].
      intros f Hf Hr. apply Hkeep2; [|done]. apply Hkeep1; [done|lia]. }
  destruct Hranked as (Hchildren & Hparent & Hbound).
  destruct (Hloop (filter (λ n_id, n_id ∉ updated_state_families s)
                     (get_rep "child_families" fam_node)) s)
    as (s1 & Hrun1 & Hs1 & Hc1 & Hkeep1).
  { intros c [_ Hc]%list_elem_of_filter. by apply (Hchildren id fam_node). }
  { done. }
  assert (Hstart : ∀ k : M Mgr unit,
    _family_ascent_point_update ext (S fuel) id s
    = (s1 ← get;
       if decide (id ∈ state_update_families s1) then
         fp_updated ← the_dict (updated s1) FAMILY_PROXIES;
         tp_data ← the_dict (data s1) TASK_PROXIES;
         tp_updated ← the_dict (updated s1) TASK_PROXIES;
         now ← time ext;
         let fp_delta :=
           family_delta ext id now fp_updated fp_data tp_updated tp_data
             fam_node in
         modify (set_updated (<[FAMILY_PROXIES :=
           Dict (setdefault_then id ∅ (λ m, MergeFrom m fp_delta)
                   fp_updated)]>));;
         modify (set_updated_state_families (λ f, f ∪ {[id]}));;
         (if decide (get_str "first_parent" fam_node ≠ "")
          then modify (set_state_update_families
                         (λ f, f ∪ {[get_str "first_parent" fam_node]}))
          else mret tt);;
         set_remove id
       else mret tt) s1).
  { intros _. destruct Hs as (Hfpd & Hfpa & _).
    cbn [_family_ascent_point_update].
    erewrite run_bind_ok; [|reflexivity].
    erewrite run_bind_ok; [|by apply run_the_dict].
    erewrite run_bind_ok; [|by apply run_the_dict].
    erewrite run_bind_ok; [|by apply run_fam_node].
    erewrite run_bind_ok; [|exact Hrun1]. reflexivity. }
  rewrite (Hstart (mret tt)). clear Hstart.
  erewrite run_bind_ok; [|reflexivity].
  destruct (decide (id ∈ state_update_families s1)) as [Hin1|Hnot1].
  - destruct (run_roll_up id fam_node s1 Hnode Hs1 Hin1)
      as (s2 & Hrun2 & Hs2 & Hc2 & Hkeep2 & Hdue2).
    exists s2. split; [exact Hrun2|]. split; [done|].
    split; [by eapply climbs_trans|]. split.
    + intros f Hf Hr. apply Hkeep2; [|intros ->; lia].
      apply Hkeep1; [done|lia].
    + intros _. destruct Hc1 as (_ & _ & _ & _ & Hdue1 & _). lia.
  - exists s1. split; [done|]. split; [done|]. split; [done|]. split.
    + intros f Hf Hr. apply Hkeep1; [done|lia].
    + intros Hin. destruct Hnot1. by apply Hkeep1.
Qed.

End Ascent.


Section Rounds.

Local Open Scope nat_scope.

Variable ext : Collaborators.
Variable pick : nat → gset string → option string.
Variable rank : string → nat.
Variable top : nat.
Variables fp_data fp_added tp_data tp_updated : gmap string Msg.

Hypothesis Hranked : ranked rank top fp_data fp_added.

(** Whatever the order of iteration, the loop meets a member of the set. *)
Hypothesis Hpick : ∀ n (families : gset string),
  families ≠ ∅ → ∃ f, pick n families = Some f ∧ f ∈ families.

Lemma rounds_settle (fuel rounds : nat) :
  top < fuel →
  ∀ s, settled fp_data fp_added tp_data tp_updated s →
       due rank top (state_update_families s) ≤ rounds →
  ∃ s',
    family_update_rounds ext pick rounds fuel s = Some (inr tt, s')
    ∧ settled fp_data fp_added tp_data tp_updated s'
    ∧ climbs rank top s s'
    ∧ state_update_families s' = ∅.
Proof.
  intros Hfuel. induction rounds as [|rounds IH]; intros s Hs Hdue.
  - destruct (decide (state_update_families s = ∅)) as [He|Hne].
    + exists s. cbn. rewrite decide_True by done.
      split; [done|]. split; [done|]. split; [apply climbs_refl|done].
    + apply set_choose_L in Hne as [f Hf].
      assert (0 < due rank top (state_update_families s)); [|lia].
      apply due_member with f; [done|].
      apply Hranked, Hs, Hf.
  - cbn [family_update_rounds].
    destruct (decide (state_update_families s = ∅)) as [He|Hne].
    + exists s. split; [done|]. split; [done|]. split; [apply climbs_refl|done].
    + destruct (Hpick rounds _ Hne) as (f & -> & Hf).
      assert (Hnode : is_Some (node_of fp_data fp_added f)) by apply Hs, Hf.
      assert (Hrank : rank f ≤ top) by (by apply Hranked).
      destruct (ascent_climbs ext rank top fp_data fp_added tp_data tp_updated
                  Hranked fuel f s) as (s1 & -> & Hs1 & Hc1 & _ & Hless);
        [lia|done|done|].
      specialize (Hless Hf).
      destruct (IH s1 Hs1) as (s2 & Hrun2 & Hs2 & Hc2 & Hempty); [lia|].
      exists s2. split; [exact Hrun2|]. split; [done|].
      split; [by eapply climbs_trans|done].
Qed.

End Rounds.

(** [update_family_proxies] on family proxies that form a forest: [rank]
    is smaller for a child family than for its family and smaller for a
    family than for its first parent, and at most [top].  With fuel above
    [top], and whatever the order in which the flagged families are met,
    the loop ends within [size * (top + 1)] rounds without an exception:
    no family is flagged any more, the store and [added] are as they were,
    and every family that was flagged is among the updated ones, each of
    which has an entry in [updated[family_proxies]]. *)
Theorem update_family_proxies_settles
    (ext : Collaborators) (pick : nat → gset string → option string)
    (rank : string → nat) (top fuel rounds : nat)
    (fp_data fp_added tp_data tp_updated fp_updated : gmap string Msg)
    (s : Mgr) :
  ranked rank top fp_data fp_added →
  (∀ n (families : gset string),
     families ≠ ∅ → ∃ f, pick n families = Some f ∧ f ∈ families) →
  settled fp_data fp_added tp_data tp_updated s →
  updated s !! FAMILY_PROXIES = Some (Dict fp_updated) →
  (top < fuel)%nat →
  (size (state_update_families s) * S top ≤ rounds)%nat →
  ∃ (s' : Mgr) (fp_updated' : gmap string Msg),
    update_family_proxies ext pick rounds fuel s = Some (inr tt, s')
    ∧ state_update_families s' = ∅
    ∧ data s' = data s ∧ added s' = added s
    ∧ state_update_families s ⊆ updated_state_families s'
    ∧ updated s' !! FAMILY_PROXIES = Some (Dict fp_updated')
    ∧ dom fp_updated ⊆ dom fp_updated'
    ∧ updated_state_families s' ⊆ dom fp_updated'.
Proof.
  intros Hranked Hpick Hs Hfpu Hfuel Hrounds.
  pose proof (due_bound rank top (state_update_families s)) as Hbound.
  destruct (rounds_settle ext pick rank top fp_data fp_added tp_data tp_updated
              Hranked Hpick fuel rounds Hfuel
              (set_updated_state_families (λ _, ∅) s))
    as (s' & Hrun & Hs' & Hc & Hempty); [exact Hs|simpl; lia|].
  destruct Hc as (Hdata & Hadded & _ & Hflag & _ & Hgrow).
  destruct (Hgrow fp_updated Hfpu) as (fpu' & Hfpu' & Hdom & Hnew).
  exists s', fpu'. split; [exact Hrun|]. split; [done|]. split; [done|].
  split; [done|]. split.
  { intros f Hf. destruct (Hflag f Hf) as [H|H]; [|done].
    rewrite Hempty in H. by apply not_elem_of_empty in H. }
  split; [done|]. split; [done|].
  intros f Hf. apply Hnew. simpl. set_solver.
Qed.


Lemma pick_first (n : nat) (families : gset string) :
  families ≠ ∅ → ∃ f, head (elements families) = Some f ∧ f ∈ families.
Proof.
  intros Hne. destruct (elements families) as [|f l] eqn:He.
  - by apply elements_empty_iff, leibniz_equiv in He.
  - exists f. split; [done|]. apply elem_of_elements. rewrite He. left.
Qed.

(** A family [F] under the root family, at cycle point 1. *)
Definition sample_family_root : Msg :=
  list_to_map
    [ ("id", FStr "u|w|1|root"); ("name", FStr "root");
      ("child_tasks", FRep ["u|w|1|a"; "u|w|1|b"]);
      ("child_families", FRep ["u|w|1|F"]) ].

Definition sample_family_F : Msg :=
  list_to_map
    [ ("id", FStr "u|w|1|F"); ("name", FStr "F");
      ("first_parent", FStr "u|w|1|root");
      ("state_totals", FMap {["succeeded" := 1]}) ].

Definition sample_families : gmap string Msg :=
  <["u|w|1|root" := sample_family_root]> (<["u|w|1|F" := sample_family_F]> ∅).

Definition sample_rank (id : string) : nat :=
  if decide (id = "u|w|1|root") then 1%nat else 0%nat.

(** The sample of the rollup, with the family [F] flagged. *)
Definition sample_flagged_family : Mgr :=
  set_state_update_families (λ _, {["u|w|1|F"]}) sample_rollup.

Lemma sample_families_ranked : ranked sample_rank 1 sample_families ∅.
Proof.
  assert (Hcases : ∀ id n, node_of sample_families ∅ id = Some n →
            (id = "u|w|1|root" ∧ n = sample_family_root)
            ∨ (id = "u|w|1|F" ∧ n = sample_family_F)).
  { intros id n. unfold node_of, sample_families.
    destruct (decide (id = "u|w|1|root")) as [->|H1].
    - rewrite lookup_insert_eq. intros [= <-]. by left.
    - rewrite lookup_insert_ne by done.
      destruct (decide (id = "u|w|1|F")) as [->|H2].
      + rewrite lookup_insert_eq. intros [= <-]. by right.
      + rewrite lookup_insert_ne by done. by rewrite !lookup_empty. }
  split; [|split].
  - intros id n c Hn Hc. destruct (Hcases id n Hn) as [[-> ->]|[-> ->]].
    + change (get_rep "child_families" sample_family_root)
        with ["u|w|1|F"] in Hc.
      apply list_elem_of_singleton in Hc as ->. split; [by eexists|].
      vm_compute. lia.
    + change (get_rep "child_families" sample_family_F) with (@nil string) in Hc.
      by apply elem_of_nil in Hc.
  - intros id n Hn Hp. destruct (Hcases id n Hn) as [[-> ->]|[-> ->]].
    + by destruct Hp.
    + split; [by eexists|]. vm_compute. lia.
  - intros id [n Hn]. destruct (Hcases id n Hn) as [[-> ->]|[-> ->]];
      vm_compute; lia.
Qed.

Lemma update_family_proxies_settles_witness :
  let s := sample_flagged_family in
  ranked sample_rank 1 sample_families ∅
  ∧ (∀ (n : nat) (families : gset string),
       families ≠ ∅ →
       ∃ f, head (elements families) = Some f ∧ f ∈ families)
  ∧ settled sample_families ∅ (sample_dict (data s) TASK_PROXIES)
      (sample_dict (updated s) TASK_PROXIES) s
  ∧ updated s !! FAMILY_PROXIES
    = Some (Dict (sample_dict (updated s) FAMILY_PROXIES))
  ∧ (1 < 2)%nat
  ∧ (size (state_update_families s) * 2 ≤ 2)%nat
  ∧ ∃ s',
      update_family_proxies (sample_ext false) (λ _ families, head (elements families))
        2 2 s = Some (inr tt, s')
      ∧ state_update_families s' = ∅
      ∧ state_update_families s ⊆ updated_state_families s'.
Proof.
  intros s.
  assert (H3 : settled sample_families ∅ (sample_dict (data s) TASK_PROXIES)
                 (sample_dict (updated s) TASK_PROXIES) s).
  { split; [vm_compute; reflexivity|]. split; [vm_compute; reflexivity|].
    split; [vm_compute; reflexivity|]. split; [vm_compute; reflexivity|].
    split; [exists (sample_dict (updated s) FAMILY_PROXIES);
            vm_compute; reflexivity|].
    intros f Hf. change (state_update_families s) with ({["u|w|1|F"]} : gset string) in Hf.
    apply elem_of_singleton in Hf as ->. by eexists. }
  assert (H4 : updated s !! FAMILY_PROXIES
               = Some (Dict (sample_dict (updated s) FAMILY_PROXIES)))
    by (vm_compute; reflexivity).
  assert (H5 : (1 < 2)%nat) by lia.
  assert (H6 : (size (state_update_families s) * 2 ≤ 2)%nat).
  { change (state_update_families s) with ({["u|w|1|F"]} : gset string).
    rewrite size_singleton. lia. }
  split; [exact sample_families_ranked|]. split; [exact pick_first|].
  split; [exact H3|]. split; [exact H4|]. split; [exact H5|].
  split; [exact H6|].
  destruct (update_family_proxies_settles (sample_ext false)
              (λ _ families, head (elements families)) sample_rank 1 2 2
              sample_families ∅ _ _ _ s sample_families_ranked pick_first
              H3 H4 H5 H6)
    as (s' & fpu' & Hrun & Hempty & _ & _ & Hdone & _).
  exists s'. split; [exact Hrun|]. split; [exact Hempty|exact Hdone].
Defined.


(** ** Ids: built with the delimiter, taken apart by [split] *)

(** [c in s] for a character. *)
Fixpoint has_char (c : Ascii.ascii) (s : string) : bool :=
  match s with
  | String.EmptyString => false
  | String.String c' rest => bool_decide (c' = c) || has_char c rest
  end.

Lemma append_cons (x : Ascii.ascii) (a b : string) :
  String.String x a +:+ b = String.String x (a +:+ b).
Proof. reflexivity. Qed.

Lemma append_assoc (a b c : string) : (a +:+ b) +:+ c = a +:+ (b +:+ c).
Proof.
  induction a as [|x a IH]; [done|]. rewrite !append_cons. by f_equal.
Qed.

Lemma append_empty_r (a : string) : a +:+ "" = a.
Proof. induction a as [|x a IH]; [done|]. rewrite append_cons. by f_equal. Qed.

Section SplitChar.

Variable c : Ascii.ascii.

Let sep : string := String.String c "".

(** Up to the next delimiter the characters are gathered. *)
Lemma split_go_gather (a cur tail : string) :
  has_char c a = false →
  split_go sep 0 cur (a +:+ tail) = split_go sep 0 (cur +:+ a) tail.
Proof.
  revert cur. induction a as [|x a IH]; intros cur Ha.
  - change ("" +:+ tail) with tail. by rewrite append_empty_r.
  - cbn [has_char] in Ha. apply orb_false_iff in Ha as [Hx Ha].
    apply bool_decide_eq_false in Hx.
    rewrite append_cons. cbn [split_go]. unfold sep at 1. cbn [String.prefix].
    destruct (Ascii.ascii_dec c x) as [->|_]; [done|].
    rewrite IH by done. by rewrite append_assoc.
Qed.

Lemma split_go_end (cur a : string) :
  has_char c a = false → split_go sep 0 cur a = [cur +:+ a].
Proof.
  intros Ha. rewrite <- (append_empty_r a) at 1.
  by rewrite split_go_gather.
Qed.

Lemma split_go_delim (cur a tail : string) :
  has_char c a = false →
  split_go sep 0 cur (a +:+ sep +:+ tail)
  = (cur +:+ a) :: split_go sep 0 "" tail.
Proof.
  intros Ha. rewrite split_go_gather by done. unfold sep.
  rewrite append_cons. change ("" +:+ tail) with tail.
  cbn [split_go String.prefix String.length Nat.sub].
  destruct (Ascii.ascii_dec c c) as [_|Hne]; [|done].
  by destruct tail.
Qed.

End SplitChar.


(** The occurrences of a character in a string. *)
Fixpoint count_char (c : Ascii.ascii) (s : string) : nat :=
  match s with
  | String.EmptyString => O
  | String.String c' rest =>
      (if bool_decide (c' = c) then 1 else 0) + count_char c rest
  end%nat.

Lemma count_char_append c (a b : string) :
  count_char c (a +:+ b) = (count_char c a + count_char c b)%nat.
Proof.
  induction a as [|x a IH]; [done|]. rewrite append_cons. cbn [count_char].
  rewrite IH. lia.
Qed.

Lemma has_char_count c (s : string) :
  has_char c s = false ↔ count_char c s = O.
Proof.
  induction s as [|x s IH]; [done|]. cbn [has_char count_char].
  rewrite orb_false_iff, IH. destruct (bool_decide (x = c)); split;
    [intros [? ?]; done|done|intros [_ ->]; done|intros H; split; [done|lia]].
Qed.

(** With a delimiter of one character, [split] cuts at every occurrence. *)
Lemma split_go_length c (cur s : string) :
  length (split_go (String.String c "") 0 cur s) = S (count_char c s).
Proof.
  revert cur. induction s as [|x s IH]; intros cur; [done|].
  cbn [split_go String.prefix String.length Nat.sub count_char].
  assert (Hp : String.prefix "" s = true) by (by destruct s).
  destruct (Ascii.ascii_dec c x) as [->|Hne].
  - rewrite Hp, bool_decide_eq_true_2 by done. cbn [length]. by rewrite IH.
  - rewrite bool_decide_eq_false_2 by done. by rewrite IH.
Qed.

(** The id of a family proxy, as [generate_ghost_task] and
    [generate_ghost_family] write it, and [split] as [generate_ghost_family]
    reads it.  With a delimiter of one character, the id is cut into as
    many parts as it has delimiters, plus one; when neither the owner, the
    suite, the point nor the name holds the delimiter, these parts are the
    four that were put together. *)
Theorem family_proxy_id_split
    (ext : Collaborators) (c : Ascii.ascii) (owner suite point name : string) :
  ID_DELIM ext = String.String c "" →
  let fp_id := delim ext (delim ext (delim ext owner suite) point) name in
  (∃ parts,
     split (ID_DELIM ext) fp_id = Some parts
     ∧ length parts
       = (4 + count_char c owner + count_char c suite + count_char c point
          + count_char c name)%nat)
  ∧ (has_char c owner = false → has_char c suite = false →
     has_char c point = false → has_char c name = false →
     split (ID_DELIM ext) fp_id = Some [owner; suite; point; name]).
Proof.
  intros Hd fp_id.
  assert (Hid : fp_id
    = owner +:+ String.String c "" +:+ suite +:+ String.String c ""
      +:+ point +:+ String.String c "" +:+ name).
  { unfold fp_id, delim. rewrite Hd. by rewrite !append_assoc. }
  unfold split. rewrite Hd. rewrite decide_False by done. split.
  - eexists. split; [done|]. rewrite split_go_length, Hid.
    rewrite !count_char_append. cbn [count_char].
    rewrite bool_decide_eq_true_2 by done. lia.
  - intros Ho Hs Hp Hn. rewrite Hid.
    rewrite !split_go_delim by done. by rewrite split_go_end.
Qed.

Lemma family_proxy_id_split_witness :
  let bar := Ascii.ascii_of_nat 124 in
  ID_DELIM (sample_ext false) = String.String bar ""
  ∧ has_char bar "u" = false ∧ has_char bar "w" = false
  ∧ has_char bar "1" = false ∧ has_char bar "root" = false
  ∧ split (ID_DELIM (sample_ext false)) "u|w|1|root"
    = Some ["u"; "w"; "1"; "root"].
Proof.
  intros bar. split; [reflexivity|]. do 4 (split; [reflexivity|]).
  exact (proj2 (family_proxy_id_split (sample_ext false) bar "u" "w" "1" "root"
                  eq_refl) eq_refl eq_refl eq_refl eq_refl).
Defined.


(** [generate_ghost_family] is asked for a family proxy that is neither
    stored nor added.  When its id does not split into four parts at the
    delimiter, the call raises [ValueError]; when it does and the family of
    the name in the fourth part has no definition (in the stored families,
    or in the added ones when none is stored), it raises [KeyError] with the
    id of that family.  In both cases the clock has been read, and the
    store, the buffers and the deltas are as they were. *)
Theorem generate_ghost_family_unknown
    (ext : Collaborators) (fuel : nat) (fp_id : string)
    (child_fam child_task : option string) (s : Mgr)
    (families f_added fp_data fp_added fp_updated : gmap string Msg) :
  data s !! FAMILIES = Some (Dict families) →
  added s !! FAMILIES = Some (Dict f_added) →
  data s !! FAMILY_PROXIES = Some (Dict fp_data) →
  added s !! FAMILY_PROXIES = Some (Dict fp_added) →
  updated s !! FAMILY_PROXIES = Some (Dict fp_updated) →
  fp_data !! fp_id = None → fp_added !! fp_id = None →
  (∀ owner suite point name,
     split (ID_DELIM ext) fp_id = Some [owner; suite; point; name] →
     (if decide (families = ∅) then f_added else families)
       !! delim ext (workflow_id s) name = None) →
  generate_ghost_family ext (S fuel) fp_id child_fam child_task s
  = (inl (match split (ID_DELIM ext) fp_id with
          | Some [_; _; _; name] => KeyError (delim ext (workflow_id s) name)
          | _ => ValueError
          end), tick s).
Proof.
  intros Hf Hfa Hfpd Hfpa Hfpu Hnew Hnewa Hfam.
  cbn [generate_ghost_family].
  run_step (apply run_time).
  run_step reflexivity.
  run_step (by apply run_the_dict).
  run_step (by apply run_families_choice).
  run_step (by apply run_the_dict).
  run_step (by apply run_the_dict).
  run_step (by apply run_the_dict).
  rewrite decide_False by (rewrite Hnew; by intros [? ?]).
  rewrite decide_False by (rewrite Hnewa; by intros [? ?]).
  destruct (split (ID_DELIM ext) fp_id) as [[|o [|u [|p [|n [|x l]]]]]|] eqn:Hs;
    try reflexivity.
  apply run_bind_raise. apply run_bind_raise.
  apply run_subscript_None. by eapply Hfam.
Qed.

Lemma generate_ghost_family_unknown_witness :
  generate_ghost_family (sample_ext false) 8 "u|w|1|other" None (Some "u|w|1|a")
    sample_start
  = (inl (KeyError "u|w|other"), tick sample_start).
Proof.
  refine (generate_ghost_family_unknown (sample_ext false) 7 "u|w|1|other" None
            (Some "u|w|1|a") sample_start ∅ {["u|w|root" := sample_root]}
            ∅ ∅ ∅ _ _ _ _ _ _ _ _); try (vm_compute; reflexivity).
  intros owner suite point name H.
  assert (Hn : name = "other") by (vm_compute in H; congruence).
  subst name. vm_compute. reflexivity.
Defined.


(** Adding and pruning undo each other in a kind other than the workflow,
    task proxies, family proxies and edges (jobs, tasks, families): when a
    delta that only adds entities whose ids are not stored is applied, and
    then a delta that only prunes the ids of these entities, neither raises
    and the store is the one before the two. *)
Theorem apply_delta_added_then_pruned
    (key : string) (adding pruning : Deltas) (l : list Msg)
    (d : gmap string Msg) (env : Env) :
  key ∉ [WORKFLOW; TASK_PROXIES; FAMILY_PROXIES; EDGES] →
  env_data env !! key = Some (Dict d) →
  d_added adding = Rep l → d_updated adding = Rep [] → d_pruned adding = [] →
  d_added pruning = Rep [] → d_updated pruning = Rep [] →
  d_pruned pruning = get_str "id" <$> l →
  (∀ e, e ∈ l → d !! get_str "id" e = None) →
  (apply_delta key adding;; apply_delta key pruning) env = (inr tt, env).
Proof.
  intros Hkey Hd Ha1 Hu1 Hp1 Ha2 Hu2 Hp2 Hfresh.
  destruct env as [data log]. cbn [env_data env_log] in *.
  assert (Hw : key ≠ WORKFLOW) by (intros ->; apply Hkey; set_solver).
  assert (Hplain : key ∉ [TASK_PROXIES; FAMILY_PROXIES; EDGES]).
  { intros Hin. apply Hkey. by right. }
  erewrite run_bind_ok.
  2:{ unfold apply_delta.
      erewrite run_bind_ok; [|by apply (run_apply_added key adding l data log d)].
      unfold apply_updated, apply_pruned. rewrite Hu1, Hp1. reflexivity. }
  unfold apply_delta, apply_added, apply_updated, apply_pruned.
  rewrite Ha2, Hu2, Hp2. cbn [payload_truthy bool_decide negb].
  erewrite run_bind_ok; [|reflexivity].
  erewrite run_bind_ok; [|reflexivity].
  erewrite run_apply_pruned_plain; [|done|apply lookup_insert_eq].
  rewrite insert_insert_eq. f_equal. f_equal.
  rewrite <- (insert_id data key (Dict d)) at 2 by done. f_equal. f_equal.
  apply map_eq. intros id. rewrite lookup_foldl_delete.
  destruct (decide (id ∈ get_str "id" <$> l)) as [Hin|Hnot].
  - apply list_elem_of_fmap in Hin as (e & -> & He). symmetry. by apply Hfresh.
  - rewrite dict_update_by_id_lookup.
    rewrite (filter_none (λ e, get_str "id" e = id)); [done|].
    intros e He <-. apply Hnot. apply list_elem_of_fmap. by exists e.
Qed.

Lemma apply_delta_added_then_pruned_witness :
  (apply_delta TASKS (mkDeltas 0 0 (Rep [sample_task]) (Rep []) [] false);;
   apply_delta TASKS (mkDeltas 0 0 (Rep []) (Rep []) ["u|w|a"] false))
    sample_mirror
  = (inr tt, sample_mirror).
Proof.
  assert (H1 : TASKS ∉ [WORKFLOW; TASK_PROXIES; FAMILY_PROXIES; EDGES]).
  { intros Hin. repeat (apply elem_of_cons in Hin as [[=]|Hin]).
    by apply elem_of_nil in Hin. }
  assert (H2 : env_data sample_mirror !! TASKS = Some (Dict ∅))
    by (vm_compute; reflexivity).
  assert (H3 : ∀ e, e ∈ [sample_task]
                 → (∅ : gmap string Msg) !! get_str "id" e = None)
    by (intros e _; apply lookup_empty).
  exact (apply_delta_added_then_pruned TASKS
           (mkDeltas 0 0 (Rep [sample_task]) (Rep []) [] false)
           (mkDeltas 0 0 (Rep []) (Rep []) ["u|w|a"] false)
           [sample_task] ∅ sample_mirror H1 H2 eq_refl eq_refl eq_refl eq_refl
           eq_refl eq_refl H3).
Defined.


(** The checksum of a list of stamps does not depend on their order: two
    lists with the same strings, each as often in the one as in the other,
    have the same checksum; it is a 32-bit unsigned number. *)
Theorem generate_checksum_order_free (l1 l2 : list string) :
  l1 ≡ₚ l2 →
  generate_checksum l1 = generate_checksum l2
  ∧ 0 ≤ generate_checksum l1 < 2 ^ 32.
Proof.
  intros Hp. split; [by apply generate_checksum_perm|].
  apply generate_checksum_range.
Qed.

Lemma generate_checksum_order_free_witness :
  generate_checksum ["b|2"; "a|1"; "c"] = generate_checksum ["c"; "b|2"; "a|1"]
  ∧ 0 ≤ generate_checksum ["b|2"; "a|1"; "c"] < 2 ^ 32.
Proof.
  exact (generate_checksum_order_free ["b|2"; "a|1"; "c"] ["c"; "b|2"; "a|1"]
           (Permutation_app_comm ["b|2"; "a|1"] ["c"])).
Defined.


(** ** [apply_delta]: the updated elements of a collection kind *)

Lemma for_app {St A} (l1 l2 : list A) (body : A → M St unit) (s : St) :
  for_ (l1 ++ l2) body s = (for_ l1 body;; for_ l2 body) s.
Proof.
  revert s. induction l1 as [|x l1 IH]; intros s.
  - reflexivity.
  - cbn [app]. rewrite !for_cons. unfold mbind, M_bind, bind in *.
    destruct (body x s) as [[e|u] s1]; [done|]. apply IH.
Qed.

(** For a collection kind the updated pass is the loop over the elements. *)
Lemma run_apply_updated_list key delta (l : list Msg) env :
  key ≠ WORKFLOW → d_updated delta = Rep l →
  apply_updated key delta env = for_ l (apply_updated_element key) env.
Proof.
  intros Hk Hd. unfold apply_updated. rewrite Hd. cbn [payload_truthy].
  destruct l as [|e l]; [reflexivity|].
  rewrite bool_decide_eq_false_2 by done. cbn [negb].
  by rewrite decide_False.
Qed.

Lemma run_apply_updated_element_present key (cset : gset string) element
    data log d stored :
  CLEAR_FIELD_MAP !! key = Some cset →
  data !! key = Some (Dict d) →
  d !! get_str "id" element = Some stored →
  apply_updated_element key element (mkEnv data log)
  = (inr tt,
     mkEnv (<[key := Dict (<[get_str "id" element :=
                MergeFrom (cleared cset (ListFields element) stored) element]> d)]>
              data) log).
Proof.
  intros Hc Hk Hi. unfold apply_updated_element, try_except_KeyError.
  by rewrite (run_merge_updated_element _ cset _ _ _ d stored).
Qed.

(** The added pass and the updated elements before a given one: they end
    without an exception, in a store that differs in the dict of the kind
    only; that dict has the ids of the stored and the added entities. *)
Lemma run_before_element key (cset : gset string) delta (added pre : list Msg)
    data log d :
  key ≠ WORKFLOW →
  CLEAR_FIELD_MAP !! key = Some cset →
  d_added delta = Rep added →
  data !! key = Some (Dict d) →
  ∃ before more,
    (apply_added key delta;; for_ pre (apply_updated_element key))
      (mkEnv data log)
    = (inr tt, mkEnv (<[key := Dict before]> data) (log ++ more))
    ∧ dom before = dom (dict_update_by_id d added)
    ∧ (∀ id, id ∉ get_str "id" <$> pre →
             before !! id = dict_update_by_id d added !! id).
Proof.
  intros Hk Hc Ha Hd.
  destruct (run_updated_batch key cset pre
              (<[key := Dict (dict_update_by_id d added)]> data) log
              (dict_update_by_id d added) Hc (lookup_insert_eq _ _ _))
    as (before & more & Hrun & Hdom & Hother).
  exists before, more. split; [|by split].
  erewrite run_bind_ok; [|by apply (run_apply_added key delta added data log d)].
  by rewrite Hrun, insert_insert_eq.
Qed.

(** C1. [apply_delta] on a delta of a collection kind, seen at an updated
    entity whose id is in the target store (stored, or added by the same
    delta).  The added pass and the updated entities before it end without
    an exception, and the stored entity is there.  The fields that are in
    the clear-before-merge set of the kind and set in the delta entity are
    cleared in the stored entity, then the delta entity is merged into it;
    [apply_delta] goes on from there with the remaining updated entities and
    the pruned ids.  Field by field: a field not set in the delta keeps its
    stored value; a field of the clear set that the delta sets takes the
    delta's value; otherwise a repeated field is the stored list followed
    by the delta's, and a singular field takes the delta's value.  With an
    empty clear set the stored entity is merged as it is.  The clear sets
    are those of [CLEAR_FIELD_MAP]. *)
Theorem apply_delta_updated_present
    (key : string) (cset : gset string) (delta : Deltas)
    (added pre post : list Msg) (element : Msg) (d : gmap string Msg)
    (env : Env) :
  key ≠ WORKFLOW →
  CLEAR_FIELD_MAP !! key = Some cset →
  d_added delta = Rep added →
  d_updated delta = Rep (pre ++ element :: post) →
  env_data env !! key = Some (Dict d) →
  is_Some (dict_update_by_id d added !! get_str "id" element) →
  ∃ (before : gmap string Msg) (stored : Msg) (log : list log_record),
    let after_clear := cleared cset (ListFields element) stored in
    let merged := MergeFrom after_clear element in
    (apply_added key delta;; for_ pre (apply_updated_element key)) env
    = (inr tt, mkEnv (<[key := Dict before]> (env_data env)) log)
    ∧ before !! get_str "id" element = Some stored
    ∧ (get_str "id" element ∉ get_str "id" <$> pre →
       dict_update_by_id d added !! get_str "id" element = Some stored)
    ∧ apply_delta key delta env
      = (for_ post (apply_updated_element key);; apply_pruned key delta)
          (mkEnv (<[key := Dict (<[get_str "id" element := merged]> before)]>
                    (env_data env)) log)
    ∧ cset = (if decide (key = FAMILY_PROXIES) then {["state_totals"; "states"]}
              else if decide (key = TASK_PROXIES)
                   then {["prerequisites"; "outputs"]}
                   else ∅)
    ∧ (∀ f, after_clear !! f
            = if decide (f ∈ cset ∧ is_Some (element !! f)) then None
              else stored !! f)
    ∧ (∀ f, element !! f = None → merged !! f = stored !! f)
    ∧ (∀ f v, f ∈ cset → element !! f = Some v → merged !! f = Some v)
    ∧ (∀ f v, stored !! f = None → element !! f = Some v →
              merged !! f = Some v)
    ∧ (∀ f a b, f ∉ cset → stored !! f = Some (FRep a) →
          element !! f = Some (FRep b) → merged !! f = Some (FRep (a ++ b)))
    ∧ (∀ f w v, f ∉ cset → stored !! f = Some w → element !! f = Some v →
          (∀ b, v ≠ FRep b) → (∀ b, v ≠ FMap b) → merged !! f = Some v)
    ∧ (cset = ∅ → merged = MergeFrom stored element).
Proof.
  intros Hk Hc Ha Hu Hdata Hid. destruct env as [data log0].
  cbn [env_data env_log] in *.
  destruct (run_before_element key cset delta added pre data log0 d Hk Hc Ha
              Hdata) as (before & more & Hrun & Hdom & Hother).
  assert (Hstored : is_Some (before !! get_str "id" element)).
  { apply elem_of_dom. rewrite Hdom. by apply elem_of_dom. }
  destruct Hstored as [stored Hstored].
  exists before, stored, (log0 ++ more). cbv zeta.
  set (after_clear := cleared cset (ListFields element) stored).
  set (merged := MergeFrom after_clear element).
  assert (Hac : ∀ f, after_clear !! f
          = if decide (f ∈ cset ∧ is_Some (element !! f)) then None
            else stored !! f).
  { intros f. unfold after_clear. rewrite cleared_lookup.
    destruct (decide (f ∈ cset ∧ f ∈ (ListFields element).*1)) as [[H1 H2]|Hn].
    - apply ListFields_names in H2. by rewrite decide_True.
    - rewrite decide_False; [done|]. intros [H1 H2]. apply Hn. split; [done|].
      by apply ListFields_names. }
  split; [exact Hrun|]. split; [exact Hstored|]. split.
  { intros Hnot. by rewrite <- (Hother _ Hnot). }
  split.
  { unfold apply_delta.
    assert (Hsplit : ∀ s,
      (apply_added key delta;; apply_updated key delta;; apply_pruned key delta) s
      = ((apply_added key delta;; for_ pre (apply_updated_element key));;
         (for_ (element :: post) (apply_updated_element key);;
          apply_pruned key delta)) s).
    { intros s. rewrite run_bind_assoc. rewrite !(run_bind (apply_added key delta)).
      destruct (apply_added key delta s) as [[e|u] s1]; [done|].
      rewrite (run_bind (apply_updated key delta)).
      rewrite (run_apply_updated_list key delta _ s1 Hk Hu), for_app.
      unfold mbind, M_bind, bind.
      by destruct (for_ pre (apply_updated_element key) s1) as [[e|u'] s2]. }
    rewrite Hsplit. erewrite run_bind_ok; [|exact Hrun].
    rewrite for_cons. unfold mbind, M_bind, bind.
    rewrite (run_apply_updated_element_present key cset element _ _ before
               stored Hc (lookup_insert_eq _ _ _) Hstored).
    by rewrite insert_insert_eq. }
  split.
  { destruct (CLEAR_FIELD_MAP_cases _ _ Hc)
      as [[-> ->]|[[-> ->]|[[-> ->]|[[-> ->]|[[-> ->]|[[-> ->]|[-> ->]]]]]]];
      done. }
  split; [exact Hac|]. split.
  { intros f Hf. unfold merged. rewrite MergeFrom_lookup, Hf, Hac.
    rewrite decide_False; [done|]. intros [_ [v Hv]]. congruence. }
  split.
  { intros f v Hin Hf. unfold merged. rewrite MergeFrom_lookup, Hf, Hac.
    by rewrite decide_True by (split; [done|by exists v]). }
  split.
  { intros f v Hs Hf. unfold merged. rewrite MergeFrom_lookup, Hf, Hac, Hs.
    by case_decide. }
  split.
  { intros f a b Hin Hs Hf. unfold merged. rewrite MergeFrom_lookup, Hf, Hac.
    rewrite decide_False by (intros [H _]; done). by rewrite Hs. }
  split.
  { intros f w v Hin Hs Hf Hrep Hmap. unfold merged.
    rewrite MergeFrom_lookup, Hf, Hac.
    rewrite decide_False by (intros [H _]; done). rewrite Hs.
    destruct w, v; simpl; try done.
    - by destruct (Hrep items0).
    - by destruct (Hmap entries0). }
  intros ->. unfold merged. f_equal. apply map_eq. intros f. rewrite Hac.
  rewrite decide_False; [done|]. intros [H _]. by apply not_elem_of_empty in H.
Qed.


Lemma apply_delta_updated_present_witness :
  FAMILY_PROXIES ≠ WORKFLOW
  ∧ CLEAR_FIELD_MAP !! FAMILY_PROXIES = Some {["state_totals"; "states"]}
  ∧ env_data sample_mirror !! FAMILY_PROXIES
    = Some (Dict {["u|w|1|root" := sample_stored_family]})
  ∧ is_Some (dict_update_by_id {["u|w|1|root" := sample_stored_family]} []
               !! get_str "id" sample_family_update)
  ∧ apply_delta FAMILY_PROXIES
      (mkDeltas 0 0 (Rep []) (Rep [sample_family_update]) [] false)
      sample_mirror
    = (inr tt,
       mkEnv (<[FAMILY_PROXIES := Dict {["u|w|1|root" :=
                 list_to_map
                   [ ("id", FStr "u|w|1|root"); ("state", FStr "running");
                     ("states", FRep ["running"]);
                     ("child_tasks", FRep ["u|w|1|a"; "u|w|1|b"]) ]]}]>
                DATA_TEMPLATE) []).
Proof.
  assert (H1 : FAMILY_PROXIES ≠ WORKFLOW) by discriminate.
  assert (H2 : CLEAR_FIELD_MAP !! FAMILY_PROXIES
               = Some ({["state_totals"; "states"]} : gset string))
    by (vm_compute; reflexivity).
  assert (H3 : env_data sample_mirror !! FAMILY_PROXIES
               = Some (Dict {["u|w|1|root" := sample_stored_family]}))
    by (vm_compute; reflexivity).
  assert (H4 : is_Some (dict_update_by_id
                          {["u|w|1|root" := sample_stored_family]} []
                          !! get_str "id" sample_family_update))
    by (exists sample_stored_family; vm_compute; reflexivity).
  split; [exact H1|]. split; [exact H2|]. split; [exact H3|].
  split; [exact H4|].
  destruct (apply_delta_updated_present FAMILY_PROXIES _
              (mkDeltas 0 0 (Rep []) (Rep [sample_family_update]) [] false)
              [] [] [] sample_family_update _ sample_mirror
              H1 H2 eq_refl eq_refl H3 H4)
    as (before & stored & log & Hrun & Hstored & Hsame & Hdelta & _).
  rewrite Hdelta.
  assert (Hs : stored = sample_stored_family).
  { assert (Hl : dict_update_by_id {["u|w|1|root" := sample_stored_family]} []
                   !! get_str "id" sample_family_update = Some stored)
      by (apply Hsame; apply not_elem_of_nil).
    assert (Hl' : dict_update_by_id {["u|w|1|root" := sample_stored_family]} []
                    !! get_str "id" sample_family_update
                  = Some sample_stored_family) by (vm_compute; reflexivity).
    rewrite Hl' in Hl. by injection Hl as <-. }
  assert (Hpre : (apply_added FAMILY_PROXIES
                    (mkDeltas 0 0 (Rep []) (Rep [sample_family_update]) []
                       false);;
                  for_ [] (apply_updated_element FAMILY_PROXIES)) sample_mirror
                 = (inr tt, sample_mirror)) by (vm_compute; reflexivity).
  rewrite Hpre in Hrun.
  assert (Hdata : env_data sample_mirror
                  = <[FAMILY_PROXIES := Dict before]> (env_data sample_mirror))
    by exact (f_equal (λ r, env_data r.2) Hrun).
  assert (Hlog : [] = log) by exact (f_equal (λ r, env_log r.2) Hrun).
  assert (Hb : before = {["u|w|1|root" := sample_stored_family]}).
  { pose proof (lookup_insert_eq (env_data sample_mirror) FAMILY_PROXIES
                  (Dict before)) as Hl.
    rewrite <- Hdata, H3 in Hl. by injection Hl as <-. }
  subst stored before log. vm_compute. reflexivity.
Defined.


(** C3. [apply_delta] on a delta of a collection kind, seen at an updated
    entry whose id is absent from the target store (neither stored nor added
    by the same delta).  The added pass and the entries before it end
    without an exception, and the id is still absent.  The entry is skipped:
    a debug record is logged and the store is left as it was;
    [apply_delta] goes on from there with the remaining updated entries.
    The whole updated pass ends without an exception, with the same ids in
    the target dict, hence still without the missing id, and the pruned ids
    are seen to after it. *)
Theorem apply_delta_updated_missing
    (key : string) (cset : gset string) (delta : Deltas)
    (added pre post : list Msg) (element : Msg) (d : gmap string Msg)
    (env : Env) :
  key ≠ WORKFLOW →
  CLEAR_FIELD_MAP !! key = Some cset →
  d_added delta = Rep added →
  d_updated delta = Rep (pre ++ element :: post) →
  env_data env !! key = Some (Dict d) →
  dict_update_by_id d added !! get_str "id" element = None →
  let record := mkLog "DEBUG" missing_element_text (get_str "id" element) in
  ∃ (before after : gmap string Msg) (log more : list log_record),
    (apply_added key delta;; for_ pre (apply_updated_element key)) env
    = (inr tt, mkEnv (<[key := Dict before]> (env_data env)) log)
    ∧ before !! get_str "id" element = None
    ∧ apply_updated_element key element
        (mkEnv (<[key := Dict before]> (env_data env)) log)
      = (inr tt,
         mkEnv (<[key := Dict before]> (env_data env)) (log ++ [record]))
    ∧ apply_delta key delta env
      = (for_ post (apply_updated_element key);; apply_pruned key delta)
          (mkEnv (<[key := Dict before]> (env_data env)) (log ++ [record]))
    ∧ (apply_added key delta;; apply_updated key delta) env
      = (inr tt,
         mkEnv (<[key := Dict after]> (env_data env))
           (log ++ record :: more))
    ∧ apply_delta key delta env
      = apply_pruned key delta
          (mkEnv (<[key := Dict after]> (env_data env))
             (log ++ record :: more))
    ∧ dom after = dom before
    ∧ after !! get_str "id" element = None.
Proof.
  intros Hk Hc Ha Hu Hdata Hid record. destruct env as [data log0].
  cbn [env_data env_log] in *.
  destruct (run_before_element key cset delta added pre data log0 d Hk Hc Ha
              Hdata) as (before & more0 & Hrun & Hdom & Hother).
  assert (Hnone : before !! get_str "id" element = None).
  { apply not_elem_of_dom. rewrite Hdom. by apply not_elem_of_dom. }
  assert (Hskip : apply_updated_element key element
                    (mkEnv (<[key := Dict before]> data) (log0 ++ more0))
                  = (inr tt, mkEnv (<[key := Dict before]> data)
                               ((log0 ++ more0) ++ [record]))).
  { apply run_apply_updated_element_absent with cset before;
      [done|apply lookup_insert_eq|done]. }
  destruct (run_updated_batch key cset post (<[key := Dict before]> data)
              ((log0 ++ more0) ++ [record]) before Hc (lookup_insert_eq _ _ _))
    as (after & more & Hpost & Hdom' & _).
  rewrite insert_insert_eq in Hpost.
  assert (Hsplit : ∀ (k : M Env unit) s,
    (apply_added key delta;; apply_updated key delta;; k) s
    = ((apply_added key delta;; for_ pre (apply_updated_element key));;
       (apply_updated_element key element;;
        for_ post (apply_updated_element key);; k)) s).
  { intros k s. unfold mbind, M_bind, bind.
    destruct (apply_added key delta s) as [[e|u] s1]; [done|].
    rewrite (run_apply_updated_list key delta _ s1 Hk Hu), for_app.
    unfold mbind, M_bind, bind.
    destruct (for_ pre (apply_updated_element key) s1) as [[e|u'] s2]; [done|].
    rewrite for_cons. unfold bind.
    destruct (apply_updated_element key element s2) as [[e|u''] s3]; [done|].
    by destruct (for_ post (apply_updated_element key) s3) as [[e|u3] s4]. }
  exists before, after, (log0 ++ more0), more.
  split; [exact Hrun|]. split; [exact Hnone|]. split; [exact Hskip|].
  split.
  { unfold apply_delta. rewrite Hsplit.
    erewrite run_bind_ok; [|exact Hrun].
    erewrite run_bind_ok; [|exact Hskip]. reflexivity. }
  assert (Hpass : (apply_added key delta;; apply_updated key delta)
                    (mkEnv data log0)
                  = (inr tt, mkEnv (<[key := Dict after]> data)
                               ((log0 ++ more0) ++ record :: more))).
  { assert (Hret : ∀ s, (apply_added key delta;; apply_updated key delta) s
                        = (apply_added key delta;; apply_updated key delta;;
                           mret tt) s).
    { intros s. unfold mbind, M_bind, bind, mret, M_ret, ret.
      destruct (apply_added key delta s) as [[e|u] s1]; [done|].
      by destruct (apply_updated key delta s1) as [[e|[]] s2]. }
    rewrite Hret, Hsplit.
    erewrite run_bind_ok; [|exact Hrun].
    erewrite run_bind_ok; [|exact Hskip].
    erewrite run_bind_ok; [|exact Hpost].
    by rewrite <- app_assoc. }
  split; [exact Hpass|]. split.
  { unfold apply_delta. rewrite Hsplit.
    erewrite run_bind_ok; [|exact Hrun].
    erewrite run_bind_ok; [|exact Hskip].
    erewrite run_bind_ok; [|exact Hpost].
    by rewrite <- app_assoc. }
  split; [exact Hdom'|].
  apply not_elem_of_dom. rewrite Hdom'. by apply not_elem_of_dom.
Qed.

Lemma apply_delta_updated_missing_witness :
  TASK_PROXIES ≠ WORKFLOW
  ∧ CLEAR_FIELD_MAP !! TASK_PROXIES = Some {["prerequisites"; "outputs"]}
  ∧ env_data sample_mirror !! TASK_PROXIES = Some (Dict ∅)
  ∧ dict_update_by_id ∅ [] !! get_str "id" sample_family_update = None
  ∧ apply_delta TASK_PROXIES
      (mkDeltas 0 0 (Rep []) (Rep [sample_family_update]) [] false)
      sample_mirror
    = (inr tt,
       mkEnv (env_data sample_mirror)
         [mkLog "DEBUG" missing_element_text "u|w|1|root"]).
Proof.
  assert (H1 : TASK_PROXIES ≠ WORKFLOW) by discriminate.
  assert (H2 : CLEAR_FIELD_MAP !! TASK_PROXIES
               = Some ({["prerequisites"; "outputs"]} : gset string))
    by (vm_compute; reflexivity).
  assert (H3 : env_data sample_mirror !! TASK_PROXIES = Some (Dict ∅))
    by (vm_compute; reflexivity).
  assert (H4 : dict_update_by_id ∅ [] !! get_str "id" sample_family_update
               = None)
    by apply lookup_empty.
  split; [exact H1|]. split; [exact H2|]. split; [exact H3|].
  split; [exact H4|].
  destruct (apply_delta_updated_missing TASK_PROXIES _
              (mkDeltas 0 0 (Rep []) (Rep [sample_family_update]) [] false)
              [] [] [] sample_family_update ∅ sample_mirror
              H1 H2 eq_refl eq_refl H3 H4)
    as (before & after & log & more & Hrun & _ & _ & Hdelta & _).
  rewrite Hdelta.
  assert (Hpre : (apply_added TASK_PROXIES
                    (mkDeltas 0 0 (Rep []) (Rep [sample_family_update]) []
                       false);;
                  for_ [] (apply_updated_element TASK_PROXIES)) sample_mirror
                 = (inr tt, sample_mirror)) by (vm_compute; reflexivity).
  rewrite Hpre in Hrun.
  assert (Hdata : env_data sample_mirror
                  = <[TASK_PROXIES := Dict before]> (env_data sample_mirror))
    by exact (f_equal (λ r, env_data r.2) Hrun).
  assert (Hlog : [] = log) by exact (f_equal (λ r, env_log r.2) Hrun).
  rewrite <- Hdata, <- Hlog. reflexivity.
Defined.


(** A graph with the one edge from [a] at point 1 to [a] at point 2; node
    ids are [name.point], cycle points are their strings, and the pool
    holds the point 1. *)
Definition sample_split (node : string) : string * string :=
  match split "." node with
  | Some [name; point_string] => (name, point_string)
  | _ => (node, "")
  end.

Definition sample_graph (s : Mgr) : Graph (point := string) :=
  mkGraph s {["1"]} ∅.

Definition sample_generate : M (Graph (point := string)) unit :=
  generate_graph_elements (sample_ext false)
    (λ _ _, [mkGraphEdge (Some "a.1") (Some "a.2") false false])
    sample_split (λ _, true) id (λ _, "1") (λ _, "1") 8 (Some "1") (Some "1").


(** ** Ghost generation within an accumulation window *)

(** A sequence of calls of [generate_ghost_task] and
    [generate_ghost_family], with any arguments and whatever their
    outcomes. *)
Inductive ghost_run (ext : Collaborators) : Mgr → Mgr → Prop :=
| ghost_run_done (s : Mgr) : ghost_run ext s s
| ghost_run_task (s s1 s2 : Mgr) (fuel : nat)
    (t_id tp_id point_string : string) (r : exn + unit) :
    generate_ghost_task ext fuel t_id tp_id point_string s = (r, s1) →
    ghost_run ext s1 s2 → ghost_run ext s s2
| ghost_run_family (s s1 s2 : Mgr) (fuel : nat) (fp_id : string)
    (child_fam child_task : option string) (r : exn + unit) :
    generate_ghost_family ext fuel fp_id child_fam child_task s = (r, s1) →
    ghost_run ext s1 s2 → ghost_run ext s s2.

Lemma fresh_ghost_run (ext : Collaborators) (s s' : Mgr) :
  ghost_run ext s s' → adds_fresh_only s s'.
Proof.
  induction 1 as [s|s s1 s2 fuel t_id tp_id point_string r Hrun _ IH
                  |s s1 s2 fuel fp_id child_fam child_task r Hrun _ IH].
  - reflexivity.
  - transitivity s1; [|exact IH]. by apply fresh_generate_ghost_task in Hrun.
  - transitivity s1; [|exact IH]. by apply fresh_generate_ghost_family in Hrun.
Qed.

(** C7 (as amended).  Ghost generation leaves the store as it is and puts
    into the added buffer only ids that are neither in the added buffer nor
    in the store, whatever its outcome, so one call keeps the ids of [added]
    and of the store disjoint for every kind.  [clear_deltas] empties the
    added buffer of every kind; from there on, through any sequence of
    calls of [generate_ghost_task] and [generate_ghost_family], the store is
    the same and for every kind the ids of [added] are disjoint from the
    ids of the store. *)
Theorem ghost_generation_adds_fresh (ext : Collaborators) (s0 : Mgr) :
  (∀ key, key ∈ (deltas s0).*1 →
     shaped (added s0) key ∧ shaped (updated s0) key) →
  dom (added s0) ⊆ list_to_set (deltas s0).*1 →
  (∀ (fuel : nat) (t_id tp_id point_string fp_id : string)
     (child_fam child_task : option string) (s s' : Mgr) (r : exn + unit),
     generate_ghost_task ext fuel t_id tp_id point_string s = (r, s')
     ∨ generate_ghost_family ext fuel fp_id child_fam child_task s = (r, s') →
     data s' = data s
     ∧ (∀ key id, id ∈ added_ids s' key → id ∉ added_ids s key →
                  id ∉ store_ids s key)
     ∧ ((∀ key, added_ids s key ## store_ids s key) →
        ∀ key, added_ids s' key ## store_ids s' key))
  ∧ ∃ s1,
      clear_deltas s0 = (inr tt, s1)
      ∧ (∀ key, added_ids s1 key = ∅)
      ∧ ∀ s2, ghost_run ext s1 s2 →
              data s2 = data s1
              ∧ ∀ key, added_ids s2 key ## store_ids s2 key.
Proof.
  intros Hshaped Hdom. split.
  - intros fuel t_id tp_id point_string fp_id child_fam child_task s s' r Hrun.
    assert (Hfresh : adds_fresh_only s s').
    { destruct Hrun as [Hrun|Hrun].
      - by apply fresh_generate_ghost_task in Hrun.
      - by apply fresh_generate_ghost_family in Hrun. }
    destruct Hfresh as [Hdata Hfresh]. split; [exact Hdata|]. split.
    + intros key id Hin Hnot. by destruct (Hfresh key id Hin).
    + intros Hdisjoint key id Hin Hstore.
      assert (Hstore' : id ∈ store_ids s key).
      { unfold store_ids in *. by rewrite <- Hdata. }
      destruct (Hfresh key id Hin) as [Hold|Hout]; [|done].
      by apply (Hdisjoint key id).
  - destruct (run_clear_loop_keys (deltas s0).*1 s0 Hshaped)
      as (s1 & Hrun & _ & Hadded & _).
    assert (Hempty : ∀ key, added_ids s1 key = ∅).
    { intros key. unfold added_ids. rewrite Hadded.
      destruct (decide (key ∈ (deltas s0).*1)) as [Hin|Hnot].
      - unfold empty_slot. destruct (decide (key = WORKFLOW)); [done|].
        apply dom_empty_L.
      - destruct (added s0 !! key) as [x|] eqn:Hkey; [|done].
        destruct Hnot. apply elem_of_dom_2 in Hkey. apply Hdom in Hkey.
        by apply elem_of_list_to_set in Hkey. }
    exists s1. split.
    { unfold clear_deltas. erewrite run_bind_ok; [|reflexivity]. exact Hrun. }
    split; [exact Hempty|].
    intros s2 Hghost. apply fresh_ghost_run in Hghost as [Hdata Hfresh].
    split; [exact Hdata|]. intros key id Hin Hstore.
    destruct (Hfresh key id Hin) as [Hold|Hout].
    + rewrite Hempty in Hold. by apply not_elem_of_empty in Hold.
    + apply Hout. unfold store_ids in *. by rewrite <- Hdata.
Qed.


Lemma ghost_generation_adds_fresh_witness :
  (∀ key, key ∈ (deltas sample_applied).*1 →
     shaped (added sample_applied) key ∧ shaped (updated sample_applied) key)
  ∧ dom (added sample_applied) ⊆ list_to_set (deltas sample_applied).*1
  ∧ "u|w|1|a" ∈ added_ids sample_applied TASK_PROXIES
  ∧ "u|w|1|a" ∈ store_ids sample_applied TASK_PROXIES
  ∧ ∃ s1,
      clear_deltas sample_applied = (inr tt, s1)
      ∧ let s2 := (generate_ghost_task (sample_ext false) 8 "u|w|a" "u|w|2|a"
                     "2" s1).2 in
        data s2 = data s1
        ∧ ∀ key, added_ids s2 key ## store_ids s2 key.
Proof.
  assert (H1 : ∀ key, key ∈ (deltas sample_applied).*1 →
            shaped (added sample_applied) key
            ∧ shaped (updated sample_applied) key).
  { intros key Hin.
    change ((deltas sample_applied).*1)
      with [EDGES; FAMILIES; FAMILY_PROXIES; JOBS; TASKS; TASK_PROXIES;
            WORKFLOW] in Hin.
    repeat (apply elem_of_cons in Hin as [->|Hin];
            [split; eexists; vm_compute; reflexivity|]).
    by apply elem_of_nil in Hin. }
  assert (H2 : dom (added sample_applied)
               ⊆ list_to_set (deltas sample_applied).*1)
    by (apply (bool_decide_unpack _); vm_compute; exact I).
  split; [exact H1|]. split; [exact H2|].
  split; [vm_compute; reflexivity|]. split; [vm_compute; reflexivity|].
  destruct (ghost_generation_adds_fresh (sample_ext false) sample_applied H1 H2)
    as (_ & s1 & Hclear & _ & Hwindow).
  exists s1. split; [exact Hclear|]. cbv zeta.
  apply Hwindow.
  eapply (ghost_run_task _ s1 _ _ 8 "u|w|a" "u|w|2|a" "2");
    [apply surjective_pairing|apply ghost_run_done].
Defined.

(** The run of the sample graph on the sample workflow, summarised, applied
    to the store and cleared; the cycle point 1 is in the pool. *)
Definition sample_graph_cleared : Mgr :=
  Eval vm_compute in
    (clear_deltas
       (apply_deltas (sample_ext false) false
          (update_workflow (sample_ext false)
             (g_mgr (sample_generate (sample_graph sample_start)).2)).2).2).2.

(** ... and after the edges of the point 1 were generated once more. *)
Definition sample_graph_again : Mgr :=
  Eval vm_compute in
    (g_mgr (sample_generate (sample_graph sample_graph_cleared)).2).

(** C7 does not hold of every operation, nor at every point of a window.
    [generate_graph_elements] assigns the edge to [added[edges]] without
    looking at the store: when the edges of a cycle point are generated
    again, the id of a stored edge is in the added buffer too.  And between
    [apply_deltas] and [clear_deltas] the entities of the added buffer are
    in the store as well. *)
Lemma added_overlaps_store_after_apply :
  (apply_deltas (sample_ext false) false sample_summarised
     = (inr tt, sample_applied)
   ∧ store_ids sample_summarised TASK_PROXIES = ∅
   ∧ "u|w|1|a" ∈ added_ids sample_applied TASK_PROXIES
   ∧ "u|w|1|a" ∈ store_ids sample_applied TASK_PROXIES)
  ∧ ((∀ key, added_ids sample_graph_cleared key = ∅)
     ∧ "u|w|a.1|a.2" ∈ store_ids sample_graph_cleared EDGES
     ∧ sample_generate (sample_graph sample_graph_cleared)
       = (inr tt, mkGraph sample_graph_again {["1"]} {["1" := {["2"]}]})
     ∧ data sample_graph_again = data sample_graph_cleared
     ∧ "u|w|a.1|a.2" ∈ added_ids sample_graph_again EDGES
     ∧ "u|w|a.1|a.2" ∈ store_ids sample_graph_again EDGES).
Proof.
  split; [repeat split; vm_compute; reflexivity|].
  split.
  { intros key.
    destruct (decide (key ∈ [EDGES; FAMILIES; FAMILY_PROXIES; JOBS; TASKS;
                             TASK_PROXIES; WORKFLOW])) as [Hin|Hnot].
    - repeat (apply elem_of_cons in Hin as [->|Hin];
              [vm_compute; reflexivity|]).
      by apply elem_of_nil in Hin.
    - unfold added_ids.
      destruct (added sample_graph_cleared !! key) as [x|] eqn:Hkey; [|done].
      destruct Hnot.
      assert (Hdom : dom (added sample_graph_cleared)
                     ⊆ list_to_set [EDGES; FAMILIES; FAMILY_PROXIES; JOBS;
                                     TASKS; TASK_PROXIES; WORKFLOW])
        by (apply (bool_decide_unpack _); vm_compute; exact I).
      apply elem_of_dom_2 in Hkey. apply Hdom in Hkey.
      by apply elem_of_list_to_set in Hkey. }
  repeat split; vm_compute; reflexivity.
Qed.


(** ** The order of the keys of a counter *)

(** The elements of a list in the order in which they are first met. *)
Fixpoint first_met (l : list string) : list string :=
  match l with
  | [] => []
  | x :: rest => x :: filter (λ y, y ≠ x) (first_met rest)
  end.

(** The keys [ks], followed by the elements of [l] that are not among them,
    in the order in which they are first met. *)
Definition met_after (ks l : list string) : list string :=
  ks ++ filter (λ x, x ∉ ks) (first_met l).

Lemma filter_ext_elem {A} (P Q : A → Prop) `{!∀ x, Decision (P x)}
    `{!∀ x, Decision (Q x)} (l : list A) :
  (∀ x, x ∈ l → P x ↔ Q x) → filter P l = filter Q l.
Proof.
  induction l as [|x l IH]; intros Hext; [done|].
  rewrite !filter_cons.
  rewrite IH by (intros y Hy; apply Hext; by right).
  apply decide_ext, Hext. left.
Qed.

Lemma elem_of_first_met (l : list string) x : x ∈ first_met l ↔ x ∈ l.
Proof.
  induction l as [|y l IH]; [done|]. cbn [first_met].
  rewrite !elem_of_cons, list_elem_of_filter, IH.
  destruct (decide (x = y)); naive_solver.
Qed.

Lemma NoDup_first_met (l : list string) : NoDup (first_met l).
Proof.
  induction l as [|y l IH]; [apply NoDup_nil_2|]. cbn [first_met].
  apply NoDup_cons. split; [|by apply NoDup_filter].
  rewrite list_elem_of_filter. naive_solver.
Qed.

Lemma first_met_NoDup (l : list string) : NoDup l → first_met l = l.
Proof.
  induction l as [|y l IH]; intros Hnd; [done|].
  apply NoDup_cons in Hnd as [Hy Hnd]. cbn [first_met]. rewrite IH by done.
  f_equal. apply filter_all. intros x Hx ->. done.
Qed.

Lemma first_met_app (a b : list string) :
  first_met (a ++ b) = first_met a ++ filter (λ x, x ∉ a) (first_met b).
Proof.
  induction a as [|y a IH].
  - cbn. symmetry. apply filter_all. intros x _. apply not_elem_of_nil.
  - cbn [app first_met]. rewrite IH, filter_app, list_filter_filter.
    f_equal. f_equal. apply list_filter_iff. intros x.
    rewrite not_elem_of_cons. tauto.
Qed.

Lemma met_after_nil (l : list string) : met_after [] l = first_met l.
Proof.
  unfold met_after. cbn. apply filter_all. intros x _. apply not_elem_of_nil.
Qed.

Lemma met_after_app (ks a b : list string) :
  met_after (met_after ks a) b = met_after ks (a ++ b).
Proof.
  unfold met_after. rewrite first_met_app, filter_app, <- app_assoc.
  f_equal. f_equal. rewrite list_filter_filter. apply list_filter_iff.
  intros x. rewrite not_elem_of_app, list_elem_of_filter, elem_of_first_met.
  destruct (decide (x ∈ ks)); tauto.
Qed.

Lemma met_after_first_met (ks l : list string) :
  met_after ks (first_met l) = met_after ks l.
Proof.
  unfold met_after. by rewrite (first_met_NoDup _ (NoDup_first_met l)).
Qed.

Section CounterOrder.

Import Counter CounterFacts.

Lemma keys_add_eq k n (c : t) :
  keys (add k n c) = if decide (k ∈ keys c) then keys c else keys c ++ [k].
Proof.
  induction c as [|[k0 m] c IH]; [done|]. cbn [add].
  destruct (decide (k = k0)) as [->|Hne].
  - rewrite !keys_cons. by rewrite decide_True by left.
  - rewrite !keys_cons, IH.
    destruct (decide (k ∈ keys c)) as [Hin|Hnot].
    + by rewrite decide_True by (by right).
    + rewrite decide_False; [done|]. by intros [?|?]%elem_of_cons.
Qed.

(** [c[k] += n] for the items of [other] in turn: the new keys come after
    the old ones, in the order in which they are first met. *)
Lemma keys_add_all (other : list (string * Z)) (c : t) :
  keys (add_all c other) = met_after (keys c) other.*1.
Proof.
  revert c. induction other as [|[k n] other IH]; intros c.
  - unfold met_after. cbn. by rewrite app_nil_r.
  - change (add_all c ((k, n) :: other)) with (add_all (add k n c) other).
    rewrite IH, keys_add_eq. unfold met_after. rewrite fmap_cons.
    cbn [fst first_met]. rewrite filter_cons.
    destruct (decide (k ∈ keys c)) as [Hin|Hnot].
    + rewrite decide_False by (intros Hn; by apply Hn).
      f_equal. rewrite list_filter_filter. apply list_filter_iff.
      intros x. destruct (decide (x = k)) as [->|]; tauto.
    + rewrite decide_True by done. rewrite <- app_assoc. cbn [app].
      f_equal. f_equal. rewrite list_filter_filter. apply list_filter_iff.
      intros x. rewrite not_elem_of_app, not_elem_of_cons.
      pose proof (not_elem_of_nil x). tauto.
Qed.

Lemma keys_keep_positive (c : t) :
  NoDup (keys c) →
  keys (keep_positive c) = filter (λ k, 0 < count c k) (keys c).
Proof.
  induction c as [|[k n] c IH]; intros Hnd; [reflexivity|].
  rewrite keys_cons in Hnd. apply NoDup_cons in Hnd as [Hk Hnd].
  unfold keep_positive, t in *. rewrite keys_cons, !filter_cons.
  cbn [snd count].
  rewrite (decide_True (P := k = k)) by done.
  assert (Hrest : filter (λ k0, 0 < (if decide (k0 = k) then n else count c k0))
                    (keys c)
                  = filter (λ k0, 0 < count c k0) (keys c)).
  { apply filter_ext_elem. intros x Hx.
    rewrite decide_False; [done|]. by intros ->. }
  rewrite Hrest, <- IH by done.
  by destruct (decide (0 < n)).
Qed.

Lemma count_keep_positive (c : t) k :
  NoDup (keys c) → 0 ≤ count c k → count (keep_positive c) k = count c k.
Proof.
  induction c as [|[k0 n] c IH]; intros Hnd Hc; [reflexivity|].
  rewrite keys_cons in Hnd. apply NoDup_cons in Hnd as [Hk Hnd].
  unfold keep_positive, t in *. rewrite filter_cons. cbn [snd count] in *.
  destruct (decide (k = k0)) as [->|Hne].
  - destruct (decide (0 < n)).
    + cbn [count]. by rewrite decide_True.
    + rewrite count_absent; [lia|].
      intros Hin. apply Hk.
      apply list_elem_of_fmap in Hin as ([k1 n1] & -> & Hin).
      apply list_elem_of_filter in Hin as [_ Hin].
      apply list_elem_of_fmap. by exists (k1, n1).
  - destruct (decide (0 < n)).
    + cbn [count]. rewrite decide_False by done. by apply IH.
    + by apply IH.
Qed.

Lemma wf_keep_positive (c : t) : NoDup (keys c) → wf (keep_positive c).
Proof.
  intros Hnd. split.
  - unfold keys, keep_positive.
    eapply sublist_NoDup; [exact Hnd|apply fmap_sublist, sublist_filter].
  - intros k n Hin. by apply list_elem_of_filter in Hin as [Hpos _].
Qed.

Lemma weight_nonneg_items k (other : list (string * Z)) :
  (∀ kn, kn ∈ other → 0 ≤ kn.2) → 0 ≤ weight k other.
Proof.
  induction other as [|[k' n] other IH]; intros Hpos; unfold weight in *.
  - simpl. lia.
  - rewrite fmap_cons. simpl.
    assert (0 ≤ n) by (apply (Hpos (k', n)); left).
    assert (0 ≤ Zsum ((λ kn : string * Z, if decide (kn.1 = k) then kn.2 else 0)
                       <$> other)).
    { apply IH. intros kn Hin. apply Hpos. by right. }
    destruct (decide (k' = k)); lia.
Qed.

(** The keys with a positive count. *)
Definition positive_keys (other : list (string * Z)) : list string :=
  (filter (λ kn, 0 < kn.2) other).*1.

Lemma positive_keys_weight (other : list (string * Z)) :
  NoDup other.*1 →
  positive_keys other = filter (λ k, 0 < weight k other) other.*1.
Proof.
  intros Hnd. unfold positive_keys.
  change ((filter (λ kn, 0 < kn.2) other).*1) with (keys (keep_positive other)).
  rewrite keys_keep_positive by done.
  apply filter_ext_elem. intros k _. by rewrite weight_count.
Qed.

Lemma NoDup_positive_keys (other : list (string * Z)) :
  NoDup other.*1 → NoDup (positive_keys other).
Proof.
  intros Hnd.
  eapply sublist_NoDup; [exact Hnd|apply fmap_sublist, sublist_filter].
Qed.

(** [c += other] for items without negative counts: the counts add up, and
    the keys of [other] that come with a positive count and are new are put
    after the keys of [c]. *)
Lemma iadd_nonneg_spec (c : t) (other : list (string * Z)) :
  wf c → NoDup other.*1 → (∀ kn, kn ∈ other → 0 ≤ kn.2) →
  wf (iadd c other)
  ∧ (∀ k, count (iadd c other) k = count c k + weight k other)
  ∧ keys (iadd c other) = met_after (keys c) (positive_keys other).
Proof.
  intros [Hnd Hpos] Hndo Hother.
  destruct (add_all_spec other c Hnd) as (Hnd' & Hcount & Hkeys).
  assert (Hc : ∀ k, 0 ≤ count c k).
  { intros k. destruct (decide (k ∈ keys c)) as [Hin|Hnot].
    - apply list_elem_of_fmap in Hin as ([k0 n0] & -> & Hin0). simpl.
      rewrite (count_present _ _ _ Hnd Hin0). pose proof (Hpos _ _ Hin0). lia.
    - rewrite (count_absent _ _ Hnot). lia. }
  unfold iadd. fold (add_all c other).
  split; [by apply wf_keep_positive|]. split.
  - intros k. rewrite count_keep_positive, Hcount; [done|done|].
    rewrite Hcount. pose proof (Hc k).
    pose proof (weight_nonneg_items k other Hother). lia.
  - rewrite keys_keep_positive by done. rewrite keys_add_all.
    unfold met_after. rewrite (first_met_NoDup _ Hndo).
    rewrite (first_met_NoDup _ (NoDup_positive_keys _ Hndo)).
    rewrite filter_app. f_equal.
    + apply filter_all. intros k Hin. rewrite Hcount.
      apply list_elem_of_fmap in Hin as ([k0 n0] & -> & Hin0). simpl.
      rewrite (count_present _ _ _ Hnd Hin0). pose proof (Hpos _ _ Hin0).
      pose proof (weight_nonneg_items k0 other Hother). lia.
    + rewrite positive_keys_weight by done. rewrite !list_filter_filter.
      apply list_filter_iff. intros k. rewrite Hcount.
      split.
      * intros [Hq Hnot]. split; [done|].
        by rewrite (count_absent _ _ Hnot) in Hq.
      * intros [Hnot Hq]. split; [|done].
        rewrite (count_absent _ _ Hnot). lia.
Qed.

Lemma keys_of_list (l : list string) : keys (of_list l) = first_met l.
Proof.
  assert (Hfold : of_list l = add_all [] ((λ k, (k, 1)) <$> l)).
  { unfold of_list, add_all. by rewrite foldl_fmap. }
  rewrite Hfold, keys_add_all, met_after_nil.
  by rewrite <- list_fmap_compose, list_fmap_id.
Qed.

Lemma positive_keys_of_list (l : list string) :
  positive_keys (of_list l) = first_met l.
Proof.
  destruct (of_list_spec l) as ([Hnd Hpos] & _ & _).
  unfold positive_keys. rewrite filter_all.
  - apply keys_of_list.
  - intros [k n] Hin. by apply (Hpos k).
Qed.

End CounterOrder.


(** ** The rollup of a family, counts and order *)

(** No state of [state_totals] comes with a negative count. *)
Definition counts_nonneg (m : Msg) : Prop :=
  map_Forall (λ _ n, 0 ≤ n) (get_map "state_totals" m).

Definition totals_nonneg (d : gmap string Msg) : Prop :=
  map_Forall (λ _ m, counts_nonneg m) d.

#[global] Instance counts_nonneg_dec (m : Msg) : Decision (counts_nonneg m).
Proof. unfold counts_nonneg. apply _. Defined.

#[global] Instance totals_nonneg_dec (d : gmap string Msg) :
  Decision (totals_nonneg d).
Proof. unfold totals_nonneg. apply _. Defined.

(** The states that [state_totals] holds with a positive count, in the
    order in which the items of the map are met. *)
Definition positive_states (m : Msg) : list string :=
  positive_keys (Counter.of_map (get_map "state_totals" m)).

Section FamilyOrder.

Import Counter CounterFacts.

Lemma gather_child_families_nonneg (fp_updated fp_data : gmap string Msg)
    (ids : list string) (c0 : Counter.t) (h0 : Z) :
  let views := omap (latest_view fp_updated fp_data) ids in
  let result :=
    foldl (λ acc child_id,
             match latest_view fp_updated fp_data child_id with
             | Some child_node =>
                 (Counter.iadd acc.1
                    (Counter.of_map (get_map "state_totals" child_node)),
                  acc.2 + get_num "is_held_total" child_node)
             | None => acc
             end)
          (c0, h0) ids in
  wf c0 →
  (∀ child, child ∈ views → counts_nonneg child) →
  wf result.1
  ∧ (∀ st, count result.1 st
           = count c0 st
             + Zsum ((λ child, default 0 (get_map "state_totals" child !! st))
                       <$> views))
  ∧ keys result.1 = met_after (keys c0) (concat (positive_states <$> views)).
Proof.
  revert c0 h0. induction ids as [|id ids IH]; intros c0 h0; cbv zeta.
  - intros Hwf _. cbn. split; [done|]. split; [intros st; lia|].
    unfold met_after. cbn. by rewrite app_nil_r.
  - intros Hwf Hpos. rewrite omap_cons in *. cbn [foldl].
    destruct (latest_view fp_updated fp_data id) as [child|] eqn:Hview.
    + cbn [fst snd].
      destruct (iadd_nonneg_spec c0 (of_map (get_map "state_totals" child)) Hwf)
        as (Hwf1 & Hcount1 & Hkeys1).
      { apply NoDup_fst_map_to_list. }
      { intros [st n] Hin. apply elem_of_map_to_list in Hin.
        apply (Hpos child (list_elem_of_here _ _) st n Hin). }
      destruct (IH (iadd c0 (of_map (get_map "state_totals" child)))
                   (h0 + get_num "is_held_total" child) Hwf1)
        as (Hwf' & Hcount' & Hkeys').
      { intros c Hin. apply Hpos. by right. }
      split; [exact Hwf'|]. split.
      * intros st. rewrite Hcount', Hcount1, weight_of_map, fmap_cons, Zsum_cons.
        lia.
      * rewrite Hkeys', Hkeys1, fmap_cons. cbn [concat].
        apply met_after_app.
    + apply IH; [done|]. intros c Hin. by apply Hpos.
Qed.

End FamilyOrder.

Lemma state_totals_of_elem (c : Counter.t) k n :
  state_totals_of c !! k = Some n → (k, n) ∈ c.
Proof.
  unfold state_totals_of.
  assert (Hgen : ∀ (m0 : gmap string Z),
    foldl (λ m kn, <[kn.1 := kn.2]> m) m0 c !! k = Some n →
    (k, n) ∈ c ∨ m0 !! k = Some n).
  { induction c as [|[k' n'] c IH]; intros m0 Hl; [by right|].
    cbn [foldl fst snd] in Hl. apply IH in Hl as [Hin|Hl]; [left; by right|].
    destruct (decide (k' = k)) as [->|Hne].
    - rewrite lookup_insert_eq in Hl. injection Hl as ->. left. left.
    - rewrite lookup_insert_ne in Hl by done. by right. }
  intros Hl. apply Hgen in Hl as [Hin|Hl]; [done|].
  by rewrite lookup_empty in Hl.
Qed.

(** The delta [family_delta] builds from views without negative counts. *)
Lemma family_delta_rollup (ext : Collaborators) (fp_id : string) (now : Z)
    (fp_updated fp_data tp_updated tp_data : gmap string Msg) (fam_node : Msg) :
  let family_views :=
    omap (latest_view fp_updated fp_data) (get_rep "child_families" fam_node) in
  let task_views :=
    omap (latest_view tp_updated tp_data) (get_rep "child_tasks" fam_node) in
  let total (st : string) : Z :=
    Zsum ((λ child, default 0 (get_map "state_totals" child !! st))
            <$> family_views)
    + (if decide (st = "") then 0
       else Z.of_nat (length (filter (λ tp, get_str "state" tp = st)
                                task_views))) in
  let held : Z :=
    Zsum (get_num "is_held_total" <$> family_views)
    + Z.of_nat (length (filter (λ tp, get_bool "is_held" tp = true)
                          task_views)) in
  let met : list string :=
    concat (positive_states <$> family_views)
    ++ filter (λ st, st ≠ "") (get_str "state" <$> task_views) in
  let fp_delta :=
    family_delta ext fp_id now fp_updated fp_data tp_updated tp_data fam_node in
  (∀ child, child ∈ family_views → counts_nonneg child) →
  (∀ st, get_map "state_totals" fp_delta !! st
         = if decide (0 < total st) then Some (total st) else None)
  ∧ get_num "is_held_total" fp_delta = held
  ∧ get_bool "is_held" fp_delta = bool_decide (0 < held)
  ∧ fp_delta !! "is_held_total" = Some (FNum held)
  ∧ fp_delta !! "is_held" = Some (FBool (bool_decide (0 < held)))
  ∧ get_str "state" fp_delta
    = extract_group_state ext (get_rep "states" fp_delta)
  ∧ get_rep "states" fp_delta = first_met met
  ∧ NoDup (get_rep "states" fp_delta)
  ∧ (∀ st, st ∈ get_rep "states" fp_delta ↔ 0 < total st).
Proof.
  intros family_views task_views total held met fp_delta Hpos.
  destruct (family_delta_fields ext fp_id now fp_updated fp_data tp_updated
              tp_data fam_node)
    as (Htotals & Hstates & Hheld & Hisheld & Hstate & _).
  fold fp_delta family_views task_views held in Htotals, Hstates, Hheld,
    Hisheld, Hstate.
  destruct (gather_child_families_nonneg fp_updated fp_data
              (get_rep "child_families" fam_node) [] 0 CounterFacts.wf_nil Hpos)
    as (Hwf0 & Hcount0 & Hkeys0).
  fold (gather_child_families fp_updated fp_data
          (get_rep "child_families" fam_node)) in Hwf0, Hcount0, Hkeys0.
  fold family_views in Hcount0, Hkeys0.
  set (counter0 := (gather_child_families fp_updated fp_data
                      (get_rep "child_families" fam_node)).1) in *.
  set (task_states := filter (λ st, st ≠ "") (get_str "state" <$> task_views))
    in *.
  destruct (of_list_spec task_states) as (Hwf_t & Hcount_t & _).
  destruct (iadd_nonneg_spec counter0 (Counter.of_list task_states) Hwf0)
    as (Hwf & Hcount & Hkeys).
  { apply Hwf_t. }
  { intros [k n] Hin. destruct Hwf_t as [_ Hp]. pose proof (Hp k n Hin). simpl.
    lia. }
  set (state_counter := Counter.iadd counter0 (Counter.of_list task_states))
    in *.
  assert (Htotal : ∀ st, Counter.count state_counter st = total st).
  { intros st. rewrite Hcount, Hcount0. cbn [Counter.count].
    rewrite weight_count by apply Hwf_t. rewrite Hcount_t.
    unfold task_states. rewrite occurrences_of_set_states. unfold total. lia. }
  assert (Horder : Counter.keys state_counter = first_met met).
  { assert (Hk0 : Counter.keys counter0
                  = met_after [] (concat (positive_states <$> family_views)))
      by exact Hkeys0.
    rewrite Hkeys, Hk0.
    rewrite positive_keys_of_list, met_after_first_met, met_after_app.
    apply met_after_nil. }
  split.
  { intros st. rewrite Htotals, state_totals_of_lookup by apply Hwf.
    rewrite <- Htotal.
    destruct (decide (st ∈ Counter.keys state_counter)) as [Hin|Hnot].
    - rewrite decide_True; [done|]. by apply wf_keys_positive.
    - rewrite decide_False; [done|]. by rewrite <- wf_keys_positive. }
  split; [exact Hheld|]. split; [exact Hisheld|].
  assert (Hpresent : fp_delta !! "is_held_total" = Some (FNum held)
                     ∧ fp_delta !! "is_held"
                       = Some (FBool (bool_decide (0 < held)))).
  { clear -Hheld. unfold fp_delta, family_delta in *.
    pose proof (gather_child_families_held fp_updated fp_data
                  (get_rep "child_families" fam_node)) as Hheld0.
    destruct (gather_child_families fp_updated fp_data
                (get_rep "child_families" fam_node)) as [c0 held0].
    rewrite gather_child_tasks_eq in *. simpl in Hheld0. subst held0.
    fold family_views task_views held.
    rewrite !lookup_set_unless_none by discriminate.
    unfold new_message. cbn [foldl fst snd].
    rewrite !lookup_set_field.
    split; repeat (rewrite decide_False by discriminate);
      by rewrite decide_True by done. }
  split; [apply Hpresent|]. split; [apply Hpresent|].
  split; [by rewrite Hstate, Hstates|]. rewrite Hstates.
  split; [exact Horder|]. split; [apply Hwf|].
  intros st. rewrite <- Htotal. by apply wf_keys_positive.
Qed.

(** Whatever the views, every count the delta holds is positive. *)
Lemma family_delta_positive (ext : Collaborators) (fp_id : string) (now : Z)
    (fp_updated fp_data tp_updated tp_data : gmap string Msg) (fam_node : Msg)
    st n :
  get_map "state_totals"
    (family_delta ext fp_id now fp_updated fp_data tp_updated tp_data fam_node)
    !! st = Some n →
  0 < n.
Proof.
  destruct (family_delta_fields ext fp_id now fp_updated fp_data tp_updated
              tp_data fam_node) as (Htotals & _).
  rewrite Htotals. intros Hin%state_totals_of_elem.
  unfold Counter.iadd, Counter.keep_positive in Hin.
  by apply list_elem_of_filter in Hin as [Hpos _].
Qed.


(** ** The rollup of a flagged family, child families first *)

Lemma counts_nonneg_merge (old delta : Msg) :
  counts_nonneg old → counts_nonneg delta → counts_nonneg (MergeFrom old delta).
Proof.
  unfold counts_nonneg, get_map. intros Hold Hdelta.
  rewrite MergeFrom_lookup.
  destruct (delta !! "state_totals") as [v|]; [|done].
  destruct (old !! "state_totals") as [w|]; [|done].
  destruct w, v; try done. cbn [merge_field].
  intros st n Hl. apply lookup_union_Some_raw in Hl as [Hl|[_ Hl]].
  - by apply (Hdelta st n).
  - by apply (Hold st n).
Qed.

Lemma counts_nonneg_empty : counts_nonneg ∅.
Proof. unfold counts_nonneg, get_map. rewrite lookup_empty. apply map_Forall_empty. Qed.

Section AscentCounts.

Variable ext : Collaborators.

(** Every entry of [updated[family_proxies]] is without negative counts. *)
Definition updated_nonneg (s : Mgr) : Prop :=
  ∀ fpu, updated s !! FAMILY_PROXIES = Some (Dict fpu) → totals_nonneg fpu.

Tactic Notation "bind_case" hyp(H) "as" ident(x) ident(sx) ident(Hm) :=
  apply run_bind_cases in H as [(? & Hm & ->)|(x & sx & Hm & H)].

(** The rollup keeps it so, whatever its outcome. *)
Lemma ascent_nonneg (fuel : nat) :
  ∀ id s r s',
    _family_ascent_point_update ext fuel id s = (r, s') →
    updated_nonneg s → updated_nonneg s'.
Proof.
  induction fuel as [|fuel IH]; intros id s r s' Hrun Hs.
  { by injection Hrun as _ <-. }
  assert (Hloop : ∀ (l : list string) s0 r0 s1,
    for_ l (_family_ascent_point_update ext fuel) s0 = (r0, s1) →
    updated_nonneg s0 → updated_nonneg s1).
  { induction l as [|c l IHl]; intros s0 r0 s1 Hl H0.
    - by injection Hl as _ <-.
    - rewrite for_cons in Hl. change (bind ?m ?k) with (m ≫= k) in Hl.
      bind_case Hl as u s2 Hm; [by apply IH in Hm|].
      apply IH in Hm; [|done]. by apply IHl in Hl. }
  cbn [_family_ascent_point_update] in Hrun.
  bind_case Hrun as s0 s1 Hm; [discriminate|]. injection Hm as <- <-.
  bind_case Hrun as fp_added s1 Hm; [by apply the_dict_inv in Hm as [-> _]|].
  apply the_dict_inv in Hm as [-> _].
  bind_case Hrun as fp_data s1 Hm; [by apply the_dict_inv in Hm as [-> _]|].
  apply the_dict_inv in Hm as [-> _].
  bind_case Hrun as fam_node s1 Hm.
  { destruct (fp_data !! id); [discriminate|]. by apply subscript_inv in Hm as ->. }
  assert (s1 = s) as ->.
  { destruct (fp_data !! id); [by injection Hm as _ <-|].
    by apply subscript_inv in Hm. }
  clear Hm.
  bind_case Hrun as u s1 Hm; [by apply Hloop in Hm|].
  apply Hloop in Hm; [|done]. clear Hs s. rename Hm into Hs.
  bind_case Hrun as s0 s2 Hm; [discriminate|]. injection Hm as <- <-.
  destruct (decide (id ∈ state_update_families s1)); [|by injection Hrun as _ <-].
  bind_case Hrun as fp_updated s2 Hm; [by apply the_dict_inv in Hm as [-> _]|].
  apply the_dict_inv in Hm as [-> Hfpu]. specialize (Hfpu _ eq_refl).
  bind_case Hrun as tp_data s2 Hm; [by apply the_dict_inv in Hm as [-> _]|].
  apply the_dict_inv in Hm as [-> _].
  bind_case Hrun as tp_updated s2 Hm; [by apply the_dict_inv in Hm as [-> _]|].
  apply the_dict_inv in Hm as [-> _].
  bind_case Hrun as now s2 Hm; [discriminate|]. injection Hm as <- <-.
  bind_case Hrun as u1 s3 Hm; [discriminate|]. injection Hm as _ <-.
  assert (Hgood : ∀ s4, updated s4
                        = <[FAMILY_PROXIES :=
                             Dict (setdefault_then id ∅
                                     (λ m, MergeFrom m
                                        (family_delta ext id
                                           (clock ext (clock_reads s1))
                                           fp_updated fp_data tp_updated
                                           tp_data fam_node)) fp_updated)]>
                            (updated s1) →
                        updated_nonneg s4).
  { intros s4 Hu fpu. rewrite Hu, lookup_insert_eq. intros [= <-].
    unfold setdefault_then. apply map_Forall_insert_2; [|by apply Hs].
    apply counts_nonneg_merge.
    - destruct (fp_updated !! id) as [old|] eqn:Hold; [|apply counts_nonneg_empty].
      by apply (Hs _ Hfpu id old).
    - intros st n Hl. apply family_delta_positive in Hl. lia. }
  bind_case Hrun as u2 s4 Hm; [discriminate|]. injection Hm as _ <-.
  bind_case Hrun as u3 s5 Hm.
  { destruct (decide _); discriminate. }
  assert (Hu5 : updated s5
                = <[FAMILY_PROXIES :=
                     Dict (setdefault_then id ∅
                             (λ m, MergeFrom m
                                (family_delta ext id
                                   (clock ext (clock_reads s1))
                                   fp_updated fp_data tp_updated
                                   tp_data fam_node)) fp_updated)]>
                    (updated s1)).
  { destruct (decide _); by injection Hm as _ <-. }
  clear Hm. unfold set_remove in Hrun.
  bind_case Hrun as s6 s7 Hm'; [discriminate|]. injection Hm' as <- <-.
  destruct (decide _); injection Hrun as _ <-; by apply Hgood.
Qed.

Lemma ascent_loop_nonneg (fuel : nat) (l : list string) s r s' :
  for_ l (_family_ascent_point_update ext fuel) s = (r, s') →
  updated_nonneg s → updated_nonneg s'.
Proof.
  revert s. induction l as [|c l IHl]; intros s Hl H0.
  - by injection Hl as _ <-.
  - rewrite for_cons in Hl. change (bind ?m ?k) with (m ≫= k) in Hl.
    bind_case Hl as u s2 Hm; [by apply ascent_nonneg in Hm|].
    apply ascent_nonneg in Hm; [|done]. by apply IHl in Hl.
Qed.

End AscentCounts.


Section FlaggedFamily.

Variable ext : Collaborators.
Variable rank : string → nat.
Variable top : nat.
Variables fp_data fp_added tp_data tp_updated : gmap string Msg.

Hypothesis Hranked : ranked rank top fp_data fp_added.

(** The loop over the child families that were not visited: it ends
    without an exception, and a flagged family that is not below the family
    stays flagged. *)
Lemma ascent_children (fuel : nat) (id : string) :
  ∀ (l : list string) (s0 : Mgr),
    (∀ c, c ∈ l → is_Some (node_of fp_data fp_added c)
                  ∧ (rank c < rank id)%nat) →
    (rank id ≤ fuel)%nat →
    settled fp_data fp_added tp_data tp_updated s0 →
    ∃ s1, for_ l (_family_ascent_point_update ext fuel) s0 = (inr tt, s1)
      ∧ settled fp_data fp_added tp_data tp_updated s1
      ∧ climbs rank top s0 s1
      ∧ (∀ f, f ∈ state_update_families s0 → (rank id ≤ rank f)%nat →
              f ∈ state_update_families s1).
Proof.
  induction l as [|c l IHl]; intros s0 Hl Hfuel Hs0.
  - exists s0. split; [done|]. split; [done|]. split; [apply climbs_refl|].
    done.
  - destruct (Hl c) as [Hc Hrc]; [left|].
    destruct (ascent_climbs ext rank top fp_data fp_added tp_data tp_updated
                Hranked fuel c s0) as (s1 & Hrun1 & Hs1 & Hc1 & Hkeep1 & _);
      [lia|done|done|].
    destruct (IHl s1) as (s2 & Hrun2 & Hs2 & Hc2 & Hkeep2);
      [intros; apply Hl; by right|done|done|].
    exists s2. split.
    { rewrite for_cons. unfold bind. by rewrite Hrun1. }
    split; [done|]. split; [by eapply climbs_trans|].
    intros f Hf Hr. apply Hkeep2; [|done]. apply Hkeep1; [done|lia].
Qed.

End FlaggedFamily.

(** C4 (as amended).  A family flagged for rollup, on family proxies that
    form a forest and hold no negative count in their [state_totals].  The
    method first sees to the child families that were not visited (they are
    rolled up if they are flagged), then merges into
    [updated[family_proxies]] a delta whose [state_totals] adds up the state
    totals of the child families (each seen through [updated] when it is
    there, through the store otherwise) and counts each set state of a
    child task; whose [is_held_total] adds up the hold totals of the child
    families and counts the held child tasks; whose [is_held] tells whether
    that total is positive, and is set also when it is not; whose [state] is
    the group state of its [states]; and whose [states] lists each
    occurring state once, in the order in which the states are first met:
    those of the child families in turn (the items of [state_totals] in the
    order in which the map yields them), then those of the child tasks.
    The entry of the family in [updated[family_proxies]] takes the hold
    values of the delta, and no count of the buffer is negative
    afterwards. *)
Theorem family_ascent_point_update_delta
    (ext : Collaborators) (rank : string → nat) (top fuel : nat)
    (fp_id : string) (s : Mgr)
    (fp_data fp_added tp_data tp_updated fp_updated0 : gmap string Msg)
    (fam_node : Msg) :
  ranked rank top fp_data fp_added →
  settled fp_data fp_added tp_data tp_updated s →
  node_of fp_data fp_added fp_id = Some fam_node →
  (rank fp_id < S fuel)%nat →
  fp_id ∈ state_update_families s →
  updated s !! FAMILY_PROXIES = Some (Dict fp_updated0) →
  totals_nonneg fp_data →
  totals_nonneg fp_updated0 →
  ∃ (s1 s' : Mgr) (fp_updated : gmap string Msg),
    let family_views :=
      omap (latest_view fp_updated fp_data)
        (get_rep "child_families" fam_node) in
    let task_views :=
      omap (latest_view tp_updated tp_data) (get_rep "child_tasks" fam_node) in
    let total (st : string) : Z :=
      Zsum ((λ child, default 0 (get_map "state_totals" child !! st))
              <$> family_views)
      + (if decide (st = "") then 0
         else Z.of_nat (length (filter (λ tp, get_str "state" tp = st)
                                  task_views))) in
    let held : Z :=
      Zsum (get_num "is_held_total" <$> family_views)
      + Z.of_nat (length (filter (λ tp, get_bool "is_held" tp = true)
                            task_views)) in
    let met : list string :=
      concat (positive_states <$> family_views)
      ++ filter (λ st, st ≠ "") (get_str "state" <$> task_views) in
    let fp_delta :=
      family_delta ext fp_id (clock ext (clock_reads s1)) fp_updated fp_data
        tp_updated tp_data fam_node in
    let entry := MergeFrom (default ∅ (fp_updated !! fp_id)) fp_delta in
    for_ (filter (λ n_id, n_id ∉ updated_state_families s)
            (get_rep "child_families" fam_node))
      (_family_ascent_point_update ext fuel) s = (inr tt, s1)
    ∧ updated s1 !! FAMILY_PROXIES = Some (Dict fp_updated)
    ∧ totals_nonneg fp_updated
    ∧ _family_ascent_point_update ext (S fuel) fp_id s = (inr tt, s')
    ∧ updated s' !! FAMILY_PROXIES
      = Some (Dict (<[fp_id := entry]> fp_updated))
    ∧ fp_id ∈ updated_state_families s'
    ∧ (fp_id ∉ state_update_families s')
    ∧ (∀ st, get_map "state_totals" fp_delta !! st
             = if decide (0 < total st) then Some (total st) else None)
    ∧ get_num "is_held_total" fp_delta = held
    ∧ get_bool "is_held" fp_delta = bool_decide (0 < held)
    ∧ fp_delta !! "is_held_total" = Some (FNum held)
    ∧ fp_delta !! "is_held" = Some (FBool (bool_decide (0 < held)))
    ∧ get_str "state" fp_delta
      = extract_group_state ext (get_rep "states" fp_delta)
    ∧ get_rep "states" fp_delta = first_met met
    ∧ NoDup (get_rep "states" fp_delta)
    ∧ (∀ st, st ∈ get_rep "states" fp_delta ↔ 0 < total st)
    ∧ get_num "is_held_total" entry = held
    ∧ get_bool "is_held" entry = bool_decide (0 < held)
    ∧ totals_nonneg (<[fp_id := entry]> fp_updated).
Proof.
  intros Hranked Hs Hnode Hfuel Hflag Hfpu0 Hdata_nn Hupd_nn.
  pose proof Hs as (Hfpd & Hfpa & _).
  destruct (ascent_children ext rank top fp_data fp_added tp_data tp_updated
              Hranked fuel fp_id
              (filter (λ n_id, n_id ∉ updated_state_families s)
                 (get_rep "child_families" fam_node)) s)
    as (s1 & Hrun1 & Hs1 & _ & Hkeep1).
  { intros c [_ Hc]%list_elem_of_filter.
    by apply (proj1 Hranked fp_id fam_node). }
  { lia. }
  { exact Hs. }
  destruct Hs1 as (Hfpd1 & Hfpa1 & Htpd1 & Htpu1 & [fpu1 Hfpu1] & _).
  assert (Hin1 : fp_id ∈ state_update_families s1) by (by apply Hkeep1).
  assert (Hnn1 : totals_nonneg fpu1).
  { apply (ascent_loop_nonneg ext _ _ _ _ _ Hrun1); [|done].
    intros fpu Hfpu. rewrite Hfpu0 in Hfpu. by injection Hfpu as <-. }
  exists s1. eexists. exists fpu1. cbv zeta.
  set (fp_delta := family_delta ext fp_id (clock ext (clock_reads s1)) fpu1
                     fp_data tp_updated tp_data fam_node).
  set (entry := MergeFrom (default ∅ (fpu1 !! fp_id)) fp_delta).
  destruct (family_delta_rollup ext fp_id (clock ext (clock_reads s1)) fpu1
              fp_data tp_updated tp_data fam_node)
    as (Htotals & Hheld & Hisheld & Hpheld & Hpisheld & Hstate & Horder & Hnd
        & Hmem).
  { intros child Hchild. apply list_elem_of_omap in Hchild as (c & _ & Hview).
    unfold latest_view in Hview.
    destruct (fpu1 !! c) as [m|] eqn:Hc; simpl in Hview.
    - injection Hview as <-. by apply (Hnn1 c).
    - by apply (Hdata_nn c). }
  fold fp_delta in Htotals, Hheld, Hisheld, Hpheld, Hpisheld, Hstate, Horder,
    Hnd, Hmem.
  assert (Hentry : entry !! "is_held_total" = Some (FNum (get_num "is_held_total" fp_delta))
                   ∧ entry !! "is_held"
                     = Some (FBool (get_bool "is_held" fp_delta))).
  { unfold entry. rewrite !MergeFrom_lookup, Hpheld, Hpisheld, Hheld, Hisheld.
    split.
    - by destruct (default ∅ (fpu1 !! fp_id) !! "is_held_total") as [[]|].
    - by destruct (default ∅ (fpu1 !! fp_id) !! "is_held") as [[]|]. }
  split; [exact Hrun1|]. split; [exact Hfpu1|]. split; [exact Hnn1|].
  split.
  { cbn [_family_ascent_point_update].
    run_step reflexivity.
    run_step (by apply run_the_dict).
    run_step (by apply run_the_dict).
    run_step (by apply (run_fam_node fp_data fp_added)).
    run_step (exact Hrun1).
    run_step reflexivity.
    rewrite decide_True by done.
    run_step (by apply run_the_dict).
    run_step (by apply run_the_dict).
    run_step (by apply run_the_dict).
    run_step (apply run_time).
    run_step reflexivity.
    run_step reflexivity.
    run_step (apply run_if_modify).
    unfold set_remove. run_step reflexivity.
    rewrite decide_True; [reflexivity|].
    destruct (decide (get_str "first_parent" fam_node ≠ "")); simpl; set_solver. }
  split.
  { destruct (decide (get_str "first_parent" fam_node ≠ "")); simpl;
      by rewrite lookup_insert_eq. }
  split.
  { destruct (decide (get_str "first_parent" fam_node ≠ "")); simpl; set_solver. }
  split.
  { destruct (decide (get_str "first_parent" fam_node ≠ "")); simpl; set_solver. }
  split; [exact Htotals|]. split; [exact Hheld|]. split; [exact Hisheld|].
  split; [exact Hpheld|]. split; [exact Hpisheld|]. split; [exact Hstate|].
  split; [exact Horder|]. split; [exact Hnd|]. split; [exact Hmem|].
  split.
  { unfold get_num at 1. rewrite (proj1 Hentry). exact Hheld. }
  split.
  { unfold get_bool at 1. rewrite (proj2 Hentry). exact Hisheld. }
  apply map_Forall_insert_2; [|exact Hnn1].
  apply counts_nonneg_merge.
  - destruct (fpu1 !! fp_id) as [old|] eqn:Hold; [|apply counts_nonneg_empty].
    by apply (Hnn1 fp_id old).
  - intros st n Hl. apply family_delta_positive in Hl. lia.
Qed.


(** The sample of the rollup before any family was visited: the root family
    and the family [F] are flagged. *)
Definition sample_unvisited : Mgr :=
  set_updated_state_families (λ _, ∅)
    (set_state_update_families (λ _, {["u|w|1|root"; "u|w|1|F"]})
       sample_rollup).

(** ... and after the child families of the root family were seen to. *)
Definition sample_children_rolled : Mgr :=
  Eval vm_compute in
    (for_ ["u|w|1|F"] (_family_ascent_point_update (sample_ext false) 1)
       sample_unvisited).2.

Lemma family_ascent_point_update_delta_witness :
  let s := sample_unvisited in
  ranked sample_rank 1 sample_families ∅
  ∧ settled sample_families ∅ (sample_dict (data s) TASK_PROXIES)
      (sample_dict (updated s) TASK_PROXIES) s
  ∧ node_of sample_families ∅ "u|w|1|root" = Some sample_family_root
  ∧ (sample_rank "u|w|1|root" < 2)%nat
  ∧ "u|w|1|root" ∈ state_update_families s
  ∧ updated s !! FAMILY_PROXIES
    = Some (Dict (sample_dict (updated s) FAMILY_PROXIES))
  ∧ totals_nonneg sample_families
  ∧ totals_nonneg (sample_dict (updated s) FAMILY_PROXIES)
  ∧ get_num "is_held_total"
      <$> sample_dict (updated s) FAMILY_PROXIES !! "u|w|1|F" = Some 1
  ∧ ∃ (s' : Mgr) (fp_updated : gmap string Msg) (fp_delta : Msg),
      for_ ["u|w|1|F"] (_family_ascent_point_update (sample_ext false) 1) s
      = (inr tt, sample_children_rolled)
      ∧ updated sample_children_rolled !! FAMILY_PROXIES
        = Some (Dict fp_updated)
      ∧ get_num "is_held_total" <$> fp_updated !! "u|w|1|F" = Some 0
      ∧ get_bool "is_held" <$> fp_updated !! "u|w|1|F" = Some false
      ∧ _family_ascent_point_update (sample_ext false) 2 "u|w|1|root" s
        = (inr tt, s')
      ∧ updated s' !! FAMILY_PROXIES
        = Some (Dict (<["u|w|1|root" := MergeFrom ∅ fp_delta]> fp_updated))
      ∧ get_map "state_totals" fp_delta !! "succeeded" = Some 2
      ∧ get_map "state_totals" fp_delta !! "running" = Some 1
      ∧ get_map "state_totals" fp_delta !! "failed" = Some 1
      ∧ get_map "state_totals" fp_delta !! "waiting" = None
      ∧ fp_delta !! "is_held_total" = Some (FNum 1)
      ∧ fp_delta !! "is_held" = Some (FBool true)
      ∧ get_rep "states" fp_delta = ["succeeded"; "running"; "failed"].
Proof.
  intros s.
  assert (H2 : settled sample_families ∅ (sample_dict (data s) TASK_PROXIES)
                 (sample_dict (updated s) TASK_PROXIES) s).
  { split; [vm_compute; reflexivity|]. split; [vm_compute; reflexivity|].
    split; [vm_compute; reflexivity|]. split; [vm_compute; reflexivity|].
    split; [exists (sample_dict (updated s) FAMILY_PROXIES);
            vm_compute; reflexivity|].
    intros f Hf.
    change (state_update_families s)
      with ({["u|w|1|root"; "u|w|1|F"]} : gset string) in Hf.
    apply elem_of_union in Hf as [Hf|Hf]; apply elem_of_singleton in Hf as ->;
      by eexists. }
  assert (H3 : node_of sample_families ∅ "u|w|1|root" = Some sample_family_root)
    by (vm_compute; reflexivity).
  assert (H4 : (sample_rank "u|w|1|root" < 2)%nat) by (vm_compute; lia).
  assert (H5 : "u|w|1|root" ∈ state_update_families s).
  { change (state_update_families s)
      with ({["u|w|1|root"; "u|w|1|F"]} : gset string). set_solver. }
  assert (H6 : updated s !! FAMILY_PROXIES
               = Some (Dict (sample_dict (updated s) FAMILY_PROXIES)))
    by (vm_compute; reflexivity).
  assert (H7 : totals_nonneg sample_families)
    by (apply (bool_decide_unpack _); vm_compute; exact I).
  assert (H8 : totals_nonneg (sample_dict (updated s) FAMILY_PROXIES))
    by (apply (bool_decide_unpack _); vm_compute; exact I).
  split; [exact sample_families_ranked|]. split; [exact H2|].
  split; [exact H3|]. split; [exact H4|]. split; [exact H5|].
  split; [exact H6|]. split; [exact H7|]. split; [exact H8|].
  split; [vm_compute; reflexivity|].
  destruct (family_ascent_point_update_delta (sample_ext false) sample_rank 1 1
              "u|w|1|root" s sample_families ∅ _ _ _ sample_family_root
              sample_families_ranked H2 H3 H4 H5 H6 H7 H8)
    as (s1 & s' & fp_updated & Hrun1 & Hfpu & _ & Hrun & Hentry & _ & _
        & Htotals & _ & _ & Hheld & Hisheld & _ & Hstates & _).
  assert (Hc : for_ ["u|w|1|F"]
                 (_family_ascent_point_update (sample_ext false) 1) s
               = (inr tt, sample_children_rolled))
    by (vm_compute; reflexivity).
  assert (Hs1 : s1 = sample_children_rolled).
  { exact (f_equal snd (eq_trans (eq_sym Hrun1) Hc)). }
  subst s1.
  assert (Hu : updated sample_children_rolled !! FAMILY_PROXIES
               = Some (Dict (sample_dict (updated sample_children_rolled)
                               FAMILY_PROXIES)))
    by (vm_compute; reflexivity).
  assert (Hfp : fp_updated = sample_dict (updated sample_children_rolled)
                               FAMILY_PROXIES).
  { rewrite Hu in Hfpu. by injection Hfpu. }
  subst fp_updated.
  exists s'. eexists. eexists.
  split; [exact Hc|]. split; [exact Hu|].
  split; [vm_compute; reflexivity|]. split; [vm_compute; reflexivity|].
  split; [exact Hrun|]. split; [exact Hentry|].
  rewrite !Htotals, Hheld, Hisheld, Hstates.
  repeat split; vm_compute; reflexivity.
Defined.


(** A root family with the child task [a], which is running, and the child
    family [F]; the root family is flagged, the buffers are empty. *)
Definition sample_family_store (root_families : list string) (F : Msg) : Mgr :=
  mkMgr "u|w" ∅
    (<[FAMILY_PROXIES := Dict (list_to_map
         [ ("u|w|1|root",
            list_to_map
              [ ("id", FStr "u|w|1|root"); ("name", FStr "root");
                ("child_tasks", FRep ["u|w|1|a"]);
                ("child_families", FRep root_families) ]);
           ("u|w|1|F", F) ])]>
       (<[TASK_PROXIES := Dict (list_to_map
            [ ("u|w|1|a",
               list_to_map [ ("id", FStr "u|w|1|a"); ("state", FStr "running") ])
            ])]> DATA_TEMPLATE))
    DATA_TEMPLATE DATA_TEMPLATE initial_deltas None None {["u|w|1|root"]} ∅
    false (mkJobPool empty_kind_deltas ∅ ∅ false) 0 [].

(** The family [F] holds a negative count. *)
Definition sample_negative : Mgr :=
  sample_family_store ["u|w|1|F"]
    (list_to_map
       [ ("id", FStr "u|w|1|F"); ("name", FStr "F");
         ("first_parent", FStr "u|w|1|root");
         ("state_totals", FMap {["running" := -1]}) ]).

(** The root family names a child family that is no family proxy. *)
Definition sample_orphan : Mgr :=
  sample_family_store ["u|w|1|G"]
    (list_to_map [ ("id", FStr "u|w|1|F"); ("name", FStr "F") ]).

(** The family [F] is a child family of itself. *)
Definition sample_cyclic : Mgr :=
  sample_family_store ["u|w|1|F"]
    (list_to_map
       [ ("id", FStr "u|w|1|F"); ("name", FStr "F");
         ("child_families", FRep ["u|w|1|F"]) ]).

(** C4 does not hold as it is stated.  The [states] of the delta are in the
    order in which the counter met them, not sorted.  A negative count of a
    child family is dropped, not added: the running task under a family
    that holds the count -1 for [running] gives the total 1, not 0.  A child
    family that is no family proxy ends the method with a [KeyError], and
    on families that do not form a forest the recursion does not end. *)
Lemma family_ascent_rollup_departs :
  ((_family_ascent_point_update (sample_ext false) 1 "u|w|1|root"
      sample_rollup).1 = inr tt
   ∧ updated sample_rolled !! FAMILY_PROXIES
     = Some (Dict (sample_dict (updated sample_rolled) FAMILY_PROXIES))
   ∧ sample_dict (updated sample_rolled) FAMILY_PROXIES !! "u|w|1|root"
     = Some sample_root_update
   ∧ get_rep "states" sample_root_update = ["succeeded"; "running"; "failed"]
   ∧ sorted (get_rep "states" sample_root_update)
     = ["failed"; "running"; "succeeded"])
  ∧ (let r := _family_ascent_point_update (sample_ext false) 2 "u|w|1|root"
                sample_negative in
     "u|w|1|root" ∈ state_update_families sample_negative
     ∧ r.1 = inr tt
     ∧ (get_map "state_totals"
          <$> sample_dict (data sample_negative) FAMILY_PROXIES !! "u|w|1|F")
       = Some {["running" := -1]}
     ∧ (get_str "state"
          <$> sample_dict (data sample_negative) TASK_PROXIES !! "u|w|1|a")
       = Some "running"
     ∧ (get_map "state_totals"
          <$> sample_dict (updated r.2) FAMILY_PROXIES !! "u|w|1|root")
       = Some {["running" := 1]})
  ∧ (let r := _family_ascent_point_update (sample_ext false) 2 "u|w|1|root"
                sample_orphan in
     "u|w|1|root" ∈ state_update_families sample_orphan
     ∧ r.1 = inl (KeyError "u|w|1|G")
     ∧ sample_dict (updated r.2) FAMILY_PROXIES !! "u|w|1|root" = None)
  ∧ (∀ fuel : nat,
       _family_ascent_point_update (sample_ext false) fuel "u|w|1|root"
         sample_cyclic = (inl RecursionError, sample_cyclic)).
Proof.
  split; [repeat split; vm_compute; reflexivity|].
  split; [repeat split; vm_compute; reflexivity|].
  split; [repeat split; vm_compute; reflexivity|].
  assert (HF : ∀ fuel : nat,
             _family_ascent_point_update (sample_ext false) fuel "u|w|1|F"
               sample_cyclic = (inl RecursionError, sample_cyclic)).
  { induction fuel as [|fuel IH]; [reflexivity|].
    cbn [_family_ascent_point_update].
    run_step reflexivity.
    run_step (apply run_the_dict; reflexivity).
    run_step (apply run_the_dict; reflexivity).
    run_step reflexivity.
    apply run_bind_raise.
    assert (Hfor : ∀ l, l = ["u|w|1|F"] →
              for_ l (_family_ascent_point_update (sample_ext false) fuel)
                sample_cyclic = (inl RecursionError, sample_cyclic)).
    { intros l ->. rewrite for_cons. unfold bind. by rewrite IH. }
    apply Hfor. vm_compute. reflexivity. }
  intros [|fuel]; [reflexivity|].
  cbn [_family_ascent_point_update].
  run_step reflexivity.
  run_step (apply run_the_dict; reflexivity).
  run_step (apply run_the_dict; reflexivity).
  run_step reflexivity.
  apply run_bind_raise.
  assert (Hfor : ∀ l, l = ["u|w|1|F"] →
            for_ l (_family_ascent_point_update (sample_ext false) fuel)
              sample_cyclic = (inl RecursionError, sample_cyclic)).
  { intros l ->. rewrite for_cons. unfold bind. by rewrite HF. }
  apply Hfor. vm_compute. reflexivity.
Qed.
